(* ===== verification/_CoqProject ===== *)
-Q . S2P
Prelude.v
Errors.v
Bytes.v
Page.v
HashTbl.v
Unix.v
Store.v
File.v
BufMgr.v
Pool.v
Db.v
Match.v
CLib.v
HeapFile.v
Catalog.v
Query.v
Program.v
HeapView.v
HeapScan.v
HeapOpen.v
HeapWrite.v
HeapInsert.v
HeapDelete.v
HeapCreate.v
HeapSession.v
Crew.v
HeapFileProps.v
CatView.v
CatRel.v
CatAttr.v
CatCreate.v
Foreign.v
CatDestroy.v
Boot.v
CatProps.v
BootProps.v
QueryDelete.v
QueryInsert.v
QueryScan.v
QuerySelect.v
QueryJoin.v
JoinHT.v
Format.v
Print.v
Load.v
Dbdestroy.v
Gen.v
Sort.v
Partition.v
Parse.v
Scan.v
Nodes.v
Interp.v
QueryDemo.v
QueryProps.v
PrintProps.v
LoadProps.v
SortProps.v
SortMark.v
InterpProps.v
InterpInsert.v
GenProps.v
