(* ===== verification/Prelude.v ===== *)
(** * Minirel: a model of a small relational engine and its correctness

    The program (src/Minirel Project) is a single-user relational database in
    layers, each used only through the one above it:

    - Unix files of 1024-byte pages (class [File], db.C), a table of the open
      ones (class [OpenFileHashTbl]) and the class [DB] (db.C);
    - a buffer pool with a hash table and the clock algorithm (buf.C, bufHash.C);
    - slotted pages of variable-length records (page.C);
    - heap files: a header page and a linked list of slotted pages, with
      scans, deletion and insertion (heapfile.C);
    - two catalogs, themselves heap files (catalog.C, create.C, destroy.C);
    - queries: insert, delete, select, join (insert.C, delete.C, select.C,
      join.C), bulk load (load.C), printing (print.C, help.C);
    - the front end: helpers of the scanner (parser/scanhelp.C), the parse tree
      (parser/nodes.C) and the interpreter of statements (parser/interp.C);
    - the programs dbcreate, dbdestroy and minirel;
    - beside them, for the join methods that are still stubs: external sort
      (sort.C), partitioning (partition.C) and a hash table (joinHT.C);
    - programs that write sample files for the bulk load (data/).

    ** Conventions

    A member function becomes a function from the state it can reach to
    [option (result * state)]: [None] stands for undefined behaviour (an access
    outside a page or array, an uninitialised member, a freed object), [Err st]
    for a returned error status, [Ok a] for [OK] with the output parameters
    ([CODE], with [let!], [;;;], [throw], [attempt], in this file).  Pages and
    structs are their bytes (Bytes.v); [short] and [int] are read from and
    written to them with the width of the machine; pointers to frames and
    [File] objects are integers.  Signed arithmetic that overflows, which C++
    leaves undefined, wraps around, as the machine does; theorems on
    comparisons by difference say when there is no overflow.  What the memory
    of a deleted object holds is a parameter ([freed]) about which nothing is
    assumed.  Assignments that C++ makes through reference
    parameters before an error return appear in the same order as in the code.

    ** Files

    - Prelude.v: machine integers, lists by index ([zget], [zset]), the
      monad and its tactics.  Bytes.v: reading and writing bytes.
      Errors.v: [Status] and its messages (error.h, error.C).
    - Page.v: class [Page] (page.C).  [contents] abstracts a page to a list of
      optional records.
    - HashTbl.v: the two chained hash tables (bufHash.C; db.C).
    - Unix.v: directory, inodes and descriptors with the system calls the
      engine makes; a [write] at the size limit is short.  Store.v: the interface [PageStore] the buffer manager has
      to its files, with the laws [PageStoreLaws].
    - File.v: class [File] (db.C), which implements that interface.
    - BufMgr.v: class [BufMgr] (buf.C) over any [PageStore], its invariant
      [pool_inv] and the contents [logical] its clients see.
      Pool.v: its properties.
    - Db.v: [File::close] and class [DB] (db.C); [World] is the whole state of
      the storage layers, [world_ok] its invariant, [named_page] what a
      client sees of a file by name.  The directory may also have files of
      other programs, with any contents.
    - Match.v: the predicate of scans (heapfile.C, [matchRec]), with IEEE
      single precision for [float].  CLib.v: [strcmp], [atoi], [atof], ...
      Format.v: the conversions of [printf].
    - HeapFile.v: heapfile.C.  Proofs: HeapView.v (the storage layers as heap
      files see them), HeapScan.v ([scanNext]), HeapOpen.v (constructors and
      destructors), HeapWrite.v (writes to the pages of an open file),
      HeapInsert.v, HeapDelete.v, HeapCreate.v, HeapSession.v (whole
      sessions), Crew.v (several files open at once), HeapFileProps.v
      (properties).
    - Catalog.v: catalog.C, create.C, destroy.C.  Proofs: CatView.v (names and
      tuples as bytes), CatRel.v (relcat as a map), CatAttr.v (attrcat as a
      list), CatCreate.v, CatDestroy.v, CatProps.v (properties).
      Foreign.v: the code of all layers so far leaves a file that another
      program has written as it is.
    - Query.v: insert.C, delete.C, select.C, join.C.  Proofs: QueryDelete.v,
      QueryInsert.v, QueryScan.v (a scan while another file is open),
      QuerySelect.v, QueryJoin.v, QueryProps.v (properties).  QueryDemo.v:
      concrete databases for the witnesses.
    - Load.v: load.C.  LoadProps.v: properties.  Gen.v: the data generators
      (data/genWITuples.cpp, create.c, create_9.c) and testdata.c, which lists
      their records, with [rand] as a parameter.  GenProps.v: properties.
    - Print.v: print.C and help.C, with the characters they write.
      PrintProps.v: properties.
    - Program.v: the programs (dbcreate.C, minirel.C, quit.C), with the loop of
      the parser as a parameter.  Proofs: Boot.v, BootProps.v (properties).
      Dbdestroy.v: dbdestroy.C.
    - JoinHT.v: joinHT.C and [matchRec] of join.C.  Sort.v: sort.C, with
      [qsort] as a parameter; SortProps.v, SortMark.v: properties.
      Partition.v: partition.C, with the hash function of the caller as a
      parameter.
    - Parse.v: nodes, tokens and the state of the front end (parser/parse.h,
      parser/y.tab.h).  Scan.v: parser/scanhelp.C.  Nodes.v: parser/nodes.C and
      the actions of the grammar for select and insert.  Interp.v:
      parser/interp.C.  InterpProps.v, InterpInsert.v: whole statements.

    ** What is proved

    - Pages: every sequence of operations on a page returns what the
      operations on a list of optional records return, deletion with its
      compaction included, and stays within the page; records, free space and
      slot array never overlap.
    - Tables: both hash tables are finite maps.
    - Files and buffers: allocation hands out unused pages, and a page that
      does not fit into the largest file leaves all others as they were; disposal and
      allocation are inverse; a disciplined client of the pool sees a plain
      memory of pages, whatever is evicted; flushing, closing and shutting down
      make everything durable; the clock finds a frame exactly when one is
      unpinned, within two rounds.
    - Heap files: a scan returns exactly the matching records, in order, and
      terminates; insertions are found by later scans; a session gives back
      the pins, frames and descriptors it took.
    - Catalogs: relcat is a finite map from names to numbers of attributes and
      attrcat a list of tuples; creating and destroying a relation enters and
      removes exactly its entries and its file.  [removeInfo] calls [endScan]
      on a scan it has deleted: the theorems on it and on [destroyRel] describe
      the state at that call and what follows if it returns.
    - Queries: a deletion removes exactly the tuples that satisfy its
      condition, an insertion stores each value at the offset of its
      attribute, a selection adds exactly the projections of the matching
      tuples, the nested-loops join equals the theta join as multisets, and
      printing writes one line per tuple.  A bulk load adds exactly the full
      records of its file, or a part of them when an insertion fails.
    - Data generators: genWITuples writes every integer of its range once, as
      the records that a bulk load finds, up to the size limit; what create_9 writes, testdata lists.
    - Programs: dbcreate leaves a database on which minirel starts, in a state
      that meets the hypotheses of the query theorems; what a session that
      left no scan open leaves at its end is what the next one finds.
    - Front end: names and reserved words are told apart in any case and kept
      in the pool of characters; the parser's treatment of aliases refines
      name resolution on abstract queries; delete and insert statements do on
      the files what their parse trees say.
    - Join methods: the hash table is a multimap from attribute values to
      record ids; merging sorted runs gives the sorted permutation of all
      their records, and [gotoMark] brings back the position of [setMark].
    - Errors: the statuses of creating and destroying files, and the cases in
      which the code loses data or leaves defined behaviour, each as a theorem
      on a concrete run or a whole class of states.

    ** Fuel

    Loops that the data bounds recurse on the data (slots of a page, frames of
    the pool, buckets).  The loops of a scan over the chain of pages take fuel;
    the theorems give a bound (records plus pages of the file) above which the
    result is reached.  Loops of the query layer and of the sort that make one
    call of [scanNext] per round take a second bound [n], above the number of
    records.  Loops over the nodes of a list recurse on [MAXATTRS], as in the
    code, or take fuel above the length of the list.  The clock needs no fuel
    beyond the [2 * numBufs] of the code.

    ** Not modelled

    A full or broken medium ([ENOSPC], [EIO]): [open] fails for want of
    descriptors and [write] at the size limit, the other calls when the code
    misuses them.  The automata that lex and yacc generate, and the actions of the grammar
    other than those of select and insert; debug output ([printSelf],
    [dumpPage], [listFree]) and the traces that the query layer writes to the
    console; the texts of [perror], and failing calls of stdio in create.c,
    create_9.c and testdata.c (uttestdata/create.c is a copy of data/create.c).
    The names of the files of sorted runs and of partitions contain the null
    character of [ends]; the directory of Unix.v compares such names as a
    whole, where Unix stops at that character. *)

From Stdlib Require Export ZArith Lia.
From stdpp Require Export prelude list gmap strings numbers option.

#[global] Open Scope Z_scope.

(** [last] is the partial one of lists. *)
Abbreviation last := list.last.

(** Notations of the development live in a scope of their own. *)
Declare Scope minirel_scope.
Delimit Scope minirel_scope with minirel.
#[global] Open Scope minirel_scope.

(** ** Hint databases *)

(** [minirel]: the lemmas [auto]/[eauto] may apply to close side conditions;
    [mrw]: the rewrite rules that normalise block and array accesses. *)
Create HintDb minirel.
Create HintDb mrw.

(** ** Machine integers

    A [w]-bit signed integer is a [Z] kept in range by [wrapS]; the source is
    compiled with [short] = 16, [int] = 32 and [long] = 64 bits. *)

Section Integers.

Definition wrapU (w z : Z) : Z := z mod 2 ^ w.
Definition wrapS (w z : Z) : Z := (z + 2 ^ (w - 1)) mod 2 ^ w - 2 ^ (w - 1).
Definition inS (w z : Z) : Prop := - 2 ^ (w - 1) <= z < 2 ^ (w - 1).

#[global] Instance inS_dec w z : Decision (inS w z).
Proof. unfold inS. apply _. Defined.

Lemma pow2_half w : 0 < w -> 2 ^ w = 2 * 2 ^ (w - 1).
Proof. intros. rewrite <- Z.pow_succ_r by lia. f_equal. lia. Qed.

Lemma wrapS_range w z : 0 < w -> inS w (wrapS w z).
Proof.
  intros Hw. unfold inS, wrapS. pose proof (pow2_half w Hw) as Hp.
  assert (0 < 2 ^ (w - 1)) by (apply Z.pow_pos_nonneg; lia).
  pose proof (Z.mod_pos_bound (z + 2 ^ (w - 1)) (2 ^ w)). lia.
Qed.

Lemma wrapS_id w z : 0 < w -> inS w z -> wrapS w z = z.
Proof.
  intros Hw Hz. unfold inS, wrapS in *. pose proof (pow2_half w Hw).
  rewrite Z.mod_small; lia.
Qed.

Lemma wrapS_wrapU w z : 0 < w -> wrapS w (z mod 2 ^ w) = wrapS w z.
Proof.
  intros. unfold wrapS. f_equal.
  rewrite Zplus_mod_idemp_l. reflexivity.
Qed.

(** Signed wrap-around keeps the residue, so it is injective on residues. *)
Lemma wrapS_mod w z : 0 < w -> (wrapS w z) mod 2 ^ w = z mod 2 ^ w.
Proof.
  intros. unfold wrapS. rewrite Zminus_mod_idemp_l. f_equal. lia.
Qed.

Lemma wrapS_add w z k : wrapS w (wrapS w z + k) = wrapS w (z + k).
Proof.
  unfold wrapS. f_equal.
  replace ((z + 2 ^ (w - 1)) mod 2 ^ w - 2 ^ (w - 1) + k + 2 ^ (w - 1)) with ((z + 2 ^ (w - 1)) mod 2 ^ w + k) by lia.
  rewrite Zplus_mod_idemp_l. f_equal. lia.
Qed.

End Integers.

Abbreviation s16 := (wrapS 16).
Abbreviation s32 := (wrapS 32).
Abbreviation s64 := (wrapS 64).
Abbreviation u32 := (wrapU 32).

(** ** Arrays indexed by machine integers

    A C array access with an [int] index: [None] is an access outside the
    array, which the source leaves undefined. *)

Section Arrays.
Context {A : Type}.
Implicit Types (l : list A) (i j : Z) (x y : A).

Definition zget l i : option A :=
  if decide (0 <= i) then l !! Z.to_nat i else None.

Definition zset l i x : option (list A) :=
  if decide (0 <= i < Z.of_nat (length l)) then Some (<[Z.to_nat i := x]> l) else None.

Lemma zget_Some l i x :
  zget l i = Some x <-> 0 <= i /\ l !! Z.to_nat i = Some x.
Proof. unfold zget. case_decide; split; intros; destruct_and?; (done || lia). Qed.

Lemma zget_range l i x : zget l i = Some x -> 0 <= i < Z.of_nat (length l).
Proof. intros [? H%lookup_lt_Some]%zget_Some. lia. Qed.

Lemma zget_is_Some l i : 0 <= i < Z.of_nat (length l) -> exists x, zget l i = Some x.
Proof.
  intros. destruct (lookup_lt_is_Some_2 l (Z.to_nat i)) as [x Hx]; [lia|].
  exists x. apply zget_Some. split; [lia|done].
Qed.

Lemma zget_of_nat l (k : nat) : zget l (Z.of_nat k) = l !! k.
Proof. unfold zget. rewrite decide_True by lia. by rewrite Nat2Z.id. Qed.

Lemma zset_Some l i x l' :
  zset l i x = Some l' <-> 0 <= i < Z.of_nat (length l) /\ l' = <[Z.to_nat i := x]> l.
Proof. unfold zset. case_decide; split; [by intros [= <-]|by intros [_ ->]|done|by intros []]. Qed.

Lemma zset_in_range l i x :
  0 <= i < Z.of_nat (length l) -> zset l i x = Some (<[Z.to_nat i := x]> l).
Proof. intros. by rewrite zset_Some. Qed.

Lemma zget_insert l i j x :
  0 <= i < Z.of_nat (length l) ->
  zget (<[Z.to_nat i := x]> l) j = if decide (i = j) then Some x else zget l j.
Proof.
  intros Hi. unfold zget. case_decide as Hj; [|case_decide; [lia|done]].
  case_decide as Hij; [subst; apply list_lookup_insert_eq; lia|].
  apply list_lookup_insert_ne. lia.
Qed.

Lemma zget_set l l' i j x :
  zset l i x = Some l' -> zget l' j = if decide (i = j) then Some x else zget l j.
Proof. intros [Hi ->]%zset_Some. by apply zget_insert. Qed.

Lemma zset_length l l' i x : zset l i x = Some l' -> length l' = length l.
Proof. intros [_ ->]%zset_Some. apply length_insert. Qed.

End Arrays.

#[export] Hint Resolve zget_range zset_length : minirel.

Lemma NoDup_fmap_inj {A B} (f : A -> B) (l : list A) x y :
  NoDup (f <$> l) -> x ∈ l -> y ∈ l -> f x = f y -> x = y.
Proof.
  intros Hnd [i Hi]%list_elem_of_lookup [j Hj]%list_elem_of_lookup Hf.
  assert (i = j) as ->; [|congruence].
  eapply NoDup_lookup; [done|rewrite list_lookup_fmap, Hi; done|].
  rewrite list_lookup_fmap, Hj. cbn. by rewrite Hf.
Qed.

(** ** Searching and trimming lists *)

Section Search.
Context {A : Type}.
Implicit Types (P : A -> bool) (l : list A).

(** The index of the first element that satisfies [P], or the length. *)
Fixpoint first_idx P l : nat :=
  match l with
  | [] => O
  | x :: l => if P x then O else S (first_idx P l)
  end.

(** Drop the trailing elements that satisfy [P]. *)
Fixpoint strip P l : list A :=
  match l with
  | [] => []
  | x :: l => match strip P l with
              | [] => if P x then [] else [x]
              | l' => x :: l'
              end
  end.

Lemma first_idx_le P l : (first_idx P l <= length l)%nat.
Proof. induction l as [|x l IH]; cbn; [lia|]. destruct (P x); lia. Qed.

Lemma first_idx_lt P l :
  (first_idx P l < length l)%nat ->
  exists x, l !! first_idx P l = Some x /\ P x = true.
Proof.
  induction l as [|x l IH]; cbn; [lia|]. destruct (P x) eqn:Hx; [eauto|].
  intros. apply IH. lia.
Qed.

Lemma first_idx_before P l k x :
  (k < first_idx P l)%nat -> l !! k = Some x -> P x = false.
Proof.
  revert k. induction l as [|y l IH]; cbn; [lia|]. intros [|k].
  - destruct (P y) eqn:Hy; [lia|]. naive_solver.
  - destruct (P y) eqn:Hy; [lia|]. intros. eapply IH; [|done]. lia.
Qed.

Lemma first_idx_all P l :
  first_idx P l = length l <-> forall x, x ∈ l -> P x = false.
Proof.
  induction l as [|y l IH]; cbn.
  - split; [intros _ x Hx; by apply not_elem_of_nil in Hx|done].
  - setoid_rewrite elem_of_cons. destruct (P y) eqn:Hy; split; try done.
    + intros H. rewrite H in Hy by auto. done.
    + intros H x [->|Hx]; [done|]. apply IH; [lia|done].
    + intros H. f_equal. apply IH. auto.
Qed.

Lemma strip_snoc P l x :
  strip P (l ++ [x]) = if P x then strip P l else l ++ [x].
Proof.
  induction l as [|y l IH]; [done|]. cbn. rewrite IH.
  destruct (P x); [done|]. by destruct l.
Qed.

Lemma strip_prefix P l : exists t, l = strip P l ++ t /\ Forall (fun x => P x = true) t.
Proof.
  induction l as [|x l IH] using rev_ind; [by exists []|]. rewrite strip_snoc.
  destruct IH as (t & Hl & Ht). destruct (P x) eqn:Hx.
  - exists (t ++ [x]). rewrite app_assoc, <- Hl. split; [done|].
    apply Forall_app_2; auto.
  - exists []. by rewrite app_nil_r.
Qed.

Lemma strip_last P l x : last (strip P l) = Some x -> P x = false.
Proof.
  induction l as [|y l IH] using rev_ind; [done|]. rewrite strip_snoc.
  destruct (P y) eqn:Hy; [done|]. rewrite last_snoc. naive_solver.
Qed.

Lemma strip_id P l : (forall x, last l = Some x -> P x = false) -> strip P l = l.
Proof.
  induction l as [|y l IH] using rev_ind; [done|]. intros H. rewrite strip_snoc.
  rewrite last_snoc in H. by rewrite H.
Qed.

End Search.

Lemma first_idx_fmap {A B} (f : A -> B) (P : B -> bool) (Q : A -> bool) (l : list A) :
  (forall x, x ∈ l -> P (f x) = Q x) -> first_idx P (f <$> l) = first_idx Q l.
Proof.
  induction l as [|x l IH]; [done|]. intros H. cbn.
  rewrite H by by left. destruct (Q x); [done|]. f_equal. apply IH. intros. apply H. by right.
Qed.

Lemma strip_fmap {A B} (f : A -> B) (P : B -> bool) (Q : A -> bool) (l : list A) :
  (forall x, x ∈ l -> P (f x) = Q x) -> strip P (f <$> l) = f <$> strip Q l.
Proof.
  induction l as [|x l IH] using rev_ind; [done|]. intros H.
  rewrite fmap_app. cbn [fmap list_fmap]. rewrite !strip_snoc.
  rewrite H by set_solver. destruct (Q x).
  - apply IH. set_solver.
  - by rewrite fmap_app.
Qed.

(** [List.filter] keeps the boolean tests of the code. *)
Lemma filter_none {A} (f : A -> bool) (l : list A) :
  (forall x, x ∈ l -> f x = false) -> List.filter f l = [].
Proof.
  induction l as [|x l IH]; [done|]. intros H. cbn. rewrite H by by left.
  apply IH. intros. apply H. by right.
Qed.

Lemma filter_all {A} (f : A -> bool) (l : list A) : (forall x, f x = true) -> List.filter f l = l.
Proof. intros H. induction l as [|x l IH]; [done|]. cbn. by rewrite H, IH. Qed.

Lemma sum_list_with_insert {A} (f : A -> nat) (l : list A) i x y :
  l !! i = Some x ->
  (sum_list_with f (<[i := y]> l) + f x = sum_list_with f l + f y)%nat.
Proof.
  intros Hi. pose proof (lookup_lt_Some _ _ _ Hi) as Hlt.
  rewrite <- (take_drop_middle l i x Hi) at 2. rewrite insert_take_drop by done.
  rewrite !sum_list_with_app. cbn. lia.
Qed.

Lemma sum_list_with_zero {A} (f : A -> nat) (l : list A) :
  Forall (fun x => f x = O) l -> sum_list_with f l = O.
Proof. induction 1; cbn; lia. Qed.

(** ** Results

    A function that returns a [Status] and, when it is [OK], fills its
    reference parameters: [Ok a] carries the outputs, [Err e] the status.  *)

Section Results.
Context {E : Type}.

Inductive res (A : Type) : Type :=
| Ok (a : A)
| Err (e : E).

End Results.
Arguments res E A : clear implicits.
Arguments Ok {E A} a.
Arguments Err {E A} e.

#[export] Instance res_eq_dec {E A} `{EqDecision E, EqDecision A} : EqDecision (res E A).
Proof. solve_decision. Defined.

(** ** Stateful code

    [ST E S A]: code that reads and writes a state [S], may return early with
    a status [E] (keeping the state changes made so far, as C++ does) and may
    run into undefined behaviour ([None]). *)

Definition ST (E S A : Type) : Type := S -> option (res E A * S).

Section StateMonad.
Context {E S : Type}.

Definition ret {A} (a : A) : ST E S A := fun s => Some (Ok a, s).
Definition throw {A} (e : E) : ST E S A := fun s => Some (Err e, s).
Definition undef {A} : ST E S A := fun _ => None.
Definition bind {A B} (m : ST E S A) (k : A -> ST E S B) : ST E S B :=
  fun s => match m s with
           | Some (Ok a, s') => k a s'
           | Some (Err e, s') => Some (Err e, s')
           | None => None
           end.
(** Run [m] and hand its status to the continuation instead of returning. *)
Definition attempt {A} (m : ST E S A) : ST E S (res E A) :=
  fun s => match m s with
           | Some (r, s') => Some (Ok r, s')
           | None => None
           end.
Definition gets {A} (f : S -> A) : ST E S A := fun s => Some (Ok (f s), s).
Definition modify (f : S -> S) : ST E S unit := fun s => Some (Ok tt, f s).
(** An access that is undefined behaviour when it is [None]. *)
Definition defined {A} (o : option A) : ST E S A :=
  fun s => match o with Some a => Some (Ok a, s) | None => None end.
Definition of_res {A} (r : res E A) : ST E S A := fun s => Some (r, s).

Lemma bind_Ok {A B} (m : ST E S A) (k : A -> ST E S B) s a s' :
  m s = Some (Ok a, s') -> bind m k s = k a s'.
Proof. intros H. unfold bind. by rewrite H. Qed.

Lemma bind_Err {A B} (m : ST E S A) (k : A -> ST E S B) s e s' :
  m s = Some (Err e, s') -> bind m k s = Some (Err e, s').
Proof. intros H. unfold bind. by rewrite H. Qed.

Lemma attempt_run {A} (m : ST E S A) s r s' :
  m s = Some (r, s') -> attempt m s = Some (Ok r, s').
Proof. intros H. unfold attempt. by rewrite H. Qed.

(** Inversion of a run that did not hit undefined behaviour. *)
Lemma bind_inv {A B} (m : ST E S A) (k : A -> ST E S B) s r s' :
  bind m k s = Some (r, s') ->
  (exists a s1, m s = Some (Ok a, s1) /\ k a s1 = Some (r, s')) \/
  (exists e, m s = Some (Err e, s') /\ r = Err e).
Proof. unfold bind. destruct (m s) as [[[a|e] s1]|]; naive_solver. Qed.

Lemma bind_assoc {A B C} (m : ST E S A) (f : A -> ST E S B) (g : B -> ST E S C) s :
  bind (bind m f) g s = bind m (fun a => bind (f a) g) s.
Proof. unfold bind. by destruct (m s) as [[[]]|]. Qed.

Lemma bind_ext {A B} (m : ST E S A) (f g : A -> ST E S B) s :
  (forall a s', m s = Some (Ok a, s') -> f a s' = g a s') -> bind m f s = bind m g s.
Proof. intros H. unfold bind. destruct (m s) as [[[a|e] s']|] eqn:Hm; auto. Qed.

End StateMonad.

(** A preorder on states that a computation respects, however it ends. *)
Section Keeps.
Context {E S : Type} (R : S -> S -> Prop) `{!PreOrder R}.

Definition keeps {A} (m : ST E S A) : Prop := forall x r y, m x = Some (r, y) -> R x y.

Lemma keeps_bind {A B} (m : ST E S A) (k : A -> ST E S B) :
  keeps m -> (forall a, keeps (k a)) -> keeps (bind m k).
Proof.
  intros Hm Hk x r y Hr. apply bind_inv in Hr as [(a & z & H1 & H2)|(e & H1 & _)].
  - transitivity z; [by eapply Hm|by eapply Hk].
  - by eapply Hm.
Qed.

Lemma keeps_ret {A} (a : A) : keeps (ret a).
Proof. intros x r y Hr. by injection Hr as _ <-. Qed.

Lemma keeps_throw {A} e : keeps (throw e : ST E S A).
Proof. intros x r y Hr. by injection Hr as _ <-. Qed.

Lemma keeps_of_res {A} (a : res E A) : keeps (of_res a).
Proof. intros x r y Hr. by injection Hr as _ <-. Qed.

Lemma keeps_defined {A} (o : option A) : keeps (defined o).
Proof. intros x r y Hr. unfold defined in Hr. destruct o; [|done]. by injection Hr as _ <-. Qed.

End Keeps.

#[export] Hint Resolve keeps_ret keeps_throw keeps_of_res keeps_defined : minirel.

(** Running a computation on a component of the state. *)
Definition zoom {E S T A} (get : T -> S) (set : S -> T -> T) (m : ST E S A) : ST E T A :=
  fun t => match m (get t) with
           | Some (r, s') => Some (r, set s' t)
           | None => None
           end.

Notation "'let!' x ':=' m 'in' k" := (bind m (fun x => k))
  (at level 200, x pattern, m at level 100, k at level 200) : minirel_scope.
Notation "m ';;;' k" := (bind m (fun _ => k))
  (at level 100, right associativity) : minirel_scope.

(** ** Tactics *)

(** Break a [bind] run in a hypothesis into its steps. *)
Ltac inv_bind H :=
  let a := fresh "a" in let s := fresh "s" in let e := fresh "e" in
  let H1 := fresh "Hm" in let H2 := fresh "Hk" in
  apply bind_inv in H; destruct H as [(a & s & H1 & H2) | (e & H1 & H2)].

(** Case analysis on every [decide] and option [match] of the goal, closing
    the branches that arithmetic refutes. *)
Ltac dcase := repeat (case_decide; simplify_eq/=; try lia).

(** Step through a run whose next computation is known from the context. *)
Ltac step := first
  [ rewrite bind_assoc
  | erewrite bind_Ok by first [reflexivity | eassumption]
  | erewrite bind_Err by first [reflexivity | eassumption] ]; cbn beta iota.
