(* ===== verification/Errors.v ===== *)
(** * Status codes (error.h, error.C)

    The enumeration [Status] with the numeric values the C++ compiler gives
    it, and the message [Error::print] writes for a code. *)

From S2P Require Export Prelude.

Inductive Status : Set :=
| OK | NOTUSED1
(* File and DB errors *)
| BADFILEPTR | BADFILE | FILETABFULL | FILEOPEN | FILENOTOPEN
| UNIXERR | BADPAGEPTR | BADPAGENO | FILEEXISTS
(* BufMgr and HashTable errors *)
| HASHTBLERROR | HASHNOTFOUND | BUFFEREXCEEDED | PAGENOTPINNED
| BADBUFFER | PAGEPINNED
(* Page errors *)
| NOSPACE | NORECORDS | ENDOFPAGE | INVALIDSLOTNO | INVALIDRECLEN
(* HeapFile errors *)
| BADRID | BADRECPTR | BADSCANPARM | BADSCANID | SCANTABFULL | FILEEOF | FILEHDRFULL
(* Index errors *)
| BADINDEXPARM | RECNOTFOUND | BUCKETFULL | DIROVERFLOW
| NONUNIQUEENTRY | NOMORERECS
(* SortedFile errors *)
| BADSORTPARM | INSUFMEM
(* Catalog errors *)
| BADCATPARM | RELNOTFOUND | ATTRNOTFOUND
| NAMETOOLONG | DUPLATTR | RELEXISTS | NOINDEX
| INDEXEXISTS | ATTRTOOLONG
(* Query errors *)
| ATTRTYPEMISMATCH | TMP_RES_EXISTS
| NOTUSED2.

#[export] Instance Status_eq_dec : EqDecision Status.
Proof. solve_decision. Defined.

(** The codes in the order of the enumeration, from [NOTUSED1 = -999] on. *)
Definition Status_order : list Status :=
  [ NOTUSED1; BADFILEPTR; BADFILE; FILETABFULL; FILEOPEN; FILENOTOPEN;
    UNIXERR; BADPAGEPTR; BADPAGENO; FILEEXISTS;
    HASHTBLERROR; HASHNOTFOUND; BUFFEREXCEEDED; PAGENOTPINNED; BADBUFFER; PAGEPINNED;
    NOSPACE; NORECORDS; ENDOFPAGE; INVALIDSLOTNO; INVALIDRECLEN;
    BADRID; BADRECPTR; BADSCANPARM; BADSCANID; SCANTABFULL; FILEEOF; FILEHDRFULL;
    BADINDEXPARM; RECNOTFOUND; BUCKETFULL; DIROVERFLOW; NONUNIQUEENTRY; NOMORERECS;
    BADSORTPARM; INSUFMEM;
    BADCATPARM; RELNOTFOUND; ATTRNOTFOUND; NAMETOOLONG; DUPLATTR; RELEXISTS; NOINDEX;
    INDEXEXISTS; ATTRTOOLONG; ATTRTYPEMISMATCH; TMP_RES_EXISTS; NOTUSED2 ].

(** An enumerator without an initialiser is one more than the one before it. *)
Fixpoint code_from (l : list Status) (c : Z) (s : Status) : option Z :=
  match l with
  | [] => None
  | s' :: l => if decide (s = s') then Some c else code_from l (c + 1) s
  end.

Definition Status_code (s : Status) : Z :=
  if decide (s = OK) then 0 else default 0 (code_from Status_order (-999) s).

(** [Error::print]: the message, [None] for the [default] branch. *)
Definition Error_print (status : Status) : option string :=
  match status with
  | OK => Some "no error"
  | BADFILEPTR => Some "bad file pointer"
  | BADFILE => Some "bad filename"
  | FILETABFULL => Some "open file table full"
  | FILEOPEN => Some "file open"
  | FILENOTOPEN => Some "file not open"
  | UNIXERR => Some "Unix error"
  | BADPAGEPTR => Some "bad page pointer"
  | BADPAGENO => Some "bad page number"
  | FILEEXISTS => Some "file exists already"
  | HASHTBLERROR => Some "hash table error"
  | HASHNOTFOUND => Some "hash entry not found"
  | BUFFEREXCEEDED => Some "buffer pool full"
  | PAGENOTPINNED => Some "page not pinned"
  | BADBUFFER => Some "buffer pool corrupted"
  | PAGEPINNED => Some "page still pinned"
  | NOSPACE => Some "no space on page for record"
  | NORECORDS => Some "page is empty - no records"
  | ENDOFPAGE => Some "last record on page"
  | INVALIDSLOTNO => Some "invalid slot number"
  | INVALIDRECLEN => Some "specified record length <= 0"
  | BADRID => Some "bad record id"
  | BADRECPTR => Some "bad record pointer"
  | BADSCANPARM => Some "bad scan parameter"
  | SCANTABFULL => Some "scan table full"
  | FILEEOF => Some "end of file encountered"
  | FILEHDRFULL => Some "heapfile hdear page is full"
  | BADINDEXPARM => Some "bad index parameter"
  | RECNOTFOUND => Some "no such record"
  | BUCKETFULL => Some "bucket full"
  | DIROVERFLOW => Some "directory is full"
  | NONUNIQUEENTRY => Some "nonunique entry"
  | NOMORERECS => Some "no more records"
  | BADSORTPARM => Some "bad sort parameter"
  | INSUFMEM => Some "insufficient memory"
  | BADCATPARM => Some "bad catalog parameter"
  | RELNOTFOUND => Some "relation not in catalog"
  | ATTRNOTFOUND => Some "attribute not in catalog"
  | NAMETOOLONG => Some "name too long"
  | ATTRTOOLONG => Some "attributes too long"
  | DUPLATTR => Some "duplicate attribute names"
  | RELEXISTS => Some "relation exists already"
  | NOINDEX => Some "no index exists"
  | ATTRTYPEMISMATCH => Some "attribute type mismatch"
  | TMP_RES_EXISTS => Some "temp result already exists"
  | INDEXEXISTS => Some "index exists already"
  | NOTUSED1 | BADSCANID | NOTUSED2 => None
  end%string.

(** Results and stateful code that fail with a [Status]. *)
Abbreviation result := (res Status).
Abbreviation CODE := (ST Status).

(** Every status is in the enumeration. *)
Definition Status_all : list Status := OK :: Status_order.

Lemma elem_of_Status_all (s : Status) : s ∈ Status_all.
Proof. apply (bool_decide_unpack _). by destruct s; vm_compute. Qed.

(** Distinct codes print distinct numbers, and none but [OK] is zero: the
    test [status != OK] of the callers cannot confuse an error with success. *)
Lemma Status_code_inj (s t : Status) : Status_code s = Status_code t -> s = t.
Proof.
  apply (NoDup_fmap_inj Status_code Status_all); auto using elem_of_Status_all.
  apply (bool_decide_unpack _). by vm_compute.
Qed.

Lemma Status_code_error (s : Status) : s <> OK -> Status_code s < 0.
Proof. by destruct s. Qed.
