(* ===== verification/Bytes.v ===== *)
(** * Blocks of bytes

    The memory the engine reinterprets: a page is 1024 bytes, viewed as a
    [Page], a [DBPage] or a [FileHdrPage] by casting the pointer.  A block is
    a list of bytes; an access outside the block is undefined behaviour
    ([None]).  Multi-byte integers are little endian. *)

From S2P Require Export Prelude.
From Stdlib Require Export Strings.Byte.

Abbreviation block := (list byte).

#[export] Instance byte_eq_dec : EqDecision byte := Byte.byte_eq_dec.

(** ** Integers in memory *)

Section Encoding.

Definition byteZ (b : byte) : Z := Z.of_N (Byte.to_N b).
Definition Zbyte (z : Z) : byte := default x00 (Byte.of_N (Z.to_N (z mod 256))).

(** [n] bytes, least significant first. *)
Fixpoint le_enc (n : nat) (z : Z) : block :=
  match n with
  | O => []
  | S n => Zbyte z :: le_enc n (z / 256)
  end.

Fixpoint le_dec (l : block) : Z :=
  match l with
  | [] => 0
  | b :: l => byteZ b + 256 * le_dec l
  end.

Lemma byteZ_range b : 0 <= byteZ b < 256.
Proof. unfold byteZ. pose proof (Byte.to_N_bounded b). lia. Qed.

Lemma byteZ_Zbyte z : byteZ (Zbyte z) = z mod 256.
Proof.
  unfold byteZ, Zbyte. pose proof (Z.mod_pos_bound z 256 ltac:(lia)) as Hb.
  destruct (Byte.of_N (Z.to_N (z mod 256))) as [b|] eqn:Hb'; cbn.
  - apply Byte.to_of_N in Hb'. rewrite Hb', Z2N.id; lia.
  - apply Byte.of_N_None_iff in Hb'. lia.
Qed.

Lemma Zbyte_byteZ b : Zbyte (byteZ b) = b.
Proof.
  unfold Zbyte. rewrite Z.mod_small by apply byteZ_range.
  unfold byteZ. by rewrite N2Z.id, Byte.of_to_N.
Qed.

Lemma byteZ_inj b c : byteZ b = byteZ c -> b = c.
Proof. intros H. by rewrite <- (Zbyte_byteZ b), H, Zbyte_byteZ. Qed.

Lemma length_le_enc n z : length (le_enc n z) = n.
Proof. revert z. induction n; intros; cbn; auto. Qed.

Lemma le_dec_range l : 0 <= le_dec l < 2 ^ (8 * Z.of_nat (length l)).
Proof.
  induction l as [|b l IH]; [by cbn|]. cbn [le_dec length].
  replace (8 * Z.of_nat (S (length l))) with (8 + 8 * Z.of_nat (length l)) by lia.
  rewrite Z.pow_add_r by lia. pose proof (byteZ_range b). lia.
Qed.

Lemma le_dec_enc n z : le_dec (le_enc n z) = z mod 2 ^ (8 * Z.of_nat n).
Proof.
  revert z. induction n as [|n IH]; intros z; [cbn; by rewrite Z.mod_1_r|].
  cbn [le_enc le_dec]. rewrite byteZ_Zbyte, IH.
  replace (8 * Z.of_nat (S n)) with (8 + 8 * Z.of_nat n) by lia.
  rewrite Z.pow_add_r by lia. change (2 ^ 8) with 256.
  rewrite Z.rem_mul_r; [lia| |]; [|apply Z.pow_pos_nonneg]; lia.
Qed.

Lemma le_enc_dec l : le_enc (length l) (le_dec l) = l.
Proof.
  induction l as [|b l IH]; [done|]. cbn [length le_enc le_dec].
  pose proof (byteZ_range b). f_equal.
  - rewrite <- (Zbyte_byteZ b) at 2. unfold Zbyte.
    by rewrite (Z.mul_comm 256), Z_mod_plus_full.
  - rewrite Z.add_comm, (Z.mul_comm 256), Z.div_add_l by lia.
    rewrite Z.div_small by lia. by rewrite Z.add_0_r.
Qed.

(** A signed integer survives a store and a load of its width. *)
Lemma wrapS_le_dec_enc (n : nat) z :
  (0 < n)%nat ->
  wrapS (8 * Z.of_nat n) (le_dec (le_enc n z)) = wrapS (8 * Z.of_nat n) z.
Proof. intros. rewrite le_dec_enc. apply wrapS_wrapU. lia. Qed.

End Encoding.

(** ** Reading and writing a block *)

Section Access.
Implicit Types (b v : block) (off n : Z).

Definition rd off n b : option block :=
  if decide (0 <= off /\ 0 <= n /\ off + n <= Z.of_nat (length b))
  then Some (take (Z.to_nat n) (drop (Z.to_nat off) b)) else None.

Definition wr off v b : option block :=
  if decide (0 <= off /\ off + Z.of_nat (length v) <= Z.of_nat (length b))
  then Some (take (Z.to_nat off) b ++ v ++ drop (Z.to_nat off + length v) b) else None.

(** [short] and [int] fields. *)
Definition rd16 off b : option Z := (fun v => s16 (le_dec v)) <$> rd off 2 b.
Definition rd32 off b : option Z := (fun v => s32 (le_dec v)) <$> rd off 4 b.
Definition wr16 off z b : option block := wr off (le_enc 2 z) b.
Definition wr32 off z b : option block := wr off (le_enc 4 z) b.

(** [bcopy]/[memmove] inside a block: the source is read before it is
    overwritten; a negative count is a huge [size_t]. *)
Definition bcopy src dst n b : option block := v ← rd src n b; wr dst v b.

Lemma rd_Some off n b v :
  rd off n b = Some v <->
  (0 <= off /\ 0 <= n /\ off + n <= Z.of_nat (length b)) /\
  v = take (Z.to_nat n) (drop (Z.to_nat off) b).
Proof. unfold rd. case_decide; split; [by intros [= <-]|by intros [_ ->]|done|by intros []]. Qed.

Lemma rd_length off n b v : rd off n b = Some v -> length v = Z.to_nat n.
Proof. intros [? ->]%rd_Some. rewrite length_take, length_drop. lia. Qed.

Lemma rd_is_Some off n b :
  0 <= off -> 0 <= n -> off + n <= Z.of_nat (length b) -> is_Some (rd off n b).
Proof. intros. unfold rd. rewrite decide_True by lia. eauto. Qed.

Lemma wr_Some off v b b' :
  wr off v b = Some b' <->
  (0 <= off /\ off + Z.of_nat (length v) <= Z.of_nat (length b)) /\
  b' = take (Z.to_nat off) b ++ v ++ drop (Z.to_nat off + length v) b.
Proof. unfold wr. case_decide; split; [by intros [= <-]|by intros [_ ->]|done|by intros []]. Qed.

Lemma wr_length off v b b' : wr off v b = Some b' -> length b' = length b.
Proof.
  intros [? ->]%wr_Some.
  rewrite !length_app, length_take, length_drop. lia.
Qed.

Lemma wr_is_Some off v b :
  0 <= off -> off + Z.of_nat (length v) <= Z.of_nat (length b) -> is_Some (wr off v b).
Proof. intros. unfold wr. rewrite decide_True by lia. eauto. Qed.

(** A block read is determined by the bytes it covers. *)
Lemma rd_lookup off n b v (k : nat) :
  rd off n b = Some v -> Z.of_nat k < n -> v !! k = b !! (Z.to_nat off + k)%nat.
Proof.
  intros [? ->]%rd_Some ?. rewrite lookup_take_lt by lia. by rewrite lookup_drop.
Qed.

Lemma rd_ext off off' n b b' :
  0 <= off -> 0 <= off' -> off + n <= Z.of_nat (length b) ->
  off' + n <= Z.of_nat (length b') ->
  (forall k : nat, Z.of_nat k < n -> b !! (Z.to_nat off + k)%nat = b' !! (Z.to_nat off' + k)%nat) ->
  rd off n b = rd off' n b'.
Proof.
  intros ? ? ? ? Hk. unfold rd. repeat case_decide; try lia; [|done].
  f_equal. apply list_eq. intros k. destruct (decide (Z.of_nat k < n)).
  - rewrite !lookup_take_lt by lia. rewrite !lookup_drop. by apply Hk.
  - by rewrite !lookup_take_ge by lia.
Qed.

Lemma wr_lookup_in off v b b' (k : nat) :
  wr off v b = Some b' -> (k < length v)%nat -> b' !! (Z.to_nat off + k)%nat = v !! k.
Proof.
  intros [? ->]%wr_Some ?.
  rewrite lookup_app_r by (rewrite length_take; lia).
  rewrite length_take, lookup_app_l by lia. f_equal. lia.
Qed.

Lemma wr_lookup_out off v b b' (k : nat) :
  wr off v b = Some b' -> (Z.of_nat k < off \/ off + Z.of_nat (length v) <= Z.of_nat k) ->
  b' !! k = b !! k.
Proof.
  intros [? ->]%wr_Some ?. destruct (decide (Z.of_nat k < off)).
  - rewrite lookup_app_l by (rewrite length_take; lia). apply lookup_take_lt. lia.
  - rewrite lookup_app_r by (rewrite length_take; lia).
    rewrite lookup_app_r by (rewrite length_take; lia).
    rewrite lookup_drop, length_take. f_equal. lia.
Qed.

(** Load after store: the same field, and any field that does not overlap. *)
Lemma rd_wr_same off v b b' n :
  wr off v b = Some b' -> n = Z.of_nat (length v) -> rd off n b' = Some v.
Proof.
  intros Hw ->. pose proof (wr_length _ _ _ _ Hw). apply wr_Some in Hw as [? ->].
  apply rd_Some. split; [lia|].
  rewrite Nat2Z.id, drop_app_length' by (rewrite length_take; lia).
  by rewrite take_app_length.
Qed.

Lemma rd_wr_disj off v b b' o n :
  wr off v b = Some b' -> o + n <= off \/ off + Z.of_nat (length v) <= o ->
  rd o n b' = rd o n b.
Proof.
  intros Hw Hd. pose proof (wr_length _ _ _ _ Hw) as Hl.
  destruct (decide (0 <= o /\ 0 <= n /\ o + n <= Z.of_nat (length b))) as [?|Hn].
  - apply rd_ext; try lia. intros k ?. eapply wr_lookup_out; [done|lia].
  - unfold rd. rewrite Hl. by rewrite !decide_False by lia.
Qed.

(** Reading part of a larger read. *)
Lemma rd_rd off n b v o m :
  rd off n b = Some v -> 0 <= o -> 0 <= m -> o + m <= n -> rd o m v = rd (off + o) m b.
Proof.
  intros Hr ? ? ?. pose proof (rd_length _ _ _ _ Hr). apply rd_Some in Hr as [? Hv].
  apply rd_ext; try lia. intros k ?. subst v.
  rewrite lookup_take_lt by lia. rewrite lookup_drop. f_equal. lia.
Qed.

(** Consecutive reads. *)
Lemma rd_app off n m b v w :
  rd off n b = Some v -> rd (off + n) m b = Some w -> rd off (n + m) b = Some (v ++ w).
Proof.
  intros [? ->]%rd_Some [? ->]%rd_Some. apply rd_Some. split; [lia|].
  rewrite (Z2Nat.inj_add off n), Z2Nat.inj_add, <- drop_drop by lia.
  by rewrite take_take_drop.
Qed.

End Access.

(** ** Field accesses *)

Section Fields.
Implicit Types (b : block) (off z : Z).

Lemma rd16_wr16_same off z b b' : wr16 off z b = Some b' -> rd16 off b' = Some (s16 z).
Proof.
  unfold wr16, rd16. intros H. rewrite (rd_wr_same _ _ _ _ _ H) by done. cbn [fmap option_fmap option_map].
  f_equal. apply (wrapS_le_dec_enc 2). lia.
Qed.

Lemma rd32_wr32_same off z b b' : wr32 off z b = Some b' -> rd32 off b' = Some (s32 z).
Proof.
  unfold wr32, rd32. intros H. rewrite (rd_wr_same _ _ _ _ _ H) by done. cbn [fmap option_fmap option_map].
  f_equal. apply (wrapS_le_dec_enc 4). lia.
Qed.

Lemma rd16_wr_disj off v b b' o :
  wr off v b = Some b' -> o + 2 <= off \/ off + Z.of_nat (length v) <= o ->
  rd16 o b' = rd16 o b.
Proof. intros Hw Hd. unfold rd16. by rewrite (rd_wr_disj _ _ _ _ _ _ Hw Hd). Qed.

Lemma rd32_wr_disj off v b b' o :
  wr off v b = Some b' -> o + 4 <= off \/ off + Z.of_nat (length v) <= o ->
  rd32 o b' = rd32 o b.
Proof. intros Hw Hd. unfold rd32. by rewrite (rd_wr_disj _ _ _ _ _ _ Hw Hd). Qed.

(** The same for a store of a field. *)
Lemma rd_wr16_disj off z b b' o n :
  wr16 off z b = Some b' -> o + n <= off \/ off + 2 <= o -> rd o n b' = rd o n b.
Proof. intros Hw ?. eapply rd_wr_disj; [exact Hw|]. rewrite length_le_enc. lia. Qed.

Lemma rd_wr32_disj off z b b' o n :
  wr32 off z b = Some b' -> o + n <= off \/ off + 4 <= o -> rd o n b' = rd o n b.
Proof. intros Hw ?. eapply rd_wr_disj; [exact Hw|]. rewrite length_le_enc. lia. Qed.

Lemma rd16_wr16_disj off z b b' o :
  wr16 off z b = Some b' -> o + 2 <= off \/ off + 2 <= o -> rd16 o b' = rd16 o b.
Proof. intros Hw ?. unfold rd16. by rewrite (rd_wr16_disj _ _ _ _ _ _ Hw). Qed.

Lemma rd32_wr16_disj off z b b' o :
  wr16 off z b = Some b' -> o + 4 <= off \/ off + 2 <= o -> rd32 o b' = rd32 o b.
Proof. intros Hw ?. unfold rd32. by rewrite (rd_wr16_disj _ _ _ _ _ _ Hw). Qed.

Lemma rd16_wr32_disj off z b b' o :
  wr32 off z b = Some b' -> o + 2 <= off \/ off + 4 <= o -> rd16 o b' = rd16 o b.
Proof. intros Hw ?. unfold rd16. by rewrite (rd_wr32_disj _ _ _ _ _ _ Hw). Qed.

Lemma rd32_wr32_disj off z b b' o :
  wr32 off z b = Some b' -> o + 4 <= off \/ off + 4 <= o -> rd32 o b' = rd32 o b.
Proof. intros Hw ?. unfold rd32. by rewrite (rd_wr32_disj _ _ _ _ _ _ Hw). Qed.

Lemma wr16_length off z b b' : wr16 off z b = Some b' -> length b' = length b.
Proof. apply wr_length. Qed.

Lemma wr32_length off z b b' : wr32 off z b = Some b' -> length b' = length b.
Proof. apply wr_length. Qed.

Lemma rd16_range off b z : rd16 off b = Some z -> inS 16 z.
Proof. unfold rd16. intros (v & _ & ->)%fmap_Some. apply wrapS_range. lia. Qed.

Lemma rd32_range off b z : rd32 off b = Some z -> inS 32 z.
Proof. unfold rd32. intros (v & _ & ->)%fmap_Some. apply wrapS_range. lia. Qed.

Lemma rd16_is_Some off b :
  0 <= off -> off + 2 <= Z.of_nat (length b) -> is_Some (rd16 off b).
Proof. intros. unfold rd16. apply fmap_is_Some, rd_is_Some; lia. Qed.

Lemma rd32_is_Some off b :
  0 <= off -> off + 4 <= Z.of_nat (length b) -> is_Some (rd32 off b).
Proof. intros. unfold rd32. apply fmap_is_Some, rd_is_Some; lia. Qed.

Lemma wr16_is_Some off z b :
  0 <= off -> off + 2 <= Z.of_nat (length b) -> is_Some (wr16 off z b).
Proof. intros. apply wr_is_Some; rewrite ?length_le_enc; lia. Qed.

Lemma wr32_is_Some off z b :
  0 <= off -> off + 4 <= Z.of_nat (length b) -> is_Some (wr32 off z b).
Proof. intros. apply wr_is_Some; rewrite ?length_le_enc; lia. Qed.

End Fields.

#[export] Hint Resolve wr_length wr16_length wr32_length rd_length : minirel.

(** ** Tactics on stores

    [wr_lens] records that every block a store produced has the length of the
    block it updated; [wr_step] names the block the next store of the goal
    produces; [rd_through] reads back through the stores of the context, by
    the load/store lemmas and linear arithmetic on the offsets. *)

Ltac wr_lens := repeat
  match goal with
  | H : wr _ _ _ = Some ?p |- _ =>
      lazymatch goal with _ : length p = _ |- _ => fail | _ => pose proof (wr_length _ _ _ _ H) end
  | H : wr16 _ _ _ = Some ?p |- _ =>
      lazymatch goal with _ : length p = _ |- _ => fail | _ => pose proof (wr16_length _ _ _ _ H) end
  | H : wr32 _ _ _ = Some ?p |- _ =>
      lazymatch goal with _ : length p = _ |- _ => fail | _ => pose proof (wr32_length _ _ _ _ H) end
  end.

Ltac wr_step p H :=
  match goal with
  | |- context [wr16 ?o ?z ?b] =>
      destruct (wr16_is_Some o z b) as [p H]; [lia|lia|rewrite H; cbn [mbind option_bind]; wr_lens]
  | |- context [wr32 ?o ?z ?b] =>
      destruct (wr32_is_Some o z b) as [p H]; [lia|lia|rewrite H; cbn [mbind option_bind]; wr_lens]
  | |- context [wr ?o ?v ?b] =>
      destruct (wr_is_Some o v b) as [p H]; [lia|lia|rewrite H; cbn [mbind option_bind]; wr_lens]
  end.

Ltac rd_through := repeat
  match goal with
  | H : wr16 ?o _ _ = Some ?p |- context [rd16 ?o ?p] => rewrite (rd16_wr16_same _ _ _ _ H)
  | H : wr32 ?o _ _ = Some ?p |- context [rd32 ?o ?p] => rewrite (rd32_wr32_same _ _ _ _ H)
  | H : wr16 _ _ _ = Some ?p |- context [rd16 ?o ?p] => rewrite (rd16_wr16_disj _ _ _ _ o H) by lia
  | H : wr16 _ _ _ = Some ?p |- context [rd32 ?o ?p] => rewrite (rd32_wr16_disj _ _ _ _ o H) by lia
  | H : wr16 _ _ _ = Some ?p |- context [rd ?o ?n ?p] => rewrite (rd_wr16_disj _ _ _ _ o n H) by lia
  | H : wr32 _ _ _ = Some ?p |- context [rd16 ?o ?p] => rewrite (rd16_wr32_disj _ _ _ _ o H) by lia
  | H : wr32 _ _ _ = Some ?p |- context [rd32 ?o ?p] => rewrite (rd32_wr32_disj _ _ _ _ o H) by lia
  | H : wr32 _ _ _ = Some ?p |- context [rd ?o ?n ?p] => rewrite (rd_wr32_disj _ _ _ _ o n H) by lia
  | H : wr _ _ _ = Some ?p |- context [rd16 ?o ?p] => rewrite (rd16_wr_disj _ _ _ _ o H) by lia
  | H : wr _ _ _ = Some ?p |- context [rd32 ?o ?p] => rewrite (rd32_wr_disj _ _ _ _ o H) by lia
  | H : wr _ _ _ = Some ?p |- context [rd ?o ?n ?p] => rewrite (rd_wr_disj _ _ _ _ o n H) by lia
  end.
