(* ===== verification/Page.v ===== *)
(** * Slotted pages (page.h, page.C)

    A [Page] is 1024 bytes: record bytes grow upwards from offset 0, the slot
    array grows backwards from offset 1004 (so [slot\[-k\]] overlays the last
    bytes of [data]), and five fields close the page.  The operations below
    are those of class [Page], on the bytes; the theorems relate them to the
    list of records the slots denote. *)

From S2P Require Export Prelude Errors Bytes.

(** ** Data (page.h) *)

Record RID : Set := mkRID { pageNo : Z; slotNo : Z }.

#[export] Instance RID_eq_dec : EqDecision RID.
Proof. solve_decision. Defined.

Definition NULLRID : RID := mkRID (-1) (-1).

(** The bytes of a record; [Record.length] is their number. *)
Abbreviation Record := block.

Definition sizeof_short : Z := 2.
Definition sizeof_int : Z := 4.
Definition sizeof_slot : Z := 2 * sizeof_short.

Definition PAGESIZE : Z := 1024.
Definition DPFIXED : Z := sizeof_slot + 4 * sizeof_short + 2 * sizeof_int.

(** Offsets of the members of class [Page]. *)
Definition off_slot (i : Z) : Z := PAGESIZE - DPFIXED + sizeof_slot * i.
Definition off_slotCnt : Z := PAGESIZE - DPFIXED + sizeof_slot.
Definition off_freePtr : Z := off_slotCnt + sizeof_short.
Definition off_freeSpace : Z := off_slotCnt + 2 * sizeof_short.
Definition off_nextPage : Z := off_slotCnt + 4 * sizeof_short.
Definition off_curPage : Z := off_nextPage + sizeof_int.

(** [slot\[i\].offset] and [slot\[i\].length]. *)
Definition slot_offset (i : Z) (p : block) : option Z := rd16 (off_slot i) p.
Definition slot_length (i : Z) (p : block) : option Z := rd16 (off_slot i + sizeof_short) p.
Definition set_slot_offset (i z : Z) (p : block) : option block := wr16 (off_slot i) z p.
Definition set_slot_length (i z : Z) (p : block) : option block :=
  wr16 (off_slot i + sizeof_short) z p.

(** ** Operations (page.C) *)

Definition init (pageNo : Z) (p : block) : option block :=
  p ← wr32 off_nextPage (-1) p;
  p ← wr16 off_slotCnt 0 p;
  p ← wr32 off_curPage pageNo p;
  p ← wr16 off_freePtr 0 p;
  wr16 off_freeSpace (PAGESIZE - DPFIXED) p.

Definition setNextPage (pageNo : Z) (p : block) : option block := wr32 off_nextPage pageNo p.
Definition getNextPage (p : block) : option Z := rd32 off_nextPage p.
Definition getFreeSpace (p : block) : option Z := rd16 off_freeSpace p.

(** [while (i > slotCnt) { if (slot\[i\].length == -1) break; else i--; }]:
    [n] is [i - slotCnt], the iterations the condition allows. *)
Fixpoint find_empty (n : nat) (i : Z) (p : block) : option Z :=
  match n with
  | O => Some i
  | S n => len ← slot_length i p;
           if decide (len = -1) then Some i else find_empty n (i - 1) p
  end.

(** [while (i > slotCnt) { if (slot\[i\].length == -1) i--; else break; }] *)
Fixpoint find_used (n : nat) (i : Z) (p : block) : option Z :=
  match n with
  | O => Some i
  | S n => len ← slot_length i p;
           if decide (len = -1) then find_used n (i - 1) p else Some i
  end.

Definition insertRecord (rec : Record) (p : block) : option (result RID * block) :=
  let recLength := Z.of_nat (length rec) in
  let spaceNeeded := recLength + sizeof_slot in
  freeSpace ← rd16 off_freeSpace p;
  if decide (spaceNeeded > freeSpace) then Some (Err NOSPACE, p) else
  slotCnt ← rd16 off_slotCnt p;
  (* look for an empty slot *)
  i ← find_empty (Z.to_nat (0 - slotCnt)) 0 p;
  (* adjust free space *)
  p ← (if decide (i = slotCnt)
       then p ← wr16 off_freeSpace (freeSpace - spaceNeeded) p;
            wr16 off_slotCnt (slotCnt - 1) p
       else wr16 off_freeSpace (freeSpace - recLength) p);
  freePtr ← rd16 off_freePtr p;
  p ← set_slot_offset i freePtr p;
  p ← set_slot_length i recLength p;
  (* copy data on to the data page *)
  p ← wr freePtr rec p;
  p ← wr16 off_freePtr (freePtr + recLength) p;
  curPage ← rd32 off_curPage p;
  Some (Ok (mkRID curPage (- i)), p).

(** [for (i = 0; i > slotCnt; i--)] of [deleteRecord]: close the hole left by
    [slot\[slotNo\]] in the offsets of the slots to its right. *)
Fixpoint shift_offsets (n : nat) (i slotNo recLen : Z) (p : block) : option block :=
  match n with
  | O => Some p
  | S n =>
      len ← slot_length i p;
      off ← slot_offset i p;
      hole ← slot_offset slotNo p;
      p ← (if decide (len >= 0 /\ off > hole) then set_slot_offset i (off - recLen) p
           else Some p);
      shift_offsets n (i - 1) slotNo recLen p
  end.

(** The [do ... while] of [deleteRecord] that gives back trailing empty
    slots; [fuel] bounds the iterations by the slots there are. *)
Fixpoint pop_slots (fuel : nat) (p : block) : option block :=
  slotCnt ← rd16 off_slotCnt p;
  p ← wr16 off_slotCnt (slotCnt + 1) p;
  freeSpace ← rd16 off_freeSpace p;
  p ← wr16 off_freeSpace (freeSpace + sizeof_slot) p;
  slotCnt ← rd16 off_slotCnt p;
  if decide (slotCnt < 0) then
    len ← slot_length (slotCnt + 1) p;
    if decide (len = -1) then
      match fuel with O => None | S fuel => pop_slots fuel p end
    else Some p
  else Some p.

(** The compaction of [deleteRecord]: shift the bytes after the record over
    it, adjust the offsets and the free space. *)
Definition close_hole (slotNo slotCnt recLen : Z) (p : block) : option block :=
  offset ← slot_offset slotNo p;
  let nextOffset := offset + recLen in
  freePtr ← rd16 off_freePtr p;
  p ← bcopy nextOffset offset (freePtr - nextOffset) p;
  p ← shift_offsets (Z.to_nat (0 - slotCnt)) 0 slotNo recLen p;
  p ← wr16 off_freePtr (freePtr - recLen) p;
  freeSpace ← rd16 off_freeSpace p;
  wr16 off_freeSpace (freeSpace + recLen) p.

Definition deleteRecord (rid : RID) (p : block) : option (Status * block) :=
  let slotNo := s32 (- slotNo rid) in (* convert to negative format *)
  slotCnt ← rd16 off_slotCnt p;
  if decide (slotNo > slotCnt) then
    recLen ← slot_length slotNo p;
    if decide (recLen > 0) then
      p ← close_hole slotNo slotCnt recLen p;
      if decide (slotNo = slotCnt + 1) then
        (* slot at the end of the array: compact the slot array *)
        p ← pop_slots (Z.to_nat (0 - slotCnt)) p;
        Some (OK, p)
      else
        (* slot in the middle: mark it free *)
        p ← set_slot_length slotNo (-1) p;
        p ← set_slot_offset slotNo 0 p;
        Some (OK, p)
    else Some (INVALIDSLOTNO, p)
  else Some (INVALIDSLOTNO, p).

Definition firstRecord (p : block) : option (result RID) :=
  slotCnt ← rd16 off_slotCnt p;
  i ← find_used (Z.to_nat (0 - slotCnt)) 0 p;
  if decide (i = slotCnt) then Some (Err NORECORDS) else
  len ← slot_length i p;
  if decide (len = -1) then Some (Err NORECORDS) else
  curPage ← rd32 off_curPage p;
  Some (Ok (mkRID curPage (- i))).

Definition nextRecord (curRid : RID) (p : block) : option (result RID) :=
  slotCnt ← rd16 off_slotCnt p;
  let i := s32 (- slotNo curRid) - 1 in
  i ← find_used (Z.to_nat (i - slotCnt)) i p;
  if decide (i <= slotCnt) then Some (Err ENDOFPAGE) else
  len ← slot_length i p;
  if decide (len = -1) then Some (Err ENDOFPAGE) else
  curPage ← rd32 off_curPage p;
  Some (Ok (mkRID curPage (- i))).

(** [getRecord] returns a pointer into the page: the bytes it covers. *)
Definition getRecord (rid : RID) (p : block) : option (result Record) :=
  let slotNo := s32 (- slotNo rid) in
  slotCnt ← rd16 off_slotCnt p;
  if decide (slotNo > slotCnt) then
    len ← slot_length slotNo p;
    if decide (len > 0) then
      offset ← slot_offset slotNo p;
      rec ← rd offset len p;
      Some (Ok rec)
    else Some (Err INVALIDSLOTNO)
  else Some (Err INVALIDSLOTNO).

(** ** What a page denotes

    The reference model of a page: the records of its slots in slot order,
    [None] for a free slot. *)

Definition slot_record (p : block) (k : nat) : option Record :=
  len ← slot_length (- Z.of_nat k) p;
  if decide (len > 0) then off ← slot_offset (- Z.of_nat k) p; rd off len p else None.

Definition slot_count (p : block) : nat := Z.to_nat (- default 0 (rd16 off_slotCnt p)).

Definition contents (p : block) : list (option Record) := slot_record p <$> seq 0 (slot_count p).

Definition no_rec (o : option Record) : bool := bool_decide (o = None).
Definition has_rec (o : option Record) : bool := negb (no_rec o).

(** The reference operations on that list. *)
Definition sp_slot (c : list (option Record)) : nat := first_idx no_rec c.

Definition sp_insert (r : Record) (c : list (option Record)) : list (option Record) :=
  if decide (sp_slot c < length c)%nat then <[sp_slot c := Some r]> c else c ++ [Some r].

Definition sp_delete (k : nat) (c : list (option Record)) : list (option Record) :=
  strip no_rec (<[k := None]> c).

(** The first live slot from [k] on. *)
Definition sp_next (k : nat) (c : list (option Record)) : option nat :=
  let j := (k + first_idx has_rec (drop k c))%nat in
  if decide (j < length c)%nat then Some j else None.

(** ** The view of a page

    The fields of a page as data, and when bytes represent it. *)

Record slot_t := Slot { s_off : Z; s_len : Z }.

#[export] Instance slot_eq_dec : EqDecision slot_t.
Proof. solve_decision. Defined.

Record view := View { v_slots : list slot_t; v_data : block; v_next : Z; v_cur : Z }.

Definition free (s : slot_t) : bool := bool_decide (s_len s = -1).

Definition slots_at (i : Z) (l : list slot_t) (p : block) : Prop :=
  forall (j : nat) s, l !! j = Some s ->
    slot_offset (i - Z.of_nat j) p = Some (s_off s) /\
    slot_length (i - Z.of_nat j) p = Some (s_len s).

Definition v_space (v : view) : Z :=
  PAGESIZE - DPFIXED - Z.of_nat (length (v_data v)) - sizeof_slot * Z.of_nat (length (v_slots v)).

Record repr (p : block) (v : view) : Prop := {
  repr_length : Z.of_nat (length p) = PAGESIZE;
  repr_slotCnt : rd16 off_slotCnt p = Some (- Z.of_nat (length (v_slots v)));
  repr_freePtr : rd16 off_freePtr p = Some (Z.of_nat (length (v_data v)));
  repr_freeSpace : rd16 off_freeSpace p = Some (v_space v);
  repr_next : rd32 off_nextPage p = Some (v_next v);
  repr_cur : rd32 off_curPage p = Some (v_cur v);
  repr_data : rd 0 (Z.of_nat (length (v_data v))) p = Some (v_data v);
  repr_slots : slots_at 0 (v_slots v) p;
}.

(** Well-formed pages: the free space is exactly what records and slots leave,
    live records are non-empty, lie in the used prefix of [data] and do not
    overlap, their lengths add up to that prefix (no holes), and the last
    slot is in use. *)
Definition live_in (n : Z) (s : slot_t) : Prop :=
  0 < s_len s /\ 0 <= s_off s /\ s_off s + s_len s <= n.

Definition apart (s t : slot_t) : Prop :=
  s_off s + s_len s <= s_off t \/ s_off t + s_len t <= s_off s.

Definition live_bytes (l : list slot_t) : nat := sum_list_with (fun s => Z.to_nat (s_len s)) l.

Record wf (v : view) : Prop := {
  wf_space : 0 <= v_space v;
  wf_slots : forall k s, v_slots v !! k = Some s ->
    s_len s = -1 \/ live_in (Z.of_nat (length (v_data v))) s;
  wf_apart : forall j k s t, j <> k ->
    v_slots v !! j = Some s -> v_slots v !! k = Some t ->
    s_len s <> -1 -> s_len t <> -1 -> apart s t;
  wf_sum : live_bytes (v_slots v) = length (v_data v);
  wf_last : forall s, last (v_slots v) = Some s -> s_len s <> -1;
}.

Definition page_ok (p : block) : Prop := exists v, repr p v /\ wf v.

(** ** Reading a represented page *)

(** Unfold the layout to numbers and solve the offset arithmetic. *)
Ltac layout :=
  unfold off_slot, v_space in *;
  change off_slotCnt with 1008 in *; change off_freePtr with 1010 in *;
  change off_freeSpace with 1012 in *; change off_nextPage with 1016 in *;
  change off_curPage with 1020 in *; change PAGESIZE with 1024 in *;
  change DPFIXED with 20 in *; change sizeof_slot with 4 in *;
  change sizeof_short with 2 in *; change sizeof_int with 4 in *.

Section Reading.
Implicit Types (p : block) (v : view) (l : list slot_t).

Lemma slots_at_cons i s l p :
  slots_at i (s :: l) p <->
  (slot_offset i p = Some (s_off s) /\ slot_length i p = Some (s_len s)) /\
  slots_at (i - 1) l p.
Proof.
  unfold slots_at. split.
  - intros H. split.
    + specialize (H O s eq_refl). by rewrite Z.sub_0_r in H.
    + intros j t Hj. specialize (H (S j) t Hj).
      by replace (i - 1 - Z.of_nat j) with (i - Z.of_nat (S j)) by lia.
  - intros [H0 H] [|j] t; cbn.
    + intros [= <-]. by rewrite Z.sub_0_r.
    + intros Hj. replace (i - Z.of_nat (S j)) with (i - 1 - Z.of_nat j) by lia. auto.
Qed.

Lemma slots_at_drop i l p k :
  (k <= length l)%nat -> slots_at i l p -> slots_at (i - Z.of_nat k) (drop k l) p.
Proof.
  intros ? H j s Hj. rewrite lookup_drop in Hj.
  replace (i - Z.of_nat k - Z.of_nat j) with (i - Z.of_nat (k + j)) by lia. auto.
Qed.

Lemma find_empty_spec i l p :
  slots_at i l p -> find_empty (length l) i p = Some (i - Z.of_nat (first_idx free l)).
Proof.
  revert i. induction l as [|s l IH]; intros i; [by cbn; rewrite Z.sub_0_r|].
  intros [[_ Hlen] Hl]%slots_at_cons. cbn. rewrite Hlen. cbn.
  unfold free at 1. case_bool_decide; rewrite ?decide_True, ?decide_False by done.
  - f_equal. lia.
  - rewrite (IH _ Hl). f_equal. lia.
Qed.

Lemma find_used_spec i l p :
  slots_at i l p ->
  find_used (length l) i p = Some (i - Z.of_nat (first_idx (fun s => negb (free s)) l)).
Proof.
  revert i. induction l as [|s l IH]; intros i; [by cbn; rewrite Z.sub_0_r|].
  intros [[_ Hlen] Hl]%slots_at_cons. cbn. rewrite Hlen. cbn.
  unfold free at 1. case_bool_decide; rewrite ?decide_True, ?decide_False by done; cbn.
  - rewrite (IH _ Hl). f_equal. lia.
  - f_equal. lia.
Qed.

(** The record a slot denotes in the view. *)
Definition rec_of (d : block) (s : slot_t) : option Record :=
  if decide (0 < s_len s) then rd (s_off s) (s_len s) d else None.

Definition v_contents v : list (option Record) := rec_of (v_data v) <$> v_slots v.

Lemma wf_free v k s :
  wf v -> v_slots v !! k = Some s -> no_rec (rec_of (v_data v) s) = free s.
Proof.
  intros Hwf Hk. unfold no_rec, free, rec_of. apply bool_decide_ext.
  destruct (wf_slots _ Hwf _ _ Hk) as [Hf|(?&?&?)].
  - rewrite decide_False by lia. naive_solver.
  - rewrite decide_True by lia. destruct (rd_is_Some (s_off s) (s_len s) (v_data v)) as [r Hr]; [lia..|].
    rewrite Hr. split; [done|lia].
Qed.

Lemma wf_rd_data p v s :
  repr p v -> live_in (Z.of_nat (length (v_data v))) s ->
  rd (s_off s) (s_len s) p = rd (s_off s) (s_len s) (v_data v).
Proof.
  intros Hr (?&?&?).
  by rewrite (rd_rd _ _ _ _ (s_off s) (s_len s) (repr_data _ _ Hr)) by lia.
Qed.

Lemma slot_record_spec p v k s :
  repr p v -> wf v -> v_slots v !! k = Some s -> slot_record p k = rec_of (v_data v) s.
Proof.
  intros Hr Hwf Hk. unfold slot_record, rec_of.
  destruct (repr_slots _ _ Hr _ _ Hk) as [Ho Hl]. rewrite Z.sub_0_l in *.
  rewrite Hl. cbn. destruct (wf_slots _ Hwf _ _ Hk) as [Hf|Hlive].
  - by rewrite !decide_False by lia.
  - pose proof Hlive as (?&?&?). rewrite !decide_True by lia. rewrite Ho. cbn.
    by apply wf_rd_data.
Qed.

(** The bytes of a page determine what it denotes, through any view. *)
Lemma contents_spec p v : repr p v -> wf v -> contents p = v_contents v.
Proof.
  intros Hr Hwf. unfold contents, v_contents, slot_count.
  rewrite (repr_slotCnt _ _ Hr). cbn. rewrite Z.opp_involutive, Nat2Z.id.
  apply list_eq. intros k. rewrite !list_lookup_fmap.
  destruct (v_slots v !! k) as [s|] eqn:Hk.
  - rewrite lookup_seq_lt by (by eapply lookup_lt_Some). cbn. f_equal. by eapply slot_record_spec.
  - rewrite lookup_seq_ge by (by apply lookup_ge_None). done.
Qed.

Lemma v_contents_slot v :
  wf v -> sp_slot (v_contents v) = first_idx free (v_slots v).
Proof.
  intros Hwf. apply first_idx_fmap. intros s [k Hk]%list_elem_of_lookup. by eapply wf_free.
Qed.

Lemma repr_bounds p v :
  repr p v -> wf v ->
  Z.of_nat (length (v_data v)) + 4 * Z.of_nat (length (v_slots v)) <= 1004.
Proof. intros _ Hwf. pose proof (wf_space _ Hwf). layout. lia. Qed.

End Reading.

(** ** Insertion *)

Section Insertion.
Implicit Types (p : block) (v : view) (r : Record).

Definition v_insert r v : view :=
  let k := first_idx free (v_slots v) in
  let s := Slot (Z.of_nat (length (v_data v))) (Z.of_nat (length r)) in
  View (if decide (k < length (v_slots v))%nat then <[k := s]> (v_slots v)
        else v_slots v ++ [s])
       (v_data v ++ r) (v_next v) (v_cur v).

Lemma v_insert_lookup r v j t :
  v_slots (v_insert r v) !! j = Some t ->
  (j = first_idx free (v_slots v) /\
   t = Slot (Z.of_nat (length (v_data v))) (Z.of_nat (length r))) \/
  (j <> first_idx free (v_slots v) /\ v_slots v !! j = Some t).
Proof.
  pose proof (first_idx_le free (v_slots v)). cbn. case_decide.
  - intros [(->&->&?)|[? ?]]%list_lookup_insert_Some; auto.
  - intros [?|[? Ht]]%lookup_app_Some.
    + right. split; [|done]. intros ->. apply lookup_lt_Some in H1. lia.
    + apply list_lookup_singleton_Some in Ht as [? <-]. left. split; [lia|done].
Qed.

Lemma v_insert_wf r v :
  wf v -> r <> [] -> Z.of_nat (length r) + sizeof_slot <= v_space v -> wf (v_insert r v).
Proof.
  intros Hwf Hr Hsp. pose proof (first_idx_le free (v_slots v)) as Hle.
  assert (0 < length r)%nat by (destruct r; [done|cbn; lia]). split.
  - unfold v_space in *. cbn [v_insert v_slots v_data]. rewrite length_app.
    case_decide; rewrite ?length_insert, ?length_app; cbn; layout; lia.
  - intros k s [[_ ->]|[_ Hk]]%v_insert_lookup; cbn [v_insert v_data]; rewrite length_app.
    + right. unfold live_in; cbn; lia.
    + destruct (wf_slots _ Hwf _ _ Hk) as [?|(?&?&?)]; [auto|]. right. unfold live_in; lia.
  - intros j k s t Hjk [[-> ->]|[? Hj]]%v_insert_lookup [[-> ->]|[? Hk]]%v_insert_lookup Hs Ht;
      [done| | |exact (wf_apart _ Hwf j k s t Hjk Hj Hk Hs Ht)].
    + destruct (wf_slots _ Hwf _ _ Hk) as [?|(?&?&?)]; [done|]. right; cbn; lia.
    + destruct (wf_slots _ Hwf _ _ Hj) as [?|(?&?&?)]; [done|]. left; cbn; lia.
  - unfold live_bytes. cbn [v_insert v_slots v_data]. rewrite length_app.
    pose proof (wf_sum _ Hwf) as Hsum. unfold live_bytes in Hsum. case_decide.
    + destruct (first_idx_lt free (v_slots v)) as (s & Hs & Hfree); [done|].
      unfold free in Hfree. apply bool_decide_eq_true in Hfree.
      pose proof (sum_list_with_insert (fun s => Z.to_nat (s_len s)) (v_slots v) _ _
        (Slot (Z.of_nat (length (v_data v))) (Z.of_nat (length r))) Hs) as Hi.
      cbn in Hi. rewrite Hfree in Hi. lia.
    + rewrite sum_list_with_app. cbn. lia.
  - intros s. cbn [v_insert v_slots]. case_decide.
    + rewrite !last_lookup, length_insert.
      intros [(_ & <- & _)|[_ Hl]]%list_lookup_insert_Some; [cbn; lia|].
      apply (wf_last _ Hwf). by rewrite last_lookup.
    + rewrite last_snoc. intros [= <-]. cbn. lia.
Qed.

Lemma v_insert_contents r v :
  wf v -> r <> [] -> v_contents (v_insert r v) = sp_insert r (v_contents v).
Proof.
  intros Hwf Hr. unfold sp_insert. rewrite v_contents_slot by done.
  assert (length (v_contents v) = length (v_slots v)) by apply length_fmap.
  unfold v_contents at 1. cbn [v_insert v_slots v_data].
  assert (0 < length r)%nat by (destruct r; [done|cbn; lia]).
  assert (rec_of (v_data v ++ r) (Slot (Z.of_nat (length (v_data v))) (Z.of_nat (length r))) = Some r) as Hnew.
  { unfold rec_of. cbn. rewrite decide_True by lia. apply rd_Some. rewrite length_app, !Nat2Z.id.
    split; [lia|]. by rewrite drop_app_length, take_ge. }
  assert (rec_of (v_data v ++ r) <$> v_slots v = rec_of (v_data v) <$> v_slots v) as Hold.
  { apply list_fmap_ext. intros k s Hk. unfold rec_of. case_decide; [|done].
    destruct (wf_slots _ Hwf _ _ Hk) as [?|(?&?&?)]; [lia|].
    apply rd_ext; rewrite ?length_app; try lia. intros. by rewrite lookup_app_l by lia. }
  repeat case_decide; try lia.
  - by rewrite list_fmap_insert, Hnew, Hold.
  - by rewrite fmap_app, Hold; cbn; rewrite Hnew.
Qed.

(** Storing a slot entry: the other slots of the array keep theirs. *)
Lemma slots_at_store (l l' : list slot_t) k o n p p1 p2 :
  slots_at 0 l p -> inS 16 o -> inS 16 n ->
  (forall j s, l' !! j = Some s -> (j = k /\ s = Slot o n) \/ (j <> k /\ l !! j = Some s)) ->
  set_slot_offset (- Z.of_nat k) o p = Some p1 ->
  set_slot_length (- Z.of_nat k) n p1 = Some p2 ->
  slots_at 0 l' p2.
Proof.
  intros Hl Ho Hn Hl' H1 H2 j s Hj.
  unfold set_slot_offset, set_slot_length, slot_offset, slot_length, off_slot, sizeof_slot, sizeof_short in *.
  destruct (Hl' _ _ Hj) as [[-> ->]|[Hne Hold]].
  - rewrite Z.sub_0_l. rd_through. cbn. by rewrite !wrapS_id.
  - destruct (Hl _ _ Hold) as [Hj1 Hj2]. unfold slot_offset, slot_length, off_slot, sizeof_slot, sizeof_short in *.
    rd_through. done.
Qed.

(** The update of the counters in [insertRecord], for a new or a reused slot. *)
Lemma insert_counters r v p :
  repr p v -> wf v -> Z.of_nat (length r) + sizeof_slot <= v_space v ->
  exists p1,
    (if decide (- Z.of_nat (first_idx free (v_slots v)) = - Z.of_nat (length (v_slots v)))
     then p ← wr16 off_freeSpace (v_space v - (Z.of_nat (length r) + sizeof_slot)) p;
          wr16 off_slotCnt (- Z.of_nat (length (v_slots v)) - 1) p
     else wr16 off_freeSpace (v_space v - Z.of_nat (length r)) p) = Some p1 /\
    length p1 = length p /\
    rd16 off_slotCnt p1 = Some (- Z.of_nat (length (v_slots (v_insert r v)))) /\
    rd16 off_freeSpace p1 = Some (v_space (v_insert r v)) /\
    (forall o n, o + n <= off_slotCnt \/ off_freePtr <= o /\ o + n <= off_freeSpace \/ off_nextPage <= o ->
       rd o n p1 = rd o n p).
Proof.
  intros Hr Hwf Hsp. pose proof (first_idx_le free (v_slots v)).
  pose proof (repr_length _ _ Hr). pose proof (wf_space _ Hwf).
  assert (inS 16 (v_space v - (Z.of_nat (length r) + sizeof_slot))) by (unfold inS; layout; lia).
  assert (inS 16 (v_space v - Z.of_nat (length r))) by (unfold inS; layout; lia).
  assert (inS 16 (- Z.of_nat (length (v_slots v)) - 1)) by (unfold inS; layout; lia).
  unfold v_insert, v_space in *. cbn [v_slots v_data]. rewrite length_app.
  case_decide; (case_decide; [try lia|try lia]).
  - layout. wr_step p1 Hw1. wr_step p2 Hw2. exists p2. rewrite length_app. cbn [length].
    split_and!; [done|congruence|rd_through; rewrite wrapS_id by (done || lia); f_equal; lia
      |rd_through; rewrite wrapS_id by (done || lia); f_equal; lia|].
    intros o n Ho. rd_through. done.
  - layout. wr_step p1 Hw1. exists p1. rewrite length_insert.
    split_and!; [done|congruence|rd_through; apply (repr_slotCnt _ _ Hr)
      |rd_through; rewrite wrapS_id by (done || lia); f_equal; lia|].
    intros o n Ho. rd_through. done.
Qed.

Lemma insertRecord_repr r v p :
  repr p v -> wf v -> r <> [] -> Z.of_nat (length r) + sizeof_slot <= v_space v ->
  exists p', insertRecord r p =
      Some (Ok (mkRID (v_cur v) (Z.of_nat (first_idx free (v_slots v)))), p') /\
    repr p' (v_insert r v).
Proof.
  intros Hr Hwf Hne Hsp. pose proof (first_idx_le free (v_slots v)) as Hk.
  pose proof (repr_length _ _ Hr) as Hlen. pose proof (repr_bounds _ _ Hr Hwf) as Hb.
  unfold insertRecord. rewrite (repr_freeSpace _ _ Hr). cbn [mbind option_bind].
  rewrite decide_False by lia. rewrite (repr_slotCnt _ _ Hr). cbn [mbind option_bind].
  replace (Z.to_nat (0 - - Z.of_nat (length (v_slots v)))) with (length (v_slots v)) by lia.
  pose proof (find_empty_spec _ _ _ (repr_slots _ _ Hr)) as Hfe. rewrite Z.sub_0_l in Hfe.
  rewrite Hfe. cbn [mbind option_bind].
  destruct (insert_counters r v p Hr Hwf Hsp) as (p1 & -> & Hl1 & Hcnt & Hfs & Hfr).
  cbn [mbind option_bind].
  assert (rd16 off_freePtr p1 = Some (Z.of_nat (length (v_data v)))) as ->.
  { unfold rd16. rewrite Hfr by (layout; lia). apply (repr_freePtr _ _ Hr). }
  cbn [mbind option_bind]. set (k := first_idx free (v_slots v)) in *.
  destruct (wr16_is_Some (off_slot (- Z.of_nat k)) (Z.of_nat (length (v_data v))) p1) as [p2 H2]; [layout; lia..|].
  unfold set_slot_offset at 1. rewrite H2. cbn [mbind option_bind]. wr_lens.
  destruct (wr16_is_Some (off_slot (- Z.of_nat k) + sizeof_short) (Z.of_nat (length r)) p2) as [p3 H3]; [layout; lia..|].
  unfold set_slot_length at 1. rewrite H3. cbn [mbind option_bind]. wr_lens.
  assert (slots_at 0 (v_slots (v_insert r v)) p3) as Hslots.
  { eapply (slots_at_store (v_slots v) _ k); [|..|exact H2|exact H3]; [|unfold inS; layout; lia..|].
    - intros j s Hj. pose proof (lookup_lt_Some _ _ _ Hj).
      destruct (repr_slots _ _ Hr _ _ Hj) as [? ?]. unfold slot_offset, slot_length, rd16 in *.
      rewrite !Hfr by (layout; lia). done.
    - apply v_insert_lookup. }
  layout. wr_step p4 H4. wr_step p5 H5.
  assert (rd32 1020 p5 = Some (v_cur v)) as ->.
  { rd_through. unfold rd32. rewrite Hfr by lia. apply (repr_cur _ _ Hr). }
  cbn [mbind option_bind]. exists p5. split; [by rewrite Z.opp_involutive|].
  assert (length (v_slots (v_insert r v)) <= S (length (v_slots v)))%nat as Hn.
  { cbn. case_decide; rewrite ?length_insert, ?length_app; cbn; lia. }
  split; cbn [v_insert v_data v_next v_cur]; rewrite ?length_app, ?Nat2Z.inj_add.
  - layout. lia.
  - layout. rd_through. exact Hcnt.
  - layout. rd_through. rewrite wrapS_id; [done|lia|unfold inS; lia].
  - layout. rd_through. exact Hfs.
  - layout. rd_through. unfold rd32. rewrite Hfr by lia. apply (repr_next _ _ Hr).
  - layout. rd_through. unfold rd32. rewrite Hfr by lia. apply (repr_cur _ _ Hr).
  - apply rd_app; rd_through.
    + rewrite Hfr by lia. apply (repr_data _ _ Hr).
    + rewrite Z.add_0_l. by apply (rd_wr_same _ _ _ _ _ H4).
  - intros j s Hj. pose proof (lookup_lt_Some _ _ _ Hj). destruct (Hslots _ _ Hj) as [Ho Hs].
    unfold slot_offset, slot_length in *. layout. clear H2 H3. rd_through. done.
Qed.

End Insertion.

(** ** Deletion *)

Section Deletion.
Implicit Types (p : block) (v : view) (s t : slot_t) (l : list slot_t).

Definition shift (hole len : Z) s : slot_t :=
  if decide (s_len s >= 0 /\ s_off s > hole) then Slot (s_off s - len) (s_len s) else s.

Definition cut (off len : Z) (d : block) : block :=
  take (Z.to_nat off) d ++ drop (Z.to_nat (off + len)) d.

Definition v_delete (k : nat) s v : view :=
  View (strip free (<[k := Slot 0 (-1)]> (shift (s_off s) (s_len s) <$> v_slots v)))
       (cut (s_off s) (s_len s) (v_data v)) (v_next v) (v_cur v).

(** The loop over the slots does what [shift] does to each of them. *)
Lemma shift_offsets_spec l i (slotNo hole len : Z) p :
  slots_at i l p -> slot_offset slotNo p = Some hole ->
  Z.of_nat (length p) = PAGESIZE -> 0 <= off_slot (i - Z.of_nat (length l) + 1) -> i <= 0 ->
  (forall s, s ∈ l -> s_len s >= 0 -> s_off s > hole -> inS 16 (s_off s - len)) ->
  exists p', shift_offsets (length l) i slotNo len p = Some p' /\
    length p' = length p /\ slots_at i (shift hole len <$> l) p' /\
    slot_offset slotNo p' = Some hole /\
    (forall o n, o + n <= off_slot (i - Z.of_nat (length l) + 1) \/ off_slot (i + 1) <= o ->
      rd o n p' = rd o n p).
Proof.
  revert i p. induction l as [|s l IH]; intros i p Hl Hhole Hlen Hlo Hi Hin.
  { exists p. split_and!; done. }
  apply slots_at_cons in Hl as [[Ho Hs] Hl]. cbn [length shift_offsets].
  rewrite Hs, Ho. cbn [mbind option_bind]. rewrite Hhole. cbn [mbind option_bind].
  assert (exists p1, (if decide (s_len s >= 0 /\ s_off s > hole)
      then set_slot_offset i (s_off s - len) p else Some p) = Some p1 /\
    length p1 = length p /\ slot_offset slotNo p1 = Some hole /\
    slot_offset i p1 = Some (s_off (shift hole len s)) /\
    (forall o n, o + n <= off_slot i \/ off_slot i + sizeof_short <= o ->
      rd o n p1 = rd o n p)) as (p1 & -> & Hl1 & Hh1 & Hi1 & Hfr1).
  { unfold shift. case_decide as Hc; [|exists p; split_and!; done].
    cbn [length] in Hlo. unfold set_slot_offset.
    destruct (wr16_is_Some (off_slot i) (s_off s - len) p) as [p1 H1]; [layout; lia..|].
    exists p1. rewrite H1. split_and!; [done|eauto with minirel| | |].
    - destruct (decide (slotNo = i)) as [->|Hne]; [rewrite Ho in Hhole; simplify_eq; lia|].
      unfold slot_offset in *. layout. rd_through. done.
    - unfold slot_offset. rewrite (rd16_wr16_same _ _ _ _ H1). cbn. f_equal.
      apply wrapS_id; [lia|]. apply Hin; [by left|lia|lia].
    - intros o n Hon. layout. rd_through. done. }
  cbn [mbind option_bind length] in *.
  assert (forall j : nat, slot_offset (i - 1 - Z.of_nat j) p1 = slot_offset (i - 1 - Z.of_nat j) p /\
    slot_length (i - 1 - Z.of_nat j) p1 = slot_length (i - 1 - Z.of_nat j) p) as Hrest.
  { intros j. unfold slot_offset, slot_length, rd16. rewrite !Hfr1 by (layout; lia). done. }
  destruct (IH (i - 1) p1) as (p' & Hrun & Hl' & Hsl & Hh' & Hfr').
  { intros j t Hj. destruct (Hrest j) as [-> ->]. auto. }
  { done. } { lia. } { layout; lia. } { lia. } { intros t Ht. apply Hin. by right. }
  exists p'. split_and!; [done|lia| |done|].
  - apply slots_at_cons. split; [|done]. unfold slot_offset, slot_length, rd16 in *.
    rewrite !Hfr' by (layout; lia). split; [done|].
    rewrite Hfr1 by (layout; lia). rewrite Hs. unfold shift. by case_decide.
  - intros o n Hon. rewrite Hfr' by (layout; lia). apply Hfr1. layout; lia.
Qed.

(** Popping gives back exactly the trailing free slots below the last one. *)
Lemma pop_slots_spec fuel l s p :
  slots_at 0 (l ++ [s]) p -> (length l <= fuel)%nat ->
  Z.of_nat (length p) = PAGESIZE -> 4 * Z.of_nat (length l) <= 1004 ->
  forall fs, rd16 off_slotCnt p = Some (- Z.of_nat (S (length l))) ->
  rd16 off_freeSpace p = Some fs -> 0 <= fs ->
  fs + 4 * Z.of_nat (S (length l)) <= 1004 ->
  exists p', pop_slots fuel p = Some p' /\ length p' = length p /\
    rd16 off_slotCnt p' = Some (- Z.of_nat (length (strip free l))) /\
    rd16 off_freeSpace p' =
      Some (fs + 4 * (Z.of_nat (S (length l)) - Z.of_nat (length (strip free l)))) /\
    (forall o n, o + n <= off_slotCnt \/ off_freePtr <= o /\ o + n <= off_freeSpace \/ off_nextPage <= o ->
       rd o n p' = rd o n p).
Proof.
  revert s p fuel. induction l as [|t l IH] using rev_ind;
    intros s p fuel Hl Hf Hlen Hbd fs Hcnt Hfs Hfs0 Hfs1;
    (destruct fuel as [|fuel]; cbn [pop_slots]; rewrite Hcnt; cbn [mbind option_bind]);
    rewrite ?length_app in *; cbn [length] in *; try lia.
  1,2: layout; wr_step p1 Hw1; rd_through; rewrite Hfs; cbn [mbind option_bind];
    wr_step p2 Hw2; rd_through; rewrite wrapS_id by (unfold inS; lia); cbn [mbind option_bind];
    rewrite decide_False by lia; exists p2; split_and!; [done|lia|by rd_through; rewrite wrapS_id by (unfold inS; lia)
      |by rd_through; rewrite wrapS_id by (unfold inS; lia)|by intros; rd_through].
  layout. wr_step p1 Hw1. rd_through. rewrite Hfs. cbn [mbind option_bind].
  wr_step p2 Hw2. rd_through. rewrite wrapS_id by (unfold inS; lia). cbn [mbind option_bind].
  rewrite decide_True by lia.
  assert (forall o n, o + n <= 1008 \/ 1010 <= o /\ o + n <= 1012 \/ 1016 <= o -> rd o n p2 = rd o n p) as Hfr.
  { intros o n Ho. by rd_through. }
  destruct (Hl (length l) t) as [Hlo Hls].
  { by rewrite <- app_assoc, lookup_app_r, Nat.sub_diag by done. }
  assert (slot_length (- Z.of_nat (S (length l + 1)) + 1 + 1) p2 = Some (s_len t)) as ->.
  { rewrite <- Hls. replace (- Z.of_nat (S (length l + 1)) + 1 + 1) with (0 - Z.of_nat (length l)) by lia.
    unfold slot_length, rd16. rewrite Hfr; [done|layout; lia]. }
  cbn [mbind option_bind]. rewrite strip_snoc. case_decide as Ht.
  - replace (free t) with true by (symmetry; by apply bool_decide_eq_true_2).
    destruct (IH t p2 fuel) with (fs := fs + 4) as (p' & Hrun & Hl' & Hcnt' & Hfs' & Hfr').
    { intros j u Hj. destruct (Hl j u) as [? ?]; [by rewrite lookup_app_l by (by eapply lookup_lt_Some)|].
      apply lookup_lt_Some in Hj. rewrite length_app in Hj. cbn in Hj.
      unfold slot_offset, slot_length, rd16 in *. rewrite !Hfr by (layout; lia). done. }
    { lia. } { lia. } { lia. }
    { rd_through. rewrite wrapS_id by (unfold inS; lia). f_equal. lia. }
    { rd_through. rewrite wrapS_id by (unfold inS; lia). f_equal. }
    { lia. } { lia. }
    exists p'. split_and!; [done|lia|done| |].
    + rewrite Hfs'. f_equal. lia.
    + intros o n Ho. by rewrite Hfr', Hfr.
  - replace (free t) with false by (symmetry; by apply bool_decide_eq_false_2).
    rewrite length_app. cbn [length]. exists p2. split_and!; [done|lia| | |done].
    + rd_through. rewrite wrapS_id by (unfold inS; lia). f_equal. lia.
    + rd_through. rewrite wrapS_id by (unfold inS; lia). f_equal. lia.
Qed.

Lemma shift_len hole len s : s_len (shift hole len s) = s_len s.
Proof. unfold shift. by case_decide. Qed.

(** A live slot apart from the deleted one is either to its right, and moves
    by its length, or to its left, and stays. *)
Lemma shift_live n s t :
  live_in n s -> live_in n t -> apart s t ->
  (s_off s + s_len s <= s_off t /\ shift (s_off s) (s_len s) t = Slot (s_off t - s_len s) (s_len t)) \/
  (s_off t + s_len t <= s_off s /\ shift (s_off s) (s_len s) t = t).
Proof.
  intros (?&?&?) (?&?&?) [?|?]; [left|right]; unfold shift.
  - rewrite decide_True by lia. done.
  - rewrite decide_False by lia. done.
Qed.

Lemma v_delete_lookup k s v j t' :
  v_slots (v_delete k s v) !! j = Some t' ->
  (j = k /\ t' = Slot 0 (-1)) \/
  (j <> k /\ exists t, v_slots v !! j = Some t /\ t' = shift (s_off s) (s_len s) t).
Proof.
  cbn. intros Hj.
  destruct (strip_prefix free (<[k:=Slot 0 (-1)]> (shift (s_off s) (s_len s) <$> v_slots v)))
    as (u & Hu & _).
  assert (<[k:=Slot 0 (-1)]> (shift (s_off s) (s_len s) <$> v_slots v) !! j = Some t') as H.
  { rewrite Hu. by apply lookup_app_l_Some. }
  apply list_lookup_insert_Some in H as [(<- & <- & _)|[? H]]; [auto|].
  rewrite list_lookup_fmap in H. apply fmap_Some in H as (t & ? & ->). eauto 6.
Qed.

Lemma cut_length off len d :
  0 <= off -> 0 <= len -> off + len <= Z.of_nat (length d) ->
  Z.of_nat (length (cut off len d)) = Z.of_nat (length d) - len.
Proof. intros. unfold cut. rewrite length_app, length_take, length_drop. lia. Qed.

Lemma v_delete_bytes k s l :
  l !! k = Some s -> 0 <= s_len s ->
  (live_bytes (strip free (<[k := Slot 0 (-1)]> (shift (s_off s) (s_len s) <$> l)))
     + Z.to_nat (s_len s) = live_bytes l)%nat.
Proof.
  intros Hk Hs. set (l1 := shift (s_off s) (s_len s) <$> l).
  assert (live_bytes l1 = live_bytes l) as Hl1.
  { unfold live_bytes, l1. clear. induction l as [|t l IH]; [done|]. cbn. by rewrite shift_len, IH. }
  destruct (strip_prefix free (<[k := Slot 0 (-1)]> l1)) as (u & Hu & Hfree).
  assert (live_bytes (strip free (<[k := Slot 0 (-1)]> l1)) = live_bytes (<[k := Slot 0 (-1)]> l1)) as ->.
  { rewrite Hu at 2. unfold live_bytes. rewrite sum_list_with_app, (sum_list_with_zero _ u); [lia|].
    eapply Forall_impl; [|exact Hfree]. intros t Ht. apply bool_decide_eq_true in Ht. by rewrite Ht. }
  assert (l1 !! k = Some (shift (s_off s) (s_len s) s)) as Hk1 by (unfold l1; by rewrite list_lookup_fmap, Hk).
  pose proof (sum_list_with_insert (fun s => Z.to_nat (s_len s)) l1 k _ (Slot 0 (-1)) Hk1) as Hi.
  rewrite <- Hl1. unfold live_bytes in *. cbn in *. rewrite shift_len in Hi. lia.
Qed.

Lemma v_delete_slots k s v :
  (length (v_slots (v_delete k s v)) <= length (v_slots v))%nat.
Proof.
  cbn. destruct (strip_prefix free (<[k:=Slot 0 (-1)]> (shift (s_off s) (s_len s) <$> v_slots v)))
    as (u & Hu & _).
  apply (f_equal length) in Hu. rewrite length_app, length_insert, length_fmap in Hu. lia.
Qed.

Lemma v_delete_wf k s v :
  wf v -> v_slots v !! k = Some s -> s_len s <> -1 -> wf (v_delete k s v).
Proof.
  intros Hwf Hk Hs. destruct (wf_slots _ Hwf _ _ Hk) as [|Hlive]; [done|].
  pose proof Hlive as (?&?&?). pose proof (v_delete_slots k s v).
  pose proof (cut_length (s_off s) (s_len s) (v_data v)) as Hcut.
  assert (forall j t, j <> k -> v_slots v !! j = Some t -> s_len t <> -1 ->
    (s_off s + s_len s <= s_off t /\ shift (s_off s) (s_len s) t = Slot (s_off t - s_len s) (s_len t)) \/
    (s_off t + s_len t <= s_off s /\ shift (s_off s) (s_len s) t = t)) as Hsh.
  { intros j t Hj Ht Hl. destruct (wf_slots _ Hwf _ _ Ht) as [|Hlt]; [done|].
    eapply shift_live; [done..|]. exact (wf_apart _ Hwf k j s t (not_eq_sym Hj) Hk Ht Hs Hl). }
  split.
  - pose proof (wf_space _ Hwf). unfold v_space in *. cbn [v_delete v_data] in *. layout. lia.
  - intros j t' [[_ ->]|(Hj & t & Ht & ->)]%v_delete_lookup; [by left|]. rewrite shift_len.
    destruct (decide (s_len t = -1)) as [|Hne]; [by left|right].
    destruct (wf_slots _ Hwf _ _ Ht) as [|(?&?&?)]; [done|].
    cbn [v_delete v_data] in *. unfold live_in.
    destruct (Hsh _ _ Hj Ht Hne) as [[? ->]|[? ->]]; cbn [s_off s_len]; lia.
  - intros i j t1 t2 Hij [[_ ->]|(Hi & u1 & Hu1 & ->)]%v_delete_lookup
      [[_ ->]|(Hj & u2 & Hu2 & ->)]%v_delete_lookup; rewrite ?shift_len; try done.
    intros Hl1 Hl2. pose proof (wf_apart _ Hwf i j _ _ Hij Hu1 Hu2 Hl1 Hl2) as Ha.
    destruct (wf_slots _ Hwf _ _ Hu1) as [|(?&?&?)]; [done|].
    destruct (wf_slots _ Hwf _ _ Hu2) as [|(?&?&?)]; [done|]. unfold apart in *.
    destruct (Hsh _ _ Hi Hu1 Hl1) as [[? ->]|[? ->]], (Hsh _ _ Hj Hu2 Hl2) as [[? ->]|[? ->]];
      cbn [s_off s_len]; lia.
  - pose proof (v_delete_bytes k s _ Hk). pose proof (wf_sum _ Hwf). cbn [v_delete v_slots v_data] in *. lia.
  - intros t Ht. apply strip_last in Ht. by apply bool_decide_eq_false in Ht.
Qed.

(** The record of a remaining slot is the same bytes, moved with them. *)
Lemma cut_rd s t n d :
  n = Z.of_nat (length d) -> live_in n s -> live_in n t ->
  (s_off s + s_len s <= s_off t -> rd (s_off t - s_len s) (s_len t) (cut (s_off s) (s_len s) d) = rd (s_off t) (s_len t) d) /\
  (s_off t + s_len t <= s_off s -> rd (s_off t) (s_len t) (cut (s_off s) (s_len s) d) = rd (s_off t) (s_len t) d).
Proof.
  intros -> (?&?&?) (?&?&?). pose proof (cut_length (s_off s) (s_len s) d).
  split; intros; (apply rd_ext; [lia..|]; intros j ?; unfold cut).
  - rewrite lookup_app_r by (rewrite length_take; lia).
    rewrite lookup_drop, length_take. f_equal. lia.
  - rewrite lookup_app_l by (rewrite length_take; lia). apply lookup_take_lt. lia.
Qed.

Lemma v_delete_rec k s v j t :
  wf v -> v_slots v !! k = Some s -> s_len s <> -1 -> v_slots v !! j = Some t -> j <> k ->
  rec_of (cut (s_off s) (s_len s) (v_data v)) (shift (s_off s) (s_len s) t) = rec_of (v_data v) t.
Proof.
  intros Hwf Hk Hs Ht Hj. unfold rec_of. rewrite shift_len. case_decide as Hp; [|done].
  destruct (wf_slots _ Hwf _ _ Hk) as [|Hlive]; [done|].
  destruct (wf_slots _ Hwf _ _ Ht) as [|Hlt]; [lia|].
  destruct (cut_rd s t _ (v_data v) eq_refl Hlive Hlt) as [Hr Hl].
  assert (apart s t) as Ha by (apply (wf_apart _ Hwf k j s t); [congruence|done|done|done|lia]).
  destruct (shift_live _ s t Hlive Hlt Ha) as [[? ->]|[? ->]]; cbn [s_off s_len]; auto.
Qed.

Lemma v_delete_contents k s v :
  wf v -> v_slots v !! k = Some s -> s_len s <> -1 ->
  v_contents (v_delete k s v) = sp_delete k (v_contents v).
Proof.
  intros Hwf Hk Hs. unfold sp_delete, v_contents. cbn [v_delete v_slots v_data].
  set (d' := cut (s_off s) (s_len s) (v_data v)).
  set (l1 := <[k:=Slot 0 (-1)]> (shift (s_off s) (s_len s) <$> v_slots v)).
  assert (forall j t', l1 !! j = Some t' -> (j = k /\ t' = Slot 0 (-1)) \/
    (j <> k /\ exists t, v_slots v !! j = Some t /\ t' = shift (s_off s) (s_len s) t)) as Hl1.
  { intros j t' [(<- & <- & _)|[? Ht]]%list_lookup_insert_Some; [auto|]. right. split; [done|].
    rewrite list_lookup_fmap in Ht. apply fmap_Some in Ht as (t & ? & ->). eauto. }
  assert (<[k:=None]> (rec_of (v_data v) <$> v_slots v) = rec_of d' <$> l1) as ->.
  { apply list_eq. intros j. unfold l1. rewrite list_fmap_insert.
    destruct (decide (j = k)) as [->|Hj].
    - pose proof (lookup_lt_Some _ _ _ Hk).
      rewrite !list_lookup_insert_eq by (rewrite !length_fmap; done). done.
    - rewrite !list_lookup_insert_ne, !list_lookup_fmap by done.
      destruct (v_slots v !! j) as [t|] eqn:Ht; [|done]. cbn. f_equal. symmetry.
      by eapply v_delete_rec. }
  symmetry. apply strip_fmap. intros t' [j Hj]%list_elem_of_lookup.
  destruct (Hl1 _ _ Hj) as [[_ ->]|(Hne & t & Ht & ->)]; [done|].
  unfold d'. erewrite v_delete_rec by done. erewrite wf_free by done.
  unfold free. by rewrite shift_len.
Qed.

Lemma bcopy_cut p d s :
  rd 0 (Z.of_nat (length d)) p = Some d -> live_in (Z.of_nat (length d)) s ->
  exists p1,
    bcopy (s_off s + s_len s) (s_off s) (Z.of_nat (length d) - (s_off s + s_len s)) p = Some p1 /\
    length p1 = length p /\
    rd 0 (Z.of_nat (length d) - s_len s) p1 = Some (cut (s_off s) (s_len s) d) /\
    (forall o n, Z.of_nat (length d) <= o -> rd o n p1 = rd o n p).
Proof.
  intros Hd (?&?&?). pose proof (proj1 (rd_Some _ _ _ _) Hd) as [? _]. unfold bcopy.
  set (m := Z.of_nat (length d) - (s_off s + s_len s)).
  assert (rd (s_off s + s_len s) m p = Some (drop (Z.to_nat (s_off s + s_len s)) d)) as Hrest.
  { rewrite <- (Z.add_0_l (s_off s + s_len s)) at 1. rewrite <- (rd_rd _ _ _ _ _ m Hd) by lia.
    apply rd_Some. split; [lia|]. rewrite take_ge; [done|]. rewrite length_drop. lia. }
  pose proof (rd_length _ _ _ _ Hrest) as Hlen. rewrite Hrest. cbn [mbind option_bind].
  destruct (wr_is_Some (s_off s) (drop (Z.to_nat (s_off s + s_len s)) d) p) as [p1 Hw]; [lia..|].
  exists p1. split_and!; [done|eauto with minirel| |].
  - replace (Z.of_nat (length d) - s_len s) with (s_off s + m) by lia. apply rd_app.
    + rewrite (rd_wr_disj _ _ _ _ _ _ Hw) by lia. rewrite <- (Z.add_0_l 0) at 1.
      rewrite <- (rd_rd _ _ _ _ _ _ Hd) by lia. apply rd_Some. split; [lia|done].
    + rewrite Z.add_0_l. apply (rd_wr_same _ _ _ _ _ Hw). lia.
  - intros o n Ho. by rewrite (rd_wr_disj _ _ _ _ _ _ Hw) by lia.
Qed.

(** [close_hole] leaves a page that represents the shifted slots. *)
Definition v_compact s v : view :=
  View (shift (s_off s) (s_len s) <$> v_slots v) (cut (s_off s) (s_len s) (v_data v))
       (v_next v) (v_cur v).

Lemma close_hole_repr k s v p :
  repr p v -> wf v -> v_slots v !! k = Some s -> s_len s <> -1 ->
  exists p', close_hole (- Z.of_nat k) (- Z.of_nat (length (v_slots v))) (s_len s) p = Some p' /\
    repr p' (v_compact s v).
Proof.
  intros Hr Hwf Hk Hs. pose proof (lookup_lt_Some _ _ _ Hk) as Hkl.
  destruct (wf_slots _ Hwf _ _ Hk) as [|Hlive]; [done|]. pose proof Hlive as (?&?&?).
  pose proof (repr_length _ _ Hr) as Hlen. pose proof (repr_bounds _ _ Hr Hwf) as Hb.
  pose proof (cut_length (s_off s) (s_len s) (v_data v)) as Hcut.
  destruct (repr_slots _ _ Hr _ _ Hk) as [Hso _]. rewrite Z.sub_0_l in Hso.
  unfold close_hole. rewrite Hso, (repr_freePtr _ _ Hr). cbn [mbind option_bind].
  destruct (bcopy_cut p (v_data v) s (repr_data _ _ Hr) Hlive) as (p1 & -> & Hl1 & Hd1 & Hfr1).
  cbn [mbind option_bind].
  replace (Z.to_nat (0 - - Z.of_nat (length (v_slots v)))) with (length (v_slots v)) by lia.
  destruct (shift_offsets_spec (v_slots v) 0 (- Z.of_nat k) (s_off s) (s_len s) p1)
    as (p2 & -> & Hl2 & Hsl2 & _ & Hfr2).
  { intros j t Hj. pose proof (lookup_lt_Some _ _ _ Hj).
    destruct (repr_slots _ _ Hr _ _ Hj). unfold slot_offset, slot_length, rd16 in *.
    rewrite !Hfr1 by (layout; lia). done. }
  { unfold slot_offset, rd16 in *. rewrite Hfr1 by (layout; lia). done. }
  { lia. } { layout; lia. } { lia. }
  { intros t [j Hj]%list_elem_of_lookup ? ?.
    destruct (wf_slots _ Hwf _ _ Hj) as [|(?&?&?)]; [lia|].
    assert (j <> k) as Hjk by (intros ->; simplify_eq; lia).
    destruct (wf_apart _ Hwf k j s t (not_eq_sym Hjk) Hk Hj) as [?|?]; [done|lia|unfold inS; lia|lia]. }
  assert (forall o n, 1008 <= o -> rd o n p2 = rd o n p) as Hhi.
  { intros o n Ho. rewrite Hfr2, Hfr1 by (layout; lia). done. }
  cbn [mbind option_bind]. layout. wr_step p3 Hw3.
  assert (rd16 1012 p3 = Some (v_space v)) as ->.
  { rd_through. unfold rd16. rewrite Hhi by lia. apply (repr_freeSpace _ _ Hr). }
  cbn [mbind option_bind]. layout. wr_step p4 Hw4. exists p4. split; [done|].
  split; cbn [v_compact v_slots v_data v_next v_cur]; rewrite ?length_fmap.
  - layout. lia.
  - layout. rd_through. unfold rd16. rewrite Hhi by lia. apply (repr_slotCnt _ _ Hr).
  - layout. rd_through. rewrite wrapS_id by (unfold inS; lia). f_equal. lia.
  - layout. rd_through. rewrite wrapS_id by (unfold inS; lia). f_equal. cbn [v_compact v_data v_slots]. rewrite ?length_fmap. lia.
  - layout. rd_through. unfold rd32. rewrite Hhi by lia. apply (repr_next _ _ Hr).
  - layout. rd_through. unfold rd32. rewrite Hhi by lia. apply (repr_cur _ _ Hr).
  - rd_through. rewrite Hfr2 by (layout; lia). rewrite Hcut by lia. done.
  - intros j t Hj. destruct (Hsl2 _ _ Hj). unfold slot_offset, slot_length in *. layout. by rd_through.
Qed.

(** Both ends of [deleteRecord] leave the slots of [v_delete]: the deleted
    slot was the last one and the trailing free slots are given back, or it
    is marked free. *)
Lemma v_delete_last s v l :
  v_slots v = l ++ [s] ->
  v_slots (v_delete (length l) s v) = strip free (shift (s_off s) (s_len s) <$> l).
Proof.
  intros Hv. cbn. rewrite Hv, fmap_app. cbn. rewrite insert_app_r_alt by (by rewrite length_fmap).
  rewrite length_fmap, Nat.sub_diag. cbn. by rewrite strip_snoc.
Qed.

Lemma v_delete_middle k s v :
  wf v -> v_slots v !! k = Some s -> S k <> length (v_slots v) ->
  v_slots (v_delete k s v) = <[k := Slot 0 (-1)]> (shift (s_off s) (s_len s) <$> v_slots v).
Proof.
  intros Hwf Hk Hne. apply lookup_lt_Some in Hk. apply strip_id. intros t.
  rewrite last_lookup, length_insert, length_fmap.
  intros [(? & <- & _)|[_ Ht]]%list_lookup_insert_Some; [lia|].
  rewrite list_lookup_fmap in Ht. apply fmap_Some in Ht as (u & Hu & ->).
  apply bool_decide_eq_false_2. rewrite shift_len. apply (wf_last _ Hwf). by rewrite last_lookup.
Qed.

Lemma pop_slots_repr k s v p :
  repr p (v_compact s v) -> wf v -> v_slots v !! k = Some s -> s_len s <> -1 ->
  S k = length (v_slots v) ->
  exists p', pop_slots (length (v_slots v)) p = Some p' /\ repr p' (v_delete k s v).
Proof.
  intros Hr Hwf Hk Hs Hlast. pose proof (repr_length _ _ Hr) as Hlen.
  pose proof (v_delete_wf k s v Hwf Hk Hs) as Hwf'. pose proof (wf_space _ Hwf').
  pose proof (wf_space _ Hwf) as Hsp.
  destruct (wf_slots _ Hwf _ _ Hk) as [|(?&?&?)]; [done|].
  pose proof (cut_length (s_off s) (s_len s) (v_data v)) as Hcut.
  assert (exists l, v_slots v = l ++ [s] /\ length l = k) as (l & Hl & Hlk).
  { exists (take k (v_slots v)). rewrite length_take. split; [|lia].
    rewrite <- (take_drop_middle _ _ _ Hk) at 1. by rewrite drop_ge by lia. }
  pose proof (v_delete_last s v l Hl) as Hdel. rewrite Hlk in Hdel.
  destruct (pop_slots_spec (length (v_slots v)) (shift (s_off s) (s_len s) <$> l)
    (shift (s_off s) (s_len s) s) p) with (fs := v_space (v_compact s v))
    as (p' & Hrun & Hl' & Hcnt & Hfs & Hfr).
  { pose proof (repr_slots _ _ Hr) as Hsl. cbn in Hsl. by rewrite Hl, fmap_app in Hsl. }
  { rewrite length_fmap. lia. } { lia. } { rewrite length_fmap. layout. lia. }
  { rewrite length_fmap. rewrite (repr_slotCnt _ _ Hr). cbn. rewrite length_fmap. do 2 f_equal. lia. }
  { apply (repr_freeSpace _ _ Hr). }
  { unfold v_space in *. cbn [v_compact v_data v_slots] in *. rewrite length_fmap. layout. lia. }
  { unfold v_space in *. cbn [v_compact v_data v_slots] in *. rewrite !length_fmap. layout. lia. }
  exists p'. split; [done|]. rewrite <- Hdel in Hcnt, Hfs. rewrite length_fmap in Hfs.
  pose proof (v_delete_slots k s v).
  assert (forall o n, o + n <= 1008 \/ 1010 <= o /\ o + n <= 1012 \/ 1016 <= o -> rd o n p' = rd o n p) as Hfr'.
  { exact Hfr. }
  split; cbn [v_delete v_data v_next v_cur].
  - lia.
  - exact Hcnt.
  - unfold rd16. rewrite Hfr' by (layout; lia). apply (repr_freePtr _ _ Hr).
  - rewrite Hfs. f_equal. unfold v_space. cbn [v_compact v_data v_slots v_delete] in *.
    rewrite length_fmap. layout. lia.
  - unfold rd32. rewrite Hfr' by (layout; lia). apply (repr_next _ _ Hr).
  - unfold rd32. rewrite Hfr' by (layout; lia). apply (repr_cur _ _ Hr).
  - rewrite Hfr' by (layout; lia). apply (repr_data _ _ Hr).
  - intros j t Hj. pose proof (lookup_lt_Some _ _ _ Hj). rewrite Hdel in Hj.
    destruct (strip_prefix free (shift (s_off s) (s_len s) <$> l)) as (u & Hu & _).
    destruct (repr_slots _ _ Hr j t) as [? ?].
    { cbn. rewrite Hl, fmap_app. apply lookup_app_l_Some. rewrite Hu. by apply lookup_app_l_Some. }
    unfold slot_offset, slot_length, rd16 in *. rewrite !Hfr' by (layout; lia). done.
Qed.

Lemma mark_free_repr k s v p :
  repr p (v_compact s v) -> wf v -> v_slots v !! k = Some s -> s_len s <> -1 ->
  S k <> length (v_slots v) ->
  exists p1 p', set_slot_length (- Z.of_nat k) (-1) p = Some p1 /\
    set_slot_offset (- Z.of_nat k) 0 p1 = Some p' /\ repr p' (v_delete k s v).
Proof.
  intros Hr Hwf Hk Hs Hne. pose proof (repr_length _ _ Hr) as Hlen. pose proof (wf_space _ Hwf) as Hsp.
  destruct (wf_slots _ Hwf _ _ Hk) as [|(?&?&?)]; [done|].
  pose proof (cut_length (s_off s) (s_len s) (v_data v)) as Hcut.
  pose proof (lookup_lt_Some _ _ _ Hk). pose proof (v_delete_middle k s v Hwf Hk Hne) as Hdel.
  unfold set_slot_length, set_slot_offset. layout. wr_step p1 Hw1. exists p1. wr_step p2 Hw2.
  exists p2. split_and!; [done|done|].
  split; rewrite ?Hdel; cbn [v_delete v_data v_next v_cur].
  - layout. lia.
  - layout. rd_through. rewrite length_insert. apply (repr_slotCnt _ _ Hr).
  - layout. rd_through. apply (repr_freePtr _ _ Hr).
  - unfold v_space. rewrite Hdel. cbn [v_delete v_data]. rewrite length_insert.
    layout. rd_through. apply (repr_freeSpace _ _ Hr).
  - layout. rd_through. apply (repr_next _ _ Hr).
  - layout. rd_through. apply (repr_cur _ _ Hr).
  - rd_through. apply (repr_data _ _ Hr).
  - intros j t. unfold slot_offset, slot_length. layout.
    intros [(<- & <- & _)|[Hjk Hj]]%list_lookup_insert_Some; rewrite Z.sub_0_l.
    + rd_through. done.
    + destruct (repr_slots _ _ Hr _ _ Hj) as [Ho Hl]. unfold slot_offset, slot_length in *.
      rewrite Z.sub_0_l in *. layout. rd_through. done.
Qed.

Lemma deleteRecord_repr (rid : RID) k s v p :
  repr p v -> wf v -> v_slots v !! k = Some s -> s_len s <> -1 -> slotNo rid = Z.of_nat k ->
  exists p', deleteRecord rid p = Some (OK, p') /\ repr p' (v_delete k s v).
Proof.
  intros Hr Hwf Hk Hs Hrid. pose proof (lookup_lt_Some _ _ _ Hk) as Hkl.
  destruct (wf_slots _ Hwf _ _ Hk) as [|(?&?&?)]; [done|].
  pose proof (repr_bounds _ _ Hr Hwf) as Hb.
  destruct (repr_slots _ _ Hr _ _ Hk) as [_ Hsl]. rewrite Z.sub_0_l in Hsl.
  unfold deleteRecord. rewrite Hrid, wrapS_id by (unfold inS; lia).
  rewrite (repr_slotCnt _ _ Hr). cbn [mbind option_bind]. rewrite decide_True by lia.
  rewrite Hsl. cbn [mbind option_bind]. rewrite decide_True by lia.
  destruct (close_hole_repr k s v p Hr Hwf Hk Hs) as (p1 & -> & Hr1). cbn [mbind option_bind].
  case_decide as Hlast.
  - replace (Z.to_nat (0 - - Z.of_nat (length (v_slots v)))) with (length (v_slots v)) by lia.
    destruct (pop_slots_repr k s v p1 Hr1 Hwf Hk Hs) as (p' & -> & Hr'); [lia|]. eauto.
  - destruct (mark_free_repr k s v p1 Hr1 Hwf Hk Hs) as (p2 & p' & -> & Hw & Hr'); [lia|].
    cbn [mbind option_bind]. rewrite Hw. eauto.
Qed.

End Deletion.

(** ** The reference operations *)

Section Reference.
Implicit Types (c : list (option Record)) (r : Record).

Lemma sp_insert_same r c : sp_insert r c !! sp_slot c = Some (Some r).
Proof.
  unfold sp_insert, sp_slot. pose proof (first_idx_le no_rec c).
  case_decide; [by apply list_lookup_insert_eq|].
  rewrite lookup_app_r by lia. by replace (_ - _)%nat with O by lia.
Qed.

Lemma sp_insert_other r c j : j <> sp_slot c -> sp_insert r c !! j = c !! j.
Proof.
  unfold sp_insert, sp_slot. intros Hj.
  pose proof (first_idx_le no_rec c).
  case_decide; [by apply list_lookup_insert_ne|].
  destruct (decide (j < length c)%nat); [by apply lookup_app_l|].
  rewrite lookup_app_r, (lookup_ge_None_2 c) by lia. destruct (j - length c)%nat eqn:?; [lia|done].
Qed.

(** Deleting what an insertion added restores the list, when it ended in a
    record. *)
Lemma sp_delete_insert r c :
  (forall o, last c = Some o -> no_rec o = false) ->
  sp_delete (sp_slot c) (sp_insert r c) = c.
Proof.
  intros Hlast. unfold sp_delete, sp_insert. case_decide as Hlt.
  - rewrite list_insert_insert_eq, list_insert_id.
    + by apply strip_id.
    + destruct (first_idx_lt no_rec c Hlt) as (o & Ho & Hn).
      apply bool_decide_eq_true in Hn. by subst o.
  - assert (sp_slot c = length c) as -> by (pose proof (first_idx_le no_rec c); unfold sp_slot in *; lia).
    rewrite insert_app_r_alt, Nat.sub_diag by done. cbn. rewrite strip_snoc. by apply strip_id.
Qed.

(** The slot an insertion takes held no record. *)
Lemma sp_slot_free c r : c !! sp_slot c <> Some (Some r).
Proof.
  unfold sp_slot. intros H.
  destruct (first_idx_lt no_rec c) as (x & Hx & Hd);
    [by eapply lookup_lt_Some|].
  apply bool_decide_eq_true in Hd. congruence.
Qed.

Lemma sp_delete_lookup k c j r :
  sp_delete k c !! j = Some (Some r) <-> j <> k /\ c !! j = Some (Some r).
Proof.
  unfold sp_delete.
  destruct (strip_prefix no_rec (<[k:=None]> c)) as (t & Ht & Hall).
  set (s := strip _ _) in *. split.
  - intros H. assert (<[k:=None]> c !! j = Some (Some r)) as Hj by (rewrite Ht; by apply lookup_app_l_Some).
    apply list_lookup_insert_Some in Hj as [(?&?&?)|[? ?]]; [done|auto].
  - intros [Hjk Hj]. assert (<[k:=None]> c !! j = Some (Some r)) as Hj' by (by rewrite list_lookup_insert_ne).
    rewrite Ht in Hj'. apply lookup_app_Some in Hj' as [?|[_ Hu]]; [done|].
    rewrite Forall_lookup in Hall. apply Hall in Hu. by apply bool_decide_eq_true in Hu.
Qed.

Lemma sp_next_Some k c j :
  sp_next k c = Some j <->
  (k <= j)%nat /\ (exists r, c !! j = Some (Some r)) /\
  forall i r, (k <= i < j)%nat -> c !! i <> Some (Some r).
Proof.
  unfold sp_next.
  pose proof (first_idx_le has_rec (drop k c)) as Hle. rewrite length_drop in Hle. split.
  - case_decide as Hlt; [|done]. intros [= <-]. split; [lia|].
    destruct (first_idx_lt has_rec (drop k c)) as (x & Hx & HP); [rewrite length_drop; lia|].
    rewrite lookup_drop in Hx. destruct x as [r|]; [|done].
    split; [eauto|]. intros i r' Hi Hc.
    assert (drop k c !! (i - k)%nat = Some (Some r')) as Hd.
    { rewrite lookup_drop. by replace (k + (i - k))%nat with i by lia. }
    apply (first_idx_before has_rec) in Hd; [done|lia].
  - intros (Hkj & [r Hj] & Hbefore). pose proof (lookup_lt_Some _ _ _ Hj).
    assert (drop k c !! (j - k)%nat = Some (Some r)) as Hd.
    { rewrite lookup_drop. by replace (k + (j - k))%nat with j by lia. }
    assert (first_idx has_rec (drop k c) = (j - k)%nat) as ->.
    { destruct (lt_eq_lt_dec (first_idx has_rec (drop k c)) (j - k)) as [[Hlt|]|Hgt]; [|done|].
      - destruct (first_idx_lt has_rec (drop k c)) as (x & Hx & HP); [rewrite length_drop; lia|].
        rewrite lookup_drop in Hx. destruct x as [r'|]; [|done].
        edestruct (Hbefore (k + first_idx has_rec (drop k c))%nat r'); [lia|done].
      - apply (first_idx_before has_rec) in Hd; done. }
    rewrite decide_True by lia. f_equal. lia.
Qed.

End Reference.

(** ** Correctness of class [Page] *)

Section Correctness.
Implicit Types (p : block) (r : Record).

Lemma contents_lookup p v k :
  repr p v -> wf v -> contents p !! k = rec_of (v_data v) <$> v_slots v !! k.
Proof. intros Hr Hwf. rewrite (contents_spec p v Hr Hwf). apply list_lookup_fmap. Qed.

(** A slot holds a record exactly when its view entry is live. *)
Lemma contents_live p v k r :
  repr p v -> wf v -> contents p !! k = Some (Some r) ->
  exists s, v_slots v !! k = Some s /\ s_len s <> -1 /\
    live_in (Z.of_nat (length (v_data v))) s /\ rd (s_off s) (s_len s) (v_data v) = Some r.
Proof.
  intros Hr Hwf Hc. rewrite (contents_lookup p v k Hr Hwf) in Hc.
  apply fmap_Some in Hc as (s & Hs & Hrec). symmetry in Hrec. unfold rec_of in Hrec.
  case_decide; [|done]. exists s. destruct (wf_slots _ Hwf _ _ Hs) as [|Hl]; [lia|].
  split_and!; [done|lia|done|done].
Qed.

Lemma contents_last p o : page_ok p -> last (contents p) = Some o -> no_rec o = false.
Proof.
  intros (v & Hr & Hwf). rewrite (contents_spec p v Hr Hwf). unfold v_contents.
  rewrite fmap_last. intros (s & Hs & ->)%fmap_Some.
  pose proof (wf_last _ Hwf s Hs). rewrite last_lookup in Hs.
  rewrite (wf_free v _ s Hwf Hs). by apply bool_decide_eq_false_2.
Qed.

Lemma contents_dead p v k s :
  repr p v -> wf v -> v_slots v !! k = Some s ->
  (forall r, contents p !! k <> Some (Some r)) -> s_len s = -1.
Proof.
  intros Hr Hwf Hs Hc. destruct (wf_slots _ Hwf _ _ Hs) as [|(?&?&?)]; [done|].
  destruct (rd_is_Some (s_off s) (s_len s) (v_data v)) as [r Hrd]; [lia..|].
  destruct (Hc r). rewrite (contents_lookup p v k Hr Hwf), Hs. cbn. unfold rec_of.
  by rewrite decide_True, Hrd by lia.
Qed.

Lemma insertRecord_ok p r :
  page_ok p -> r <> [] ->
  exists fs, getFreeSpace p = Some fs /\
  if decide (Z.of_nat (length r) + sizeof_slot > fs)
  then insertRecord r p = Some (Err NOSPACE, p)
  else exists p' cur, rd32 off_curPage p = Some cur /\
    insertRecord r p = Some (Ok (mkRID cur (Z.of_nat (sp_slot (contents p)))), p') /\
    page_ok p' /\ contents p' = sp_insert r (contents p) /\
    getFreeSpace p' = Some (fs - Z.of_nat (length r) -
      sizeof_slot * (Z.of_nat (length (contents p')) - Z.of_nat (length (contents p)))) /\
    getNextPage p' = getNextPage p /\ rd32 off_curPage p' = Some cur.
Proof.
  intros (v & Hr & Hwf) Hne. exists (v_space v). split; [apply (repr_freeSpace _ _ Hr)|].
  case_decide as Hsp.
  { unfold insertRecord. rewrite (repr_freeSpace _ _ Hr). cbn [mbind option_bind].
    by rewrite decide_True. }
  destruct (insertRecord_repr r v p Hr Hwf Hne) as (p' & Hrun & Hr'); [lia|].
  pose proof (v_insert_wf r v Hwf Hne ltac:(lia)) as Hwf'.
  exists p', (v_cur v). split_and!.
  - apply (repr_cur _ _ Hr).
  - by rewrite Hrun, (contents_spec p v), v_contents_slot.
  - by exists (v_insert r v).
  - rewrite (contents_spec p' _ Hr' Hwf'), (contents_spec p v Hr Hwf). by apply v_insert_contents.
  - rewrite (contents_spec p' _ Hr' Hwf'), (contents_spec p v Hr Hwf).
    unfold getFreeSpace. rewrite (repr_freeSpace _ _ Hr'). f_equal.
    unfold v_space, v_contents. rewrite !length_fmap. cbn [v_insert v_data]. rewrite length_app. layout. lia.
  - unfold getNextPage. by rewrite (repr_next _ _ Hr), (repr_next _ _ Hr').
  - apply (repr_cur _ _ Hr').
Qed.

Lemma deleteRecord_ok p (rid : RID) (k : nat) :
  page_ok p -> slotNo rid = Z.of_nat k -> Z.of_nat k < 2 ^ 31 ->
  match contents p !! k with
  | Some (Some r) => exists p', deleteRecord rid p = Some (OK, p') /\ page_ok p' /\
      contents p' = sp_delete k (contents p) /\
      getNextPage p' = getNextPage p /\ rd32 off_curPage p' = rd32 off_curPage p
  | _ => deleteRecord rid p = Some (INVALIDSLOTNO, p)
  end.
Proof.
  intros (v & Hr & Hwf) Hk Hk31.
  assert ((forall r, contents p !! k <> Some (Some r)) -> deleteRecord rid p = Some (INVALIDSLOTNO, p)) as Hbad.
  { intros Hc. unfold deleteRecord. rewrite Hk, wrapS_id by (unfold inS; lia).
    rewrite (repr_slotCnt _ _ Hr). cbn [mbind option_bind]. case_decide as Hlt; [|done].
    destruct (lookup_lt_is_Some_2 (v_slots v) k) as [s Hs]; [lia|].
    destruct (repr_slots _ _ Hr _ _ Hs) as [_ Hsl]. rewrite Z.sub_0_l in Hsl. rewrite Hsl.
    cbn [mbind option_bind]. rewrite (contents_dead p v k s Hr Hwf Hs Hc). by rewrite decide_False by lia. }
  destruct (contents p !! k) as [[r|]|] eqn:Hc; [|apply Hbad; congruence..].
  destruct (contents_live p v k r Hr Hwf Hc) as (s & Hs & Hl & _ & _).
  destruct (deleteRecord_repr rid k s v p Hr Hwf Hs Hl Hk) as (p' & Hrun & Hr').
  pose proof (v_delete_wf k s v Hwf Hs Hl) as Hwf'.
  exists p'. split_and!; [done|by exists (v_delete k s v)| | |].
  - rewrite (contents_spec p' _ Hr' Hwf'), (contents_spec p v Hr Hwf). by apply v_delete_contents.
  - unfold getNextPage. by rewrite (repr_next _ _ Hr), (repr_next _ _ Hr').
  - by rewrite (repr_cur _ _ Hr), (repr_cur _ _ Hr').
Qed.

Lemma getRecord_ok p (rid : RID) (k : nat) :
  page_ok p -> slotNo rid = Z.of_nat k -> Z.of_nat k < 2 ^ 31 ->
  getRecord rid p =
    Some match contents p !! k with Some (Some r) => Ok r | _ => Err INVALIDSLOTNO end.
Proof.
  intros (v & Hr & Hwf) Hk Hk31. unfold getRecord. rewrite Hk, wrapS_id by (unfold inS; lia).
  rewrite (repr_slotCnt _ _ Hr). cbn [mbind option_bind]. case_decide as Hlt.
  - destruct (lookup_lt_is_Some_2 (v_slots v) k) as [s Hs]; [lia|].
    destruct (repr_slots _ _ Hr _ _ Hs) as [Hso Hsl]. rewrite Z.sub_0_l in Hso, Hsl.
    rewrite Hsl, (contents_lookup p v k Hr Hwf), Hs. cbn. unfold rec_of.
    destruct (wf_slots _ Hwf _ _ Hs) as [Hf|Hlive].
    + by rewrite !decide_False by lia.
    + pose proof Hlive as (?&?&?). rewrite !decide_True by lia. rewrite Hso. cbn.
      rewrite (wf_rd_data p v s Hr Hlive). by destruct (rd_is_Some (s_off s) (s_len s) (v_data v)) as [r ->]; [lia..|].
  - rewrite (contents_lookup p v k Hr Hwf), lookup_ge_None_2 by lia. done.
Qed.

Lemma sp_next_view p v k :
  repr p v -> wf v ->
  sp_next k (contents p) =
    let j := (k + first_idx (fun s => negb (free s)) (drop k (v_slots v)))%nat in
    if decide (j < length (v_slots v))%nat then Some j else None.
Proof.
  intros Hr Hwf. unfold sp_next. rewrite (contents_spec p v Hr Hwf). unfold v_contents.
  rewrite <- fmap_drop.
  rewrite (first_idx_fmap _ _ (fun s => negb (free s))).
  - assert (length (rec_of (v_data v) <$> v_slots v) = length (v_slots v)) by apply length_fmap.
    cbn zeta. repeat case_decide; try lia; done.
  - intros s [j Hj]%list_elem_of_lookup. rewrite lookup_drop in Hj.
    unfold has_rec. by rewrite (wf_free v _ s Hwf Hj).
Qed.

Lemma firstRecord_ok p cur :
  page_ok p -> rd32 off_curPage p = Some cur ->
  firstRecord p = Some match sp_next 0 (contents p) with
                       | Some j => Ok (mkRID cur (Z.of_nat j))
                       | None => Err NORECORDS
                       end.
Proof.
  intros (v & Hr & Hwf) Hcur. unfold firstRecord. rewrite (repr_slotCnt _ _ Hr). cbn [mbind option_bind].
  replace (Z.to_nat (0 - - Z.of_nat (length (v_slots v)))) with (length (v_slots v)) by lia.
  rewrite (find_used_spec _ _ _ (repr_slots _ _ Hr)). cbn [mbind option_bind].
  rewrite (sp_next_view p v 0 Hr Hwf). cbn zeta. rewrite drop_0.
  pose proof (first_idx_le (fun s => negb (free s)) (v_slots v)).
  case_decide; (case_decide as Hlt; try lia); [done|].
  destruct (first_idx_lt _ _ Hlt) as (s & Hs & Hfree).
  destruct (repr_slots _ _ Hr _ _ Hs) as [_ ->]. cbn [mbind option_bind].
  rewrite negb_true_iff in Hfree. apply bool_decide_eq_false in Hfree.
  rewrite decide_False, Hcur by done. cbn. do 3 f_equal. lia.
Qed.

Lemma nextRecord_ok p (rid : RID) (k : nat) cur :
  page_ok p -> rd32 off_curPage p = Some cur ->
  slotNo rid = Z.of_nat k - 1 -> Z.of_nat k < 2 ^ 31 ->
  nextRecord rid p = Some match sp_next k (contents p) with
                          | Some j => Ok (mkRID cur (Z.of_nat j))
                          | None => Err ENDOFPAGE
                          end.
Proof.
  intros (v & Hr & Hwf) Hcur Hk Hk31. unfold nextRecord. rewrite (repr_slotCnt _ _ Hr). cbn [mbind option_bind].
  rewrite Hk, wrapS_id by (unfold inS; lia).
  replace (- (Z.of_nat k - 1) - 1) with (0 - Z.of_nat k) by lia.
  rewrite (sp_next_view p v k Hr Hwf). cbn zeta.
  destruct (decide (length (v_slots v) <= k)%nat) as [Hge|Hlt].
  { replace (Z.to_nat _) with O by lia. cbn. rewrite drop_ge by done. cbn.
    rewrite decide_True, decide_False by lia. done. }
  replace (Z.to_nat (0 - Z.of_nat k - - Z.of_nat (length (v_slots v)))) with (length (drop k (v_slots v)))
    by (rewrite length_drop; lia).
  rewrite (find_used_spec _ _ _ (slots_at_drop 0 (v_slots v) p k ltac:(lia) (repr_slots _ _ Hr))). cbn [mbind option_bind].
  pose proof (first_idx_le (fun s => negb (free s)) (drop k (v_slots v))) as Hle. rewrite length_drop in Hle.
  case_decide; (case_decide as Hlt'; try lia); [done|].
  destruct (first_idx_lt (fun s => negb (free s)) (drop k (v_slots v))) as (s & Hs & Hfree); [rewrite length_drop; lia|].
  rewrite lookup_drop in Hs. destruct (repr_slots _ _ Hr _ _ Hs) as [_ Hl].
  replace (0 - Z.of_nat k - Z.of_nat (first_idx (fun s => negb (free s)) (drop k (v_slots v))))
    with (0 - Z.of_nat (k + first_idx (fun s => negb (free s)) (drop k (v_slots v)))) by lia.
  rewrite Hl. cbn [mbind option_bind]. rewrite negb_true_iff in Hfree. apply bool_decide_eq_false in Hfree.
  rewrite decide_False, Hcur by done. cbn. do 3 f_equal. lia.
Qed.

Lemma init_ok (n : Z) p :
  Z.of_nat (length p) = PAGESIZE ->
  exists p', init n p = Some p' /\ page_ok p' /\ contents p' = [] /\
    getFreeSpace p' = Some (PAGESIZE - DPFIXED) /\ getNextPage p' = Some (-1) /\
    rd32 off_curPage p' = Some (s32 n).
Proof.
  intros Hlen. unfold init. layout. wr_step p1 Hw1. wr_step p2 Hw2. wr_step p3 Hw3. wr_step p4 Hw4.
  wr_step p5 Hw5. exists p5. split; [done|].
  assert (repr p5 (View [] [] (-1) (s32 n))) as Hr.
  { split; cbn; layout; try (rd_through; done); [lia|]. apply rd_Some. split; [lia|done]. }
  assert (wf (View [] [] (-1) (s32 n))) as Hwf by (split; done).
  split_and!; [by eexists|by rewrite (contents_spec _ _ Hr Hwf)| | |].
  - apply (repr_freeSpace _ _ Hr).
  - apply (repr_next _ _ Hr).
  - apply (repr_cur _ _ Hr).
Qed.

Lemma setNextPage_ok (n : Z) p :
  page_ok p ->
  exists p', setNextPage n p = Some p' /\ page_ok p' /\ contents p' = contents p /\
    getNextPage p' = Some (s32 n) /\ rd32 off_curPage p' = rd32 off_curPage p.
Proof.
  intros (v & Hr & Hwf). pose proof (repr_length _ _ Hr) as Hlen. pose proof (repr_bounds _ _ Hr Hwf).
  unfold setNextPage. layout. wr_step p1 Hw1. exists p1. split; [done|].
  assert (repr p1 (View (v_slots v) (v_data v) (s32 n) (v_cur v))) as Hr'.
  { destruct Hr. split; layout; cbn [v_slots v_data v_next v_cur] in *; rd_through; try (done || lia).
    intros j s Hj. pose proof (lookup_lt_Some _ _ _ Hj). destruct (repr_slots0 _ _ Hj).
    unfold slot_offset, slot_length in *. layout. by rd_through. }
  assert (wf (View (v_slots v) (v_data v) (s32 n) (v_cur v))) as Hwf' by (destruct Hwf; split; done).
  split_and!; [by eexists| |apply (repr_next _ _ Hr')|].
  - by rewrite (contents_spec _ _ Hr' Hwf'), (contents_spec _ _ Hr Hwf).
  - etrans; [apply (repr_cur _ _ Hr')|symmetry; apply (repr_cur _ _ Hr)].
Qed.

End Correctness.

(** ** Properties *)

Section Properties.
Implicit Types (p : block) (r : Record).

(** The slot-by-slot scan a client runs: [nextRecord] from [rid] until it
    stops returning [OK]. *)
Fixpoint scan_from (fuel : nat) (rid : RID) p : option (list RID) :=
  match fuel with
  | O => None
  | S fuel =>
      match nextRecord rid p with
      | Some (Ok rid') => (cons rid') <$> scan_from fuel rid' p
      | Some (Err _) => Some []
      | None => None
      end
  end.

Definition live_at (c : list (option Record)) (j : nat) : bool :=
  match c !! j with Some (Some _) => true | _ => false end.

Definition live_rids (cur : Z) (c : list (option Record)) (k : nat) : list RID :=
  (fun j => mkRID cur (Z.of_nat j)) <$> List.filter (live_at c) (seq k (length c - k)).

Lemma live_at_true c j : live_at c j = true <-> exists r, c !! j = Some (Some r).
Proof. unfold live_at. destruct (c !! j) as [[]|]; naive_solver. Qed.

Lemma live_rids_next cur c k :
  live_rids cur c k = match sp_next k c with
                      | Some j => mkRID cur (Z.of_nat j) :: live_rids cur c (S j)
                      | None => []
                      end.
Proof.
  assert (forall m, (k + m <= length c)%nat ->
    (forall i r, (k <= i < k + m)%nat -> c !! i <> Some (Some r)) ->
    List.filter (live_at c) (seq k m) = []) as Hnil.
  { intros m Hm Hno. apply filter_none. intros i Hi%elem_of_seq.
    destruct (live_at c i) eqn:Hl; [|done]. apply live_at_true in Hl as [r Hr]. by destruct (Hno i r). }
  unfold live_rids. destruct (sp_next k c) as [j|] eqn:Hn.
  - apply sp_next_Some in Hn as (Hkj & [r Hj] & Hno). pose proof (lookup_lt_Some _ _ _ Hj).
    replace (length c - k)%nat with ((j - k) + S (length c - S j))%nat by lia.
    rewrite seq_app, List.filter_app, Hnil by (try lia; intros; apply Hno; lia).
    replace (k + (j - k))%nat with j by lia. cbn [seq app].
    cbn [List.filter]. by rewrite (proj2 (live_at_true c j)) by eauto.
  - destruct (decide (k <= length c)%nat); [|by replace (length c - k)%nat with O by lia].
    rewrite Hnil; [done|lia|]. intros i r Hi Hr.
    assert (exists j, sp_next k c = Some j) as [? ?]; [|congruence].
    unfold sp_next in *. case_decide as Hd; [eauto|]. exfalso. apply Hd.
    destruct (decide (first_idx has_rec (drop k c) <= i - k)%nat); [lia|].
    assert (drop k c !! (i - k)%nat = Some (Some r)) as Hdr.
    { rewrite lookup_drop. by replace (k + (i - k))%nat with i by lia. }
    apply (first_idx_before has_rec) in Hdr; [done|lia].
Qed.

Lemma scan_from_ok p cur k fuel (rid : RID) :
  page_ok p -> rd32 off_curPage p = Some cur -> slotNo rid = Z.of_nat k - 1 ->
  (k <= length (contents p))%nat -> (length (contents p) - k < fuel)%nat ->
  scan_from fuel rid p = Some (live_rids cur (contents p) k).
Proof.
  intros Hok Hcur. assert (length (contents p) <= 1004)%nat as Hlen.
  { destruct Hok as (v & Hr & Hwf). rewrite (contents_spec p v Hr Hwf). unfold v_contents.
    rewrite length_fmap. pose proof (repr_bounds p v Hr Hwf). lia. }
  revert k rid. induction fuel as [|fuel IH]; intros k rid Hk Hkl Hf; [lia|]. cbn.
  rewrite (nextRecord_ok p rid k cur Hok Hcur Hk) by lia. rewrite live_rids_next.
  destruct (sp_next k (contents p)) as [j|] eqn:Hn; [|done].
  apply sp_next_Some in Hn as (Hkj & [r Hj] & _). apply lookup_lt_Some in Hj.
  rewrite (IH (S j)) by (cbn [slotNo]; lia). done.
Qed.

End Properties.

(** ** Refinement: a page implements a list of optional records *)

Section Refinement.
Implicit Types (p : block) (r : Record) (c : list (option Record)).

(** What is left for records and slots is a function of the records held. *)
Definition sp_free c : Z :=
  PAGESIZE - DPFIXED - Z.of_nat (sum_list_with (fun o => length (default [] o)) c)
    - sizeof_slot * Z.of_nat (length c).

Inductive page_op :=
| OpInsert (r : Record)
| OpDelete (k : nat)
| OpGet (k : nat)
| OpFirst
| OpNext (k : nat).

Inductive page_out :=
| OutRid (o : result RID)
| OutStatus (o : Status)
| OutRec (o : result Record).

(** The operation on the bytes ... *)
Definition run_op (op : page_op) p : option (page_out * block) :=
  match op with
  | OpInsert r => '(o, p) ← insertRecord r p; Some (OutRid o, p)
  | OpDelete k => '(o, p) ← deleteRecord (mkRID 0 (Z.of_nat k)) p; Some (OutStatus o, p)
  | OpGet k => o ← getRecord (mkRID 0 (Z.of_nat k)) p; Some (OutRec o, p)
  | OpFirst => o ← firstRecord p; Some (OutRid o, p)
  | OpNext k => o ← nextRecord (mkRID 0 (Z.of_nat k)) p; Some (OutRid o, p)
  end.

(** ... and on the reference model of page [cur]. *)
Definition spec_op (cur : Z) (op : page_op) c : page_out * list (option Record) :=
  match op with
  | OpInsert r =>
      if decide (Z.of_nat (length r) + sizeof_slot > sp_free c) then (OutRid (Err NOSPACE), c)
      else (OutRid (Ok (mkRID cur (Z.of_nat (sp_slot c)))), sp_insert r c)
  | OpDelete k =>
      match c !! k with
      | Some (Some _) => (OutStatus OK, sp_delete k c)
      | _ => (OutStatus INVALIDSLOTNO, c)
      end
  | OpGet k =>
      (OutRec match c !! k with Some (Some r) => Ok r | _ => Err INVALIDSLOTNO end, c)
  | OpFirst =>
      (OutRid match sp_next 0 c with Some j => Ok (mkRID cur (Z.of_nat j)) | None => Err NORECORDS end, c)
  | OpNext k =>
      (OutRid match sp_next (S k) c with Some j => Ok (mkRID cur (Z.of_nat j)) | None => Err ENDOFPAGE end, c)
  end.

(** Records are not empty and slot numbers are non-negative [int]s. *)
Definition op_valid (op : page_op) : Prop :=
  match op with
  | OpInsert r => r <> []
  | OpDelete k | OpGet k => Z.of_nat k < 2 ^ 31
  | OpNext k => Z.of_nat k < 2 ^ 31 - 1
  | OpFirst => True
  end.

Fixpoint run_ops (ops : list page_op) p : option (list page_out * block) :=
  match ops with
  | [] => Some ([], p)
  | op :: ops => '(o, p) ← run_op op p; '(os, p) ← run_ops ops p; Some (o :: os, p)
  end.

Fixpoint spec_ops (cur : Z) (ops : list page_op) c : list page_out * list (option Record) :=
  match ops with
  | [] => ([], c)
  | op :: ops => let '(o, c) := spec_op cur op c in
                 let '(os, c) := spec_ops cur ops c in (o :: os, c)
  end.

Lemma getFreeSpace_ok p : page_ok p -> getFreeSpace p = Some (sp_free (contents p)).
Proof.
  intros (v & Hr & Hwf). unfold getFreeSpace. rewrite (repr_freeSpace _ _ Hr). f_equal.
  rewrite (contents_spec p v Hr Hwf). unfold sp_free, v_space, v_contents. rewrite length_fmap.
  do 3 f_equal. rewrite <- (wf_sum _ Hwf). unfold live_bytes.
  assert (forall k s, v_slots v !! k = Some s ->
    Z.to_nat (s_len s) = length (default [] (rec_of (v_data v) s))) as Hs.
  { intros k s Hk. unfold rec_of. destruct (wf_slots _ Hwf _ _ Hk) as [->|(?&?&?)]; [done|].
    rewrite decide_True by lia. destruct (rd_is_Some (s_off s) (s_len s) (v_data v)) as [x Hx]; [lia..|].
    rewrite Hx. cbn. symmetry. eauto with minirel. }
  revert Hs. generalize (v_slots v) as l. induction l as [|s l IH]; intros Hs; [done|].
  cbn. rewrite (Hs O s eq_refl). f_equal. apply IH. intros k. apply (Hs (S k)).
Qed.

Lemma run_op_refines op p cur :
  page_ok p -> rd32 off_curPage p = Some cur -> op_valid op ->
  exists p', run_op op p = Some ((spec_op cur op (contents p)).1, p') /\
    page_ok p' /\ contents p' = (spec_op cur op (contents p)).2 /\ rd32 off_curPage p' = Some cur.
Proof.
  intros Hok Hcur Hv. destruct op as [r|k|k| |k]; cbn in *.
  - destruct (insertRecord_ok p r Hok Hv) as (fs & Hfs & Hins).
    rewrite (getFreeSpace_ok p Hok) in Hfs. injection Hfs as <-. case_decide.
    + exists p. by rewrite Hins.
    + destruct Hins as (p' & cur' & Hc & -> & ? & ? & _ & _ & ?). simplify_eq. exists p'. done.
  - pose proof (deleteRecord_ok p (mkRID 0 (Z.of_nat k)) k Hok eq_refl Hv) as Hdel.
    destruct (contents p !! k) as [[r|]|]; [|by exists p; rewrite Hdel..].
    destruct Hdel as (p' & -> & ? & ? & _ & Hc). exists p'. by rewrite Hc.
  - exists p. by rewrite (getRecord_ok p (mkRID 0 (Z.of_nat k)) k Hok eq_refl Hv).
  - exists p. by rewrite (firstRecord_ok p cur Hok Hcur).
  - exists p. by rewrite (nextRecord_ok p _ (S k) cur Hok Hcur) by (cbn; lia).
Qed.

Lemma run_ops_refines ops p cur :
  page_ok p -> rd32 off_curPage p = Some cur -> Forall op_valid ops ->
  exists p', run_ops ops p = Some ((spec_ops cur ops (contents p)).1, p') /\
    page_ok p' /\ contents p' = (spec_ops cur ops (contents p)).2.
Proof.
  intros Hok Hcur Hv. revert p Hok Hcur. induction Hv as [|op ops Hop _ IH]; intros p Hok Hcur.
  { exists p. done. }
  destruct (run_op_refines op p cur Hok Hcur Hop) as (p1 & Hrun & Hok1 & Hc1 & Hcur1).
  destruct (IH p1 Hok1 Hcur1) as (p2 & Hrun2 & Hok2 & Hc2). exists p2. cbn.
  destruct (spec_op cur op (contents p)) as [o c1]. cbn in *. subst c1.
  destruct (spec_ops cur ops (contents p1)) as [os c2]. cbn in *. rewrite Hrun. cbn. rewrite Hrun2. done.
Qed.

(** C4.  Trace refinement of class [Page]: initialise any 1024-byte block and
    run any sequence of insertions, deletions, reads and scan steps (records
    non-empty, slot numbers non-negative).  No step accesses memory outside
    the page, and every status, record and record id it returns is the one
    the list of optional records gives, space check included. *)
Theorem page_trace_refines (n : Z) (blk : block) (ops : list page_op) :
  Z.of_nat (length blk) = PAGESIZE -> Forall op_valid ops ->
  exists p0 p', init n blk = Some p0 /\
    run_ops ops p0 = Some ((spec_ops (s32 n) ops []).1, p') /\
    contents p' = (spec_ops (s32 n) ops []).2.
Proof.
  intros Hlen Hv. destruct (init_ok n blk Hlen) as (p0 & Hinit & Hok & Hc & _ & _ & Hcur).
  destruct (run_ops_refines ops p0 (s32 n) Hok Hcur Hv) as (p' & Hrun & _ & Hc').
  rewrite Hc in Hrun, Hc'. eauto.
Qed.

Lemma page_trace_refines_witness :
  let ops := [OpInsert [x41; x42]; OpInsert [x43]; OpDelete 0; OpInsert [x44; x45; x46]; OpGet 1; OpNext 0] in
  exists p0 p', init 3 (replicate 1024 x00) = Some p0 /\
    run_ops ops p0 = Some ((spec_ops 3 ops []).1, p') /\
    contents p' = (spec_ops 3 ops []).2.
Proof.
  apply (page_trace_refines 3 (replicate 1024 x00)
    [OpInsert [x41; x42]; OpInsert [x43]; OpDelete 0; OpInsert [x44; x45; x46]; OpGet 1; OpNext 0]).
  - reflexivity.
  - repeat constructor; cbn; first [discriminate | lia].
Defined.

(** A page with two records around a free slot, for concrete instances. *)
Definition demo_ops : list page_op :=
  [OpInsert [x41; x42]; OpInsert [x43; x44; x45]; OpInsert [x46]; OpDelete 1].

Definition demo_page : block :=
  default [] (p ← init 3 (replicate 1024 x00); snd <$> run_ops demo_ops p).

Lemma demo_page_ok : page_ok demo_page /\ rd32 off_curPage demo_page = Some 3.
Proof.
  split; [|by vm_compute].
  destruct (init_ok 3 (replicate 1024 x00) eq_refl) as (p0 & Hi & Hok & _ & _ & _ & Hcur).
  destruct (run_ops_refines demo_ops p0 _ Hok Hcur) as (p' & Hrun & Hok' & _).
  { repeat constructor; cbn; (done || lia). }
  unfold demo_page. rewrite Hi. cbn [mbind option_bind]. by rewrite Hrun.
Qed.

(** C29.  Record ids survive deletions: deleting one record compacts the data
    area and may shrink the slot array, yet every other record id reads the
    same result as before. *)
Theorem deleteRecord_preserves_others p p' (rid rid' : RID) :
  page_ok p -> 0 <= slotNo rid < 2 ^ 31 -> 0 <= slotNo rid' < 2 ^ 31 ->
  slotNo rid' <> slotNo rid ->
  deleteRecord rid p = Some (OK, p') -> getRecord rid' p' = getRecord rid' p.
Proof.
  intros Hok Hk Hj Hne Hdel.
  pose proof (deleteRecord_ok p rid (Z.to_nat (slotNo rid)) Hok ltac:(lia) ltac:(lia)) as H.
  destruct (contents p !! Z.to_nat (slotNo rid)) as [[r|]|]; [|congruence..].
  destruct H as (p1 & Hdel' & Hok' & Hc & _). rewrite Hdel in Hdel'. injection Hdel' as <-.
  rewrite (getRecord_ok p' rid' (Z.to_nat (slotNo rid'))), (getRecord_ok p rid' (Z.to_nat (slotNo rid'))) by (done || lia).
  f_equal. rewrite Hc. set (j := Z.to_nat (slotNo rid')).
  pose proof (sp_delete_lookup (Z.to_nat (slotNo rid)) (contents p) j) as Hsd.
  destruct (contents p !! j) as [[x|]|] eqn:Hx.
  - rewrite (proj2 (Hsd x)); [done|]. split; [lia|done].
  - destruct (sp_delete _ _ !! j) as [[y|]|] eqn:Hy; [|done..]. by destruct (proj1 (Hsd y)) as [_ ?].
  - destruct (sp_delete _ _ !! j) as [[y|]|] eqn:Hy; [|done..]. by destruct (proj1 (Hsd y)) as [_ ?].
Qed.

Lemma demo_page_delete : exists p', deleteRecord (mkRID 3 2) demo_page = Some (OK, p').
Proof.
  assert (fst <$> deleteRecord (mkRID 3 2) demo_page = Some OK) as H by (vm_compute; reflexivity).
  destruct (deleteRecord (mkRID 3 2) demo_page) as [[st p']|]; [|done]. injection H as ->. by exists p'.
Qed.

Lemma deleteRecord_preserves_others_witness :
  exists p', deleteRecord (mkRID 3 2) demo_page = Some (OK, p') /\
    getRecord (mkRID 3 0) p' = getRecord (mkRID 3 0) demo_page.
Proof.
  destruct demo_page_delete as [p' Hd]. exists p'. split; [exact Hd|].
  apply (deleteRecord_preserves_others demo_page p' (mkRID 3 2) (mkRID 3 0)).
  - exact (proj1 demo_page_ok).
  - cbn. lia.
  - cbn. lia.
  - cbn. lia.
  - exact Hd.
Defined.

(** Insertion and deletion are inverse: deleting the record just
    inserted gives back its bytes and its slot, and leaves the records the
    page had. *)
Theorem insert_delete_roundtrip p p1 r (rid : RID) :
  page_ok p -> r <> [] -> insertRecord r p = Some (Ok rid, p1) ->
  exists p2, deleteRecord rid p1 = Some (OK, p2) /\
    contents p2 = contents p /\ getFreeSpace p2 = getFreeSpace p.
Proof.
  intros Hok Hr Hins. destruct (insertRecord_ok p r Hok Hr) as (fs & _ & H).
  case_decide; [congruence|]. destruct H as (p1' & cur & _ & Hrun & Hok1 & Hc1 & _).
  rewrite Hins in Hrun. injection Hrun as -> <-.
  assert (length (contents p) <= 1004)%nat as Hlen.
  { destruct Hok as (v & Hr' & Hwf). rewrite (contents_spec p v Hr' Hwf). unfold v_contents.
    rewrite length_fmap. pose proof (repr_bounds p v Hr' Hwf). lia. }
  pose proof (first_idx_le no_rec (contents p)) as Hle.
  pose proof (deleteRecord_ok p1 (mkRID cur (Z.of_nat (sp_slot (contents p)))) (sp_slot (contents p)) Hok1 eq_refl) as Hd.
  rewrite Hc1, sp_insert_same in Hd.
  destruct Hd as (p2 & Hdel & Hok2 & Hc2 & _); [unfold sp_slot; lia|].
  assert (contents p2 = contents p) as Hc.
  { rewrite Hc2. apply sp_delete_insert. intros o. by apply contents_last. }
  exists p2. by rewrite (getFreeSpace_ok p2), (getFreeSpace_ok p), Hc.
Qed.

Lemma insert_delete_roundtrip_witness :
  exists p1 p2, insertRecord [x50; x51] demo_page = Some (Ok (mkRID 3 1), p1) /\
    deleteRecord (mkRID 3 1) p1 = Some (OK, p2) /\
    contents p2 = contents demo_page /\ getFreeSpace p2 = getFreeSpace demo_page.
Proof.
  destruct (insertRecord [x50; x51] demo_page) as [[[rid|] p1]|] eqn:Hi; try (vm_compute in Hi; discriminate).
  assert (rid = mkRID 3 1) as -> by (vm_compute in Hi; congruence).
  exists p1. destruct (insert_delete_roundtrip demo_page p1 [x50; x51] (mkRID 3 1)) as (p2 & H).
  - exact (proj1 demo_page_ok).
  - discriminate.
  - exact Hi.
  - exists p2. split; [reflexivity|exact H].
Defined.

(** C30.  Scans of a page are complete: starting from [NULLRID], as
    [HeapFileScan] does, repeated [nextRecord] returns the ids of exactly the
    records of the page, in slot order, and then [ENDOFPAGE]; one call more
    than there are slots is enough. *)
Theorem page_scan_complete p cur :
  page_ok p -> rd32 off_curPage p = Some cur ->
  scan_from (S (length (contents p))) NULLRID p = Some (live_rids cur (contents p) 0).
Proof. intros Hok Hcur. apply scan_from_ok; [done..|lia|lia]. Qed.

Lemma page_scan_complete_witness :
  scan_from (S (length (contents demo_page))) NULLRID demo_page = Some [mkRID 3 0; mkRID 3 2].
Proof.
  etransitivity; [apply (page_scan_complete demo_page 3); apply demo_page_ok|]. by vm_compute.
Defined.

(** C31.  The bytes of a page are never used twice: initialise any 1024-byte
    block and run any sequence of insertions, deletions, reads and scan steps
    (records non-empty, slot numbers non-negative).  Then the free pointer is
    below the lowest slot entry by at least the size of one more entry,
    [freeSpace] is exactly what lies between, every entry of the slot array is
    free or describes bytes in front of the free pointer, and the bytes of two
    entries in use do not overlap. *)
Theorem page_areas_disjoint (n : Z) (blk : block) (ops : list page_op) :
  Z.of_nat (length blk) = PAGESIZE -> Forall op_valid ops ->
  exists p0 outs p fp cnt, init n blk = Some p0 /\ run_ops ops p0 = Some (outs, p) /\
    rd16 off_freePtr p = Some fp /\ rd16 off_slotCnt p = Some (- cnt) /\ 0 <= fp /\ 0 <= cnt /\
    fp + sizeof_slot <= off_slot (- cnt + 1) /\ getFreeSpace p = Some (off_slot (- cnt + 1) - sizeof_slot - fp) /\
    (forall k, 0 <= k < cnt -> exists o l, slot_offset (- k) p = Some o /\ slot_length (- k) p = Some l /\
       (l = -1 \/ (0 < l /\ 0 <= o /\ o + l <= fp))) /\
    (forall j k o l o' l', 0 <= j < cnt -> 0 <= k < cnt -> j <> k ->
       slot_offset (- j) p = Some o -> slot_length (- j) p = Some l -> slot_offset (- k) p = Some o' -> slot_length (- k) p = Some l' ->
       l <> -1 -> l' <> -1 -> o + l <= o' \/ o' + l' <= o).
Proof.
  intros Hlen Hv. destruct (init_ok n blk Hlen) as (p0 & Hinit & Hok & _ & _ & _ & Hcur).
  destruct (run_ops_refines ops p0 (s32 n) Hok Hcur Hv) as (p & Hrun & (v & Hr & Hwf) & _).
  eexists p0, _, p, (Z.of_nat (length (v_data v))), (Z.of_nat (length (v_slots v))).
  assert (forall k, 0 <= k < Z.of_nat (length (v_slots v)) -> exists s, v_slots v !! Z.to_nat k = Some s /\
    slot_offset (- k) p = Some (s_off s) /\ slot_length (- k) p = Some (s_len s)) as Hslot.
  { intros k Hk. destruct (lookup_lt_is_Some_2 (v_slots v) (Z.to_nat k) ltac:(lia)) as [s Hs]. exists s. split; [done|].
    destruct (repr_slots _ _ Hr _ _ Hs) as [H1 H2]. replace (0 - Z.of_nat (Z.to_nat k)) with (- k) in * by lia. done. }
  pose proof (wf_space _ Hwf) as Hsp. split_and!; [done|exact Hrun|apply (repr_freePtr _ _ Hr)|apply (repr_slotCnt _ _ Hr)|lia|lia| | | |].
  - layout. lia.
  - unfold getFreeSpace. rewrite (repr_freeSpace _ _ Hr). f_equal. layout. lia.
  - intros k Hk. destruct (Hslot k Hk) as (s & Hs & H1 & H2). exists (s_off s), (s_len s). do 2 (split; [done|]). apply (wf_slots _ Hwf _ _ Hs).
  - intros j k o l o' l' Hj Hk Hne. destruct (Hslot j Hj) as (s & Hs & -> & ->), (Hslot k Hk) as (t & Ht & -> & ->).
    intros [= <-] [= <-] [= <-] [= <-]. apply (wf_apart _ Hwf (Z.to_nat j) (Z.to_nat k)); [lia|done..].
Qed.

Lemma page_areas_disjoint_witness :
  exists p0 outs p fp cnt, init 3 (replicate 1024 x00) = Some p0 /\ run_ops demo_ops p0 = Some (outs, p) /\
    rd16 off_freePtr p = Some fp /\ rd16 off_slotCnt p = Some (- cnt) /\ fp + sizeof_slot <= off_slot (- cnt + 1).
Proof.
  destruct (page_areas_disjoint 3 (replicate 1024 x00) demo_ops) as (p0 & outs & p & fp & cnt & H1 & H2 & H3 & H4 & _ & _ & H5 & _).
  - reflexivity.
  - repeat constructor; cbn; first [discriminate | lia].
  - exists p0, outs, p, fp, cnt. exact (conj H1 (conj H2 (conj H3 (conj H4 H5)))).
Defined.

(** A record id with a negative slot number is not refused: on every
    page that holds a record, [getRecord(NULLRID)] and
    [deleteRecord(NULLRID)] take [slot\[1\]], the counters behind the slot
    array, for a slot and reach for bytes in front of the page. *)
Theorem null_rid_leaves_page p :
  page_ok p -> contents p <> [] -> getRecord NULLRID p = None /\ deleteRecord NULLRID p = None.
Proof.
  intros (v & Hr & Hwf) Hne.
  assert (0 < length (v_slots v))%nat as Hn.
  { rewrite (contents_spec p v Hr Hwf) in Hne. unfold v_contents in Hne. destruct (v_slots v); [done|cbn; lia]. }
  assert (0 < length (v_data v))%nat as Hd.
  { destruct (last (v_slots v)) as [s|] eqn:Hs; [|apply last_None in Hs; rewrite Hs in Hn; cbn in Hn; lia].
    pose proof (wf_last _ Hwf s Hs). rewrite last_lookup in Hs.
    destruct (wf_slots _ Hwf _ _ Hs) as [?|(?&?&?)]; [done|lia]. }
  unfold getRecord, deleteRecord, close_hole. change (s32 (- slotNo NULLRID)) with 1.
  assert (slot_length 1 p = Some (Z.of_nat (length (v_data v)))) as Hl by apply (repr_freePtr _ _ Hr).
  assert (slot_offset 1 p = Some (- Z.of_nat (length (v_slots v)))) as Ho by apply (repr_slotCnt _ _ Hr).
  rewrite (repr_slotCnt _ _ Hr). cbn [mbind option_bind]. rewrite decide_True by lia.
  rewrite Hl. cbn [mbind option_bind]. rewrite decide_True by lia. rewrite Ho. cbn [mbind option_bind].
  split; [unfold rd; rewrite decide_False by lia; done|].
  rewrite (repr_freePtr _ _ Hr). cbn [mbind option_bind]. rewrite !decide_True by lia. unfold bcopy.
  destruct (rd _ _ p) as [x|]; cbn [mbind option_bind]; [|done].
  unfold wr. by rewrite decide_False by lia.
Qed.

Lemma null_rid_leaves_page_witness :
  contents demo_page <> [] /\ getRecord NULLRID demo_page = None /\ deleteRecord NULLRID demo_page = None.
Proof.
  assert (contents demo_page <> []) as Hne by (intros H; vm_compute in H; discriminate).
  split; [exact Hne|]. exact (null_rid_leaves_page demo_page (proj1 demo_page_ok) Hne).
Defined.

End Refinement.
