(* ===== verification/HashTbl.v ===== *)
(** * The chained hash tables (buf.h, bufHash.C, db.h, db.C)

    [BufHashTbl] maps a page [(file, pageNo)] to the buffer frame that holds
    it, [OpenFileHashTbl] a file name to the open [File] object.  Both are an
    array of singly linked chains; a chain is the list of its buckets from
    the head on, a [File*] is an address.  The section [Chained] proves once,
    for any key and any hash function, that such a table implements a finite
    map; the two tables are its instances.  An index outside the array is
    undefined behaviour ([None]). *)

From S2P Require Export Errors.

(** ** Walking a chain *)

Section Chains.
Context {B : Type}.
Implicit Types (P : B -> bool) (c : list B).

(** The [while (tmpBuc)] loop of a search: the first bucket that matches. *)
Fixpoint chain_find P c : option B :=
  match c with
  | [] => None
  | b :: c => if P b then Some b else chain_find P c
  end.

(** The [while (tmpBuc)] loop of a removal: unlink the first bucket that
    matches, through [ht\[index\]] at the head and [prevBuc] further on. *)
Fixpoint chain_unlink P c : option (list B) :=
  match c with
  | [] => None
  | b :: c => if P b then Some c
              else match chain_unlink P c with
                   | Some c' => Some (b :: c')
                   | None => None
                   end
  end.

Lemma chain_find_Some P c b : chain_find P c = Some b -> b ∈ c /\ P b = true.
Proof.
  induction c as [|a c IH]; cbn; [done|]. destruct (P a) eqn:Ha.
  - intros [= <-]. split; [by left|done].
  - intros [? ?]%IH. split; [by right|done].
Qed.

Lemma chain_find_None P c : chain_find P c = None -> forall b, b ∈ c -> P b = false.
Proof.
  induction c as [|a c IH]; cbn; [intros _ b Hb; by apply not_elem_of_nil in Hb|].
  destruct (P a) eqn:Ha; [done|]. intros Hn b [->|Hb]%elem_of_cons; [done|]. by apply IH.
Qed.

Lemma chain_unlink_Some P c c' :
  chain_unlink P c = Some c' -> exists b, chain_find P c = Some b /\ c ≡ₚ b :: c'.
Proof.
  revert c'. induction c as [|a c IH]; cbn; [done|]. intros c'. destruct (P a) eqn:Ha.
  - intros [= <-]. by exists a.
  - destruct (chain_unlink P c) as [c1|]; [|done]. intros [= <-].
    destruct (IH c1 eq_refl) as (b & Hb & Hp). exists b. split; [done|]. rewrite Hp. constructor.
Qed.

Lemma chain_unlink_None P c : chain_unlink P c = None <-> chain_find P c = None.
Proof.
  induction c as [|a c IH]; cbn; [done|]. destruct (P a); [done|].
  destruct (chain_unlink P c); naive_solver.
Qed.

End Chains.

(** The bodies the two tables share: [P] is the test of a bucket against the
    key, [index] the hash of the key. *)
Section Bodies.
Context {B V : Type}.
Implicit Types (P : B -> bool) (ht : list (list B)).

(** Search the chain for the key; if it is new, link a bucket at the head. *)
Definition table_insert P (index : Z) (b : B) ht : option (Status * list (list B)) :=
  c ← zget ht index;
  match chain_find P c with
  | Some _ => Some (HASHTBLERROR, ht)
  | None => ht' ← zset ht index (b :: c); Some (OK, ht')
  end.

Definition table_find P (index : Z) (val : B -> V) ht : option (result V) :=
  c ← zget ht index;
  Some match chain_find P c with Some b => Ok (val b) | None => Err HASHNOTFOUND end.

Definition table_remove P (index : Z) ht : option (Status * list (list B)) :=
  c ← zget ht index;
  match chain_unlink P c with
  | Some c' => ht' ← zset ht index c'; Some (OK, ht')
  | None => Some (HASHTBLERROR, ht)
  end.

End Bodies.

(** Replacing one chain replaces its buckets among all of them. *)
Lemma concat_insert {B} (t : list (list B)) i c c' :
  t !! i = Some c -> exists l, concat t ≡ₚ c ++ l /\ concat (<[i := c']> t) ≡ₚ c' ++ l.
Proof.
  revert i. induction t as [|a t IH]; [done|]. intros [|i] Hi; cbn in *.
  - simplify_eq. by exists (concat t).
  - destruct (IH i Hi) as (l & H1 & H2). exists (a ++ l). rewrite H1, H2.
    by rewrite !(Permutation_app_swap_app a).
Qed.

(** ** Any chained table is a finite map *)

Section Chained.
Context {K V B : Type} `{Countable K}.
Context (key : B -> K) (val : B -> V) (idx : K -> Z).
Implicit Types (t : list (list B)) (k : K) (b : B).

(** Every bucket is in the chain its key hashes to, and no key occurs twice. *)
Record chained t : Prop := {
  ch_home : forall i c b, t !! i = Some c -> b ∈ c -> idx (key b) = Z.of_nat i;
  ch_nodup : NoDup (key <$> concat t);
}.

(** The map the table stands for. *)
Definition chain_map t : gmap K V := list_to_map ((fun b => (key b, val b)) <$> concat t).

Definition is_key k b : bool := bool_decide (key b = k).

Lemma chain_pairs t : ((fun b => (key b, val b)) <$> concat t).*1 = key <$> concat t.
Proof. by rewrite <- list_fmap_compose. Qed.

Lemma chain_map_Some t k v :
  chained t -> chain_map t !! k = Some v <-> exists b, b ∈ concat t /\ key b = k /\ val b = v.
Proof.
  intros Ht. unfold chain_map. rewrite <- elem_of_list_to_map by (rewrite chain_pairs; apply Ht).
  rewrite list_elem_of_fmap. split; intros (b & Hb); exists b; naive_solver.
Qed.

Lemma chained_nil (n : nat) : chained (replicate n []) /\ chain_map (replicate n []) = ∅.
Proof.
  assert (concat (replicate n (A := list B) []) = []) as Hc by (induction n; cbn; done).
  unfold chain_map. rewrite Hc. split; [|done]. split.
  - intros i c b [-> _]%lookup_replicate Hb. by apply not_elem_of_nil in Hb.
  - rewrite Hc. constructor.
Qed.

Lemma chain_home t k i b :
  chained t -> 0 <= i -> idx k = i -> b ∈ concat t -> key b = k ->
  exists c, t !! Z.to_nat i = Some c /\ b ∈ c.
Proof.
  intros Ht Hi Hk Hb Hkey. apply list_elem_of_In, in_concat in Hb. destruct Hb as (c & Hc & Hb).
  apply list_elem_of_In, list_elem_of_lookup in Hc. destruct Hc as [j Hj].
  apply list_elem_of_In in Hb.
  pose proof (ch_home t Ht j c b Hj Hb) as Hh. exists c. split; [|done].
  replace (Z.to_nat i) with j; [done|]. rewrite Hkey, Hk in Hh. lia.
Qed.

(** Searching the chain of [k] is looking [k] up. *)
Lemma chain_find_spec t k c :
  chained t -> zget t (idx k) = Some c ->
  chain_map t !! k = val <$> chain_find (is_key k) c.
Proof.
  intros Ht [Hi Hc]%zget_Some. destruct (chain_find (is_key k) c) as [b|] eqn:Hf; cbn.
  - apply chain_find_Some in Hf as [Hb Hk%bool_decide_eq_true]. apply chain_map_Some; [done|].
    exists b. split; [|done]. apply list_elem_of_In, in_concat. exists c.
    split; apply list_elem_of_In; [|done]. by eapply list_elem_of_lookup_2.
  - destruct (chain_map t !! k) as [v|] eqn:Hv; [|done]. exfalso.
    apply chain_map_Some in Hv as (b & Hb & Hk & _); [|done].
    destruct (chain_home t k (idx k) b Ht Hi eq_refl Hb Hk) as (c' & Hc' & Hb').
    simplify_eq. pose proof (chain_find_None _ _ Hf b Hb') as Hn.
    unfold is_key in Hn. by rewrite bool_decide_eq_false in Hn.
Qed.

Lemma chain_map_perm t l :
  NoDup (key <$> l) -> concat t ≡ₚ l -> chain_map t = list_to_map ((fun b => (key b, val b)) <$> l).
Proof.
  intros Hl Hp. apply list_to_map_proper; [|by rewrite Hp].
  rewrite chain_pairs. by rewrite Hp.
Qed.

(** Pushing a bucket with a new key in front of its chain inserts it. *)
Lemma chain_push t b c :
  chained t -> zget t (idx (key b)) = Some c -> chain_map t !! key b = None ->
  chained (<[Z.to_nat (idx (key b)) := b :: c]> t) /\
  chain_map (<[Z.to_nat (idx (key b)) := b :: c]> t) = <[key b := val b]> (chain_map t).
Proof.
  intros Ht [Hi Hc]%zget_Some Hn.
  destruct (concat_insert t _ c (b :: c) Hc) as (l & H1 & H2).
  assert (concat (<[Z.to_nat (idx (key b)) := b :: c]> t) ≡ₚ b :: concat t) as Hp.
  { rewrite H2, H1. done. }
  assert (NoDup (key <$> b :: concat t)) as Hnd.
  { cbn. constructor; [|apply Ht]. intros (b' & Hk & Hb')%list_elem_of_fmap.
    assert (chain_map t !! key b = Some (val b')) by (apply chain_map_Some; [done|]; exists b'; done).
    congruence. }
  split.
  - split; [|by rewrite Hp]. intros j c' b' [(Hj & Hcc & _)|[_ Hj]]%list_lookup_insert_Some Hb'.
    + subst c'. apply elem_of_cons in Hb'. destruct Hb' as [->|Hb']; [lia|].
      rewrite <- Hj. by eapply (ch_home t Ht).
    + by eapply (ch_home t Ht).
  - rewrite (chain_map_perm _ (b :: concat t)); done.
Qed.

(** Unlinking the bucket of [k] from its chain deletes it. *)
Lemma chain_pop t k c c' :
  chained t -> zget t (idx k) = Some c -> chain_unlink (is_key k) c = Some c' ->
  chained (<[Z.to_nat (idx k) := c']> t) /\
  chain_map (<[Z.to_nat (idx k) := c']> t) = delete k (chain_map t) /\
  is_Some (chain_map t !! k).
Proof.
  intros Ht Hz Hu. pose proof (chain_find_spec t k c Ht Hz) as Hs.
  apply zget_Some in Hz as [Hi Hc]. apply chain_unlink_Some in Hu as (b & Hf & Hcp).
  rewrite Hf in Hs. apply chain_find_Some in Hf as [Hbc Hk%bool_decide_eq_true].
  destruct (concat_insert t _ c c' Hc) as (l & H1 & H2).
  assert (concat t ≡ₚ b :: concat (<[Z.to_nat (idx k) := c']> t)) as Hp by (rewrite H1, H2, Hcp; done).
  assert (NoDup (key <$> b :: concat (<[Z.to_nat (idx k) := c']> t))) as Hnd.
  { rewrite <- Hp. apply Ht. }
  assert (chained (<[Z.to_nat (idx k) := c']> t)) as Ht'.
  { split; [|by inversion Hnd].
    intros j c1 b' [(Hj & Hcc & _)|[_ Hj]]%list_lookup_insert_Some Hb'; [|by eapply (ch_home t Ht)].
    subst c1 j. eapply (ch_home t Ht); [done|]. rewrite Hcp. by right. }
  split; [done|]. split; [|by rewrite Hs].
  rewrite (chain_map_perm t _ Hnd Hp). cbn. rewrite Hk, delete_insert_id; [done|].
  change (chain_map (<[Z.to_nat (idx k) := c']> t) !! k = None).
  destruct (chain_map (<[Z.to_nat (idx k) := c']> t) !! k) as [v|] eqn:Hv; [|done].
  apply chain_map_Some in Hv as (b' & Hb' & Hk' & _); [|done].
  inversion Hnd as [|? ? Hni _]. destruct Hni. apply list_elem_of_fmap. exists b'. split; [congruence|done].
Qed.

End Chained.

(** *** The shared bodies on a well-formed table *)

Section Tables.
Context {K V B : Type} `{Countable K}.
Context (key : B -> K) (val : B -> V) (idx : K -> Z) (size : Z).
Implicit Types (t : list (list B)) (k : K).

Definition table_ok t : Prop := Z.of_nat (length t) = size /\ chained key idx t.

Lemma table_chain t k : table_ok t -> 0 <= idx k < size -> exists c, zget t (idx k) = Some c.
Proof. intros [Hl _] Hk. apply zget_is_Some. lia. Qed.

Lemma table_nil : 0 <= size -> table_ok (replicate (Z.to_nat size) []) /\
  chain_map key val (replicate (Z.to_nat size) []) = ∅.
Proof.
  intros Hs. destruct (chained_nil key val idx (Z.to_nat size)) as [? ?].
  split; [|done]. split; [|done]. rewrite length_replicate. lia.
Qed.

Context (P : K -> B -> bool).
Hypothesis HP : forall k b, P k b = is_key key k b.

Lemma find_by_key k c : chain_find (P k) c = chain_find (is_key key k) c.
Proof. induction c as [|b c IH]; cbn; [done|]. by rewrite HP, IH. Qed.

Lemma unlink_by_key k c : chain_unlink (P k) c = chain_unlink (is_key key k) c.
Proof. induction c as [|b c IH]; cbn; [done|]. by rewrite HP, IH. Qed.

Lemma table_find_ok t k :
  table_ok t -> 0 <= idx k < size ->
  table_find (P k) (idx k) val t =
    Some match chain_map key val t !! k with Some v => Ok v | None => Err HASHNOTFOUND end.
Proof.
  intros Ht Hi. destruct (table_chain t k Ht Hi) as [c Hc]. unfold table_find. rewrite Hc.
  cbn [mbind option_bind]. rewrite (chain_find_spec _ _ _ t k c (proj2 Ht) Hc), find_by_key.
  by destruct (chain_find _ c).
Qed.

Lemma table_insert_ok t b :
  table_ok t -> 0 <= idx (key b) < size ->
  match chain_map key val t !! key b with
  | Some _ => table_insert (P (key b)) (idx (key b)) b t = Some (HASHTBLERROR, t)
  | None => exists t', table_insert (P (key b)) (idx (key b)) b t = Some (OK, t') /\ table_ok t' /\
      chain_map key val t' = <[key b := val b]> (chain_map key val t)
  end.
Proof.
  intros Ht Hi. destruct (table_chain t _ Ht Hi) as [c Hc]. unfold table_insert. rewrite Hc.
  cbn [mbind option_bind]. rewrite find_by_key.
  pose proof (chain_find_spec key val _ t (key b) c (proj2 Ht) Hc) as Hs. rewrite Hs.
  destruct (chain_find _ c) as [b'|]; cbn [fmap option_fmap option_map] in *; [done|].
  destruct (chain_push key val idx t b c (proj2 Ht) Hc Hs) as [H1 H2].
  eexists. rewrite zset_in_range by (destruct Ht; lia). split; [done|]. split; [|done].
  split; [|done]. rewrite length_insert. apply Ht.
Qed.

Lemma table_remove_ok t k :
  table_ok t -> 0 <= idx k < size ->
  match chain_map key val t !! k with
  | None => table_remove (P k) (idx k) t = Some (HASHTBLERROR, t)
  | Some _ => exists t', table_remove (P k) (idx k) t = Some (OK, t') /\ table_ok t' /\
      chain_map key val t' = delete k (chain_map key val t)
  end.
Proof.
  intros Ht Hi. destruct (table_chain t _ Ht Hi) as [c Hc]. unfold table_remove. rewrite Hc.
  cbn [mbind option_bind]. rewrite unlink_by_key.
  rewrite (chain_find_spec key val _ t k c (proj2 Ht) Hc).
  destruct (chain_unlink _ c) as [c'|] eqn:Hu.
  - pose proof (chain_unlink_Some _ _ _ Hu) as (b & -> & _). cbn [fmap option_fmap option_map].
    destruct (chain_pop key val idx t k c c' (proj2 Ht) Hc Hu) as (H1 & H2 & _).
    eexists. rewrite zset_in_range by (destruct Ht; lia). split; [done|]. split; [|done].
    split; [|done]. rewrite length_insert. apply Ht.
  - by rewrite (proj1 (chain_unlink_None _ _) Hu).
Qed.

End Tables.

(** ** The hash table of the buffer pool *)

Record hashBucket : Set := HashBucket { hb_file : Z; hb_pageNo : Z; hb_frameNo : Z }.

Record BufHashTbl : Set := mkBufHashTbl { bh_HTSIZE : Z; bh_ht : list (list hashBucket) }.

(** [hash]: the sum is a [long], [%] takes the sign of the dividend, and the
    result is cut to an [int]. *)
Definition BufHashTbl_hash (HTSIZE file pageNo : Z) : Z := s32 (Z.rem (s64 (file + pageNo)) HTSIZE).

(** The constructor: [htSize] empty chains. *)
Definition BufHashTbl_new (htSize : Z) : BufHashTbl :=
  mkBufHashTbl htSize (replicate (Z.to_nat htSize) []).

(** The test [tmpBuc->file == file && tmpBuc->pageNo == pageNo]. *)
Definition hb_match (file pageNo : Z) (b : hashBucket) : bool :=
  bool_decide (hb_file b = file) && bool_decide (hb_pageNo b = pageNo).

Definition BufHashTbl_insert (file pageNo frameNo : Z) (t : BufHashTbl) : option (Status * BufHashTbl) :=
  '(st, ht') ← table_insert (hb_match file pageNo) (BufHashTbl_hash (bh_HTSIZE t) file pageNo)
                 (HashBucket file pageNo frameNo) (bh_ht t);
  Some (st, mkBufHashTbl (bh_HTSIZE t) ht').

Definition BufHashTbl_lookup (file pageNo : Z) (t : BufHashTbl) : option (result Z) :=
  table_find (hb_match file pageNo) (BufHashTbl_hash (bh_HTSIZE t) file pageNo) hb_frameNo (bh_ht t).

Definition BufHashTbl_remove (file pageNo : Z) (t : BufHashTbl) : option (Status * BufHashTbl) :=
  '(st, ht') ← table_remove (hb_match file pageNo) (BufHashTbl_hash (bh_HTSIZE t) file pageNo) (bh_ht t);
  Some (st, mkBufHashTbl (bh_HTSIZE t) ht').

(** ** The hash table of the open files *)

Record fileHashBucket : Set := FileHashBucket { fhb_fname : string; fhb_file : Z }.

Record OpenFileHashTbl : Set := mkOpenFileHashTbl { of_HTSIZE : Z; of_ht : list (list fileHashBucket) }.

Definition OpenFileHashTbl_new : OpenFileHashTbl :=
  mkOpenFileHashTbl 113 (replicate (Z.to_nat 113) []).

(** A [char] is signed. *)
Definition char_int (c : Ascii.ascii) : Z := wrapS 8 (Z.of_N (Ascii.N_of_ascii c)).

(** The loop [value = 31*value + (int) fileName\[i\]], in [int]s. *)
Definition OpenFileHashTbl_hash (HTSIZE : Z) (fileName : string) : Z :=
  let value := foldl (fun value c => s32 (31 * value + char_int c)) 0 (String.list_ascii_of_string fileName) in
  Z.abs (Z.rem value HTSIZE).

Definition fhb_match (fileName : string) (b : fileHashBucket) : bool :=
  bool_decide (fhb_fname b = fileName).

Definition OpenFileHashTbl_insert (fileName : string) (file : Z) (t : OpenFileHashTbl)
    : option (Status * OpenFileHashTbl) :=
  '(st, ht') ← table_insert (fhb_match fileName) (OpenFileHashTbl_hash (of_HTSIZE t) fileName)
                 (FileHashBucket fileName file) (of_ht t);
  Some (st, mkOpenFileHashTbl (of_HTSIZE t) ht').

Definition OpenFileHashTbl_find (fileName : string) (t : OpenFileHashTbl) : option (result Z) :=
  table_find (fhb_match fileName) (OpenFileHashTbl_hash (of_HTSIZE t) fileName) fhb_file (of_ht t).

Definition OpenFileHashTbl_erase (fileName : string) (t : OpenFileHashTbl) : option (Status * OpenFileHashTbl) :=
  '(st, ht') ← table_remove (fhb_match fileName) (OpenFileHashTbl_hash (of_HTSIZE t) fileName) (of_ht t);
  Some (st, mkOpenFileHashTbl (of_HTSIZE t) ht').

(** ** The interface the rest of the system uses

    [MapTable T K V]: a table of type [T] with its well-formedness, the
    finite map it stands for and the keys its hash function can place, and
    what the three operations do to the map. *)

Class MapTable (T K V : Type) `{Countable K} := {
  mt_ok : T -> Prop;
  mt_map : T -> gmap K V;
  mt_key : K -> Prop;
  mt_insert : K -> V -> T -> option (Status * T);
  mt_find : K -> T -> option (result V);
  mt_remove : K -> T -> option (Status * T);
  mt_find_ok : forall t k, mt_ok t -> mt_key k ->
    mt_find k t = Some match mt_map t !! k with Some v => Ok v | None => Err HASHNOTFOUND end;
  mt_insert_ok : forall t k v, mt_ok t -> mt_key k ->
    match mt_map t !! k with
    | Some _ => mt_insert k v t = Some (HASHTBLERROR, t)
    | None => exists t', mt_insert k v t = Some (OK, t') /\ mt_ok t' /\ mt_map t' = <[k := v]> (mt_map t)
    end;
  mt_remove_ok : forall t k, mt_ok t -> mt_key k ->
    match mt_map t !! k with
    | None => mt_remove k t = Some (HASHTBLERROR, t)
    | Some _ => exists t', mt_remove k t = Some (OK, t') /\ mt_ok t' /\ mt_map t' = delete k (mt_map t)
    end;
}.

(** *** [BufHashTbl] *)

Definition hb_key (b : hashBucket) : Z * Z := (hb_file b, hb_pageNo b).
Definition bh_idx (HTSIZE : Z) (k : Z * Z) : Z := BufHashTbl_hash HTSIZE k.1 k.2.

Definition bh_ok (t : BufHashTbl) : Prop :=
  0 < bh_HTSIZE t < 2 ^ 31 /\ table_ok hb_key (bh_idx (bh_HTSIZE t)) (bh_HTSIZE t) (bh_ht t).

Definition bh_map (t : BufHashTbl) : gmap (Z * Z) Z := chain_map hb_key hb_frameNo (bh_ht t).

(** A [File*] and a page number whose sum is a non-negative [long]. *)
Definition page_key (k : Z * Z) : Prop := 0 <= k.1 + k.2 < 2 ^ 63.

Definition hb_matches (k : Z * Z) : hashBucket -> bool := hb_match k.1 k.2.

Lemma hb_matches_key k b : hb_matches k b = is_key hb_key k b.
Proof.
  unfold hb_matches, hb_match, is_key, hb_key. destruct b as [f n r], k; cbn.
  repeat case_bool_decide; cbn; naive_solver.
Qed.

Lemma bh_idx_range t k : bh_ok t -> page_key k -> 0 <= bh_idx (bh_HTSIZE t) k < bh_HTSIZE t.
Proof.
  intros [Hs _] Hk. unfold bh_idx, BufHashTbl_hash, page_key in *.
  rewrite (wrapS_id 64) by (unfold inS; lia).
  pose proof (Z.rem_bound_pos (k.1 + k.2) (bh_HTSIZE t)).
  rewrite wrapS_id by (unfold inS; lia). lia.
Qed.

Lemma BufHashTbl_new_ok n : 0 < n < 2 ^ 31 -> bh_ok (BufHashTbl_new n) /\ bh_map (BufHashTbl_new n) = ∅.
Proof.
  intros Hn. destruct (table_nil hb_key hb_frameNo (bh_idx n) n) as [Hk Hm]; [lia|]. split; [split; [done|exact Hk]|exact Hm].
Qed.

#[export, refine] Instance BufHashTbl_table : MapTable BufHashTbl (Z * Z) Z := {|
  mt_ok := bh_ok; mt_map := bh_map; mt_key := page_key;
  mt_insert := fun k v => BufHashTbl_insert k.1 k.2 v;
  mt_find := fun k => BufHashTbl_lookup k.1 k.2;
  mt_remove := fun k => BufHashTbl_remove k.1 k.2;
|}.
Proof.
  - intros t k Ht Hk. apply (table_find_ok hb_key hb_frameNo (bh_idx (bh_HTSIZE t)) (bh_HTSIZE t)
      hb_matches hb_matches_key); [apply Ht|by apply bh_idx_range].
  - intros t [f n] v Ht Hk. pose proof (table_insert_ok hb_key hb_frameNo (bh_idx (bh_HTSIZE t)) (bh_HTSIZE t)
      hb_matches hb_matches_key (bh_ht t) (HashBucket f n v) (proj2 Ht) (bh_idx_range t (f, n) Ht Hk)) as Hi.
    unfold BufHashTbl_insert, bh_map, hb_matches, bh_idx, hb_key in *. cbn [fst snd hb_file hb_pageNo hb_frameNo] in *.
    destruct (chain_map _ _ _ !! (f, n)); [rewrite Hi; by destruct t|].
    destruct Hi as (t' & Hi & Hok & Hm). rewrite Hi.
    eexists; split; [reflexivity|]. by split; [split; [apply Ht|]|].
  - intros t [f n] Ht Hk. pose proof (table_remove_ok hb_key hb_frameNo (bh_idx (bh_HTSIZE t)) (bh_HTSIZE t)
      hb_matches hb_matches_key (bh_ht t) (f, n) (proj2 Ht) (bh_idx_range t (f, n) Ht Hk)) as Hi.
    unfold BufHashTbl_remove, bh_map, hb_matches, bh_idx, hb_key in *. cbn [fst snd] in *.
    destruct (chain_map _ _ _ !! (f, n)); [|rewrite Hi; by destruct t].
    destruct Hi as (t' & Hi & Hok & Hm). rewrite Hi.
    eexists; split; [reflexivity|]. by split; [split; [apply Ht|]|].
Defined.

(** *** [OpenFileHashTbl] *)

Definition of_ok (t : OpenFileHashTbl) : Prop :=
  0 < of_HTSIZE t /\ table_ok fhb_fname (OpenFileHashTbl_hash (of_HTSIZE t)) (of_HTSIZE t) (of_ht t).

Definition of_map (t : OpenFileHashTbl) : gmap string Z := chain_map fhb_fname fhb_file (of_ht t).

Lemma fhb_match_key k b : fhb_match k b = is_key fhb_fname k b.
Proof. done. Qed.

Lemma of_idx_range t k : of_ok t ->
  0 <= OpenFileHashTbl_hash (of_HTSIZE t) k < of_HTSIZE t.
Proof.
  intros [Hs _]. unfold OpenFileHashTbl_hash. generalize (foldl (fun v c => s32 (31 * v + char_int c)) 0
    (String.list_ascii_of_string k)). intros z. pose proof (Z.rem_bound_abs z (of_HTSIZE t)). lia.
Qed.

Lemma OpenFileHashTbl_new_ok : of_ok OpenFileHashTbl_new /\ of_map OpenFileHashTbl_new = ∅.
Proof.
  destruct (table_nil fhb_fname fhb_file (OpenFileHashTbl_hash 113) 113) as [? ?]; [lia|]. done.
Qed.

#[export, refine] Instance OpenFileHashTbl_table : MapTable OpenFileHashTbl string Z := {|
  mt_ok := of_ok; mt_map := of_map; mt_key := fun _ => True;
  mt_insert := OpenFileHashTbl_insert;
  mt_find := OpenFileHashTbl_find;
  mt_remove := OpenFileHashTbl_erase;
|}.
Proof.
  - intros t k Ht _. apply (table_find_ok fhb_fname fhb_file (OpenFileHashTbl_hash (of_HTSIZE t)) (of_HTSIZE t)
      fhb_match fhb_match_key); [apply Ht|by apply of_idx_range].
  - intros t k v Ht _. pose proof (table_insert_ok fhb_fname fhb_file (OpenFileHashTbl_hash (of_HTSIZE t)) (of_HTSIZE t)
      fhb_match fhb_match_key (of_ht t) (FileHashBucket k v) (proj2 Ht) (of_idx_range t k Ht)) as Hi.
    unfold OpenFileHashTbl_insert, of_map. cbn [fhb_fname fhb_file] in Hi.
    destruct (chain_map _ _ _ !! k); [rewrite Hi; by destruct t|].
    destruct Hi as (t' & Hi & Hok & Hm). rewrite Hi.
    eexists; split; [reflexivity|]. by split; [split; [apply Ht|]|].
  - intros t k Ht _. pose proof (table_remove_ok fhb_fname fhb_file (OpenFileHashTbl_hash (of_HTSIZE t)) (of_HTSIZE t)
      fhb_match fhb_match_key (of_ht t) k (proj2 Ht) (of_idx_range t k Ht)) as Hi.
    unfold OpenFileHashTbl_erase, of_map.
    destruct (chain_map _ _ _ !! k); [|rewrite Hi; by destruct t].
    destruct Hi as (t' & Hi & Hok & Hm). rewrite Hi.
    eexists; split; [reflexivity|]. by split; [split; [apply Ht|]|].
Defined.

(** ** Traces of table operations *)

Inductive tbl_op (K V : Type) : Type :=
| TInsert (k : K) (v : V)
| TFind (k : K)
| TRemove (k : K).
Arguments TInsert {K V} k v.
Arguments TFind {K V} k.
Arguments TRemove {K V} k.

Definition op_key {K V} (o : tbl_op K V) : K :=
  match o with TInsert k _ | TFind k | TRemove k => k end.

Section Traces.
Context {T K V : Type} `{MapTable T K V}.

(** An operation returns a status and, when it is a successful search, the
    value it found. *)
Definition run_tbl_op (o : tbl_op K V) (t : T) : option ((Status * option V) * T) :=
  match o with
  | TInsert k v => '(st, t') ← mt_insert k v t; Some ((st, None), t')
  | TFind k => r ← mt_find k t; Some (match r with Ok v => (OK, Some v) | Err e => (e, None) end, t)
  | TRemove k => '(st, t') ← mt_remove k t; Some ((st, None), t')
  end.

Definition spec_tbl_op (o : tbl_op K V) (m : gmap K V) : (Status * option V) * gmap K V :=
  match o, m !! op_key o with
  | TInsert k v, Some _ => ((HASHTBLERROR, None), m)
  | TInsert k v, None => ((OK, None), <[k := v]> m)
  | TFind k, Some v => ((OK, Some v), m)
  | TFind k, None => ((HASHNOTFOUND, None), m)
  | TRemove k, Some _ => ((OK, None), delete k m)
  | TRemove k, None => ((HASHTBLERROR, None), m)
  end.

Fixpoint run_tbl_ops (os : list (tbl_op K V)) (t : T) : option (list (Status * option V) * T) :=
  match os with
  | [] => Some ([], t)
  | o :: os => '(r, t1) ← run_tbl_op o t; '(rs, t2) ← run_tbl_ops os t1; Some (r :: rs, t2)
  end.

Fixpoint spec_tbl_ops (os : list (tbl_op K V)) (m : gmap K V) : list (Status * option V) * gmap K V :=
  match os with
  | [] => ([], m)
  | o :: os => let '(r, m1) := spec_tbl_op o m in let '(rs, m2) := spec_tbl_ops os m1 in (r :: rs, m2)
  end.

Lemma run_tbl_op_ok o t :
  mt_ok t -> mt_key (op_key o) ->
  exists t', run_tbl_op o t = Some ((spec_tbl_op o (mt_map t)).1, t') /\ mt_ok t' /\
    mt_map t' = (spec_tbl_op o (mt_map t)).2.
Proof.
  intros Ht Hk. destruct o as [k v|k|k]; cbn in *.
  - pose proof (mt_insert_ok t k v Ht Hk) as Hi. destruct (mt_map t !! k).
    + rewrite Hi. by exists t.
    + destruct Hi as (t' & -> & ? & ?). by exists t'.
  - rewrite (mt_find_ok t k Ht Hk). destruct (mt_map t !! k); by exists t.
  - pose proof (mt_remove_ok t k Ht Hk) as Hi. destruct (mt_map t !! k).
    + destruct Hi as (t' & -> & ? & ?). by exists t'.
    + rewrite Hi. by exists t.
Qed.

Lemma run_tbl_ops_ok os t :
  mt_ok t -> Forall (fun o => mt_key (op_key o)) os ->
  exists t', run_tbl_ops os t = Some ((spec_tbl_ops os (mt_map t)).1, t') /\ mt_ok t' /\
    mt_map t' = (spec_tbl_ops os (mt_map t)).2.
Proof.
  intros Ht Hos. revert t Ht. induction Hos as [|o os Ho _ IH]; cbn; intros t Ht; [by exists t|].
  destruct (run_tbl_op_ok o t Ht Ho) as (t1 & -> & Ht1 & Hm1). cbn.
  destruct (IH t1 Ht1) as (t2 & -> & Ht2 & Hm2). rewrite Hm1 in *. cbn.
  destruct (spec_tbl_op o (mt_map t)) as [r m1]. cbn in *.
  destruct (spec_tbl_ops os m1) as [rs m2]. cbn in *. by exists t2.
Qed.

End Traces.

(** C27.  The hash table of the buffer pool is a finite map from pages to
    frames: from an empty table, every sequence of [insert], [lookup] and
    [remove] calls runs within the array and returns the statuses and frames
    a finite map returns, however the keys collide. *)
Theorem bufhash_refines_map (n : Z) (os : list (tbl_op (Z * Z) Z)) :
  0 < n < 2 ^ 31 -> Forall (fun o => page_key (op_key o)) os ->
  exists t', run_tbl_ops os (BufHashTbl_new n) = Some ((spec_tbl_ops os ∅).1, t') /\
    bh_map t' = (spec_tbl_ops os ∅).2.
Proof.
  intros Hn Hos. destruct (BufHashTbl_new_ok n Hn) as [Hok Hm].
  destruct (run_tbl_ops_ok os (BufHashTbl_new n)) as (t' & Hr & _ & Hm'); [exact Hok|exact Hos|].
  exists t'. cbn [mt_map BufHashTbl_table] in *. by rewrite <- Hm.
Qed.

(** Three keys of one chain; the middle one goes and comes back. *)
Definition demo_tbl_ops : list (tbl_op (Z * Z) Z) :=
  [ TInsert (4096, 1) 0; TInsert (4096, 6) 1; TInsert (4096, 11) 2; TInsert (4096, 6) 7;
    TRemove (4096, 6); TFind (4096, 6); TFind (4096, 1); TRemove (4096, 6); TInsert (4096, 6) 9; TFind (4096, 6) ].

Lemma bufhash_refines_map_witness :
  exists t', run_tbl_ops demo_tbl_ops (BufHashTbl_new 5) =
    Some ([(OK, None); (OK, None); (OK, None); (HASHTBLERROR, None); (OK, None); (HASHNOTFOUND, None);
           (OK, Some 0); (HASHTBLERROR, None); (OK, None); (OK, Some 9)], t').
Proof.
  destruct (bufhash_refines_map 5 demo_tbl_ops) as (t' & Ht' & _); [lia| |].
  - unfold demo_tbl_ops. repeat constructor; vm_compute; done.
  - exists t'. rewrite Ht'. by vm_compute.
Defined.

(** C28.  The table of open files is a finite map from names to [File]
    objects for every sequence of [insert], [find] and [erase] calls: the
    hash of every name is an index of the table, overflow of the polynomial
    hash and characters above 127 included. *)
Theorem openfiles_refines_map (os : list (tbl_op string Z)) :
  exists t', run_tbl_ops os OpenFileHashTbl_new = Some ((spec_tbl_ops os ∅).1, t') /\
    of_map t' = (spec_tbl_ops os ∅).2.
Proof.
  destruct OpenFileHashTbl_new_ok as [Hok Hm].
  destruct (run_tbl_ops_ok os OpenFileHashTbl_new) as (t' & Hr & _ & Hm'); [exact Hok| |].
  { apply Forall_forall. intros; exact I. }
  exists t'. cbn [mt_map OpenFileHashTbl_table] in *. by rewrite <- Hm.
Qed.
