(* ===== verification/Unix.v ===== *)
(** * The Unix files below the storage layer

    What db.C uses of the operating system: [open], [close], [remove], and
    [lseek] followed by [read] or [write].  A directory maps names to inodes,
    an inode holds bytes, an open descriptor refers to an inode.  Every
    [read] and [write] of db.C directly follows an [lseek], so the offset is
    an argument here.  [open] fails when the descriptor table is full.  A
    [write] that does not fit into the largest file size writes the bytes that
    do and returns their number; where none does it fails ([EFBIG]).  A medium
    that is full or broken ([ENOSPC], [EIO]) is not modelled. *)

From S2P Require Export Bytes Page.

Record Unix : Set := mkUnix {
  u_dir : gmap string Z;     (* name -> inode *)
  u_data : gmap Z block;     (* inode -> contents *)
  u_fds : gmap Z Z;          (* open descriptor -> inode *)
  u_nextIno : Z;             (* fresh inode number *)
  u_nextFd : Z;              (* fresh descriptor *)
  u_maxFds : Z;              (* size of the descriptor table *)
  u_fsize : Z;               (* largest file size in bytes *)
}.

Inductive errno : Set := EEXIST | ENOENT | EMFILE | EBADF.

#[export] Instance errno_eq_dec : EqDecision errno.
Proof. solve_decision. Defined.

Definition set_fds (fds : gmap Z Z) (u : Unix) : Unix :=
  mkUnix (u_dir u) (u_data u) fds (u_nextIno u) (u_nextFd u) (u_maxFds u) (u_fsize u).
Definition set_data (data : gmap Z block) (u : Unix) : Unix :=
  mkUnix (u_dir u) data (u_fds u) (u_nextIno u) (u_nextFd u) (u_maxFds u) (u_fsize u).
Definition set_dir (dir : gmap string Z) (u : Unix) : Unix :=
  mkUnix dir (u_data u) (u_fds u) (u_nextIno u) (u_nextFd u) (u_maxFds u) (u_fsize u).

(** A new descriptor for inode [ino]. *)
Definition new_fd (ino : Z) (u : Unix) : Z * Unix :=
  (u_nextFd u,
   mkUnix (u_dir u) (u_data u) (<[u_nextFd u := ino]> (u_fds u)) (u_nextIno u) (u_nextFd u + 1)
     (u_maxFds u) (u_fsize u)).

(** [open(name, O_CREAT | O_EXCL | O_WRONLY, 0666)]. *)
Definition unix_creat (name : string) (u : Unix) : (errno + Z) * Unix :=
  match u_dir u !! name with
  | Some _ => (inl EEXIST, u)
  | None =>
      if decide (u_maxFds u <= Z.of_nat (size (u_fds u))) then (inl EMFILE, u)
      else
        let ino := u_nextIno u in
        let '(fd, u) := new_fd ino u in
        (inr fd, mkUnix (<[name := ino]> (u_dir u)) (<[ino := []]> (u_data u)) (u_fds u) (ino + 1)
                   (u_nextFd u) (u_maxFds u) (u_fsize u))
  end.

(** [open(name, O_RDWR)]. *)
Definition unix_open (name : string) (u : Unix) : (errno + Z) * Unix :=
  match u_dir u !! name with
  | None => (inl ENOENT, u)
  | Some ino =>
      if decide (u_maxFds u <= Z.of_nat (size (u_fds u))) then (inl EMFILE, u)
      else let '(fd, u) := new_fd ino u in (inr fd, u)
  end.

Definition unix_close (fd : Z) (u : Unix) : option errno * Unix :=
  match u_fds u !! fd with
  | None => (Some EBADF, u)
  | Some _ => (None, set_fds (delete fd (u_fds u)) u)
  end.

(** [remove(name)]: the inode stays as long as a descriptor refers to it. *)
Definition unix_remove (name : string) (u : Unix) : option errno * Unix :=
  match u_dir u !! name with
  | None => (Some ENOENT, u)
  | Some _ => (None, set_dir (delete name (u_dir u)) u)
  end.

(** The bytes [read] returns at an offset: fewer than [n] at the end of the file. *)
Definition pread (off n : Z) (c : block) : block := take (Z.to_nat n) (drop (Z.to_nat off) c).

(** The contents after a [write]: a gap before [off] reads as zeros. *)
Definition pwrite (off : Z) (v c : block) : block :=
  let c := c ++ replicate (Z.to_nat off + length v - length c) x00 in
  take (Z.to_nat off) c ++ v ++ drop (Z.to_nat off + length v) c.

Definition unix_lseek (fd off : Z) (u : Unix) : Z :=
  match u_fds u !! fd with
  | None => -1
  | Some _ => if decide (off < 0) then -1 else off
  end.

Definition unix_read (fd off n : Z) (u : Unix) : option block :=
  ino ← u_fds u !! fd; c ← u_data u !! ino; Some (pread off n c).

(** The number of bytes written, -1 for an error; [v] is not empty. *)
Definition unix_write (fd off : Z) (v : block) (u : Unix) : Z * Unix :=
  match u_fds u !! fd with
  | None => (-1, u)
  | Some ino =>
      match u_data u !! ino with
      | None => (-1, u)
      | Some c =>
          if decide (u_fsize u <= off) then (-1, u)
          else
            let v := take (Z.to_nat (u_fsize u - off)) v in
            (Z.of_nat (length v), set_data (<[ino := pwrite off v c]> (u_data u)) u)
      end
  end.

(** ** Reading and writing bytes of a file *)

Lemma pread_rd off n c v : rd off n c = Some v -> pread off n c = v.
Proof. intros [_ ->]%rd_Some. done. Qed.

Lemma pwrite_wr off v c c' : wr off v c = Some c' -> pwrite off v c = c'.
Proof.
  intros [Hr ->]%wr_Some. unfold pwrite.
  replace (Z.to_nat off + length v - length c)%nat with 0%nat by lia. cbn. by rewrite app_nil_r.
Qed.

(** Writing nothing inside the file. *)
Lemma pwrite_nil off c : Z.of_nat (length c) >= off -> pwrite off [] c = c.
Proof.
  intros Hoff. unfold pwrite. cbn [length app]. replace (Z.to_nat off + 0 - length c)%nat with 0%nat by lia.
  cbn [replicate]. by rewrite app_nil_r, Nat.add_0_r, take_drop.
Qed.

Lemma pwrite_length off v c : 0 <= off -> off <= Z.of_nat (length c) ->
  Z.of_nat (length (pwrite off v c)) = Z.max (Z.of_nat (length c)) (off + Z.of_nat (length v)).
Proof.
  intros H0 Hoff. unfold pwrite. rewrite !length_app, length_take, length_drop, length_app, length_replicate. lia.
Qed.

(** What lies in front of the bytes written stays. *)
Lemma rd_pwrite off v c o n : 0 <= off -> off <= Z.of_nat (length c) -> o + n <= off -> rd o n (pwrite off v c) = rd o n c.
Proof.
  intros H0 Hoff Hon. destruct (decide (0 <= o)) as [Ho|Ho]; [|unfold rd; rewrite !decide_False by lia; done].
  pose proof (pwrite_length off v c H0 Hoff) as Hl. apply rd_ext; [lia|lia|lia|lia|]. intros k Hk.
  unfold pwrite. rewrite lookup_app_l by (rewrite length_take, length_app; lia). rewrite lookup_take_lt by lia. by rewrite lookup_app_l by lia.
Qed.

Lemma rd_pwrite_same off v c : 0 <= off -> off <= Z.of_nat (length c) -> rd off (Z.of_nat (length v)) (pwrite off v c) = Some v.
Proof.
  intros H0 Hoff. pose proof (pwrite_length off v c H0 Hoff) as Hl. apply rd_Some. split; [lia|]. rewrite Nat2Z.id. unfold pwrite.
  rewrite drop_app_length' by (rewrite length_take, length_app; lia). by rewrite take_app_length.
Qed.

(** Appending at the end of the file. *)
Lemma pwrite_end v c : pwrite (Z.of_nat (length c)) v c = c ++ v.
Proof.
  unfold pwrite. rewrite Nat2Z.id, take_app_length, drop_ge by (rewrite length_app, length_replicate; lia).
  by rewrite app_nil_r.
Qed.

Lemma rd_app_l off n b b' : 0 <= off -> off + n <= Z.of_nat (length b) -> rd off n (b ++ b') = rd off n b.
Proof.
  intros. apply rd_ext; rewrite ?length_app; try lia. intros k Hk.
  rewrite lookup_app_l; [done|lia].
Qed.

Lemma rd_app_r off n b b' :
  Z.of_nat (length b) <= off -> off + n <= Z.of_nat (length b) + Z.of_nat (length b') ->
  rd off n (b ++ b') = rd (off - Z.of_nat (length b)) n b'.
Proof.
  intros. apply rd_ext; rewrite ?length_app; try lia. intros k Hk.
  rewrite lookup_app_r by lia. f_equal. lia.
Qed.

Lemma rd32_app_l off b b' : 0 <= off -> off + 4 <= Z.of_nat (length b) -> rd32 off (b ++ b') = rd32 off b.
Proof. intros. unfold rd32. by rewrite rd_app_l. Qed.
