(* ===== verification/Store.v ===== *)
(** * The interface between the files and the buffer manager

    [PageStore S]: what the buffer manager may assume of the [File] objects
    of db.C.  A state of type [S] holds the pages of the open files; a page
    is readable when it has been allocated and not disposed of.  [File]
    discharges the laws, [BufMgr] is proved against them. *)

From S2P Require Export HashTbl Page.

(** The effect of a change of one page on the map from pages to contents. *)
Definition upd_page (pg : Z -> Z -> option block) (f n : Z) (p : option block) : Z -> Z -> option block :=
  fun g m => if decide (g = f /\ m = n) then p else pg g m.

Class PageStore (S : Type) := {
  ps_readPage : Z -> Z -> block -> S -> option (Status * block);
  ps_writePage : Z -> Z -> block -> S -> option (Status * S);
  ps_allocatePage : Z -> CODE S Z;
  ps_disposePage : Z -> Z -> S -> option (Status * S);

  ps_ok : S -> Prop;
  ps_file : S -> Z -> Prop;
  ps_page : S -> Z -> Z -> option block;

  ps_page_bounds : forall s f n p, ps_ok s -> ps_page s f n = Some p ->
    0 < f /\ page_key (f, n) /\ ps_file s f /\ Z.of_nat (length p) = PAGESIZE;
  ps_read_ok : forall s f n p old, ps_ok s -> ps_page s f n = Some p ->
    Z.of_nat (length old) = PAGESIZE -> ps_readPage f n old s = Some (OK, p);
  ps_write_ok : forall s f n p q, ps_ok s -> ps_page s f n = Some p -> Z.of_nat (length q) = PAGESIZE ->
    exists s', ps_writePage f n q s = Some (OK, s') /\ ps_ok s' /\
      (forall g, ps_file s' g <-> ps_file s g) /\
      (forall g m, ps_page s' g m = upd_page (ps_page s) f n (Some q) g m);
  ps_allocate_ok : forall s f, ps_ok s -> ps_file s f ->
    exists r s', ps_allocatePage f s = Some (r, s') /\ ps_ok s' /\
      (forall g, ps_file s' g <-> ps_file s g) /\
      match r with
      | Ok n => ps_page s f n = None /\
          exists p, forall g m, ps_page s' g m = upd_page (ps_page s) f n (Some p) g m
      | Err _ => forall g m, ps_page s' g m = ps_page s g m
      end;
  ps_dispose_ok : forall s f n p, ps_ok s -> ps_page s f n = Some p ->
    exists st s', ps_disposePage f n s = Some (st, s') /\ ps_ok s' /\
      (forall g, ps_file s' g <-> ps_file s g) /\
      (forall g m, ps_page s' g m =
         if decide (st = OK) then upd_page (ps_page s) f n None g m else ps_page s g m);
}.
