(* ===== verification/File.v ===== *)
(** * Files of pages (class File of db.h and db.C)

    A [File] object names a Unix file whose page 0 is the header [DBPage] and
    whose pages from 1 on are handed out by [allocatePage].  Disposed pages
    form a list linked through their first word.  The objects live in a heap
    of addresses; a dangling [File*] is undefined behaviour.  [File::close],
    which calls the buffer manager, is in Db.v. *)

From S2P Require Export Unix Store.

Record File : Set := mkFile { fileName : string; openCnt : Z; unixFile : Z }.

(** The state below the buffer manager: the Unix files and the [File] objects. *)
Record Disk : Set := mkDisk { unix : Unix; files : gmap Z File; nextPtr : Z }.

Definition set_unix (u : Unix) (d : Disk) : Disk := mkDisk u (files d) (nextPtr d).
Definition set_file (this : Z) (f : File) (d : Disk) : Disk :=
  mkDisk (unix d) (<[this := f]> (files d)) (nextPtr d).

(** The fields of the header page, [DBP(header)]. *)
Definition off_nextFree : Z := 0.
Definition off_firstPage : Z := 4.
Definition off_numPages : Z := 8.

Definition zeroPage : block := replicate (Z.to_nat PAGESIZE) x00.

(** The constructor [File::File]; objects are one cache line apart. *)
Definition File_new (fname : string) (d : Disk) : Z * Disk :=
  (nextPtr d, mkDisk (unix d) (<[nextPtr d := mkFile fname 0 (-1)]> (files d)) (nextPtr d + 64)).

(** [File::create]. *)
Definition File_create (fileName : string) (d : Disk) : option (Status * Disk) :=
  match unix_creat fileName (unix d) with
  | (inl EEXIST, _) => Some (FILEEXISTS, d)
  | (inl _, _) => Some (UNIXERR, d)
  | (inr file, u) =>
      header ← wr32 off_nextFree (-1) zeroPage;
      header ← wr32 off_firstPage (-1) header;
      header ← wr32 off_numPages 1 header;
      let '(nbytes, u) := unix_write file 0 header u in
      if decide (nbytes <> PAGESIZE) then Some (UNIXERR, set_unix u d)
      else match unix_close file u with
           | (Some _, u) => Some (UNIXERR, set_unix u d)
           | (None, u) => Some (OK, set_unix u d)
           end
  end.

(** [File::destroy]. *)
Definition File_destroy (fileName : string) (d : Disk) : Status * Disk :=
  match unix_remove fileName (unix d) with
  | (Some _, u) => (UNIXERR, set_unix u d)
  | (None, u) => (OK, set_unix u d)
  end.

(** [File::open]. *)
Definition File_open (this : Z) (d : Disk) : option (Status * Disk) :=
  f ← files d !! this;
  if decide (openCnt f = 0) then
    match unix_open (fileName f) (unix d) with
    | (inl _, u) => Some (UNIXERR, set_file this (mkFile (fileName f) (openCnt f) (-1)) (set_unix u d))
    | (inr fd, u) => Some (OK, set_file this (mkFile (fileName f) 1 fd) (set_unix u d))
    end
  else Some (OK, set_file this (mkFile (fileName f) (s32 (openCnt f + 1)) (unixFile f)) d).

(** [pageNo * sizeof(Page)]: an [unsigned long] product, taken as an [off_t]. *)
Definition page_off (pageNo : Z) : Z := s64 (pageNo * PAGESIZE).

(** [File::intread]: the status and what the caller's page holds afterwards. *)
Definition File_intread (this pageNo : Z) (page : block) (d : Disk) : option (Status * block) :=
  f ← files d !! this;
  if decide (unix_lseek (unixFile f) (page_off pageNo) (unix d) = -1) then Some (UNIXERR, page)
  else
    match unix_read (unixFile f) (page_off pageNo) PAGESIZE (unix d) with
    | None => Some (UNIXERR, page)
    | Some v =>
        Some (if decide (Z.of_nat (length v) <> PAGESIZE) then UNIXERR else OK, v ++ drop (length v) page)
    end.

(** [File::intwrite]. *)
Definition File_intwrite (this pageNo : Z) (page : block) (d : Disk) : option (Status * Disk) :=
  f ← files d !! this;
  if decide (unix_lseek (unixFile f) (page_off pageNo) (unix d) = -1) then Some (UNIXERR, d)
  else
    let '(nbytes, u) := unix_write (unixFile f) (page_off pageNo) page (unix d) in
    Some (if decide (nbytes <> PAGESIZE) then UNIXERR else OK, set_unix u d).

(** [File::readPage] and [File::writePage]; the page pointers are addresses of
    frames and local pages, never [NULL]. *)
Definition File_readPage (this pageNo : Z) (page : block) (d : Disk) : option (Status * block) :=
  if decide (pageNo < 1) then Some (BADPAGENO, page) else File_intread this pageNo page d.

Definition File_writePage (this pageNo : Z) (page : block) (d : Disk) : option (Status * Disk) :=
  if decide (pageNo < 1) then Some (BADPAGENO, d) else File_intwrite this pageNo page d.

(** [if ((status = intread(...)) != OK) return status;] into a local page,
    and the same for [intwrite]. *)
Definition intread_or_return (this pageNo : Z) : CODE Disk block := fun d =>
  '(st, p) ← File_intread this pageNo zeroPage d;
  Some (if decide (st = OK) then Ok p else Err st, d).

Definition intwrite_or_return (this pageNo : Z) (page : block) : CODE Disk unit := fun d =>
  '(st, d') ← File_intwrite this pageNo page d;
  Some (if decide (st = OK) then Ok tt else Err st, d').

(** [File::allocatePage]. *)
Definition File_allocatePage (this : Z) : CODE Disk Z :=
  let! header := intread_or_return this 0 in
  let! nextFree := defined (rd32 off_nextFree header) in
  let! (pageNo, header) :=
    (if decide (nextFree <> -1) then
       let pageNo := nextFree in
       let! firstFree := intread_or_return this pageNo in
       let! nx := defined (rd32 off_nextFree firstFree) in
       let! header := defined (wr32 off_nextFree nx header) in
       ret (pageNo, header)
     else
       let! pageNo := defined (rd32 off_numPages header) in
       intwrite_or_return this pageNo zeroPage ;;;
       let! header := defined (wr32 off_numPages (pageNo + 1) header) in
       let! firstPage := defined (rd32 off_firstPage header) in
       if decide (firstPage = -1) then
         let! header := defined (wr32 off_firstPage pageNo header) in ret (pageNo, header)
       else ret (pageNo, header)) in
  intwrite_or_return this 0 header ;;;
  ret pageNo.

(** [File::disposePage]. *)
Definition File_disposePage_code (this pageNo : Z) : CODE Disk unit :=
  if decide (pageNo < 1) then throw BADPAGENO
  else
    let! header := intread_or_return this 0 in
    let! firstPage := defined (rd32 off_firstPage header) in
    let! numPages := defined (rd32 off_numPages header) in
    if decide (firstPage = pageNo \/ pageNo >= numPages) then throw BADPAGENO
    else
      intread_or_return this pageNo ;;;
      let! nextFree := defined (rd32 off_nextFree header) in
      let! away := defined (wr32 off_nextFree nextFree zeroPage) in
      let! header := defined (wr32 off_nextFree pageNo header) in
      intwrite_or_return this pageNo away ;;;
      intwrite_or_return this 0 header.

Definition status_of {A} (r : result A) : Status := match r with Ok _ => OK | Err e => e end.

Definition File_disposePage (this pageNo : Z) (d : Disk) : option (Status * Disk) :=
  '(r, d') ← File_disposePage_code this pageNo d; Some (status_of r, d').

(** [File::getFirstPage]. *)
Definition File_getFirstPage (this : Z) : CODE Disk Z :=
  let! header := intread_or_return this 0 in
  defined (rd32 off_firstPage header).

(** ** The contents of a well-formed file *)

(** Page [k] of the contents, and the pages from [nx] on in the free list. *)
Definition page_at (c : block) (k : Z) : option block := rd (k * PAGESIZE) PAGESIZE c.

(** The first word of a page: the link of a free page, the head of the list
    in the header. *)
Definition link_at (c : block) (k : Z) : option Z := p ← page_at c k; rd32 off_nextFree p.

Fixpoint free_walk (fuel : nat) (nx : Z) (c : block) : list Z :=
  match fuel with
  | O => []
  | S fuel => if decide (nx = -1) then []
              else nx :: match link_at c nx with Some nx' => free_walk fuel nx' c | None => [] end
  end.

(** The free list of a file has fewer entries than the file has bytes. *)
Definition free_list (c : block) : list Z :=
  match link_at c 0 with Some nx => free_walk (length c) nx c | None => [] end.

Fixpoint free_chain (c : block) (nx : Z) (l : list Z) : Prop :=
  match l with
  | [] => nx = -1
  | k :: l => nx = k /\ exists nx', link_at c k = Some nx' /\ free_chain c nx' l
  end.

(** [n] pages and no full page behind them: a write that did not fit may have
    left a part of one. *)
Definition spans (c : block) (n : Z) : Prop := n * PAGESIZE <= Z.of_nat (length c) < (n + 1) * PAGESIZE.

(** A file of [n] pages with the free pages [fr]: the first page handed out
    is page 1, and it is never disposed of. *)
Record file_ok (c : block) (n : Z) (fr : list Z) : Prop := {
  fo_pages : 1 <= n < 2 ^ 31;
  fo_len : spans c n;
  fo_hdr : exists h nx, page_at c 0 = Some h /\ rd32 off_numPages h = Some n /\
    rd32 off_firstPage h = Some (if decide (n = 1) then -1 else 1) /\
    rd32 off_nextFree h = Some nx /\ free_chain c nx fr;
  fo_range : Forall (fun k => 1 < k < n) fr;
  fo_nodup : NoDup fr;
}.

(** The contents of the file an object is connected to. *)
Definition conn (d : Disk) (f : Z) : option Z := o ← files d !! f; u_fds (unix d) !! unixFile o.
Definition content (d : Disk) (f : Z) : option block := i ← conn d f; u_data (unix d) !! i.

(** The pages in use: numbered from 1, inside the file, not free. *)
Definition disk_page (d : Disk) (f k : Z) : option block :=
  c ← content d f;
  if decide (1 <= k /\ k ∉ free_list c) then page_at c k else None.

(** Every connected object has a well-formed file of its own. *)
Record disk_ok (d : Disk) : Prop := {
  do_inj : forall f g i, conn d f = Some i -> conn d g = Some i -> f = g;
  do_file : forall f i, conn d f = Some i -> exists c n fr, u_data (unix d) !! i = Some c /\ file_ok c n fr;
  do_size : forall i c, u_data (unix d) !! i = Some c -> Z.of_nat (length c) <= u_fsize (unix d);
  do_ptr : forall f i, conn d f = Some i -> 0 < f < 2 ^ 62;
  do_fsize : u_fsize (unix d) < (2 ^ 31 - 1) * PAGESIZE;
}.

(** ** Pages of a file's contents *)

Section Contents.
Implicit Types (c p h : block) (n k j : Z).

Lemma PAGESIZE_eq : PAGESIZE = 1024.
Proof. done. Qed.

Lemma length_zeroPage : Z.of_nat (length zeroPage) = PAGESIZE.
Proof. done. Qed.

Lemma page_at_is_Some c n k :
  spans c n -> 0 <= k < n -> exists p, page_at c k = Some p.
Proof. intros [? _] ?. rewrite PAGESIZE_eq in *. apply rd_is_Some; rewrite ?PAGESIZE_eq; lia. Qed.

Lemma page_at_length c k p : page_at c k = Some p -> Z.of_nat (length p) = PAGESIZE.
Proof. intros H%rd_length. rewrite H. done. Qed.

Lemma page_at_range c n k p :
  spans c n -> page_at c k = Some p -> 0 <= k < n.
Proof. intros [_ Hl] [Hr _]%rd_Some. rewrite PAGESIZE_eq in *. lia. Qed.

Lemma page_off_id k : 0 <= k < 2 ^ 31 -> page_off k = k * PAGESIZE.
Proof. intros. unfold page_off. rewrite PAGESIZE_eq. apply wrapS_id; [lia|]. unfold inS. lia. Qed.

(** Writing page [k] of a file of [n] pages changes that page only; writing
    page [n] extends the file. *)
Lemma pwrite_page c n k p :
  spans c n -> 0 <= k <= n -> Z.of_nat (length p) = PAGESIZE ->
  spans (pwrite (k * PAGESIZE) p c) (Z.max n (k + 1)) /\
  forall j, page_at (pwrite (k * PAGESIZE) p c) j = if decide (j = k) then Some p else page_at c j.
Proof.
  unfold spans. rewrite PAGESIZE_eq. intros Hc Hk Hp. rewrite pwrite_length, Hp by lia. split; [lia|].
  intros j. unfold page_at. rewrite PAGESIZE_eq. case_decide as Hj; [subst j|].
  - pose proof (rd_pwrite_same (k * 1024) p c ltac:(lia) ltac:(lia)) as Hs. by rewrite Hp in Hs.
  - destruct (decide (j < k)) as [Hjk|Hjk]; [apply rd_pwrite; lia|]. destruct (decide (k < n)) as [Hkn|Hkn].
    + destruct (wr_is_Some (k * 1024) p c) as [c' Hw]; [lia|lia|]. rewrite (pwrite_wr _ _ _ _ Hw). apply (rd_wr_disj _ _ _ _ _ _ Hw). lia.
    + unfold rd. rewrite pwrite_length, Hp, !decide_False by lia. done.
Qed.

(** A write that did not fit changes no page. *)
Lemma pwrite_part c n p :
  spans c n -> 0 <= n -> Z.of_nat (length p) < PAGESIZE ->
  spans (pwrite (n * PAGESIZE) p c) n /\ forall j, page_at (pwrite (n * PAGESIZE) p c) j = page_at c j.
Proof.
  unfold spans. rewrite PAGESIZE_eq. intros Hc Hn Hp. rewrite pwrite_length by lia. split; [lia|].
  intros j. unfold page_at. rewrite PAGESIZE_eq. destruct (decide (j < n)) as [Hjn|Hjn]; [apply rd_pwrite; lia|].
  unfold rd. rewrite pwrite_length, !decide_False by lia. done.
Qed.

Lemma free_chain_ext c c' nx l :
  (forall k, k ∈ l -> page_at c' k = page_at c k) -> free_chain c nx l -> free_chain c' nx l.
Proof.
  revert nx. induction l as [|k l IH]; [done|]. intros nx Hx (-> & nx' & Hl & Hc). cbn.
  split; [done|]. exists nx'. unfold link_at in *. rewrite Hx by by left. split; [done|].
  apply IH; [|done]. intros. apply Hx. by right.
Qed.

Lemma free_walk_chain c nx l fuel :
  free_chain c nx l -> Forall (fun k => 1 < k) l -> (length l < fuel)%nat -> free_walk fuel nx c = l.
Proof.
  revert nx fuel. induction l as [|k l IH]; intros nx [|fuel]; cbn; try lia.
  - intros ->. done.
  - intros (-> & nx' & Hl & Hc) [Hk Hr]%Forall_cons_iff Hf. rewrite decide_False by lia.
    rewrite Hl. f_equal. apply IH; [done|done|lia].
Qed.

(** Distinct numbers below [n] are fewer than [n]. *)
Lemma range_length n (l : list Z) : 0 <= n -> NoDup l -> Forall (fun k => 1 < k < n) l -> Z.of_nat (length l) <= n.
Proof.
  intros Hn Hnd Hr. assert (l ⊆+ seqZ 0 n) as Hs.
  { apply NoDup_submseteq; [done|]. intros k Hk. rewrite Forall_forall in Hr.
    apply elem_of_seqZ. apply list_elem_of_In in Hk.
    specialize (Hr k Hk). lia. }
  apply submseteq_length in Hs. rewrite length_seqZ in Hs. lia.
Qed.

Lemma free_list_ok c n fr : file_ok c n fr -> free_list c = fr.
Proof.
  intros [Hn Hl (h & nx & Hh & _ & _ & Hnx & Hc) Hr Hnd]. unfold free_list, link_at.
  rewrite Hh. cbn [mbind option_bind]. rewrite Hnx. apply free_walk_chain; [done| |].
  - eapply Forall_impl; [|exact Hr]. cbn. lia.
  - pose proof (range_length n fr ltac:(lia) Hnd Hr). destruct Hl as [Hl _]. rewrite PAGESIZE_eq in Hl. lia.
Qed.

(** Whether bytes are a well-formed file: the numbers of [file_ok] are those
    of the bytes. *)
Fixpoint free_chainb (c : block) (nx : Z) (l : list Z) : bool :=
  match l with
  | [] => bool_decide (nx = -1)
  | k :: l => bool_decide (nx = k) && match link_at c k with Some nx' => free_chainb c nx' l | None => false end
  end.

Definition file_okb (c : block) : bool :=
  let n := Z.of_nat (length c) / PAGESIZE in
  let fr := free_list c in
  bool_decide (1 <= n < 2 ^ 31 /\ Forall (fun k => 1 < k < n) fr /\ NoDup fr) &&
  match page_at c 0 with
  | Some h =>
      bool_decide (rd32 off_numPages h = Some n /\ rd32 off_firstPage h = Some (if decide (n = 1) then -1 else 1)) &&
      match rd32 off_nextFree h with Some nx => free_chainb c nx fr | None => false end
  | None => false
  end.

Lemma free_chainb_spec c nx l : free_chainb c nx l = true <-> free_chain c nx l.
Proof.
  revert nx. induction l as [|k l IH]; intros nx; cbn; [apply bool_decide_eq_true|].
  rewrite andb_true_iff, bool_decide_eq_true. destruct (link_at c k) as [nx'|].
  - rewrite IH. split; [intros [? ?]; split; [done|by exists nx']|intros [? (y & [= <-] & ?)]; done].
  - split; [by intros [_ ?]|by intros [_ (y & ? & _)]].
Qed.

Lemma file_okb_spec c : file_okb c = true <-> exists n fr, file_ok c n fr.
Proof.
  unfold file_okb. split.
  - intros [(H1 & H3 & H4)%bool_decide_eq_true_1 H]%andb_true_iff. destruct (page_at c 0) as [h|] eqn:Hh; [|done].
    apply andb_true_iff in H as [[H5 H6]%bool_decide_eq_true_1 H]. destruct (rd32 off_nextFree h) as [nx|] eqn:Hnx; [|done].
    eexists _, _. split; [exact H1| | |exact H3|exact H4].
    { unfold spans. rewrite PAGESIZE_eq. pose proof (Z.div_mod (Z.of_nat (length c)) 1024). pose proof (Z.mod_pos_bound (Z.of_nat (length c)) 1024). lia. }
    exists h, nx. apply free_chainb_spec in H. done.
  - intros (n & fr & Hf). rewrite (free_list_ok _ _ _ Hf). destruct Hf as [H1 H2 (h & nx & H3 & H4 & H5 & H6 & H7) H8 H9].
    assert (Z.of_nat (length c) / PAGESIZE = n) as ->.
    { unfold spans in H2. rewrite PAGESIZE_eq in *. symmetry. apply (Z.div_unique_pos _ _ _ (Z.of_nat (length c) - 1024 * n)); lia. }
    rewrite bool_decide_eq_true_2 by done. rewrite H3, bool_decide_eq_true_2 by done. rewrite H6. by apply free_chainb_spec.
Qed.

End Contents.

(** ** How the operations change the contents *)

Section Updates.
Implicit Types (c p h : block) (n k j : Z) (fr : list Z).

Lemma file_ok_page c n fr k : file_ok c n fr -> 0 <= k < n -> exists p, page_at c k = Some p.
Proof. intros Hf. apply page_at_is_Some, Hf. Qed.

Lemma page_word p o z :
  Z.of_nat (length p) = PAGESIZE -> 0 <= o -> o + 4 <= PAGESIZE ->
  exists p', wr32 o z p = Some p' /\ Z.of_nat (length p') = PAGESIZE.
Proof.
  rewrite PAGESIZE_eq. intros. destruct (wr32_is_Some o z p) as [p' Hp]; [lia|lia|].
  exists p'. split; [done|]. apply wr32_length in Hp. lia.
Qed.

Lemma s32_id z : - 2 ^ 31 <= z < 2 ^ 31 -> s32 z = z.
Proof. intros. apply wrapS_id; [lia|]. unfold inS. lia. Qed.

(** Rewriting a page in use keeps the header and the free list. *)
Lemma file_ok_write c n fr k p :
  file_ok c n fr -> 1 <= k < n -> k ∉ fr -> Z.of_nat (length p) = PAGESIZE ->
  file_ok (pwrite (k * PAGESIZE) p c) n fr.
Proof.
  intros [Hn Hl (h & nx & Hh & H1 & H2 & H3 & Hc) Hr Hnd] Hk Hf Hp.
  destruct (pwrite_page c n k p Hl ltac:(lia) Hp) as [Hl' Hpg]. split; try done.
  - by rewrite Z.max_l in Hl' by lia.
  - exists h, nx. rewrite Hpg, decide_False by lia. do 4 (split; [done|]).
    eapply free_chain_ext; [|done]. intros j Hj. rewrite Hpg, decide_False; [done|set_solver].
Qed.

(** A write behind the last page that did not fit. *)
Lemma file_ok_part c n fr p :
  file_ok c n fr -> Z.of_nat (length p) < PAGESIZE ->
  file_ok (pwrite (n * PAGESIZE) p c) n fr /\ forall j, page_at (pwrite (n * PAGESIZE) p c) j = page_at c j.
Proof.
  intros [Hn Hl (h & nx & Hh & H1 & H2 & H3 & Hc) Hr Hnd] Hp.
  destruct (pwrite_part c n p Hl ltac:(lia) Hp) as [Hl' Hpg]. split; [|done]. split; try done.
  exists h, nx. rewrite Hpg. do 4 (split; [done|]). eapply free_chain_ext; [|done]. done.
Qed.

(** Taking the head of the free list. *)
Lemma file_ok_pop c n k fr h nx h' :
  file_ok c n (k :: fr) -> page_at c 0 = Some h -> link_at c k = Some nx ->
  wr32 off_nextFree nx h = Some h' -> file_ok (pwrite (0 * PAGESIZE) h' c) n fr.
Proof.
  intros [Hn Hl (h0 & k0 & Hh & H1 & H2 & H3 & Hc) Hr Hnd] Hh0 Hnx Hw.
  assert (h0 = h) as -> by congruence. destruct Hc as (-> & nx' & Hnx' & Hc).
  assert (nx' = nx) as -> by congruence.
  assert (Z.of_nat (length h') = PAGESIZE) as Hlen.
  { apply wr32_length in Hw. apply page_at_length in Hh. lia. }
  destruct (pwrite_page c n 0 h' Hl ltac:(lia) Hlen) as [Hl' Hpg].
  apply Forall_cons_iff in Hr as [Hk Hr]. apply list.NoDup_cons in Hnd as [Hkn Hnd].
  assert (inS 32 nx) as Hs.
  { unfold link_at in Hnx. destruct (page_at c k); [|done]. by eapply rd32_range. }
  split; try done.
  - by rewrite Z.max_l in Hl' by lia.
  - exists h', nx. rewrite Hpg, decide_True by lia. split; [done|].
    rewrite !(rd32_wr32_disj _ _ _ _ _ Hw) by (unfold off_nextFree, off_numPages, off_firstPage; lia).
    do 2 (split; [done|]). rewrite (rd32_wr32_same _ _ _ _ Hw), (wrapS_id 32) by (done || lia).
    split; [done|]. eapply free_chain_ext; [|done]. intros j Hj. rewrite Hpg, decide_False; [done|].
    rewrite list.Forall_forall in Hr. specialize (Hr j Hj). lia.
Qed.

(** Putting a page in front of the free list. *)
Lemma file_ok_push c n k fr h nx h' away :
  file_ok c n fr -> 1 < k < n -> k ∉ fr -> page_at c 0 = Some h -> rd32 off_nextFree h = Some nx ->
  wr32 off_nextFree nx zeroPage = Some away -> wr32 off_nextFree k h = Some h' ->
  file_ok (pwrite (0 * PAGESIZE) h' (pwrite (k * PAGESIZE) away c)) n (k :: fr).
Proof.
  intros [Hn Hl (h0 & nx0 & Hh & H1 & H2 & H3 & Hc) Hr Hnd] Hk Hkf Hh0 Hnx Ha Hw.
  assert (h0 = h) as -> by congruence. assert (nx0 = nx) as -> by congruence.
  assert (Z.of_nat (length h') = PAGESIZE) as Hlen.
  { apply wr32_length in Hw. apply page_at_length in Hh. lia. }
  assert (Z.of_nat (length away) = PAGESIZE) as Hla by (apply wr32_length in Ha; rewrite Ha; done).
  destruct (pwrite_page c n k away Hl ltac:(lia) Hla) as [Hl1 Hp1]. rewrite Z.max_l in Hl1 by lia.
  destruct (pwrite_page _ n 0 h' Hl1 ltac:(lia) Hlen) as [Hl2 Hp2]. rewrite Z.max_l in Hl2 by lia.
  assert (inS 32 nx) as Hs by by eapply rd32_range.
  split; try done; [| |by constructor].
  - exists h', k. rewrite Hp2, decide_True by lia. split; [done|].
    rewrite !(rd32_wr32_disj _ _ _ _ _ Hw) by (unfold off_nextFree, off_numPages, off_firstPage; lia).
    do 2 (split; [done|]). rewrite (rd32_wr32_same _ _ _ _ Hw), s32_id by lia.
    split; [done|]. cbn. split; [done|]. exists nx. unfold link_at.
    rewrite Hp2, decide_False, Hp1, decide_True by lia. cbn.
    rewrite (rd32_wr32_same _ _ _ _ Ha), (wrapS_id 32) by (done || lia). split; [done|].
    eapply free_chain_ext; [|done]. intros j Hj.
    assert (j <> k) by set_solver. rewrite list.Forall_forall in Hr.
    specialize (Hr j Hj). rewrite Hp2, decide_False, Hp1, decide_False by lia. done.
  - constructor; [lia|done].
Qed.

(** Extending a file without free pages. *)
Lemma file_ok_extend c n h h1 h2 :
  file_ok c n [] -> n + 1 < 2 ^ 31 -> page_at c 0 = Some h ->
  wr32 off_numPages (n + 1) h = Some h1 ->
  (if decide (n = 1) then wr32 off_firstPage n h1 else Some h1) = Some h2 ->
  file_ok (pwrite (0 * PAGESIZE) h2 (pwrite (n * PAGESIZE) zeroPage c)) (n + 1) [].
Proof.
  intros [Hn Hl (h0 & nx & Hh & H1 & H2 & H3 & Hc) Hr Hnd] Hmax Hh0 Hw1 Hw2.
  assert (h0 = h) as -> by congruence. cbn in Hc. subst nx.
  assert (length h1 = length h) as Hlh1 by by eapply wr32_length.
  assert (length h2 = length h) as Hlh2.
  { rewrite <- Hlh1. case_decide; [by eapply wr32_length|by simplify_eq]. }
  assert (Z.of_nat (length h) = PAGESIZE) as Hlh by by eapply page_at_length.
  destruct (pwrite_page c n n zeroPage Hl ltac:(lia) length_zeroPage) as [Hl1 Hp1]. rewrite Z.max_r in Hl1 by lia.
  destruct (pwrite_page _ (n + 1) 0 h2 Hl1 ltac:(lia) ltac:(lia)) as [Hl2 Hp2]. rewrite Z.max_l in Hl2 by lia.
  split; try done; [lia|]. exists h2, (-1). rewrite Hp2, decide_True by lia. split; [done|].
  assert (rd32 off_numPages h2 = Some (n + 1)) as ->.
  { transitivity (rd32 off_numPages h1).
    - case_decide; [|by simplify_eq]. apply (rd32_wr32_disj _ _ _ _ _ Hw2). unfold off_numPages, off_firstPage. lia.
    - rewrite (rd32_wr32_same _ _ _ _ Hw1). f_equal. apply s32_id. lia. }
  split; [done|]. rewrite (decide_False (P := n + 1 = 1)) by lia. split.
  - case_decide.
    + rewrite (rd32_wr32_same _ _ _ _ Hw2). f_equal. rewrite s32_id; lia.
    + simplify_eq. rewrite (rd32_wr32_disj _ _ _ _ _ Hw1); [done|]. unfold off_numPages, off_firstPage. lia.
  - split; [|done]. transitivity (rd32 off_nextFree h1).
    + case_decide; [|by simplify_eq]. apply (rd32_wr32_disj _ _ _ _ _ Hw2). unfold off_nextFree, off_firstPage. lia.
    + rewrite (rd32_wr32_disj _ _ _ _ _ Hw1); [done|]. unfold off_numPages, off_nextFree. lia.
Qed.

End Updates.

(** ** The operations on a connected object *)

Section Disk.
Implicit Types (d : Disk) (c p : block).

(** New contents for inode [i]. *)
Definition put (i : Z) c d : Disk := set_unix (set_data (<[i := c]> (u_data (unix d))) (unix d)) d.

Lemma put_conn i c d f : conn (put i c d) f = conn d f.
Proof. done. Qed.

Lemma put_put i c c' d : put i c (put i c' d) = put i c d.
Proof. unfold put, set_unix, set_data. cbn. by rewrite insert_insert_eq. Qed.

Lemma put_data i c d : u_data (unix (put i c d)) !! i = Some c.
Proof. apply lookup_insert_eq. Qed.

Lemma set_unix_id d : set_unix (unix d) d = d.
Proof. by destruct d. Qed.

Lemma put_ok d f i c n fr :
  disk_ok d -> conn d f = Some i -> file_ok c n fr -> Z.of_nat (length c) <= u_fsize (unix d) ->
  disk_ok (put i c d).
Proof.
  intros Hd Hi Hf Hs. split.
  - apply (do_inj _ Hd).
  - intros g j Hj. cbn. destruct (decide (j = i)) as [->|Hji].
    + exists c, n, fr. by rewrite lookup_insert_eq.
    + rewrite lookup_insert_ne by done. by apply (do_file _ Hd g).
  - intros j c' Hj. cbn in *. destruct (decide (j = i)) as [->|Hji].
    + rewrite lookup_insert_eq in Hj. by simplify_eq.
    + rewrite lookup_insert_ne in Hj by done. by apply (do_size _ Hd j).
  - apply (do_ptr _ Hd).
  - apply (do_fsize _ Hd).
Qed.

(** A page in use of a file with known free list. *)
Definition file_page c (fr : list Z) (k : Z) : option block := if decide (1 <= k /\ k ∉ fr) then page_at c k else None.

Lemma file_page_eq c c' (fr fr' : list Z) m :
  (1 <= m -> page_at c' m = page_at c m) -> (m ∈ fr' <-> m ∈ fr) -> file_page c' fr' m = file_page c fr m.
Proof. intros H1 H2. unfold file_page. repeat case_decide; tauto. Qed.

Lemma disk_page_file d f i c n fr k :
  conn d f = Some i -> u_data (unix d) !! i = Some c -> file_ok c n fr ->
  disk_page d f k = file_page c fr k.
Proof.
  intros Hi Hc Hf. unfold disk_page, content, file_page. rewrite Hi. cbn. rewrite Hc. cbn.
  by rewrite (free_list_ok _ _ _ Hf).
Qed.

Lemma disk_page_put d f i c n fr g k :
  disk_ok d -> conn d f = Some i -> file_ok c n fr ->
  disk_page (put i c d) g k = if decide (g = f) then file_page c fr k else disk_page d g k.
Proof.
  intros Hd Hi Hf. case_decide as Hg.
  - subst g. eapply disk_page_file; [done|apply put_data|done].
  - unfold disk_page, content. rewrite put_conn. destruct (conn d g) as [j|] eqn:Hj; [|done].
    cbn. rewrite lookup_insert_ne; [done|]. intros ->. apply Hg. by eapply (do_inj _ Hd).
Qed.

Lemma disk_page_inv d f k p :
  disk_ok d -> disk_page d f k = Some p ->
  exists i c n fr, conn d f = Some i /\ u_data (unix d) !! i = Some c /\ file_ok c n fr /\
    1 <= k < n /\ k ∉ fr /\ page_at c k = Some p.
Proof.
  intros Hd Hp. unfold disk_page, content in Hp. destruct (conn d f) as [i|] eqn:Hi; [|done].
  destruct (do_file _ Hd f i Hi) as (c & n & fr & Hc & Hf). cbn in Hp. rewrite Hc in Hp. cbn in Hp.
  rewrite (free_list_ok _ _ _ Hf) in Hp. case_decide as Hk; [|done].
  exists i, c, n, fr. pose proof (page_at_range c n k p (fo_len _ _ _ Hf) Hp). naive_solver lia.
Qed.

Lemma conn_open d f i : conn d f = Some i ->
  exists o, files d !! f = Some o /\ u_fds (unix d) !! unixFile o = Some i.
Proof. unfold conn. destruct (files d !! f) as [o|]; [|done]. cbn. eauto. Qed.

Lemma File_intread_ok d f i c n fr k p old :
  conn d f = Some i -> u_data (unix d) !! i = Some c -> file_ok c n fr ->
  page_at c k = Some p -> Z.of_nat (length old) = PAGESIZE -> File_intread f k old d = Some (OK, p).
Proof.
  intros Hi Hc Hf Hp Hold. destruct (conn_open _ _ _ Hi) as (o & Ho & Hfd).
  pose proof (page_at_range c n k p (fo_len _ _ _ Hf) Hp) as Hk.
  pose proof (page_at_length _ _ _ Hp) as Hlp. pose proof (fo_pages _ _ _ Hf) as Hn.
  unfold File_intread, unix_lseek, unix_read. rewrite Ho. cbn. rewrite Hfd. cbn. rewrite Hc. cbn.
  rewrite page_off_id by lia. rewrite (pread_rd _ _ _ _ Hp).
  rewrite (decide_False (P := k * PAGESIZE < 0)) by (rewrite PAGESIZE_eq; lia).
  rewrite decide_False by (rewrite PAGESIZE_eq; lia).
  rewrite (decide_False (P := Z.of_nat (length p) <> PAGESIZE)) by lia.
  by rewrite drop_ge, app_nil_r by lia.
Qed.

Lemma intread_or_return_ok d f i c n fr k p :
  conn d f = Some i -> u_data (unix d) !! i = Some c -> file_ok c n fr ->
  page_at c k = Some p -> intread_or_return f k d = Some (Ok p, d).
Proof.
  intros Hi Hc Hf Hp. unfold intread_or_return.
  by rewrite (File_intread_ok d f i c n fr k p zeroPage Hi Hc Hf Hp length_zeroPage).
Qed.

(** What fits of page [k]. *)
Definition part (k : Z) p d : block := take (Z.to_nat (u_fsize (unix d) - k * PAGESIZE)) p.

Lemma part_all k p d : Z.of_nat (length p) = PAGESIZE -> (k + 1) * PAGESIZE <= u_fsize (unix d) -> part k p d = p.
Proof. rewrite PAGESIZE_eq. intros. unfold part. apply take_ge. rewrite PAGESIZE_eq. lia. Qed.

Lemma part_length k p d :
  Z.of_nat (length p) = PAGESIZE -> ~ (k + 1) * PAGESIZE <= u_fsize (unix d) -> Z.of_nat (length (part k p d)) < PAGESIZE.
Proof. rewrite PAGESIZE_eq. intros. unfold part. rewrite length_take, PAGESIZE_eq. lia. Qed.

Lemma put_same i c d : u_data (unix d) !! i = Some c -> put i c d = d.
Proof. intros Hc. unfold put, set_data. rewrite insert_id by done. destruct d as [u fs np]. by destruct u. Qed.

Lemma File_intwrite_run d f i c k p :
  conn d f = Some i -> u_data (unix d) !! i = Some c -> 0 <= k < 2 ^ 31 -> k * PAGESIZE <= Z.of_nat (length c) -> Z.of_nat (length p) = PAGESIZE ->
  File_intwrite f k p d =
    Some (if decide ((k + 1) * PAGESIZE <= u_fsize (unix d)) then OK else UNIXERR, put i (pwrite (k * PAGESIZE) (part k p d) c) d).
Proof.
  intros Hi Hc Hk Hkc Hlp. destruct (conn_open _ _ _ Hi) as (o & Ho & Hfd). rewrite PAGESIZE_eq in Hkc, Hlp.
  unfold File_intwrite, unix_lseek, unix_write. rewrite Ho. cbn [mbind option_bind]. rewrite Hfd, Hc.
  rewrite page_off_id by lia.
  rewrite (decide_False (P := k * PAGESIZE < 0)) by (rewrite PAGESIZE_eq; lia).
  rewrite decide_False by (rewrite PAGESIZE_eq; lia). unfold part. case_decide as Hr; rewrite PAGESIZE_eq in *.
  - rewrite (decide_False (P := _ <= u_fsize _)) by lia. replace (Z.to_nat (u_fsize (unix d) - k * 1024)) with 0%nat by lia.
    rewrite take_0, pwrite_nil, put_same by (done || lia). by rewrite set_unix_id, decide_True by done.
  - rewrite length_take. do 2 f_equal. repeat case_decide; try done; lia.
Qed.

Lemma intwrite_or_return_run d f i c k p :
  conn d f = Some i -> u_data (unix d) !! i = Some c -> 0 <= k < 2 ^ 31 -> k * PAGESIZE <= Z.of_nat (length c) -> Z.of_nat (length p) = PAGESIZE ->
  intwrite_or_return f k p d =
    Some (if decide ((k + 1) * PAGESIZE <= u_fsize (unix d)) then Ok tt else Err UNIXERR, put i (pwrite (k * PAGESIZE) (part k p d) c) d).
Proof.
  intros Hi Hc Hk Hkc Hlp. unfold intwrite_or_return. rewrite (File_intwrite_run d f i c k p) by done.
  by case_decide.
Qed.

(** A page that fits is written in full. *)
Lemma intwrite_fits d f i c k p :
  conn d f = Some i -> u_data (unix d) !! i = Some c -> 0 <= k < 2 ^ 31 -> k * PAGESIZE <= Z.of_nat (length c) -> Z.of_nat (length p) = PAGESIZE ->
  (k + 1) * PAGESIZE <= u_fsize (unix d) ->
  intwrite_or_return f k p d = Some (Ok tt, put i (pwrite (k * PAGESIZE) p c) d).
Proof. intros. rewrite (intwrite_or_return_run d f i c) by done. by rewrite decide_True, part_all by done. Qed.

(** A page inside the file can always be written. *)
Lemma fits d i c n fr k :
  disk_ok d -> u_data (unix d) !! i = Some c -> file_ok c n fr -> k < n ->
  (k + 1) * PAGESIZE <= u_fsize (unix d).
Proof.
  intros Hd Hc Hf Hk. pose proof (do_size _ Hd i c Hc). destruct (fo_len _ _ _ Hf) as [Hl _].
  rewrite PAGESIZE_eq in *. lia.
Qed.

Lemma inside c n fr k : file_ok c n fr -> k <= n -> k * PAGESIZE <= Z.of_nat (length c).
Proof. intros Hf Hk. destruct (fo_len _ _ _ Hf) as [Hl _]. rewrite PAGESIZE_eq in *. lia. Qed.

Lemma pwrite_fits d i c n fr k p :
  disk_ok d -> u_data (unix d) !! i = Some c -> file_ok c n fr -> 0 <= k < n ->
  Z.of_nat (length p) = PAGESIZE -> Z.of_nat (length (pwrite (k * PAGESIZE) p c)) <= u_fsize (unix d).
Proof.
  intros Hd Hc Hf Hk Hlp. destruct (fo_len _ _ _ Hf) as [Hl _]. pose proof (do_size _ Hd i c Hc).
  rewrite PAGESIZE_eq in *. rewrite pwrite_length by lia. lia.
Qed.

Lemma part_fits d i c n fr p :
  disk_ok d -> u_data (unix d) !! i = Some c -> file_ok c n fr -> Z.of_nat (length (pwrite (n * PAGESIZE) (part n p d) c)) <= u_fsize (unix d).
Proof.
  intros Hd Hc Hf. pose proof (fo_pages _ _ _ Hf). destruct (fo_len _ _ _ Hf) as [Hl _]. pose proof (do_size _ Hd i c Hc).
  unfold part. rewrite PAGESIZE_eq in *. rewrite pwrite_length, length_take by lia. lia.
Qed.

End Disk.

(** ** What the operations do to the pages in use *)

Section PageOps.
Implicit Types (d : Disk) (c p : block) (fr : list Z).

Ltac read_page H := erewrite bind_Ok by (eapply intread_or_return_ok; [done|done|done|exact H]); cbn beta.

(** Writes to pages inside the file succeed. *)
Ltac write_page := erewrite bind_Ok by (eapply intwrite_fits; [done|done|lia|eapply inside; [done|lia]|done|eapply fits; [done..|lia]]); cbn beta.

Lemma File_allocatePage_free d f i c n k fr :
  disk_ok d -> conn d f = Some i -> u_data (unix d) !! i = Some c -> file_ok c n (k :: fr) ->
  exists c', File_allocatePage f d = Some (Ok k, put i c' d) /\ file_ok c' n fr /\
    Z.of_nat (length c') <= u_fsize (unix d) /\ forall j, j <> 0 -> page_at c' j = page_at c j.
Proof.
  intros Hd Hi Hc Hf. pose proof Hf as [Hn Hl (h & nx & Hh & H1 & H2 & H3 & Hch) Hr _].
  destruct Hch as (-> & nx' & Hnx & _). apply Forall_cons_iff in Hr as [Hk _].
  destruct (file_ok_page c n _ k Hf ltac:(lia)) as [p Hp].
  pose proof Hnx as Hlk. unfold link_at in Hnx. rewrite Hp in Hnx. cbn in Hnx.
  destruct (page_word h off_nextFree nx' (page_at_length _ _ _ Hh)) as (h' & Hw & Hlh');
    [done|done|]. unfold File_allocatePage. read_page Hh. rewrite H3. step.
  rewrite decide_True by lia. step. read_page Hp. rewrite Hnx. do 2 step. rewrite Hw. do 2 step. step.
  write_page.
  eexists. split; [reflexivity|]. split; [by eapply file_ok_pop|]. split.
  - eapply pwrite_fits; [done..|lia|done].
  - intros j Hj. destruct (pwrite_page c n 0 h' Hl ltac:(lia) Hlh') as [_ Hpg]. by rewrite Hpg, decide_False.
Qed.

Lemma File_allocatePage_extend d f i c n :
  disk_ok d -> conn d f = Some i -> u_data (unix d) !! i = Some c -> file_ok c n [] ->
  if decide ((n + 1) * PAGESIZE <= u_fsize (unix d)) then
    exists c', File_allocatePage f d = Some (Ok n, put i c' d) /\ file_ok c' (n + 1) [] /\
      Z.of_nat (length c') <= u_fsize (unix d) /\
      forall j, j <> 0 -> page_at c' j = if decide (j = n) then Some zeroPage else page_at c j
  else let c' := pwrite (n * PAGESIZE) (part n zeroPage d) c in
    File_allocatePage f d = Some (Err UNIXERR, put i c' d) /\ file_ok c' n [] /\ Z.of_nat (length c') <= u_fsize (unix d) /\
    forall j, page_at c' j = page_at c j.
Proof.
  intros Hd Hi Hc Hf. pose proof Hf as [Hn Hl (h & nx & Hh & H1 & H2 & H3 & Hch) _ _]. cbn in Hch. subst nx.
  pose proof (page_at_length _ _ _ Hh) as Hlh. pose proof (do_fsize _ Hd) as Hfs.
  destruct (page_word h off_numPages (n + 1) Hlh) as (h1 & Hw1 & Hlh1); [done|done|].
  destruct (page_word h1 off_firstPage n Hlh1) as (h2 & Hw2 & Hlh2); [done|done|].
  assert (rd32 off_firstPage h1 = Some (if decide (n = 1) then -1 else 1)) as Hfp.
  { rewrite (rd32_wr32_disj _ _ _ _ _ Hw1); [done|]. unfold off_numPages, off_firstPage. lia. }
  unfold File_allocatePage. read_page Hh. rewrite H3. step. rewrite (decide_False (P := -1 <> -1)) by (intros Hx; by apply Hx). step. rewrite H1. do 2 step.
  pose proof (intwrite_or_return_run d f i c n zeroPage Hi Hc ltac:(lia) (inside c n [] n Hf ltac:(lia)) length_zeroPage) as Hrun.
  case_decide as Hfit.
  2: { rewrite (bind_Err _ _ _ _ _ Hrun). pose proof (part_length n zeroPage d length_zeroPage Hfit) as Hp. destruct (file_ok_part c n [] _ Hf Hp) as [Hf' Hpg].
       split; [done|]. split; [done|]. split; [|done]. by apply (part_fits d i c n []). }
  rewrite (part_all n zeroPage d length_zeroPage Hfit) in Hrun. rewrite (bind_Ok _ _ _ _ _ Hrun). step. rewrite Hw1. step.
  set (hh := if decide (n = 1) then h2 else h1).
  set (c1 := pwrite (n * PAGESIZE) zeroPage c).
  assert (Z.of_nat (length hh) = PAGESIZE) as Hlhh by (subst hh; by case_decide).
  assert (Hext : file_ok (pwrite (0 * PAGESIZE) hh c1) (n + 1) []).
  { eapply file_ok_extend; [done| |done|done|subst hh; by case_decide]. rewrite PAGESIZE_eq in *. lia. }
  destruct (pwrite_page c n n zeroPage Hl ltac:(lia) length_zeroPage) as [Hl1 Hp1]. rewrite Z.max_r in Hl1 by lia.
  destruct (pwrite_page c1 (n + 1) 0 hh Hl1 ltac:(lia) Hlhh) as [Hl2 Hp2]. rewrite Z.max_l in Hl2 by lia.
  assert (Z.of_nat (length c1) <= u_fsize (unix d)) as Hs1.
  { pose proof (do_size _ Hd i c Hc). destruct Hl as [Hl _]. pose proof length_zeroPage as Hz. subst c1. rewrite PAGESIZE_eq in *. rewrite pwrite_length, Hz by lia. lia. }
  exists (pwrite (0 * PAGESIZE) hh c1). split; [|split; [done|split; [destruct Hl1 as [Hl1 _]; rewrite PAGESIZE_eq in *; rewrite pwrite_length by lia; lia|]]].
  - rewrite Hfp. do 2 step.
    pose proof (intwrite_fits (put i c1 d) f i c1 0 hh Hi (put_data _ _ _) ltac:(lia) ltac:(lia) Hlhh ltac:(cbn; rewrite PAGESIZE_eq in *; lia)) as Hrun0.
    rewrite put_put in Hrun0.
    subst hh. case_decide as Hn1; cbn beta iota.
    + rewrite decide_True by done. rewrite Hw2. do 3 step. by rewrite (bind_Ok _ _ _ _ _ Hrun0).
    + rewrite decide_False by lia. step. by rewrite (bind_Ok _ _ _ _ _ Hrun0).
  - intros j Hj. rewrite Hp2, decide_False by done. apply Hp1.
Qed.

(** The guard [pageNo < 1], the first page and the end of the file. *)
Lemma File_disposePage_guard d f i c n fr k :
  conn d f = Some i -> u_data (unix d) !! i = Some c -> file_ok c n fr ->
  k <= 1 \/ n <= k -> File_disposePage f k d = Some (BADPAGENO, d).
Proof.
  intros Hi Hc Hf Hk. pose proof Hf as [Hn Hl (h & nx & Hh & H1 & H2 & H3 & _) _ _].
  unfold File_disposePage, File_disposePage_code. destruct (decide (k < 1)); [done|]. read_page Hh.
  rewrite H2. step. rewrite H1. step. rewrite (decide_True (P := _ \/ k >= n)); [done|]. case_decide; lia.
Qed.

Lemma File_disposePage_used d f i c n fr k :
  disk_ok d -> conn d f = Some i -> u_data (unix d) !! i = Some c -> file_ok c n fr ->
  1 < k < n -> k ∉ fr ->
  exists c', File_disposePage f k d = Some (OK, put i c' d) /\ file_ok c' n (k :: fr) /\
    Z.of_nat (length c') <= u_fsize (unix d) /\ forall j, j <> 0 -> j <> k -> page_at c' j = page_at c j.
Proof.
  intros Hd Hi Hc Hf Hk Hkf. pose proof Hf as [Hn Hl (h & nx & Hh & H1 & H2 & H3 & _) _ _].
  pose proof (page_at_length _ _ _ Hh) as Hlh.
  destruct (page_word zeroPage off_nextFree nx length_zeroPage) as (away & Hw1 & Hla); [done|done|].
  destruct (page_word h off_nextFree k Hlh) as (h' & Hw2 & Hlh'); [done|done|].
  destruct (file_ok_page c n fr k Hf ltac:(lia)) as [p Hp].
  destruct (pwrite_page c n k away Hl ltac:(lia) Hla) as [Hl1 Hp1]. rewrite Z.max_l in Hl1 by lia.
  destruct (pwrite_page _ n 0 h' Hl1 ltac:(lia) Hlh') as [Hl2 Hp2]. rewrite Z.max_l in Hl2 by lia.
  exists (pwrite (0 * PAGESIZE) h' (pwrite (k * PAGESIZE) away c)). split; [|split; [|split]].
  - unfold File_disposePage, File_disposePage_code. rewrite decide_False by lia. read_page Hh.
    rewrite H2. step. rewrite H1. step. rewrite (decide_False (P := _ \/ k >= n)) by (case_decide; lia). read_page Hp.
    rewrite H3. step. rewrite Hw1. step. rewrite Hw2. step. write_page.
    pose proof (intwrite_fits (put i (pwrite (k * PAGESIZE) away c) d) f i _ 0 h' Hi
      (put_data _ _ _) ltac:(lia) ltac:(lia) Hlh' (fits d i c n fr 0 Hd Hc Hf ltac:(lia))) as Hrun0.
    rewrite put_put in Hrun0. by rewrite Hrun0.
  - by eapply file_ok_push.
  - pose proof (pwrite_fits d i c n fr k away Hd Hc Hf ltac:(lia) Hla) as Hs1. destruct Hl1 as [Hl1 _]. rewrite PAGESIZE_eq in *. rewrite pwrite_length by lia. lia.
  - intros j Hj0 Hjk. rewrite Hp2, decide_False, Hp1, decide_False by done. done.
Qed.

End PageOps.

(** ** [File] implements the page store of the buffer manager *)

Section Implements.
Implicit Types (d : Disk) (c p : block) (fr : list Z).

Definition disk_file d (f : Z) : Prop := is_Some (conn d f).

(** How [disk_page] moves when the contents of [f] become [c']. *)
Lemma disk_page_upd d f i c n fr c' n' fr' k o :
  disk_ok d -> conn d f = Some i -> u_data (unix d) !! i = Some c -> file_ok c n fr -> file_ok c' n' fr' ->
  (forall m, file_page c' fr' m = if decide (m = k) then o else file_page c fr m) ->
  forall g m, disk_page (put i c' d) g m = upd_page (disk_page d) f k o g m.
Proof.
  intros Hd Hi Hc Hf Hf' Hm g m. rewrite (disk_page_put d f i c' n' fr') by done. unfold upd_page.
  case_decide as Hg; [|by rewrite decide_False by naive_solver].
  subst g. rewrite Hm. rewrite (disk_page_file d f i c n fr m Hi Hc Hf). repeat case_decide; naive_solver.
Qed.

Lemma disk_write_ok d f n p q :
  disk_ok d -> disk_page d f n = Some p -> Z.of_nat (length q) = PAGESIZE ->
  exists d', File_writePage f n q d = Some (OK, d') /\ disk_ok d' /\
    (forall g, disk_file d' g <-> disk_file d g) /\
    (forall g m, disk_page d' g m = upd_page (disk_page d) f n (Some q) g m).
Proof.
  intros Hd Hp Hq. destruct (disk_page_inv _ _ _ _ Hd Hp) as (i & c & N & fr & Hi & Hc & Hf & Hn & Hfr & _).
  pose proof (fo_pages _ _ _ Hf). unfold File_writePage. rewrite decide_False by lia.
  rewrite (File_intwrite_run d f i c n q Hi Hc ltac:(lia) (inside c N fr n Hf ltac:(lia)) Hq).
  rewrite decide_True, part_all by (done || by eapply fits; [done..|lia]).
  pose proof (file_ok_write c N fr n q Hf Hn Hfr Hq) as Hf'.
  eexists. split; [done|]. split; [|split; [done|]].
  - eapply put_ok; [done..|]. eapply pwrite_fits; [done..|lia|done].
  - eapply disk_page_upd; [done..|]. intros m.
    destruct (pwrite_page c N n q (fo_len _ _ _ Hf) ltac:(lia) Hq) as [_ Hpg].
    unfold file_page. rewrite Hpg. repeat case_decide; subst; naive_solver lia.
Qed.

Lemma disk_allocate_ok d f :
  disk_ok d -> disk_file d f ->
  exists r d', File_allocatePage f d = Some (r, d') /\ disk_ok d' /\
    (forall g, disk_file d' g <-> disk_file d g) /\
    match r with
    | Ok n => disk_page d f n = None /\
        exists p, forall g m, disk_page d' g m = upd_page (disk_page d) f n (Some p) g m
    | Err _ => forall g m, disk_page d' g m = disk_page d g m
    end.
Proof.
  intros Hd [i Hi]. destruct (do_file _ Hd f i Hi) as (c & n & [|k fr] & Hc & Hf).
  - pose proof (File_allocatePage_extend d f i c n Hd Hi Hc Hf) as Ha. case_decide.
    + destruct Ha as (c' & Ha & Hf' & Hs & Hpg). pose proof (fo_pages _ _ _ Hf).
      exists (Ok n), (put i c' d). split; [done|]. split; [by eapply put_ok|]. split; [done|]. split.
      * rewrite (disk_page_file d f i c n []) by done. unfold file_page. case_decide; [|done].
        destruct (page_at c n) eqn:Hp; [|done]. pose proof (page_at_range c n n _ (fo_len _ _ _ Hf) Hp). lia.
      * exists zeroPage. eapply disk_page_upd; [done..|]. intros m. unfold file_page.
        destruct (decide (m = 0)) as [->|Hm0]; [repeat case_decide; naive_solver lia|].
        rewrite Hpg by done. repeat case_decide; subst; set_solver by lia.
    + destruct Ha as (Ha & Hf' & Hs & Hpg). eexists (Err UNIXERR), _. split; [exact Ha|]. split; [by eapply put_ok|]. split; [done|].
      intros g m. rewrite (disk_page_put d f i _ n []) by done. case_decide as Hg; [subst g|done].
      rewrite (disk_page_file d f i c n []) by done. by apply file_page_eq.
  - destruct (File_allocatePage_free d f i c n k fr Hd Hi Hc Hf) as (c' & Ha & Hf' & Hs & Hpg).
    pose proof (fo_range _ _ _ Hf) as [Hk _]%Forall_cons_iff. pose proof (fo_nodup _ _ _ Hf) as [Hkf _]%list.NoDup_cons.
    destruct (file_ok_page c n _ k Hf ltac:(lia)) as [p Hp].
    exists (Ok k), (put i c' d). split; [done|]. split; [by eapply put_ok|]. split; [done|]. split.
    + rewrite (disk_page_file d f i c n (k :: fr)) by done. unfold file_page. case_decide; set_solver.
    + exists p. eapply disk_page_upd; [done..|]. intros m. unfold file_page.
      destruct (decide (m = 0)) as [->|Hm0]; [repeat case_decide; naive_solver lia|].
      rewrite Hpg by done. repeat case_decide; subst; set_solver by lia.
Qed.

Lemma disk_dispose_ok d f n p :
  disk_ok d -> disk_page d f n = Some p ->
  exists st d', File_disposePage f n d = Some (st, d') /\ disk_ok d' /\
    (forall g, disk_file d' g <-> disk_file d g) /\
    (forall g m, disk_page d' g m =
       if decide (st = OK) then upd_page (disk_page d) f n None g m else disk_page d g m).
Proof.
  intros Hd Hp. destruct (disk_page_inv _ _ _ _ Hd Hp) as (i & c & N & fr & Hi & Hc & Hf & Hn & Hfr & _).
  destruct (decide (n = 1)) as [->|Hn1].
  - exists BADPAGENO, d. rewrite (File_disposePage_guard d f i c N fr) by (done || lia). done.
  - destruct (File_disposePage_used d f i c N fr n Hd Hi Hc Hf ltac:(lia) Hfr) as (c' & Ha & Hf' & Hs & Hpg).
    exists OK, (put i c' d). split; [done|]. split; [by eapply put_ok|]. split; [done|].
    cbn. eapply disk_page_upd; [done..|]. intros m. unfold file_page.
    destruct (decide (m = 0)) as [->|Hm0]; [repeat case_decide; naive_solver lia|].
    destruct (decide (m = n)) as [->|Hmn]; [by rewrite decide_False by set_solver|].
    rewrite Hpg by done. repeat case_decide; set_solver.
Qed.

#[export, refine] Instance Disk_store : PageStore Disk := {|
  ps_readPage := File_readPage; ps_writePage := File_writePage;
  ps_allocatePage := File_allocatePage; ps_disposePage := File_disposePage;
  ps_ok := disk_ok; ps_file := disk_file; ps_page := disk_page;
  ps_write_ok := disk_write_ok; ps_allocate_ok := disk_allocate_ok; ps_dispose_ok := disk_dispose_ok;
|}.
Proof.
  - intros d f n p Hd Hp. destruct (disk_page_inv _ _ _ _ Hd Hp) as (i & c & N & fr & Hi & Hc & Hf & Hn & Hfr & Hpg).
    pose proof (do_ptr _ Hd f i Hi). pose proof (fo_pages _ _ _ Hf). unfold page_key. cbn.
    split; [lia|]. split; [lia|]. split; [by exists i|]. by eapply page_at_length.
  - intros d f n p old Hd Hp Hold.
    destruct (disk_page_inv _ _ _ _ Hd Hp) as (i & c & N & fr & Hi & Hc & Hf & Hn & Hfr & Hpg).
    unfold File_readPage. rewrite decide_False by lia. by eapply File_intread_ok.
Defined.

End Implements.

(** ** Creating files *)

Section Creation.

(** The header page [File::create] writes. *)
Lemma created_header :
  exists h, (header ← wr32 off_nextFree (-1) zeroPage; header ← wr32 off_firstPage (-1) header;
             wr32 off_numPages 1 header) = Some h /\ Z.of_nat (length h) = PAGESIZE /\ file_ok h 1 [].
Proof.
  eexists. split; [vm_compute; reflexivity|]. split; [done|]. split; try done; [|apply base.NoDup_nil_2].
  eexists _, (-1). split; [vm_compute; reflexivity|]. by vm_compute.
Qed.

(** [File::create] on a free name: what fits of the header page, and whether
    the descriptor was closed. *)
Lemma File_create_run name d :
  u_dir (unix d) !! name = None -> Z.of_nat (size (u_fds (unix d))) < u_maxFds (unix d) ->
  u_fds (unix d) !! u_nextFd (unix d) = None -> 0 <= u_fsize (unix d) ->
  exists h, file_ok h 1 [] /\ Z.of_nat (length h) = PAGESIZE /\
    let room := decide (PAGESIZE <= u_fsize (unix d)) in
    File_create name d = Some (if room then OK else UNIXERR, set_unix (mkUnix (<[name := u_nextIno (unix d)]> (u_dir (unix d)))
      (<[u_nextIno (unix d) := take (Z.to_nat (u_fsize (unix d))) h]> (u_data (unix d)))
      (if room then u_fds (unix d) else <[u_nextFd (unix d) := u_nextIno (unix d)]> (u_fds (unix d))) (u_nextIno (unix d) + 1)
      (u_nextFd (unix d) + 1) (u_maxFds (unix d)) (u_fsize (unix d))) d).
Proof.
  intros Hn Hfds Hfd Hs. destruct created_header as (h & Hh & Hlh & Hf). exists h. split; [done|]. split; [done|].
  unfold File_create, unix_creat. rewrite Hn, decide_False by lia. cbn [new_fd].
  destruct (wr32 off_nextFree (-1) zeroPage) as [h1|]; [|done]. cbn [mbind option_bind] in *.
  destruct (wr32 off_firstPage (-1) h1) as [h2|]; [|done]. cbn [mbind option_bind] in *.
  rewrite Hh. cbn [mbind option_bind]. unfold unix_write. cbn [u_fds u_data u_fsize].
  rewrite lookup_insert_eq. cbn [u_fds u_data u_fsize]. rewrite lookup_insert_eq. rewrite Z.sub_0_r.
  assert (forall v, pwrite 0 v [] = v) as Hp by (intros v; exact (pwrite_end v [])). rewrite PAGESIZE_eq in *. cbv zeta.
  destruct (decide (u_fsize (unix d) <= 0)) as [Hz|Hz].
  - replace (Z.to_nat (u_fsize (unix d))) with 0%nat by lia. rewrite take_0, (decide_True (P := -1 <> 1024)) by lia. destruct (decide (1024 <= u_fsize (unix d))); [lia|done].
  - rewrite length_take, Hp. destruct (decide (1024 <= u_fsize (unix d))) as [Hr|Hr].
    + rewrite decide_False by lia. unfold unix_close. cbn. rewrite lookup_insert_eq. cbn. do 2 f_equal. unfold set_unix, set_fds, set_data. cbn.
      f_equal. f_equal; [by rewrite insert_insert_eq|by rewrite delete_insert_id].
    + rewrite decide_True by lia. do 2 f_equal. unfold set_unix, set_data. cbn. f_equal. f_equal. by rewrite insert_insert_eq.
Qed.

End Creation.

(** ** A small disk to run the operations on *)

Section Demo.

Definition demo_unix : Unix := mkUnix ∅ ∅ ∅ 1 3 16 (64 * PAGESIZE).

(** One file, created and opened through the operations themselves. *)
Definition demo_disk : Disk :=
  default (mkDisk demo_unix ∅ 4096)
    ('(_, d) ← File_create "r" (mkDisk demo_unix ∅ 4096);
     let '(f, d) := File_new "r" d in
     '(_, d) ← File_open f d; Some d).

Lemma demo_disk_conn f i : conn demo_disk f = Some i -> f = 4096 /\ i = 1.
Proof.
  unfold conn. replace (files demo_disk) with (<[4096 := mkFile "r" 1 4]> (∅ : gmap Z File))
    by (by vm_compute).
  replace (u_fds (unix demo_disk)) with (<[4 := 1]> (∅ : gmap Z Z)) by (by vm_compute).
  destruct (decide (f = 4096)) as [->|Hf]; [|by rewrite lookup_insert_ne by done].
  rewrite lookup_insert_eq. cbn. rewrite lookup_insert_eq. naive_solver.
Qed.

Lemma demo_disk_ok : disk_ok demo_disk.
Proof.
  destruct created_header as (h & Hh & Hlh & Hf).
  assert (u_data (unix demo_disk) = <[1 := h]> ∅) as Hd.
  { revert Hh. vm_compute. intros [= <-]. reflexivity. }
  split.
  - intros f g i [-> _]%demo_disk_conn [-> _]%demo_disk_conn. done.
  - intros f i [-> ->]%demo_disk_conn. exists h, 1, []. rewrite Hd. split; [apply lookup_insert_eq|exact Hf].
  - intros i c. rewrite Hd. intros [[_ <-]|[_ Hc]]%lookup_insert_Some; [|by rewrite lookup_empty in Hc].
    rewrite Hlh. by vm_compute.
  - intros f i [-> ->]%demo_disk_conn. lia.
  - by vm_compute.
Qed.

End Demo.

(** ** Properties of the page allocator *)

(** C25.  [File::allocatePage] never hands out a page in use: on a well-formed
    disk it either returns a page that was not readable before, leaving every
    other page of every file untouched and the disk well-formed, or fails
    with [UNIXERR]: then the file has no free page and another page does not
    fit into the largest file; every page of every file is as it was, and only
    the bytes behind the last page of the file changed: they hold the part of
    the new page that fits, which the short [write] has left there. *)
Theorem allocatePage_fresh d f :
  disk_ok d -> disk_file d f ->
  exists r d', File_allocatePage f d = Some (r, d') /\ disk_ok d' /\
    match r with
    | Ok n => disk_page d f n = None /\ 1 <= n /\ is_Some (disk_page d' f n) /\
        forall g m, (g, m) <> (f, n) -> disk_page d' g m = disk_page d g m
    | Err e => e = UNIXERR /\ (forall g m, disk_page d' g m = disk_page d g m) /\
        exists i c n, conn d f = Some i /\ u_data (unix d) !! i = Some c /\ file_ok c n [] /\
          (n + 1) * PAGESIZE > u_fsize (unix d) /\ d' = put i (pwrite (n * PAGESIZE) (part n zeroPage d) c) d
    end.
Proof.
  intros Hd Hfile. destruct (disk_allocate_ok d f Hd Hfile) as ([n|e] & d' & Ha & Hok & _ & Hr).
  - exists (Ok n), d'. destruct Hr as [Hnone [p Hp]]. split; [done|]. split; [done|]. split; [done|].
    pose proof (Hp f n) as Hpn. unfold upd_page in Hpn. rewrite decide_True in Hpn by done.
    destruct (disk_page_inv _ _ _ _ Hok Hpn) as (?&?&?&?&_&_&_&?&_). split; [lia|].
    split; [by exists p|]. intros g m Hne. rewrite Hp. unfold upd_page. rewrite decide_False; naive_solver.
  - exists (Err e), d'. split; [done|]. split; [done|]. destruct Hfile as [i Hi].
    destruct (do_file _ Hd f i Hi) as (c & n & [|k fr] & Hc & Hf).
    + pose proof (File_allocatePage_extend d f i c n Hd Hi Hc Hf) as Ha'. case_decide as Hfit.
      { destruct Ha' as (c' & Ha' & _). congruence. }
      destruct Ha' as (Ha' & _). rewrite Ha in Ha'. injection Ha' as -> ->. split; [done|]. split; [done|].
      exists i, c, n. do 3 (split; [done|]). split; [lia|done].
    + destruct (File_allocatePage_free d f i c n k fr Hd Hi Hc Hf) as (c' & Ha' & _). congruence.
Qed.

Lemma allocatePage_fresh_witness :
  exists r d', File_allocatePage 4096 demo_disk = Some (r, d') /\ r = Ok 1 /\
    disk_page demo_disk 4096 1 = None /\ is_Some (disk_page d' 4096 1).
Proof.
  destruct (allocatePage_fresh demo_disk 4096 demo_disk_ok) as (r & d' & Ha & _ & Hr).
  { exists 1. by vm_compute. }
  exists r, d'. split; [exact Ha|].
  assert (r = Ok 1) as -> by (revert Ha; vm_compute; congruence).
  destruct Hr as (H1 & _ & H2 & _). exact (conj eq_refl (conj H1 H2)).
Defined.

(** C32.  [disposePage] and [allocatePage] work as a stack: disposing of a
    page other than the first makes it unreadable and keeps all others; the
    next allocation returns that very page and restores the free list. *)
Theorem dispose_allocate_lifo d f n p :
  disk_ok d -> disk_page d f n = Some p -> n <> 1 ->
  exists d1 d2, File_disposePage f n d = Some (OK, d1) /\ disk_page d1 f n = None /\
    File_allocatePage f d1 = Some (Ok n, d2) /\ disk_ok d2 /\
    free_list <$> content d2 f = free_list <$> content d f /\
    forall g m, (g, m) <> (f, n) ->
      disk_page d1 g m = disk_page d g m /\ disk_page d2 g m = disk_page d g m.
Proof.
  intros Hd Hp Hn1. destruct (disk_page_inv _ _ _ _ Hd Hp) as (i & c & N & fr & Hi & Hc & Hf & Hn & Hfr & _).
  destruct (File_disposePage_used d f i c N fr n Hd Hi Hc Hf ltac:(lia) Hfr) as (c1 & H1 & Hf1 & Hs1 & Hpg1).
  pose proof (put_ok d f i c1 _ _ Hd Hi Hf1 Hs1) as Hd1.
  destruct (File_allocatePage_free (put i c1 d) f i c1 N n fr Hd1 Hi (put_data _ _ _) Hf1)
    as (c2 & H2 & Hf2 & Hs2 & Hpg2). rewrite put_put in H2.
  exists (put i c1 d), (put i c2 d). split; [done|]. split.
  { rewrite (disk_page_put d f i c1 N (n :: fr)), decide_True by done. unfold file_page.
    rewrite decide_False; [done|]. set_solver. }
  split; [done|]. split; [by eapply put_ok|]. split.
  { unfold content. rewrite put_conn, Hi. cbn [mbind option_bind]. rewrite put_data, Hc. cbn.
    by rewrite (free_list_ok _ _ _ Hf2), (free_list_ok _ _ _ Hf). }
  intros g m Hne. rewrite (disk_page_put d f i c1 N (n :: fr)), (disk_page_put d f i c2 N fr) by done.
  case_decide as Hg; [|done]. subst g. assert (m <> n) as Hmn by congruence.
  rewrite (disk_page_file d f i c N fr) by done. split; apply file_page_eq.
  - intros. apply Hpg1; [lia|done].
  - rewrite elem_of_cons. naive_solver.
  - intros. rewrite Hpg2 by lia. apply Hpg1; [lia|done].
  - done.
Qed.

Definition demo_disk2 : Disk :=
  default demo_disk ('(_, d) ← File_allocatePage 4096 demo_disk; '(_, d) ← File_allocatePage 4096 d; Some d).

Lemma demo_disk2_ok : disk_ok demo_disk2.
Proof.
  destruct (disk_allocate_ok demo_disk 4096 demo_disk_ok) as (r1 & d1 & H1 & Hd1 & Hf1 & _).
  { exists 1. by vm_compute. }
  destruct (disk_allocate_ok d1 4096 Hd1) as (r2 & d2 & H2 & Hd2 & _).
  { apply Hf1. exists 1. by vm_compute. }
  unfold demo_disk2. rewrite H1. cbn [mbind option_bind]. rewrite H2. exact Hd2.
Qed.

Lemma dispose_allocate_lifo_witness :
  disk_page demo_disk2 4096 2 = Some zeroPage /\
  exists d1 d2, File_disposePage 4096 2 demo_disk2 = Some (OK, d1) /\ disk_page d1 4096 2 = None /\
    File_allocatePage 4096 d1 = Some (Ok 2, d2).
Proof.
  assert (disk_page demo_disk2 4096 2 = Some zeroPage) as Hp by (by vm_compute).
  split; [exact Hp|].
  destruct (dispose_allocate_lifo demo_disk2 4096 2 zeroPage demo_disk2_ok Hp) as (d1 & d2 & H1 & H2 & H3 & _);
    [lia|]. exists d1, d2. exact (conj H1 (conj H2 H3)).
Defined.
