(* ===== verification/BufMgr.v ===== *)
(** * The buffer manager (buf.h, buf.C)

    A pool of [numBufs] frames over a [PageStore]: a hash table says which
    frame holds a page, [bufTable] describes the frames, [bufPool] holds the
    bytes, and the clock algorithm picks the frame to reuse.  A [Page*] into
    the pool is the index of its frame.  Clients read and write the bytes of
    a page they have pinned. *)

From S2P Require Export Store.

Record BufDesc : Set := mkBufDesc {
  bd_file : Z; bd_pageNo : Z; bd_frameNo : Z; bd_pinCnt : Z;
  bd_dirty : bool; bd_valid : bool; bd_refbit : bool;
}.

(** [BufDesc::Clear] leaves [refbit] and [frameNo] alone. *)
Definition BufDesc_Clear (d : BufDesc) : BufDesc :=
  mkBufDesc 0 (-1) (bd_frameNo d) 0 false false (bd_refbit d).

Definition BufDesc_Set (filePtr pageNum : Z) (d : BufDesc) : BufDesc :=
  mkBufDesc filePtr pageNum (bd_frameNo d) 1 false true true.

Definition set_refbit (r : bool) (d : BufDesc) : BufDesc :=
  mkBufDesc (bd_file d) (bd_pageNo d) (bd_frameNo d) (bd_pinCnt d) (bd_dirty d) (bd_valid d) r.
Definition set_pinCnt (n : Z) (d : BufDesc) : BufDesc :=
  mkBufDesc (bd_file d) (bd_pageNo d) (bd_frameNo d) n (bd_dirty d) (bd_valid d) (bd_refbit d).
Definition set_dirty (b : bool) (d : BufDesc) : BufDesc :=
  mkBufDesc (bd_file d) (bd_pageNo d) (bd_frameNo d) (bd_pinCnt d) b (bd_valid d) (bd_refbit d).
(** [tmpbuf->file = NULL; pageNo = -1; valid = false] of [flushFile]. *)
Definition set_invalid (d : BufDesc) : BufDesc :=
  mkBufDesc 0 (-1) (bd_frameNo d) (bd_pinCnt d) (bd_dirty d) false (bd_refbit d).

Record BufStats : Set := mkBufStats { accesses : Z; diskreads : Z; diskwrites : Z }.

Definition BufStats_clear : BufStats := mkBufStats 0 0 0.

Record BufMgr : Set := mkBufMgr {
  clockHand : Z; numBufs : Z; hashTable : BufHashTbl; bufTable : list BufDesc;
  bufStats : BufStats; bufPool : list block;
}.

Definition set_clockHand (h : Z) (b : BufMgr) : BufMgr :=
  mkBufMgr h (numBufs b) (hashTable b) (bufTable b) (bufStats b) (bufPool b).
Definition set_hashTable (t : BufHashTbl) (b : BufMgr) : BufMgr :=
  mkBufMgr (clockHand b) (numBufs b) t (bufTable b) (bufStats b) (bufPool b).
Definition set_bufTable (t : list BufDesc) (b : BufMgr) : BufMgr :=
  mkBufMgr (clockHand b) (numBufs b) (hashTable b) t (bufStats b) (bufPool b).
Definition set_bufStats (st : BufStats) (b : BufMgr) : BufMgr :=
  mkBufMgr (clockHand b) (numBufs b) (hashTable b) (bufTable b) st (bufPool b).
Definition set_bufPool (p : list block) (b : BufMgr) : BufMgr :=
  mkBufMgr (clockHand b) (numBufs b) (hashTable b) (bufTable b) (bufStats b) p.

(** Statistics wrap around as [int]s. *)
Definition inc_accesses (st : BufStats) : BufStats :=
  mkBufStats (s32 (accesses st + 1)) (diskreads st) (diskwrites st).
Definition inc_diskreads (st : BufStats) : BufStats :=
  mkBufStats (accesses st) (s32 (diskreads st + 1)) (diskwrites st).
Definition inc_diskwrites (st : BufStats) : BufStats :=
  mkBufStats (accesses st) (diskreads st) (s32 (diskwrites st + 1)).

(** [bufTable\[i\]] updated in place. *)
Definition upd_desc (i : Z) (f : BufDesc -> BufDesc) (b : BufMgr) : option BufMgr :=
  d ← zget (bufTable b) i; t ← zset (bufTable b) i (f d); Some (set_bufTable t b).

(** The size of the hash table.  [bufs * 1.2] is a [double]: for an [int] its
    integer part is that of the exact product, since the rounding error is
    below the distance of 6/5 bufs from the next integer, or rounds to it. *)
Definition htsize (bufs : Z) : Z := s32 (bufs * 12 / 10 * 2) / 2 + 1.

(** The constructor. *)
Definition BufMgr_new (bufs : Z) : BufMgr :=
  mkBufMgr (bufs - 1) bufs (BufHashTbl_new (htsize bufs))
    ((fun i => mkBufDesc 0 0 i 0 false false false) <$> seqZ 0 bufs)
    BufStats_clear (replicate (Z.to_nat bufs) (replicate (Z.to_nat PAGESIZE) x00)).

Definition BufMgr_getBufStats (b : BufMgr) : BufStats := bufStats b.
Definition BufMgr_clearBufStats (b : BufMgr) : BufMgr := set_bufStats BufStats_clear b.

(** [unsigned] arithmetic. *)
Definition advanceClock (b : BufMgr) : BufMgr :=
  set_clockHand (u32 (clockHand b + 1) mod numBufs b) b.

(** How the [while] loop of [allocBuf] ends, with the scans that remain. *)
Inductive sweep_end : Set := Exhausted | FreeFrame | Victim.

#[export] Instance sweep_end_eq_dec : EqDecision sweep_end.
Proof. solve_decision. Defined.

Fixpoint clock_sweep (scans : nat) (b : BufMgr) : option (sweep_end * nat * BufMgr) :=
  match scans with
  | O => Some (Exhausted, O, b)
  | S scans =>
      let b := advanceClock b in
      d ← zget (bufTable b) (clockHand b);
      if negb (bd_valid d) then Some (FreeFrame, scans, b)
      else if negb (bd_refbit d) then
        if decide (bd_pinCnt d = 0) then
          '(_, t) ← BufHashTbl_remove (bd_file d) (bd_pageNo d) (hashTable b);
          Some (Victim, scans, set_hashTable t b)
        else clock_sweep scans b
      else
        b ← upd_desc (clockHand b) (set_refbit false) (set_bufStats (inc_accesses (bufStats b)) b);
        clock_sweep scans b
  end.

Section Code.
Context {S : Type} `{PageStore S}.

(** The state of the buffer manager with the files below it. *)
Abbreviation POOL := (S * BufMgr)%type.

Definition lift_mgr {A} (f : BufMgr -> option (A * BufMgr)) : CODE POOL A := fun '(s, b) =>
  '(a, b') ← f b; Some (Ok a, (s, b')).
Definition upd_mgr (f : BufMgr -> option BufMgr) : CODE POOL unit := fun '(s, b) =>
  b' ← f b; Some (Ok tt, (s, b')).
Definition get_mgr {A} (f : BufMgr -> option A) : CODE POOL A := fun '(s, b) =>
  a ← f b; Some (Ok a, (s, b)).

(** [file->writePage(pageNo, &bufPool\[i\])] and its status. *)
Definition write_frame (file pageNo i : Z) : CODE POOL Status := fun '(s, b) =>
  p ← zget (bufPool b) i; '(st, s') ← ps_writePage file pageNo p s; Some (Ok st, (s', b)).

(** [file->readPage(pageNo, &bufPool\[i\])] and its status. *)
Definition read_frame (file pageNo i : Z) : CODE POOL Status := fun '(s, b) =>
  p ← zget (bufPool b) i; '(st, p') ← ps_readPage file pageNo p s;
  pool ← zset (bufPool b) i p'; Some (Ok st, (s, set_bufPool pool b)).

Definition hash_lookup (file pageNo : Z) : CODE POOL (result Z) :=
  get_mgr (fun b => BufHashTbl_lookup file pageNo (hashTable b)).
Definition hash_insert (file pageNo frameNo : Z) : CODE POOL Status :=
  lift_mgr (fun b => '(st, t) ← BufHashTbl_insert file pageNo frameNo (hashTable b); Some (st, set_hashTable t b)).
Definition hash_remove (file pageNo : Z) : CODE POOL Status :=
  lift_mgr (fun b => '(st, t) ← BufHashTbl_remove file pageNo (hashTable b); Some (st, set_hashTable t b)).

Definition return_if_error (st : Status) : CODE POOL unit := if decide (st = OK) then ret tt else throw st.

(** [BufMgr::allocBuf]. *)
Definition allocBuf : CODE POOL Z :=
  let! (e, rest) := lift_mgr (fun b => '(e, rest, b') ← clock_sweep (Z.to_nat (2 * numBufs b)) b;
                                       Some (e, rest, b')) in
  if decide (e <> Victim /\ rest = O) then throw BUFFEREXCEEDED
  else
    let! hand := get_mgr (fun b => Some (clockHand b)) in
    let! d := get_mgr (fun b => zget (bufTable b) hand) in
    (if bd_dirty d then
       upd_mgr (fun b => Some (set_bufStats (inc_diskwrites (bufStats b)) b)) ;;;
       let! st := write_frame (bd_file d) (bd_pageNo d) hand in
       return_if_error st
     else ret tt) ;;;
    ret hand.

(** [BufMgr::readPage]: the frame the page pointer refers to. *)
Definition BufMgr_readPage (file PageNo : Z) : CODE POOL Z :=
  let! r := hash_lookup file PageNo in
  match r with
  | Ok frameNo =>
      upd_mgr (upd_desc frameNo (fun d => set_pinCnt (s32 (bd_pinCnt d + 1)) (set_refbit true d))) ;;;
      ret frameNo
  | Err _ =>
      let! frameNo := allocBuf in
      upd_mgr (fun b => Some (set_bufStats (inc_diskreads (bufStats b)) b)) ;;;
      let! st := read_frame file PageNo frameNo in
      return_if_error st ;;;
      upd_mgr (upd_desc frameNo (BufDesc_Set file PageNo)) ;;;
      let! st := hash_insert file PageNo frameNo in
      return_if_error st ;;;
      ret frameNo
  end.

(** [BufMgr::unPinPage]. *)
Definition BufMgr_unPinPage (file PageNo : Z) (dirty : bool) : CODE POOL unit :=
  let! r := hash_lookup file PageNo in
  let! frameNo := of_res r in
  (if dirty then upd_mgr (upd_desc frameNo (set_dirty dirty)) else ret tt) ;;;
  let! d := get_mgr (fun b => zget (bufTable b) frameNo) in
  if decide (bd_pinCnt d = 0) then throw PAGENOTPINNED
  else upd_mgr (upd_desc frameNo (fun d => set_pinCnt (s32 (bd_pinCnt d - 1)) d)).

(** One iteration of the loop of [BufMgr::flushFile]. *)
Definition flush_frame (file i : Z) : CODE POOL unit :=
  let! tmpbuf := get_mgr (fun b => zget (bufTable b) i) in
  if bd_valid tmpbuf && bool_decide (bd_file tmpbuf = file) then
    if decide (bd_pinCnt tmpbuf > 0) then throw PAGEPINNED
    else
      (if bd_dirty tmpbuf then
         let! st := write_frame (bd_file tmpbuf) (bd_pageNo tmpbuf) i in
         return_if_error st ;;;
         upd_mgr (upd_desc i (set_dirty false))
       else ret tt) ;;;
      hash_remove file (bd_pageNo tmpbuf) ;;;
      upd_mgr (upd_desc i set_invalid)
  else if negb (bd_valid tmpbuf) && bool_decide (bd_file tmpbuf = file) then throw BADBUFFER
  else ret tt.

Fixpoint flush_from (n : nat) (file i : Z) : CODE POOL unit :=
  match n with
  | O => ret tt
  | Datatypes.S n => flush_frame file i ;;; flush_from n file (i + 1)
  end.

(** [BufMgr::flushFile]. *)
Definition BufMgr_flushFile (file : Z) : CODE POOL unit :=
  let! n := get_mgr (fun b => Some (numBufs b)) in
  flush_from (Z.to_nat n) file 0.

(** [BufMgr::disposePage]. *)
Definition BufMgr_disposePage (file pageNo : Z) : CODE POOL unit :=
  let! r := hash_lookup file pageNo in
  (match r with
   | Ok frameNo => upd_mgr (upd_desc frameNo BufDesc_Clear)
   | Err _ => ret tt
   end) ;;;
  hash_remove file pageNo ;;;
  let! st := (fun '(s, b) => '(st, s') ← ps_disposePage file pageNo s; Some (Ok st, (s', b))) : CODE POOL Status in
  return_if_error st.

(** [BufMgr::allocPage]: the page number and the frame. *)
Definition BufMgr_allocPage (file : Z) : CODE POOL (Z * Z) :=
  let! pageNo := zoom fst (fun s '(_, b) => (s, b)) (ps_allocatePage file) in
  let! frameNo := allocBuf in
  upd_mgr (upd_desc frameNo (BufDesc_Set file pageNo)) ;;;
  let! st := hash_insert file pageNo frameNo in
  return_if_error st ;;;
  ret (pageNo, frameNo).

(** The loop of the destructor: the status of [writePage] is not looked at. *)
Fixpoint flush_all_from (n : nat) (i : Z) : CODE POOL unit :=
  match n with
  | O => ret tt
  | Datatypes.S n =>
      let! tmpbuf := get_mgr (fun b => zget (bufTable b) i) in
      (if bd_valid tmpbuf && bd_dirty tmpbuf then
         write_frame (bd_file tmpbuf) (bd_pageNo tmpbuf) i ;;; ret tt
       else ret tt) ;;;
      flush_all_from n (i + 1)
  end.

(** [BufMgr::~BufMgr] up to freeing the memory. *)
Definition BufMgr_delete : CODE POOL unit :=
  let! n := get_mgr (fun b => Some (numBufs b)) in
  flush_all_from (Z.to_nat n) 0.

(** A client writes the bytes of a page it holds. *)
Definition client_write (frameNo : Z) (p : block) : CODE POOL unit := upd_mgr (fun b =>
  pool ← zset (bufPool b) frameNo p; Some (set_bufPool pool b)).

Definition client_read (frameNo : Z) : CODE POOL block := get_mgr (fun b => zget (bufPool b) frameNo).

End Code.

(** ** The clock *)

Section Clock.
Implicit Types (b : BufMgr) (d : BufDesc).

(** The fields the sweep only reads. *)
Definition noref (d : BufDesc) : BufDesc := set_refbit false d.

(** [b'] differs from [b] in the clock, the statistics and cleared bits. *)
Record swept b b' : Prop := {
  sw_num : numBufs b' = numBufs b;
  sw_pool : bufPool b' = bufPool b;
  sw_table : noref <$> bufTable b' = noref <$> bufTable b;
  sw_ref : forall i d', zget (bufTable b') i = Some d' ->
    exists d, zget (bufTable b) i = Some d /\ (bd_refbit d' = true -> bd_refbit d = true);
}.

(** The table is there and the hand points into it. *)
Definition clock_ok b : Prop :=
  0 < numBufs b < 2 ^ 30 /\ Z.of_nat (length (bufTable b)) = numBufs b /\ 0 <= clockHand b < numBufs b.

Lemma swept_refl b : swept b b.
Proof. split; eauto. Qed.

Lemma swept_trans b1 b2 b3 : swept b1 b2 -> swept b2 b3 -> swept b1 b3.
Proof.
  intros [A1 A2 A3 A4] [B1 B2 B3 B4]. split; try congruence.
  intros i d Hd. destruct (B4 i d Hd) as (d2 & H2 & Hr2). destruct (A4 i d2 H2) as (d1 & H1 & Hr1). eauto.
Qed.

Lemma swept_get b b' i d :
  swept b b' -> zget (bufTable b) i = Some d -> exists d', zget (bufTable b') i = Some d' /\ noref d' = noref d.
Proof.
  intros Hs [Hi Hd]%zget_Some. assert ((noref <$> bufTable b') !! Z.to_nat i = Some (noref d)) as Hn.
  { by rewrite (sw_table _ _ Hs), list_lookup_fmap, Hd. }
  rewrite list_lookup_fmap in Hn. destruct (bufTable b' !! Z.to_nat i) as [d'|] eqn:Hd'; [|done].
  change (Some (noref d') = Some (noref d)) in Hn. exists d'. split; [by apply zget_Some|congruence].
Qed.

Lemma noref_fields d d' : noref d = noref d' ->
  bd_file d = bd_file d' /\ bd_pageNo d = bd_pageNo d' /\ bd_pinCnt d = bd_pinCnt d' /\
  bd_dirty d = bd_dirty d' /\ bd_valid d = bd_valid d'.
Proof. destruct d, d'. unfold noref, set_refbit. cbn. intros H. injection H. intros. by subst. Qed.

Lemma swept_back b b' i d' :
  swept b b' -> zget (bufTable b') i = Some d' -> exists d, zget (bufTable b) i = Some d /\ noref d' = noref d.
Proof.
  intros Hs Hd'. destruct (sw_ref _ _ Hs i d' Hd') as (d & Hd & _). exists d. split; [done|].
  destruct (swept_get b b' i d Hs Hd) as (d2 & Hd2 & Hn). assert (d2 = d') as -> by congruence. done.
Qed.

Lemma advanceClock_hand b : clock_ok b -> clockHand (advanceClock b) = (clockHand b + 1) mod numBufs b.
Proof. intros (Hn & _ & Hh). cbn. unfold wrapU. rewrite (Z.mod_small _ (2 ^ 32)) by lia. done. Qed.

Lemma advanceClock_ok b : clock_ok b -> clock_ok (advanceClock b).
Proof.
  intros Hb. pose proof (advanceClock_hand b Hb) as Hh. destruct Hb as (Hn & Ht & _).
  split; [done|]. split; [done|]. rewrite Hh. apply (Z.mod_pos_bound _ (numBufs b)). lia.
Qed.

Lemma upd_desc_run b i d f :
  zget (bufTable b) i = Some d ->
  upd_desc i f b = Some (set_bufTable (<[Z.to_nat i := f d]> (bufTable b)) b).
Proof.
  intros Hd. unfold upd_desc. rewrite Hd. cbn. rewrite zset_in_range; [done|]. by eapply zget_range.
Qed.

Lemma clear_ref_swept b i d :
  zget (bufTable b) i = Some d -> swept b (set_bufTable (<[Z.to_nat i := noref d]> (bufTable b)) b).
Proof.
  intros Hd. pose proof (zget_range _ _ _ Hd) as Hr. split; try done; cbn.
  - rewrite list_fmap_insert. apply list_insert_id. rewrite list_lookup_fmap.
    apply zget_Some in Hd as [_ ->]. done.
  - intros j d'. rewrite zget_insert by done. case_decide; [|by eauto].
    intros [= <-]. subst j. exists d. done.
Qed.

(** The frame looked at [t] scans after [b]. *)
Definition hand_at b (t : Z) : Z := (clockHand b + t) mod numBufs b.

Lemma hand_at_next b t : clock_ok b -> hand_at (advanceClock b) t = hand_at b (t + 1).
Proof.
  intros Hb. unfold hand_at. rewrite advanceClock_hand by done. cbn [numBufs advanceClock set_clockHand].
  rewrite Zplus_mod_idemp_l. f_equal. lia.
Qed.

(** Every frame comes under the hand within [numBufs] scans. *)
Lemma hand_at_all b i : clock_ok b -> 0 <= i < numBufs b -> exists t, 1 <= t <= numBufs b /\ hand_at b t = i.
Proof.
  intros (Hn & _ & Hh) Hi. unfold hand_at. destruct (decide (clockHand b < i)).
  - exists (i - clockHand b). split; [lia|]. rewrite Z.mod_small; lia.
  - exists (i - clockHand b + numBufs b). split; [lia|].
    replace (clockHand b + (i - clockHand b + numBufs b)) with (i + 1 * numBufs b) by lia.
    rewrite Z.mod_add by lia. apply Z.mod_small. lia.
Qed.

(** Two sweeps are one sweep continued, unless the first stops. *)
Lemma clock_sweep_add n m b :
  clock_sweep (n + m) b = match clock_sweep n b with
                          | Some (Exhausted, _, b') => clock_sweep m b'
                          | Some (e, rest, b') => Some (e, (rest + m)%nat, b')
                          | None => None
                          end.
Proof.
  revert b. induction n as [|n IH]; intros b; [done|]. cbn [clock_sweep Nat.add].
  destruct (zget _ _) as [d|]; cbn [mbind option_bind]; [|done].
  destruct (negb (bd_valid d)); [done|]. destruct (negb (bd_refbit d)).
  - case_decide; [|apply IH]. by destruct (BufHashTbl_remove _ _ _) as [[? ?]|].
  - by destruct (upd_desc _ _ _) as [b'|]; cbn [mbind option_bind].
Qed.

Lemma clock_sweep_exhausted n b rest b' : clock_sweep n b = Some (Exhausted, rest, b') -> rest = O.
Proof.
  revert b. induction n as [|n IH]; intros b; [naive_solver|]. cbn [clock_sweep].
  destruct (zget _ _) as [d|]; cbn [mbind option_bind]; [|done].
  destruct (negb (bd_valid d)); [done|]. destruct (negb (bd_refbit d)).
  - case_decide; [|apply IH]. by destruct (BufHashTbl_remove _ _ _) as [[? ?]|].
  - destruct (upd_desc _ _ _) as [b1|]; cbn [mbind option_bind]; [apply IH|done].
Qed.

(** The pages the valid frames hold can be hashed. *)
Definition keys_ok b : Prop :=
  forall i d, zget (bufTable b) i = Some d -> bd_valid d = true -> page_key (bd_file d, bd_pageNo d).

Lemma keys_ok_swept b b' : swept b b' -> keys_ok b -> keys_ok b'.
Proof.
  intros Hs Hk i d' Hd' Hv. destruct (swept_back _ _ i d' Hs Hd') as (d & Hd & Hn).
  destruct (noref_fields _ _ Hn) as (Hf & Hp & _ & _ & Hvv). rewrite Hf, Hp. apply (Hk i d Hd). congruence.
Qed.

Lemma bh_remove_total t k : bh_ok t -> page_key k -> exists st t', BufHashTbl_remove k.1 k.2 t = Some (st, t').
Proof.
  intros Ht Hk. pose proof (mt_remove_ok t k Ht Hk) as Hr. destruct (mt_map t !! k).
  - destruct Hr as (t' & Hr & _). by exists OK, t'.
  - by exists HASHTBLERROR, t.
Qed.

(** What a sweep from [b] that ended as [e] in [b'] tells about the frames. *)
Definition sweep_post (n : nat) b (e : sweep_end) b' : Prop :=
  match e with
  | Exhausted => hashTable b' = hashTable b /\ forall t, 1 <= t <= Z.of_nat n ->
      (forall d, zget (bufTable b) (hand_at b t) = Some d ->
         bd_valid d = true /\ (bd_refbit d = false -> bd_pinCnt d <> 0)) /\
      (forall d', zget (bufTable b') (hand_at b t) = Some d' -> bd_refbit d' = false)
  | FreeFrame => hashTable b' = hashTable b /\
      exists d, zget (bufTable b') (clockHand b') = Some d /\ bd_valid d = false
  | Victim => exists d st, zget (bufTable b') (clockHand b') = Some d /\ bd_valid d = true /\
      bd_pinCnt d = 0 /\ BufHashTbl_remove (bd_file d) (bd_pageNo d) (hashTable b) = Some (st, hashTable b')
  end.

(** Prefixing a scan that looked at frame [d] and went on. *)
Lemma sweep_post_step n b b1 e b' d :
  clock_ok b -> swept b b1 -> hashTable b1 = hashTable b -> clockHand b1 = hand_at b 1 ->
  zget (bufTable b) (hand_at b 1) = Some d -> bd_valid d = true -> (bd_refbit d = false -> bd_pinCnt d <> 0) ->
  (forall i, i <> hand_at b 1 -> zget (bufTable b1) i = zget (bufTable b) i) ->
  (forall d1, zget (bufTable b1) (hand_at b 1) = Some d1 -> bd_refbit d1 = false) ->
  swept b1 b' -> sweep_post n b1 e b' -> sweep_post (S n) b e b'.
Proof.
  intros Hb Hs Hh Hc Hd Hv Hp Hother Href Hs' Hpost. destruct e; cbn in *; [|by rewrite <- Hh..].
  destruct Hpost as [Hh' Hpost]. split; [congruence|]. intros t Ht.
  destruct (decide (hand_at b t = hand_at b 1)) as [->|Hne].
  - split; [naive_solver|]. intros d' Hd'. destruct (sw_ref _ _ Hs' _ _ Hd') as (d1 & Hd1 & Hr).
    destruct (bd_refbit d'); [|done]. specialize (Href d1 Hd1). naive_solver.
  - assert (hand_at b t = hand_at b1 (t - 1)) as Heq.
    { unfold hand_at in *. rewrite Hc, (sw_num _ _ Hs), Zplus_mod_idemp_l. f_equal. lia. }
    assert (t <> 1) by (intros ->; done). destruct (Hpost (t - 1)) as [H1 H2]; [lia|].
    rewrite Heq. split; [|done]. intros d1 Hd1. apply H1. rewrite Hother; [done|congruence].
Qed.

Lemma clock_sweep_ok n b :
  clock_ok b -> keys_ok b -> bh_ok (hashTable b) ->
  exists e rest b', clock_sweep n b = Some (e, rest, b') /\ clock_ok b' /\ swept b b' /\ sweep_post n b e b'.
Proof.
  revert b. induction n as [|n IH]; intros b Hb Hk Hh.
  - exists Exhausted, O, b. split; [done|]. split; [done|]. split; [apply swept_refl|]. split; [done|]. lia.
  - cbn [clock_sweep]. set (b1 := advanceClock b). pose proof (advanceClock_ok b Hb : clock_ok b1) as Hb1.
    assert (clockHand b1 = hand_at b 1) as Hc by by apply advanceClock_hand.
    assert (swept b b1) as Hs1 by (split; eauto).
    destruct (zget_is_Some (bufTable b1) (clockHand b1)) as [d Hd]; [destruct Hb1 as (?&?&?); lia|].
    rewrite Hd. cbn [mbind option_bind]. destruct (bd_valid d) eqn:Hv; cbn [negb].
    2: { exists FreeFrame, n, b1. split; [done|]. split; [done|]. split; [done|]. split; [done|]. by exists d. }
    destruct (bd_refbit d) eqn:Hr; cbn [negb].
    + rewrite (upd_desc_run _ _ d) by done. cbn [mbind option_bind].
      set (b2 := set_bufTable _ _).
      assert (swept b1 b2) as Hs2.
      { destruct (clear_ref_swept b1 (clockHand b1) d Hd) as [? ? ? ?]. by split. }
      assert (clock_ok b2) as Hb2.
      { destruct Hb1 as (?&?&?). split; [done|]. split; [|done]. cbn. by rewrite length_insert. }
      assert (swept b b2) as Hs by by eapply swept_trans.
      destruct (IH b2 Hb2 (keys_ok_swept _ _ Hs Hk) Hh) as (e & rest & b' & Hrun & Hb' & Hs' & Hpost).
      exists e, rest, b'. split; [done|]. split; [done|]. split; [by eapply swept_trans|].
      pose proof (zget_range _ _ _ Hd) as Hrange.
      apply (sweep_post_step n b b2 e b' d); try done.
      * by rewrite <- Hc.
      * intros Hf. congruence.
      * intros i Hi. cbn. rewrite zget_insert by done. rewrite decide_False; [done|]. cbn in *. congruence.
      * intros d1. rewrite <- Hc. cbn. rewrite zget_insert by done. rewrite decide_True by done. by intros [= <-].
    + case_decide as Hp.
      * destruct (bh_remove_total (hashTable b) (bd_file d, bd_pageNo d) Hh (Hk _ d Hd Hv)) as (st & t' & Hrm).
        cbn in Hrm. cbn [hashTable b1 advanceClock set_clockHand]. rewrite Hrm. cbn [mbind option_bind].
        exists Victim, n, (set_hashTable t' b1). split; [done|]. split; [done|]. split; [by split; eauto|].
        exists d, st. done.
      * destruct (IH b1 Hb1 (keys_ok_swept _ _ Hs1 Hk) Hh) as (e & rest & b' & Hrun & Hb' & Hs' & Hpost).
        exists e, rest, b'. split; [done|]. split; [done|]. split; [by eapply swept_trans|].
        apply (sweep_post_step n b b1 e b' d); try done.
        -- by rewrite <- Hc.
        -- intros d1. rewrite <- Hc. congruence.
Qed.

(** A frame that can be reused: invalid or not pinned. *)
Definition reusable (d : BufDesc) : Prop := bd_valid d = true -> bd_pinCnt d = 0.

(** The two sweeps of [allocBuf] find a frame exactly when there is one, and
    an invalid frame is found during the first. *)
Lemma two_sweeps b :
  clock_ok b -> keys_ok b -> bh_ok (hashTable b) ->
  exists e rest b', clock_sweep (Z.to_nat (2 * numBufs b)) b = Some (e, rest, b') /\
    clock_ok b' /\ swept b b' /\ sweep_post (Z.to_nat (2 * numBufs b)) b e b' /\
    (e = FreeFrame -> rest <> O) /\
    (e = Exhausted -> forall i d, zget (bufTable b) i = Some d -> ~ reusable d).
Proof.
  intros Hb Hk Hh. pose proof Hb as (Hn & Hl & _).
  destruct (clock_sweep_ok (Z.to_nat (2 * numBufs b)) b Hb Hk Hh) as (e & rest & b' & Hrun & Hb' & Hs & Hpost).
  exists e, rest, b'. do 4 (split; [done|]).
  replace (Z.to_nat (2 * numBufs b)) with (Z.to_nat (numBufs b) + Z.to_nat (numBufs b))%nat in Hrun by lia.
  rewrite clock_sweep_add in Hrun.
  destruct (clock_sweep_ok (Z.to_nat (numBufs b)) b Hb Hk Hh) as (e1 & rest1 & b1 & Hrun1 & Hb1 & Hs1 & Hpost1).
  rewrite Hrun1 in Hrun. destruct e1; [|simplify_eq; split; [lia|done]..].
  destruct Hpost1 as [Hh1 Hpost1].
  destruct (clock_sweep_ok (Z.to_nat (numBufs b)) b1 Hb1 (keys_ok_swept _ _ Hs1 Hk) ltac:(by rewrite Hh1))
    as (e2 & rest2 & b2 & Hrun2 & Hb2 & Hs2 & Hpost2). simplify_eq.
  assert (forall i d, zget (bufTable b) i = Some d -> exists d1, zget (bufTable b1) i = Some d1 /\
    noref d1 = noref d /\ bd_valid d = true /\ bd_refbit d1 = false) as Hall.
  { intros i d Hd. destruct (hand_at_all b i Hb) as (t & Ht & <-); [apply zget_range in Hd; lia|].
    destruct (Hpost1 t) as [Ha Hb3]; [lia|]. destruct (swept_get _ _ _ _ Hs1 Hd) as (d1 & Hd1 & Hnr).
    exists d1. split; [done|]. split; [done|]. split; [by apply (Ha d Hd)|by apply Hb3]. }
  split.
  - intros ->. cbn in Hpost2. destruct Hpost2 as (_ & d2 & Hd2 & Hv2).
    destruct (swept_back _ _ _ _ Hs Hd2) as (d & Hd & Hnr). destruct (Hall _ d Hd) as (_ & _ & _ & Hv & _).
    destruct (noref_fields _ _ Hnr) as (_ & _ & _ & _ & Hvv). congruence.
  - intros -> i d Hd Hre. destruct Hpost2 as [_ Hpost2]. destruct (Hall i d Hd) as (d1 & Hd1 & Hnr & Hv & Hr).
    destruct (hand_at_all b1 i Hb1) as (t & Ht & Hti).
    { apply zget_range in Hd. rewrite (sw_num _ _ Hs1). lia. }
    destruct (Hpost2 t) as [Ha _]; [rewrite (sw_num _ _ Hs1) in Ht; lia|]. rewrite Hti in Ha.
    destruct (Ha d1 Hd1) as [_ Hp]. destruct (noref_fields _ _ Hnr) as (_ & _ & Hpp & _).
    apply (Hp Hr). rewrite Hpp. by apply Hre.
Qed.

End Clock.

(** ** The invariant of the pool *)

Section Pool.
Context {S : Type} `{HS : PageStore S}.
(** The pages that clients have changed without unpinning them as dirty yet. *)
Context (T : gset (Z * Z)).
Implicit Types (s : S) (b : BufMgr) (d : BufDesc) (f n i : Z).

(** The frame a page is in. *)
Definition frame_of b f n : option Z := bh_map (hashTable b) !! (f, n).

(** A valid frame holds a page of an open file, is entered in the hash table
    and, unless it is dirty or a client is changing it, agrees with the disk;
    an invalid frame is clean, unpinned and belongs to no file. *)
Definition frame_inv s b i d : Prop :=
  if bd_valid d then
    frame_of b (bd_file d) (bd_pageNo d) = Some i /\ 0 <= bd_pinCnt d < 2 ^ 31 /\
    exists q, ps_page s (bd_file d) (bd_pageNo d) = Some q /\
      (bd_pinCnt d = 0 \/ (bd_file d, bd_pageNo d) ∉ T -> bd_dirty d = false -> zget (bufPool b) i = Some q)
  else bd_dirty d = false /\ bd_file d = 0 /\ bd_pinCnt d = 0.

(** The invariant, with the frame [x] that is being set up left out. *)
Record pool_inv (x : option Z) s b : Prop := {
  pi_store : ps_ok s;
  pi_clock : clock_ok b;
  pi_pool : Z.of_nat (length (bufPool b)) = numBufs b;
  pi_len : forall i p, zget (bufPool b) i = Some p -> Z.of_nat (length p) = PAGESIZE;
  pi_hash : bh_ok (hashTable b);
  pi_frame : forall i d, zget (bufTable b) i = Some d -> x <> Some i -> frame_inv s b i d;
  pi_entry : forall f n i, frame_of b f n = Some i -> x <> Some i /\
    exists d, zget (bufTable b) i = Some d /\ bd_valid d = true /\ bd_file d = f /\ bd_pageNo d = n;
}.

(** What a client sees of a page: the buffered bytes if it is in the pool,
    the bytes on disk otherwise; and how often it is pinned. *)
Definition logical s b f n : option block :=
  match frame_of b f n with Some i => zget (bufPool b) i | None => ps_page s f n end.

Definition pins b f n : Z :=
  match frame_of b f n with
  | Some i => match zget (bufTable b) i with Some d => bd_pinCnt d | None => 0 end
  | None => 0
  end.

(** Pinned pages stay in their frames: a client's page pointer stays valid. *)
Definition pinned_stay b b' : Prop := forall f n, 0 < pins b f n -> frame_of b' f n = frame_of b f n.

(** Two states a client cannot tell apart. *)
Definition same_view s b s' b' : Prop :=
  (forall f n, logical s' b' f n = logical s b f n) /\ (forall f n, pins b' f n = pins b f n) /\
  (forall f, ps_file s' f <-> ps_file s f) /\ pinned_stay b b'.

Lemma same_view_refl s b : same_view s b s b.
Proof. done. Qed.

Lemma same_view_trans s1 b1 s2 b2 s3 b3 :
  same_view s1 b1 s2 b2 -> same_view s2 b2 s3 b3 -> same_view s1 b1 s3 b3.
Proof.
  intros (A1 & A2 & A3 & A4) (B1 & B2 & B3 & B4). split; [|split; [|split]]; intros; [by rewrite B1|by rewrite B2|by rewrite B3|].
  intros f n Hp. by rewrite B4, A4 by (rewrite ?A2; done).
Qed.

(** A page in the pool is a page of the store. *)
Lemma frame_page x s b f n i :
  pool_inv x s b -> frame_of b f n = Some i ->
  exists d q, zget (bufTable b) i = Some d /\ bd_valid d = true /\ bd_file d = f /\ bd_pageNo d = n /\
    frame_inv s b i d /\ ps_page s f n = Some q /\ page_key (f, n).
Proof.
  intros Hi Hf. destruct (pi_entry _ _ _ Hi f n i Hf) as (Hx & d & Hd & Hv & Hff & Hn).
  pose proof (pi_frame _ _ _ Hi i d Hd Hx) as Hfi. pose proof Hfi as Hfi'. unfold frame_inv in Hfi'.
  rewrite Hv in Hfi'. destruct Hfi' as (_ & _ & q & Hq & _). rewrite Hff, Hn in Hq.
  exists d, q. destruct (ps_page_bounds s f n q (pi_store _ _ _ Hi) Hq) as (_ & Hk & _). done.
Qed.

Lemma logical_page x s b f n p :
  pool_inv x s b -> logical s b f n = Some p ->
  Z.of_nat (length p) = PAGESIZE /\ page_key (f, n) /\ 0 < f /\ ps_file s f /\ exists q, ps_page s f n = Some q.
Proof.
  intros Hi Hl. unfold logical in Hl. destruct (frame_of b f n) as [i|] eqn:Hf.
  - destruct (frame_page x s b f n i Hi Hf) as (d & q & _ & _ & _ & _ & _ & Hq & Hk).
    destruct (ps_page_bounds s f n q (pi_store _ _ _ Hi) Hq) as (? & _ & ? & _).
    split; [by eapply pi_len|]. eauto.
  - destruct (ps_page_bounds s f n p (pi_store _ _ _ Hi) Hl) as (? & ? & ? & ?). eauto 6.
Qed.

Lemma pool_keys s b : pool_inv None s b -> keys_ok b.
Proof.
  intros Hi i d Hd Hv. pose proof (pi_frame _ _ _ Hi i d Hd ltac:(done)) as Hf. unfold frame_inv in Hf.
  rewrite Hv in Hf. destruct Hf as (_ & _ & q & Hq & _).
  by destruct (ps_page_bounds s _ _ q (pi_store _ _ _ Hi) Hq) as (_ & Hk & _).
Qed.

(** The sweep does not disturb the invariant or the view. *)
Lemma frame_inv_swept s b b' i d d' :
  bufPool b' = bufPool b -> hashTable b' = hashTable b -> noref d' = noref d ->
  frame_inv s b i d -> frame_inv s b' i d'.
Proof.
  intros Hp Hh Hn. destruct (noref_fields _ _ Hn) as (Hf & Hpg & Hpin & Hdi & Hv).
  unfold frame_inv, frame_of. by rewrite Hp, Hh, Hf, Hpg, Hpin, Hdi, Hv.
Qed.

Lemma pool_inv_swept s b b' :
  pool_inv None s b -> clock_ok b' -> swept b b' -> hashTable b' = hashTable b ->
  pool_inv None s b' /\ same_view s b s b'.
Proof.
  intros Hi Hc Hs Hh. pose proof (sw_pool _ _ Hs) as Hp. split; [split|].
  - apply Hi.
  - done.
  - rewrite Hp, (sw_num _ _ Hs). apply Hi.
  - rewrite Hp. apply Hi.
  - rewrite Hh. apply Hi.
  - intros i d' Hd' Hx. destruct (swept_back _ _ _ _ Hs Hd') as (d & Hd & Hn).
    eapply frame_inv_swept; [done..|]. by apply (pi_frame _ _ _ Hi).
  - intros f n i Hf. unfold frame_of in Hf. rewrite Hh in Hf.
    destruct (pi_entry _ _ _ Hi f n i Hf) as (Hx & d & Hd & Hv & Hff & Hnn).
    destruct (swept_get _ _ _ _ Hs Hd) as (d' & Hd' & Hn). split; [done|]. exists d'.
    destruct (noref_fields _ _ Hn) as (? & ? & _ & _ & ?). split; [done|]. split; [congruence|]. split; congruence.
  - unfold same_view, pinned_stay, logical, pins, frame_of. rewrite Hh, Hp. split; [done|]. split; [|done].
    intros f n. destruct (_ !! (f, n)) as [i|]; [|done].
    destruct (zget (bufTable b) i) as [d|] eqn:Hd.
    + destruct (swept_get _ _ _ _ Hs Hd) as (d' & -> & Hn). by destruct (noref_fields _ _ Hn) as (_ & _ & ? & _).
    + destruct (zget (bufTable b') i) as [d'|] eqn:Hd'; [|done].
      destruct (swept_back _ _ _ _ Hs Hd') as (d & Hd2 & _). congruence.
Qed.

(** Forgetting a page: its frame [i] no longer counts, the others do. *)
Lemma pool_inv_unhash s b i d t' :
  pool_inv None s b -> zget (bufTable b) i = Some d -> bd_valid d = true -> bh_ok t' ->
  bh_map t' = delete (bd_file d, bd_pageNo d) (bh_map (hashTable b)) ->
  pool_inv (Some i) s (set_hashTable t' b) /\
  (forall f n, frame_of (set_hashTable t' b) f n = if decide (f = bd_file d /\ n = bd_pageNo d) then None else frame_of b f n).
Proof.
  intros Hi Hd Hv Ht Hm. pose proof (pi_frame _ _ _ Hi i d Hd ltac:(done)) as Hfi.
  unfold frame_inv in Hfi. rewrite Hv in Hfi. destruct Hfi as (Hfr & _).
  assert (forall f n, frame_of (set_hashTable t' b) f n =
    if decide (f = bd_file d /\ n = bd_pageNo d) then None else frame_of b f n) as Hof.
  { intros f n. unfold frame_of. cbn. rewrite Hm. case_decide as Hk.
    - destruct Hk as [-> ->]. apply lookup_delete_eq.
    - apply lookup_delete_ne. intros [= <- <-]. by apply Hk. }
  split; [|done]. destruct Hi as [H1 H2 H3 H4 H5 H6 H7]. split; try done.
  - intros j d' Hd' Hj. specialize (H6 j d' Hd' ltac:(done)). unfold frame_inv in *.
    destruct (bd_valid d') eqn:Hv'; [|done]. destruct H6 as (Hf' & Hrest). split; [|done].
    rewrite Hof, decide_False; [done|]. intros [Hff Hnn]. rewrite Hff, Hnn, Hfr in Hf'. by simplify_eq.
  - intros f n j. rewrite Hof. case_decide as Hk; [done|]. intros Hfj.
    destruct (H7 f n j Hfj) as (_ & d' & Hd' & Hv' & Hff & Hnn). split; [|by exists d'].
    intros [= <-]. apply Hk. simplify_eq. done.
Qed.

(** Filling the frame [i] that was left out with page [(f, n)]. *)
Lemma pool_inv_fill s b i d f n q t' :
  pool_inv (Some i) s b -> zget (bufTable b) i = Some d -> frame_of b f n = None ->
  ps_page s f n = Some q -> ((f, n) ∉ T -> zget (bufPool b) i = Some q) ->
  bh_ok t' -> bh_map t' = <[(f, n) := i]> (bh_map (hashTable b)) ->
  let b' := set_hashTable t' (set_bufTable (<[Z.to_nat i := BufDesc_Set f n d]> (bufTable b)) b) in
  pool_inv None s b' /\
  (forall g m, frame_of b' g m = if decide (g = f /\ m = n) then Some i else frame_of b g m) /\
  (forall g m, pins b' g m = if decide (g = f /\ m = n) then 1 else pins b g m).
Proof.
  intros Hi Hd Hnone Hq HT Ht Hm b'. pose proof (zget_range _ _ _ Hd) as Hrange.
  assert (forall g m, frame_of b' g m = if decide (g = f /\ m = n) then Some i else frame_of b g m) as Hof.
  { intros g m. unfold frame_of. cbn. rewrite Hm. case_decide as Hk.
    - destruct Hk as [-> ->]. apply lookup_insert_eq.
    - apply lookup_insert_ne. intros [= <- <-]. by apply Hk. }
  destruct Hi as [H1 (Hc1 & Hc2 & Hc3) H3 H4 H5 H6 H7].
  assert (forall g m j, frame_of b g m = Some j -> j <> i) as Hne.
  { intros g m j Hj ->. destruct (H7 g m i Hj) as [Hx _]. done. }
  split; [split; try done|split; [done|]].
  - split; [done|]. split; [|done]. cbn. by rewrite length_insert.
  - intros j d' Hd' _. cbn in Hd'. rewrite zget_insert in Hd' by done. unfold frame_inv. case_decide as Hj.
    + simplify_eq. cbn. rewrite Hof, decide_True by done. split; [done|]. split; [lia|]. exists q. split; [done|].
      intros [?|?] _; [lia|auto].
    + specialize (H6 j d' Hd' ltac:(congruence)). unfold frame_inv in H6. destruct (bd_valid d'); [|done].
      destruct H6 as (Hf' & Hrest). split; [|done]. rewrite Hof, decide_False; [done|]. intros [Hff Hnn].
      rewrite Hff, Hnn in Hf'. congruence.
  - intros g m j. rewrite Hof. split; [done|]. cbn. rewrite zget_insert by done. case_decide as Hk.
    + destruct Hk as [-> ->]. simplify_eq. rewrite decide_True by done. by eexists.
    + rewrite decide_False by (intros ->; by eapply Hne). by apply H7.
  - intros g m. unfold pins. rewrite Hof. cbn. case_decide as Hk.
    + rewrite zget_insert, decide_True by done. done.
    + destruct (frame_of b g m) as [j|] eqn:Hj; [|done].
      rewrite zget_insert, decide_False by (done || (intros ->; by eapply Hne)). done.
Qed.

Lemma pool_inv_stats x s b st : pool_inv x s b -> pool_inv x s (set_bufStats st b).
Proof. intros [? ? ? ? ? ? ?]. by split. Qed.

(** The pool only depends on the pages of the store. *)
Lemma pool_inv_pages x s s' b :
  pool_inv x s b -> ps_ok s' -> (forall i d, zget (bufTable b) i = Some d -> bd_valid d = true ->
    ps_page s' (bd_file d) (bd_pageNo d) = ps_page s (bd_file d) (bd_pageNo d)) -> pool_inv x s' b.
Proof.
  intros [H1 H2 H3 H4 H5 H6 H7] Hok Hpg. split; try done. intros i d Hd Hx. specialize (H6 i d Hd Hx).
  specialize (Hpg i d Hd). unfold frame_inv in *. destruct (bd_valid d); [|done]. by rewrite Hpg.
Qed.

(** A change of a page that is not in the pool. *)
Lemma pool_inv_write x s s' b f n o :
  pool_inv x s b -> frame_of b f n = None -> ps_ok s' ->
  (forall g m, ps_page s' g m = upd_page (ps_page s) f n o g m) -> pool_inv x s' b.
Proof.
  intros [H1 H2 H3 H4 H5 H6 H7] Hnone Hok Hpg. split; try done.
  intros i d Hd Hx. specialize (H6 i d Hd Hx). unfold frame_inv in *. destruct (bd_valid d); [|done].
  destruct H6 as (Hf & Hp & q' & Hq' & Hc). split; [done|]. split; [done|]. exists q'. split; [|done].
  rewrite Hpg. unfold upd_page. rewrite decide_False; [done|]. intros [Hff Hnn].
  rewrite Hff, Hnn in Hf. congruence.
Qed.

Ltac unpair := unfold lift_mgr, upd_mgr, get_mgr, write_frame, read_frame; cbn beta iota.

(** Writing back the frame [i] whose page has left the hash table. *)
Lemma write_back s b i d :
  pool_inv (Some i) s b -> zget (bufTable b) i = Some d -> frame_of b (bd_file d) (bd_pageNo d) = None ->
  (exists q, ps_page s (bd_file d) (bd_pageNo d) = Some q) ->
  exists s' p, zget (bufPool b) i = Some p /\
    write_frame (bd_file d) (bd_pageNo d) i (s, b) = Some (Ok OK, (s', b)) /\ pool_inv (Some i) s' b /\
    (forall g, ps_file s' g <-> ps_file s g) /\
    (forall g m, ps_page s' g m = upd_page (ps_page s) (bd_file d) (bd_pageNo d) (Some p) g m).
Proof.
  intros Hi Hd Hnone [q Hq]. destruct (pi_clock _ _ _ Hi) as (_ & Hl & _). pose proof (pi_pool _ _ _ Hi) as Hlp.
  destruct (zget_is_Some (bufPool b) i) as [p Hp]; [apply zget_range in Hd; lia|].
  destruct (ps_write_ok s _ _ q p (pi_store _ _ _ Hi) Hq (pi_len _ _ _ Hi _ _ Hp)) as (s' & Hw & Hok & Hfile & Hpg).
  exists s', p. split; [done|]. split; [unpair; rewrite Hp; cbn [mbind option_bind]; by rewrite Hw|].
  split; [by eapply pool_inv_write|done].
Qed.

(** After the entry of a clean or written-back page is gone, clients see the
    same bytes on disk. *)
Lemma same_view_evict s b s' b' f n p :
  frame_of b f n <> None -> pins b f n = 0 -> logical s b f n = Some p ->
  (forall g m, frame_of b' g m = if decide (g = f /\ m = n) then None else frame_of b g m) ->
  bufPool b' = bufPool b -> bufTable b' = bufTable b ->
  (forall g, ps_file s' g <-> ps_file s g) -> ps_page s' f n = Some p ->
  (forall g m, (g, m) <> (f, n) -> ps_page s' g m = ps_page s g m) ->
  same_view s b s' b'.
Proof.
  intros Hin Hpin Hlog Hof Hpool Htab Hfile Hp Hpg. split; [|split; [|split; [done|]]].
  - intros g m. destruct (decide (g = f /\ m = n)) as [[-> ->]|Hk].
    + rewrite Hlog. unfold logical. rewrite Hof, decide_True by done. done.
    + unfold logical. rewrite Hof, decide_False, Hpool by done. destruct (frame_of b g m); [done|].
      apply Hpg. intros [= <- <-]. by apply Hk.
  - intros g m. destruct (decide (g = f /\ m = n)) as [[-> ->]|Hk].
    + rewrite Hpin. unfold pins. by rewrite Hof, decide_True.
    + unfold pins. by rewrite Hof, decide_False, Htab.
  - intros g m Hg. rewrite Hof, decide_False; [done|]. intros [-> ->]. lia.
Qed.

(** The victim of the sweep leaves the hash table. *)
Lemma victim_ok s b b1 d st :
  pool_inv None s b -> clock_ok b1 -> swept b b1 -> zget (bufTable b1) (clockHand b1) = Some d ->
  bd_valid d = true -> bd_pinCnt d = 0 ->
  BufHashTbl_remove (bd_file d) (bd_pageNo d) (hashTable b) = Some (st, hashTable b1) ->
  exists b0, pool_inv None s b0 /\ same_view s b s b0 /\ hashTable b0 = hashTable b /\ bufPool b1 = bufPool b0 /\ bufTable b1 = bufTable b0 /\
    pool_inv (Some (clockHand b1)) s b1 /\ frame_inv s b0 (clockHand b1) d /\
    forall g m, frame_of b1 g m = if decide (g = bd_file d /\ m = bd_pageNo d) then None else frame_of b0 g m.
Proof.
  intros Hi Hc1 Hs1 Hd Hv Hpin Hrm. set (b0 := set_hashTable (hashTable b) b1).
  assert (swept b b0) as Hs0 by (destruct Hs1; by split).
  destruct (pool_inv_swept s b b0 Hi Hc1 Hs0 eq_refl) as [Hi0 Hv0].
  pose proof (pi_frame _ _ _ Hi0 _ d Hd ltac:(done)) as Hfi. pose proof Hfi as Hfi'.
  unfold frame_inv in Hfi'. rewrite Hv in Hfi'. destruct Hfi' as (Hfr & _ & q & Hq & _).
  destruct (ps_page_bounds s _ _ q (pi_store _ _ _ Hi) Hq) as (_ & Hk & _).
  pose proof (mt_remove_ok (hashTable b) (bd_file d, bd_pageNo d) (pi_hash _ _ _ Hi) Hk) as Hr.
  cbn [mt_map mt_remove mt_ok BufHashTbl_table fst snd] in Hr. unfold frame_of in Hfr. cbn in Hfr.
  rewrite Hfr in Hr. destruct Hr as (t' & Hr & Hok & Hm). rewrite Hr in Hrm. injection Hrm as _ ->.
  destruct (pool_inv_unhash s b0 (clockHand b1) d (hashTable b1) Hi0 Hd Hv Hok Hm) as [Hi1 Hof].
  exists b0. do 5 (split; [done|]). replace (set_hashTable (hashTable b1) b0) with b1 in * by (by destruct b1). done.
Qed.

Lemma allocBuf_ok s b :
  pool_inv None s b ->
  (exists i d s' b', allocBuf (s, b) = Some (Ok i, (s', b')) /\ pool_inv (Some i) s' b' /\
     zget (bufTable b') i = Some d /\ same_view s b s' b' /\
     (forall f n, frame_of b f n = None -> frame_of b' f n = None) /\
     exists d0, zget (bufTable b) i = Some d0 /\ reusable d0) \/
  (exists b', allocBuf (s, b) = Some (Err BUFFEREXCEEDED, (s, b')) /\ pool_inv None s b' /\
     same_view s b s b' /\ forall i d, zget (bufTable b) i = Some d -> ~ reusable d).
Proof.
  intros Hi. destruct (two_sweeps b (pi_clock _ _ _ Hi) (pool_keys s b Hi) (pi_hash _ _ _ Hi))
    as (e & rest & b1 & Hrun & Hc1 & Hs1 & Hpost & Hfree & Hex).
  unfold allocBuf. erewrite bind_Ok by (unpair; rewrite Hrun; reflexivity). cbn beta iota.
  destruct e; cbn in Hpost.
  - right. destruct Hpost as [Hh _]. destruct (pool_inv_swept s b b1 Hi Hc1 Hs1 Hh) as [Hi1 Hv1].
    exists b1. rewrite decide_True; [naive_solver|]. split; [done|]. by eapply clock_sweep_exhausted.
  - left. destruct Hpost as [Hh (d & Hd & Hv)]. destruct (pool_inv_swept s b b1 Hi Hc1 Hs1 Hh) as [Hi1 Hv1].
    rewrite decide_False by naive_solver. unpair. step. rewrite (bind_Ok _ _ _ d (s, b1)) by (by rewrite Hd).
    pose proof (pi_frame _ _ _ Hi1 _ d Hd ltac:(done)) as Hfi. unfold frame_inv in Hfi. rewrite Hv in Hfi.
    destruct Hfi as (Hcl & _). rewrite Hcl. step. exists (clockHand b1), d, s, b1. split; [done|].
    split; [|split; [done|split; [done|split; [|]]]].
    + destruct Hi1 as [? ? ? ? ? H6 H7]. split; try done; [intros j dj Hj _; by apply H6|].
      intros f n j Hj. destruct (H7 f n j Hj) as (_ & d' & Hd' & Hv' & Hr). split; [|by exists d'].
      intros [= <-]. congruence.
    + intros f n. unfold frame_of. by rewrite Hh.
    + destruct (swept_back _ _ _ _ Hs1 Hd) as (d0 & Hd0 & Hn). exists d0. split; [done|]. intros Hv0.
      destruct (noref_fields _ _ Hn) as (_ & _ & _ & _ & ?). congruence.
  - left. destruct Hpost as (d & st & Hd & Hv & Hpin & Hrm).
    rewrite decide_False by naive_solver.
    destruct (victim_ok s b b1 d st Hi Hc1 Hs1 Hd Hv Hpin Hrm) as (b0 & Hi0 & Hv0 & Hh0 & Hpool & Htab & Hi1 & Hfi & Hof).
    unfold frame_inv in Hfi. rewrite Hv in Hfi. destruct Hfi as (Hfr & _ & q & Hq & Hcl).
    assert (exists d0, zget (bufTable b) (clockHand b1) = Some d0 /\ reusable d0) as Hre.
    { destruct (swept_back _ _ _ _ Hs1 Hd) as (d0 & Hd0 & Hn). exists d0. split; [done|]. intros _.
      destruct (noref_fields _ _ Hn) as (_ & _ & ? & _). congruence. }
    assert (forall f n, frame_of b f n = None -> frame_of b1 f n = None) as Hres.
    { intros f n Hn. rewrite Hof. unfold frame_of. rewrite Hh0. by case_decide. }
    assert (pins b0 (bd_file d) (bd_pageNo d) = 0) as Hp0.
    { unfold pins. rewrite Hfr, <- Htab, Hd. done. }
    step. erewrite (bind_Ok _ _ _ d) by (unpair; by rewrite Hd).
    destruct (bd_dirty d) eqn:Hdi.
    + destruct (write_back s (set_bufStats (inc_diskwrites (bufStats b1)) b1) (clockHand b1) d)
        as (s' & p & Hp & Hw & Hi' & Hfile & Hpg); [by apply pool_inv_stats|done| |by exists q|].
      { change (frame_of b1 (bd_file d) (bd_pageNo d) = None). by rewrite Hof, decide_True. }
      rewrite bind_assoc. step. rewrite bind_assoc. rewrite (bind_Ok _ _ _ _ _ Hw). step.
      exists (clockHand b1), d, s', (set_bufStats (inc_diskwrites (bufStats b1)) b1).
      split; [done|]. split; [done|]. split; [done|]. split; [|done].
      eapply same_view_trans; [exact Hv0|].
      apply (same_view_evict s b0 s' _ (bd_file d) (bd_pageNo d) p); try done.
      * congruence.
      * unfold logical. rewrite Hfr. cbn in Hp. by rewrite <- Hpool.
      * rewrite Hpg. unfold upd_page. by rewrite decide_True.
      * intros g m Hne. rewrite Hpg. unfold upd_page. rewrite decide_False; naive_solver.
    + step. exists (clockHand b1), d, s, b1. do 3 (split; [done|]). split; [|done].
      eapply same_view_trans; [exact Hv0|].
      apply (same_view_evict s b0 s b1 (bd_file d) (bd_pageNo d) q); try done.
      * congruence.
      * unfold logical. rewrite Hfr. apply Hcl; [by left|done].
Qed.

(** Changing the pin count, the dirty bit or the reference bit of a frame. *)
Lemma pool_inv_desc s b i d d' :
  pool_inv None s b -> zget (bufTable b) i = Some d -> bd_valid d = true ->
  bd_valid d' = true -> bd_file d' = bd_file d -> bd_pageNo d' = bd_pageNo d -> 0 <= bd_pinCnt d' < 2 ^ 31 ->
  (bd_pinCnt d' = 0 \/ (bd_file d, bd_pageNo d) ∉ T -> bd_dirty d' = false ->
     zget (bufPool b) i = ps_page s (bd_file d) (bd_pageNo d)) ->
  let b' := set_bufTable (<[Z.to_nat i := d']> (bufTable b)) b in
  pool_inv None s b' /\ (forall g m, logical s b' g m = logical s b g m) /\
  (forall g m, pins b' g m = if decide (g = bd_file d /\ m = bd_pageNo d) then bd_pinCnt d' else pins b g m).
Proof.
  intros Hi Hd Hv Hv' Hf Hp Hpin Hc b'. pose proof (zget_range _ _ _ Hd) as Hr.
  pose proof (pi_frame _ _ _ Hi i d Hd ltac:(done)) as Hfi. unfold frame_inv in Hfi. rewrite Hv in Hfi.
  destruct Hfi as (Hfr & _ & q & Hq & _). destruct Hi as [H1 (Hc1 & Hc2 & Hc3) H3 H4 H5 H6 H7].
  split; [split; try done|split; [done|]].
  - split; [done|]. split; [|done]. cbn. by rewrite length_insert.
  - intros j dj Hdj _. cbn in Hdj. rewrite zget_insert in Hdj by done. case_decide as Hj.
    + simplify_eq. unfold frame_inv. rewrite Hv', Hf, Hp. split; [done|]. split; [done|].
      exists q. split; [done|]. intros. cbn. by rewrite <- Hq, Hc.
    + exact (H6 j dj Hdj ltac:(done)).
  - intros g m j Hj. destruct (H7 g m j Hj) as (Hx & dj & Hdj & Hvj & Hfj & Hpj). split; [done|].
    cbn. rewrite zget_insert by done. case_decide as Hij; [|by exists dj].
    subst j. exists d'. simplify_eq. done.
  - intros g m. unfold pins. change (frame_of b' g m) with (frame_of b g m). case_decide as Hk.
    + destruct Hk as [-> ->]. rewrite Hfr. cbn. by rewrite zget_insert, decide_True.
    + destruct (frame_of b g m) as [j|] eqn:Hj; [|done]. cbn. rewrite zget_insert by done.
      rewrite decide_False; [done|]. intros ->.
      destruct (H7 g m j Hj) as (_ & dj & Hdj & _ & Hfj & Hpj). simplify_eq. by apply Hk.
Qed.

Lemma hash_lookup_run s b f n :
  bh_ok (hashTable b) -> page_key (f, n) ->
  hash_lookup f n (s, b) = Some (Ok match frame_of b f n with Some i => Ok i | None => Err HASHNOTFOUND end, (s, b)).
Proof.
  intros Hb Hk. unfold hash_lookup, get_mgr. pose proof (mt_find_ok (hashTable b) (f, n) Hb Hk) as Hf.
  cbn [mt_find BufHashTbl_table fst snd mt_map] in Hf. by rewrite Hf.
Qed.

Lemma hash_insert_run s b f n i :
  bh_ok (hashTable b) -> page_key (f, n) -> frame_of b f n = None ->
  exists t', hash_insert f n i (s, b) = Some (Ok OK, (s, set_hashTable t' b)) /\ bh_ok t' /\
    bh_map t' = <[(f, n) := i]> (bh_map (hashTable b)).
Proof.
  intros Hb Hk Hn. unfold hash_insert, lift_mgr. pose proof (mt_insert_ok (hashTable b) (f, n) i Hb Hk) as Hi.
  cbn [mt_insert BufHashTbl_table fst snd mt_map mt_ok] in Hi. unfold frame_of in Hn. rewrite Hn in Hi.
  destruct Hi as (t' & Hi & Hok & Hm). exists t'. rewrite Hi. done.
Qed.

Lemma hash_remove_run s b f n :
  bh_ok (hashTable b) -> page_key (f, n) ->
  exists st t', hash_remove f n (s, b) = Some (Ok st, (s, set_hashTable t' b)) /\ bh_ok t' /\
    bh_map t' = delete (f, n) (bh_map (hashTable b)).
Proof.
  intros Hb Hk. unfold hash_remove, lift_mgr. pose proof (mt_remove_ok (hashTable b) (f, n) Hb Hk) as Hi.
  cbn [mt_remove BufHashTbl_table fst snd mt_map mt_ok] in Hi.
  destruct (bh_map (hashTable b) !! (f, n)) as [i|] eqn:Hm.
  - destruct Hi as (t' & Hi & Hok & Hm'). exists OK, t'. rewrite Hi. done.
  - exists HASHTBLERROR, (hashTable b). rewrite Hi. split; [done|]. split; [done|]. by rewrite delete_id.
Qed.

(** The bytes of the frame that is being set up do not matter. *)
Lemma pool_inv_bytes s b i p :
  pool_inv (Some i) s b -> 0 <= i < numBufs b -> Z.of_nat (length p) = PAGESIZE ->
  pool_inv (Some i) s (set_bufPool (<[Z.to_nat i := p]> (bufPool b)) b) /\
  forall f n, logical s (set_bufPool (<[Z.to_nat i := p]> (bufPool b)) b) f n = logical s b f n.
Proof.
  intros [H1 H2 H3 H4 H5 H6 H7] Hi Hp.
  split; [split; try done|].
  - cbn. by rewrite length_insert.
  - intros j q. cbn. rewrite zget_insert by lia. case_decide; [by intros [= <-]|apply H4].
  - intros j d Hd Hj. specialize (H6 j d Hd Hj). unfold frame_inv in *. destruct (bd_valid d); [|done].
    destruct H6 as (Hf & Hpin & q & Hq & Hc). split; [done|]. split; [done|]. exists q. split; [done|].
    intros. cbn. rewrite zget_insert, decide_False by (lia || congruence). by apply Hc.
  - intros f n. unfold logical. change (frame_of (set_bufPool _ b) f n) with (frame_of b f n).
    destruct (frame_of b f n) as [j|] eqn:Hj; [|done]. cbn. rewrite zget_insert by lia.
    rewrite decide_False; [done|]. destruct (H7 f n j Hj) as [Hx _]. congruence.
Qed.

(** Entering a page into the frame [i]: the end of [readPage] and [allocPage]. *)
Lemma enter_page s b i d f n q p :
  pool_inv (Some i) s b -> zget (bufTable b) i = Some d -> frame_of b f n = None ->
  ps_page s f n = Some q -> zget (bufPool b) i = Some p -> ((f, n) ∉ T -> p = q) ->
  exists b1 b', upd_mgr (upd_desc i (BufDesc_Set f n)) (s, b) = Some (Ok tt, (s, b1)) /\
    hash_insert f n i (s, b1) = Some (Ok OK, (s, b')) /\
    pool_inv None s b' /\ frame_of b' f n = Some i /\
    (forall g m, logical s b' g m = if decide (g = f /\ m = n) then Some p else logical s b g m) /\
    (forall g m, pins b' g m = if decide (g = f /\ m = n) then 1 else pins b g m) /\ pinned_stay b b'.
Proof.
  intros Hi Hd Hnone Hq Hp HT. destruct (ps_page_bounds s f n q (pi_store _ _ _ Hi) Hq) as (_ & Hk & _).
  set (b1 := set_bufTable (<[Z.to_nat i := BufDesc_Set f n d]> (bufTable b)) b).
  destruct (hash_insert_run s b1 f n i (pi_hash _ _ _ Hi) Hk Hnone) as (t' & Hins & Hok & Hm).
  destruct (pool_inv_fill s b i d f n q t' Hi Hd Hnone Hq) as (Hi' & Hof & Hpins);
    [intros; rewrite Hp; f_equal; auto|done|done|].
  exists b1, (set_hashTable t' b1). split; [unfold upd_mgr; by rewrite (upd_desc_run b i d) by done|].
  split; [done|]. split; [done|]. split; [by rewrite Hof, decide_True|]. split; [|split; [done|]].
  - intros g m. unfold logical. rewrite Hof. case_decide; done.
  - intros g m Hg. rewrite Hof. case_decide as Hgm; [|done]. destruct Hgm as [-> ->]. unfold pins in Hg.
    by rewrite Hnone in Hg.
Qed.

(** The view after one page is pinned once more. *)
Definition pinned_view s b s' b' f n : Prop :=
  (forall g m, logical s' b' g m = logical s b g m) /\
  (forall g m, pins b' g m = if decide (g = f /\ m = n) then pins b f n + 1 else pins b g m) /\
  (forall g, ps_file s' g <-> ps_file s g) /\ pinned_stay b b'.

Lemma BufMgr_readPage_ok s b f n p :
  pool_inv None s b -> logical s b f n = Some p -> pins b f n < 2 ^ 31 - 1 ->
  (exists i s' b', BufMgr_readPage f n (s, b) = Some (Ok i, (s', b')) /\ pool_inv None s' b' /\
     frame_of b' f n = Some i /\ zget (bufPool b') i = Some p /\ pinned_view s b s' b' f n) \/
  (exists b', BufMgr_readPage f n (s, b) = Some (Err BUFFEREXCEEDED, (s, b')) /\ pool_inv None s b' /\
     same_view s b s b' /\ frame_of b f n = None /\ forall i d, zget (bufTable b) i = Some d -> ~ reusable d).
Proof.
  intros Hi Hlog Hpins. destruct (logical_page None s b f n p Hi Hlog) as (Hlen & Hk & _ & _ & _).
  unfold BufMgr_readPage. rewrite (bind_Ok _ _ _ _ _ (hash_lookup_run s b f n (pi_hash _ _ _ Hi) Hk)).
  destruct (frame_of b f n) as [i|] eqn:Hf.
  - left. destruct (frame_page None s b f n i Hi Hf) as (d & q & Hd & Hv & Hff & Hn & Hfi & Hq & _).
    unfold frame_inv in Hfi. rewrite Hv in Hfi. destruct Hfi as (_ & Hpin & q' & Hq' & Hcl).
    assert (pins b f n = bd_pinCnt d) as Hpd by (unfold pins; by rewrite Hf, Hd). rewrite Hpd in Hpins.
    set (d' := set_pinCnt (s32 (bd_pinCnt d + 1)) (set_refbit true d)).
    assert (bd_pinCnt d' = bd_pinCnt d + 1) as Hpd' by (cbn; apply wrapS_id; unfold inS; lia).
    destruct (pool_inv_desc s b i d d' Hi Hd Hv) as (Hi' & Hl' & Hp'); try done; [lia| |].
    { intros [?|?] ?; [lia|]. rewrite Hq'. apply Hcl; [by right|done]. }
    erewrite bind_Ok by (unfold upd_mgr; rewrite (upd_desc_run b i d) by done; reflexivity).
    eexists i, s, _. split; [done|]. split; [exact Hi'|]. split; [done|].
    unfold logical in Hlog. rewrite Hf in Hlog. split; [done|]. split; [done|]. split; [|done].
    intros g m. rewrite Hp', Hff, Hn, Hpd, Hpd'. done.
  - destruct (allocBuf_ok s b Hi) as [(i & d & s1 & b1 & Hrun & Hi1 & Hd & Hv & Hres & _)|(b1 & Hrun & Hi1 & Hv & Hnone)].
    + left. rewrite (bind_Ok _ _ _ _ _ Hrun). step. destruct Hv as (Hvl & Hvp & Hvf & Hvs).
      set (b2 := set_bufStats (inc_diskreads (bufStats b1)) b1).
      pose proof (Hres f n Hf) as Hf1. pose proof (zget_range _ _ _ Hd) as Hr.
      destruct (pi_clock _ _ _ Hi1) as (_ & Hl1 & _). pose proof (pi_pool _ _ _ Hi1) as Hl2.
      destruct (zget_is_Some (bufPool b1) i) as [old Hold]; [lia|].
      assert (ps_page s1 f n = Some p) as Hq.
      { specialize (Hvl f n). unfold logical in Hvl, Hlog. rewrite Hf in Hvl, Hlog. rewrite Hf1 in Hvl. congruence. }
      pose proof (ps_read_ok s1 f n p old (pi_store _ _ _ Hi1) Hq (pi_len _ _ _ Hi1 _ _ Hold)) as Hread.
      destruct (pool_inv_bytes s1 b2 i p (pool_inv_stats _ _ _ _ Hi1)) as [Hi2 Hl3]; [cbn; lia|done|].
      change (zget (bufPool b2) i = Some old) in Hold.
      erewrite bind_Ok by (unfold read_frame; rewrite Hold; cbn [mbind option_bind]; rewrite Hread; cbn [mbind option_bind];
        rewrite zset_in_range by (cbn; lia); reflexivity). step.
      destruct (enter_page s1 _ i d f n p p Hi2 Hd Hf1 Hq) as (b3 & b4 & Hu & Hins & Hi4 & Hf4 & Hl4 & Hp4 & Hs4).
      { cbn. rewrite zget_insert by lia. by rewrite decide_True. }
      { done. }
      rewrite (bind_Ok _ _ _ _ _ Hu), (bind_Ok _ _ _ _ _ Hins). step.
      exists i, s1, b4. split; [done|]. split; [done|]. split; [done|].
      assert (logical s1 b4 f n = Some p) as Hlf by (by rewrite Hl4, decide_True).
      split; [unfold logical in Hlf; by rewrite Hf4 in Hlf|]. split; [|split; [|split; [done|]]].
      * intros g m. rewrite Hl4. case_decide as Hgm; [destruct Hgm as [-> ->]; done|]. rewrite Hl3. apply Hvl.
      * intros g m. rewrite Hp4. case_decide as Hgm; [unfold pins; by rewrite Hf|]. apply Hvp.
      * intros g m Hg. rewrite <- (Hvs g m Hg). apply Hs4. rewrite <- (Hvp g m) in Hg. exact Hg.
    + right. rewrite (bind_Err _ _ _ _ _ Hrun). exists b1. done.
Qed.

(** The frame that was left out becomes free. *)
Definition vacant d : Prop := bd_valid d = false /\ bd_dirty d = false /\ bd_file d = 0 /\ bd_pinCnt d = 0.

Lemma pool_inv_vacate s b i d d' :
  pool_inv (Some i) s b -> zget (bufTable b) i = Some d -> vacant d' ->
  let b' := set_bufTable (<[Z.to_nat i := d']> (bufTable b)) b in
  pool_inv None s b' /\ same_view s b s b'.
Proof.
  intros Hi Hd (Hv & Hdi & Hf & Hp) b'. pose proof (zget_range _ _ _ Hd) as Hr.
  destruct Hi as [H1 (Hc1 & Hc2 & Hc3) H3 H4 H5 H6 H7].
  assert (forall g m j, frame_of b g m = Some j -> j <> i) as Hne.
  { intros g m j Hj ->. by destruct (H7 g m i Hj) as [Hx _]. }
  split; [split; try done|split; [done|split; [|done]]].
  - split; [done|]. split; [|done]. cbn. by rewrite length_insert.
  - intros j dj Hdj _. cbn in Hdj. rewrite zget_insert in Hdj by done. case_decide as Hj.
    + simplify_eq. unfold frame_inv. by rewrite Hv.
    + apply (H6 j dj Hdj). congruence.
  - intros g m j Hj. pose proof (Hne g m j Hj) as Hji. destruct (H7 g m j Hj) as (_ & dj & Hdj).
    split; [done|]. exists dj. cbn. by rewrite zget_insert, decide_False by done.
  - intros g m. unfold pins. change (frame_of b' g m) with (frame_of b g m).
    destruct (frame_of b g m) as [j|] eqn:Hj; [|done]. pose proof (Hne g m j Hj). cbn.
    by rewrite zget_insert, decide_False by done.
Qed.

(** The first half of [disposePage]: the page leaves the pool, written or not. *)
Lemma forget_page s b f n :
  pool_inv None s b -> page_key (f, n) ->
  exists b1, (forall k : CODE (S * BufMgr) unit,
     (let! r := hash_lookup f n in
      (match r with Ok frameNo => upd_mgr (upd_desc frameNo BufDesc_Clear) | Err _ => ret tt end) ;;;
      hash_remove f n ;;; k) (s, b) = k (s, b1)) /\
    pool_inv None s b1 /\ frame_of b1 f n = None /\
    forall g m, (g, m) <> (f, n) -> logical s b1 g m = logical s b g m /\ pins b1 g m = pins b g m.
Proof.
  intros Hi Hk.
  pose proof (hash_lookup_run s b f n (pi_hash _ _ _ Hi) Hk) as Hl.
  destruct (frame_of b f n) as [i|] eqn:Hf.
  - destruct (frame_page None s b f n i Hi Hf) as (d & q' & Hd & Hv & Hff & Hn & _).
    set (b0 := set_bufTable (<[Z.to_nat i := BufDesc_Clear d]> (bufTable b)) b).
    destruct (hash_remove_run s b0 f n (pi_hash _ _ _ Hi) Hk) as (st & t' & Hrm & Hok & Hm).
    destruct (pool_inv_unhash s b i d t' Hi Hd Hv Hok ltac:(by rewrite Hff, Hn)) as [Hi1 Hof].
    destruct (pool_inv_vacate s _ i d (BufDesc_Clear d) Hi1 Hd) as [Hi2 Hv2]; [done|].
    exists (set_hashTable t' b0). split.
    + intros k. rewrite (bind_Ok _ _ _ _ _ Hl).
      erewrite bind_Ok by (unfold upd_mgr; rewrite (upd_desc_run b i d) by done; reflexivity).
      by rewrite (bind_Ok _ _ _ _ _ Hrm).
    + split; [exact Hi2|]. split.
      * pose proof (Hof f n) as Hx. rewrite decide_True in Hx by done. exact Hx.
      * intros g m Hne. destruct Hv2 as (Hvl & Hvp & _). specialize (Hvl g m). specialize (Hvp g m).
        split; (etransitivity; [first [exact Hvl|exact Hvp]|]); unfold logical, pins;
          rewrite Hof, decide_False by naive_solver; done.
  - destruct (hash_remove_run s b f n (pi_hash _ _ _ Hi) Hk) as (st & t' & Hrm & Hok & Hm).
    exists (set_hashTable t' b).
    assert (bh_map t' = bh_map (hashTable b)) as Hmm by (rewrite Hm; by apply delete_id).
    split; [intros k; rewrite (bind_Ok _ _ _ _ _ Hl); step; by rewrite (bind_Ok _ _ _ _ _ Hrm)|].
    destruct Hi as [H1 H2 H3 H4 H5 H6 H7]. unfold logical, pins, frame_of in *. cbn. rewrite Hmm.
    split; [|done]. split; try done; unfold frame_inv, frame_of in *; cbn; by rewrite Hmm.
Qed.

Lemma BufMgr_disposePage_ok s b f n p :
  pool_inv None s b -> logical s b f n = Some p ->
  exists st s' b', BufMgr_disposePage f n (s, b) = Some (if decide (st = OK) then Ok tt else Err st, (s', b')) /\
    pool_inv None s' b' /\ frame_of b' f n = None /\ (forall g, ps_file s' g <-> ps_file s g) /\
    logical s' b' f n = (if decide (st = OK) then None else ps_page s f n) /\
    forall g m, (g, m) <> (f, n) -> logical s' b' g m = logical s b g m /\ pins b' g m = pins b g m.
Proof.
  intros Hi Hlog. destruct (logical_page None s b f n p Hi Hlog) as (_ & Hk & _ & _ & q & Hq).
  destruct (forget_page s b f n Hi Hk) as (b1 & Hrun & Hi1 & Hnone & Hoth).
  destruct (ps_dispose_ok s f n q (pi_store _ _ _ Hi) Hq) as (st & s' & Hd & Hok & Hfile & Hpg).
  exists st, s', b1. unfold BufMgr_disposePage. rewrite Hrun. split.
  { erewrite bind_Ok by (rewrite Hd; reflexivity). unfold return_if_error. by case_decide. }
  assert (pool_inv None s' b1) as Hi'.
  { apply (pool_inv_write None s s' b1 f n (if decide (st = OK) then None else ps_page s f n)); try done.
    intros g m. rewrite Hpg. unfold upd_page. repeat case_decide; naive_solver. }
  split; [done|]. split; [done|]. split; [done|]. split.
  - unfold logical. rewrite Hnone, Hpg. case_decide; [|done]. unfold upd_page. by rewrite decide_True.
  - intros g m Hne. destruct (Hoth g m Hne) as [Ho1 Ho2]. split; [|done]. rewrite <- Ho1. unfold logical.
    destruct (frame_of b1 g m); [done|]. rewrite Hpg. case_decide; [|done]. unfold upd_page.
    rewrite decide_False; [done|]. naive_solver.
Qed.

(** A page with its bytes written to disk leaves the pool. *)
Lemma flush_evict s b i d p s' t' :
  pool_inv None s b -> zget (bufTable b) i = Some d -> bd_valid d = true -> bd_pinCnt d = 0 ->
  zget (bufPool b) i = Some p -> ps_ok s' -> (forall g, ps_file s' g <-> ps_file s g) ->
  (forall g m, ps_page s' g m = upd_page (ps_page s) (bd_file d) (bd_pageNo d) (Some p) g m) ->
  bh_ok t' -> bh_map t' = delete (bd_file d, bd_pageNo d) (bh_map (hashTable b)) ->
  forall d', vacant d' ->
  let b' := set_hashTable t' (set_bufTable (<[Z.to_nat i := d']> (bufTable b)) b) in
  pool_inv None s' b' /\ same_view s b s' b'.
Proof.
  intros Hi Hd Hv Hpin Hp Hok Hfile Hpg Ht Hm d' Hva b'.
  pose proof (pi_frame _ _ _ Hi i d Hd ltac:(done)) as Hfi. unfold frame_inv in Hfi. rewrite Hv in Hfi.
  destruct Hfi as (Hfr & _).
  destruct (pool_inv_unhash s b i d t' Hi Hd Hv Ht Hm) as [Hi1 Hof].
  assert (pool_inv (Some i) s' (set_hashTable t' b)) as Hi2.
  { eapply pool_inv_write; [done| |done|done]. by rewrite Hof, decide_True. }
  destruct (pool_inv_vacate s' _ i d d' Hi2 Hd Hva) as [Hi3 Hv3]. split; [exact Hi3|].
  eapply same_view_trans; [|exact Hv3].
  apply (same_view_evict s b s' _ (bd_file d) (bd_pageNo d) p); try done.
  - congruence.
  - unfold pins. by rewrite Hfr, Hd.
  - unfold logical. by rewrite Hfr.
  - rewrite Hpg. unfold upd_page. by rewrite decide_True.
  - intros g m Hne. rewrite Hpg. unfold upd_page. rewrite decide_False; naive_solver.
Qed.

(** Valid frames of [b'] are untouched frames of [b]. *)
Definition only_freed b b' : Prop :=
  forall j d, zget (bufTable b') j = Some d -> bd_valid d = true -> zget (bufTable b) j = Some d.

Definition holds_file f d : Prop := bd_valid d = true /\ bd_file d = f.

(** The write-back of [flushFile]. *)
Lemma flush_write s b i d q p :
  pool_inv None s b -> zget (bufTable b) i = Some d -> ps_page s (bd_file d) (bd_pageNo d) = Some q ->
  zget (bufPool b) i = Some p -> (bd_dirty d = false -> p = q) ->
  exists s', (if bd_dirty d then let! st := write_frame (bd_file d) (bd_pageNo d) i in
      return_if_error st ;;; upd_mgr (upd_desc i (set_dirty false)) else ret tt) (s, b) =
    Some (Ok tt, (s', if bd_dirty d then set_bufTable (<[Z.to_nat i := set_dirty false d]> (bufTable b)) b else b)) /\
    ps_ok s' /\ (forall g, ps_file s' g <-> ps_file s g) /\
    (forall g m, ps_page s' g m = upd_page (ps_page s) (bd_file d) (bd_pageNo d) (Some p) g m).
Proof.
  intros Hi Hd Hq Hp Hcl. destruct (bd_dirty d) eqn:Hdi.
  - destruct (ps_write_ok s _ _ q p (pi_store _ _ _ Hi) Hq (pi_len _ _ _ Hi _ _ Hp)) as (s' & Hw & Hrest).
    exists s'. split; [|done].
    erewrite bind_Ok by (unfold write_frame; rewrite Hp; cbn [mbind option_bind]; rewrite Hw; reflexivity).
    step. unfold upd_mgr. by rewrite (upd_desc_run b i d).
  - exists s. split; [done|]. split; [apply Hi|]. split; [done|]. intros g m. unfold upd_page.
    case_decide as Hgm; [|done]. destruct Hgm as [-> ->]. rewrite Hq, Hcl; done.
Qed.

Lemma flush_frame_ok s b f i d :
  pool_inv None s b -> 0 < f -> zget (bufTable b) i = Some d ->
  (flush_frame f i (s, b) = Some (Err PAGEPINNED, (s, b)) /\ holds_file f d /\ 0 < bd_pinCnt d) \/
  (exists s' b', flush_frame f i (s, b) = Some (Ok tt, (s', b')) /\ pool_inv None s' b' /\
     same_view s b s' b' /\ only_freed b b' /\ numBufs b' = numBufs b /\
     forall d', zget (bufTable b') i = Some d' -> ~ holds_file f d').
Proof.
  intros Hi Hf0 Hd. pose proof (pi_frame _ _ _ Hi i d Hd ltac:(done)) as Hfi.
  unfold flush_frame. erewrite (bind_Ok _ _ _ d) by (unfold get_mgr; by rewrite Hd).
  unfold frame_inv in Hfi. destruct (bd_valid d) eqn:Hv; cbn [andb negb].
  2: { destruct Hfi as (_ & Hff & _). rewrite bool_decide_eq_false_2 by lia. right. exists s, b.
       split; [done|]. split; [done|]. split; [done|]. split; [by intros j dj Hj|]. split; [done|].
       intros d' Hd' [? _]. congruence. }
  destruct Hfi as (Hfr & Hpin & q & Hq & Hcl). case_bool_decide as Hff.
  2: { right. exists s, b. split; [done|]. split; [done|]. split; [done|]. split; [by intros j dj Hj|]. split; [done|].
       intros d' Hd' [_ ?]. congruence. }
  case_decide as Hp0; [left; split; [done|split; [done|lia]]|]. right. assert (bd_pinCnt d = 0) as Hz by lia.
  destruct (ps_page_bounds s _ _ q (pi_store _ _ _ Hi) Hq) as (_ & Hk & _).
  pose proof (zget_range _ _ _ Hd) as Hr. destruct (pi_clock _ _ _ Hi) as (_ & Hlt & _). pose proof (pi_pool _ _ _ Hi) as Hlp.
  destruct (zget_is_Some (bufPool b) i) as [p Hp]; [lia|].
  set (d1 := if bd_dirty d then set_dirty false d else d).
  set (b1 := if bd_dirty d then set_bufTable (<[Z.to_nat i := set_dirty false d]> (bufTable b)) b else b).
  assert (zget (bufTable b1) i = Some d1) as Hd1.
  { subst b1 d1. destruct (bd_dirty d); [|done]. cbn. by rewrite zget_insert, decide_True. }
  destruct (flush_write s b i d q p Hi Hd Hq Hp) as (s' & Hrun & Hok & Hfile & Hpg).
  { intros. rewrite Hcl in Hp; [congruence|by left|done]. }
  rewrite (bind_Ok _ _ _ _ _ Hrun).
  destruct (hash_remove_run s' b1 f (bd_pageNo d)) as (st & t' & Hrm & Ht & Hm).
  { subst b1. destruct (bd_dirty d); apply Hi. } { by rewrite <- Hff. }
  rewrite (bind_Ok _ _ _ _ _ Hrm). unfold upd_mgr. rewrite (upd_desc_run _ i d1) by done. cbn [mbind option_bind].
  set (d2 := set_invalid d1). assert (vacant d2) as Hva.
  { subst d2 d1. unfold vacant. cbn. destruct (bd_dirty d) eqn:Hdi; cbn; [done|]. by rewrite Hdi. }
  assert (hashTable b1 = hashTable b) as Hh1 by (subst b1; by destruct (bd_dirty d)).
  assert (set_bufTable (<[Z.to_nat i := d2]> (bufTable (set_hashTable t' b1))) (set_hashTable t' b1) =
          set_hashTable t' (set_bufTable (<[Z.to_nat i := d2]> (bufTable b)) b)) as Heq.
  { subst b1. destruct (bd_dirty d); [|done]. cbn. unfold set_bufTable, set_hashTable. cbn. by rewrite list_insert_insert_eq. }
  rewrite Heq. eexists s', _. split; [done|].
  destruct (flush_evict s b i d p s' t' Hi Hd Hv Hz Hp Hok Hfile Hpg Ht ltac:(by rewrite Hm, Hh1, Hff) d2 Hva) as [Hi' Hv'].
  split; [exact Hi'|]. split; [exact Hv'|]. split; [|split; [done|]].
  - intros j dj. cbn. rewrite zget_insert by done. case_decide; [|done]. intros [= <-]. by destruct Hva as (-> & _).
  - intros d' Hd' [Hx _]. cbn in Hd'. rewrite zget_insert, decide_True in Hd' by done. destruct Hva as (Hva & _). congruence.
Qed.

Lemma flush_from_ok (n : nat) s b f i :
  pool_inv None s b -> 0 < f -> 0 <= i -> i + Z.of_nat n = numBufs b ->
  exists r s' b', flush_from n f i (s, b) = Some (r, (s', b')) /\ pool_inv None s' b' /\
    same_view s b s' b' /\ only_freed b b' /\
    match r with
    | Ok _ => forall j d, zget (bufTable b') j = Some d -> i <= j -> ~ holds_file f d
    | Err e => e = PAGEPINNED /\ exists j d, zget (bufTable b) j = Some d /\ holds_file f d /\ 0 < bd_pinCnt d
    end.
Proof.
  revert s b i. induction n as [|n IH]; intros s b i Hi Hf Hi0 Hn.
  - exists (Ok tt), s, b. split; [done|]. split; [done|]. split; [done|]. split; [by intros ???|].
    intros j d Hj%zget_range. destruct (pi_clock _ _ _ Hi) as (_ & Hl & _). lia.
  - cbn [flush_from]. destruct (pi_clock _ _ _ Hi) as (_ & Hl & _).
    destruct (zget_is_Some (bufTable b) i) as [d Hd]; [lia|].
    destruct (flush_frame_ok s b f i d Hi Hf Hd) as [(Hrun & Hh & Hp)|(s1 & b1 & Hrun & Hi1 & Hv1 & Ho1 & Hn1 & Hg1)].
    + rewrite (bind_Err _ _ _ _ _ Hrun). exists (Err PAGEPINNED), s, b. split; [done|]. split; [done|]. split; [done|].
      split; [by intros ???|]. split; [done|]. by exists i, d.
    + rewrite (bind_Ok _ _ _ _ _ Hrun).
      destruct (IH s1 b1 (i + 1) Hi1 Hf) as (r & s2 & b2 & Hrun2 & Hi2 & Hv2 & Ho2 & Hr); [lia|lia|].
      exists r, s2, b2. split; [done|]. split; [done|]. split; [by eapply same_view_trans|].
      split; [intros j dj Hj Hvj; apply Ho1; [by apply Ho2|done]|]. destruct r as [[]|e].
      * intros j dj Hj Hij Hh. destruct (decide (j = i)) as [->|Hne]; [|exact (Hr j dj Hj ltac:(lia) Hh)].
        eapply Hg1; [|done]. apply Ho2; [done|apply Hh].
      * destruct Hr as (-> & j & dj & Hj & Hh & Hp). split; [done|]. exists j, dj. split; [|done].
        apply Ho1; [done|apply Hh].
Qed.

(** [flushFile]: clients see the same pages, and when it succeeds the disk
    holds them all; it fails only on a pinned page of the file. *)
Lemma BufMgr_flushFile_ok s b f :
  pool_inv None s b -> 0 < f ->
  exists r s' b', BufMgr_flushFile f (s, b) = Some (r, (s', b')) /\ pool_inv None s' b' /\ same_view s b s' b' /\
    match r with
    | Ok _ => forall n, frame_of b' f n = None /\ ps_page s' f n = logical s b f n
    | Err e => e = PAGEPINNED /\ exists n, 0 < pins b f n
    end.
Proof.
  intros Hi Hf. destruct (pi_clock _ _ _ Hi) as (Hn & _).
  destruct (flush_from_ok (Z.to_nat (numBufs b)) s b f 0 Hi Hf) as (r & s' & b' & Hrun & Hi' & Hv' & Ho & Hr); [lia|lia|].
  exists r, s', b'. unfold BufMgr_flushFile. erewrite bind_Ok by reflexivity. split; [exact Hrun|].
  split; [done|]. split; [done|]. destruct r as [[]|e].
  - intros n. assert (frame_of b' f n = None) as Hnone.
    { destruct (frame_of b' f n) as [j|] eqn:Hj; [|done].
      destruct (pi_entry _ _ _ Hi' f n j Hj) as (_ & d & Hd & Hvd & Hfd & _). exfalso.
      eapply Hr; [exact Hd|apply zget_range in Hd; lia|done]. }
    split; [done|]. destruct Hv' as [Hvl _]. rewrite <- Hvl. unfold logical. by rewrite Hnone.
  - destruct Hr as (-> & j & d & Hd & [Hvd Hfd] & Hp). split; [done|]. exists (bd_pageNo d).
    pose proof (pi_frame _ _ _ Hi j d Hd ltac:(done)) as Hfi. unfold frame_inv in Hfi. rewrite Hvd in Hfi.
    destruct Hfi as (Hfr & _). rewrite Hfd in Hfr. unfold pins. by rewrite Hfr, Hd.
Qed.

(** Writing the bytes of a frame to its page. *)
Lemma pool_inv_sync s s' b f n i p :
  pool_inv None s b -> frame_of b f n = Some i -> zget (bufPool b) i = Some p -> ps_ok s' ->
  (forall g m, ps_page s' g m = upd_page (ps_page s) f n (Some p) g m) -> pool_inv None s' b.
Proof.
  intros [H1 H2 H3 H4 H5 H6 H7] Hf Hp Hok Hpg. split; try done.
  intros j d Hd Hx. specialize (H6 j d Hd Hx). unfold frame_inv in *. destruct (bd_valid d); [|done].
  destruct H6 as (Hfj & Hpin & q & Hq & Hc). split; [done|]. split; [done|]. rewrite Hpg. unfold upd_page.
  case_decide as Hk; [|by exists q]. destruct Hk as [Hk1 Hk2]. rewrite Hk1, Hk2, Hf in Hfj. simplify_eq. by exists p.
Qed.

(** The pages the destructor has written once it is past the frames before [i]. *)
Definition written s b i (g m : Z) : option block :=
  match frame_of b g m with
  | Some j => match zget (bufTable b) j with
              | Some d => if bd_dirty d && bool_decide (i <= j) then zget (bufPool b) j else ps_page s g m
              | None => ps_page s g m
              end
  | None => ps_page s g m
  end.

Lemma flush_all_from_ok (n : nat) s b i :
  pool_inv None s b -> 0 <= i -> i + Z.of_nat n = numBufs b ->
  exists s', flush_all_from n i (s, b) = Some (Ok tt, (s', b)) /\ pool_inv None s' b /\
    (forall g m, ps_page s' g m = written s b i g m).
Proof.
  revert s i. induction n as [|n IH]; intros s i Hi Hi0 Hn; destruct (pi_clock _ _ _ Hi) as (_ & Hl & _).
  - exists s. split; [done|]. split; [done|]. intros g m. unfold written.
    destruct (frame_of b g m) as [j|] eqn:Hj; [|done].
    destruct (zget (bufTable b) j) as [d|] eqn:Hd; [|done]. apply zget_range in Hd.
    rewrite bool_decide_eq_false_2 by lia. by rewrite andb_false_r.
  - destruct (zget_is_Some (bufTable b) i) as [d Hd]; [lia|].
    pose proof (pi_frame _ _ _ Hi i d Hd ltac:(done)) as Hfi. unfold frame_inv in Hfi.
    assert (exists s1, (if bd_valid d && bd_dirty d then write_frame (bd_file d) (bd_pageNo d) i ;;; ret tt
        else ret tt) (s, b) = Some (Ok tt, (s1, b)) /\ pool_inv None s1 b /\
        forall g m, ps_page s1 g m = if decide (frame_of b g m = Some i /\ bd_dirty d = true)
                                     then zget (bufPool b) i else ps_page s g m) as (s1 & Hrun & Hi1 & Hpg1).
    { destruct (bd_valid d && bd_dirty d) eqn:Hb.
      - apply andb_true_iff in Hb as [Hv Hdi]. rewrite Hv in Hfi. destruct Hfi as (Hfr & _ & q & Hq & _).
        pose proof (pi_pool _ _ _ Hi) as Hlp.
        destruct (zget_is_Some (bufPool b) i) as [p Hp]; [lia|].
        destruct (ps_write_ok s _ _ q p (pi_store _ _ _ Hi) Hq (pi_len _ _ _ Hi _ _ Hp)) as (s1 & Hw & Hok & _ & Hpg).
        exists s1. split.
        { erewrite bind_Ok by (unfold write_frame; rewrite Hp; cbn [mbind option_bind]; rewrite Hw; reflexivity). done. }
        split; [by eapply pool_inv_sync|]. intros g m. rewrite Hpg. unfold upd_page.
        destruct (decide (g = bd_file d /\ m = bd_pageNo d)) as [[-> ->]|Hk]; [by rewrite decide_True|].
        rewrite decide_False; [done|]. intros [Hgm _].
        destruct (pi_entry _ _ _ Hi g m i Hgm) as (_ & d' & Hd' & _ & ? & ?). simplify_eq. by apply Hk.
      - exists s. split; [done|]. split; [done|]. intros g m. rewrite decide_False; [done|]. intros [Hgm Hdi].
        destruct (pi_entry _ _ _ Hi g m i Hgm) as (_ & d' & Hd' & Hv' & _). simplify_eq. by rewrite Hv', Hdi in Hb. }
    cbn [flush_all_from]. erewrite (bind_Ok _ _ _ d) by (unfold get_mgr; by rewrite Hd).
    rewrite (bind_Ok _ _ _ _ _ Hrun). destruct (IH s1 (i + 1) Hi1 ltac:(lia) ltac:(lia)) as (s' & Hrun' & Hi' & Hpg').
    exists s'. split; [done|]. split; [done|]. intros g m. rewrite Hpg'. unfold written.
    destruct (frame_of b g m) as [j|] eqn:Hj; [|rewrite Hpg1, decide_False by naive_solver; done].
    destruct (decide (j = i)) as [->|Hne].
    + rewrite Hd, Hpg1. rewrite (bool_decide_eq_false_2 (i + 1 <= i)), (bool_decide_eq_true_2 (i <= i)) by lia.
      rewrite andb_false_r, andb_true_r. rewrite Hj. destruct (bd_dirty d); [by rewrite decide_True|by rewrite decide_False by naive_solver].
    + rewrite Hpg1, decide_False by (rewrite Hj; naive_solver).
      rewrite (bool_decide_ext (i + 1 <= j) (i <= j)) by lia. done.
Qed.

(** When the pool is destroyed, every page that no client is changing is on disk. *)
Lemma BufMgr_delete_ok s b :
  pool_inv None s b ->
  exists s', BufMgr_delete (s, b) = Some (Ok tt, (s', b)) /\ ps_ok s' /\
    forall f n, pins b f n = 0 \/ (f, n) ∉ T -> ps_page s' f n = logical s b f n.
Proof.
  intros Hi. destruct (pi_clock _ _ _ Hi) as (Hn & _).
  destruct (flush_all_from_ok (Z.to_nat (numBufs b)) s b 0 Hi) as (s' & Hrun & Hi' & Hpg); [lia|lia|].
  exists s'. unfold BufMgr_delete. erewrite bind_Ok by reflexivity. split; [exact Hrun|]. split; [apply Hi'|].
  intros f n Hc. rewrite Hpg. unfold written, logical. destruct (frame_of b f n) as [j|] eqn:Hj; [|done].
  destruct (frame_page None s b f n j Hi Hj) as (d & q & Hd & Hv & Hf & Hnn & Hfi & Hq & _). rewrite Hd.
  pose proof (zget_range _ _ _ Hd) as Hr. rewrite bool_decide_eq_true_2, andb_true_r by lia.
  destruct (bd_dirty d) eqn:Hdi; [done|]. unfold frame_inv in Hfi. rewrite Hv in Hfi.
  destruct Hfi as (_ & _ & q' & Hq' & Hcl). rewrite Hf, Hnn in *. rewrite Hq'. symmetry. apply Hcl; [|done].
  destruct Hc as [Hc|Hc]; [left|by right]. unfold pins in Hc. by rewrite Hj, Hd in Hc.
Qed.

End Pool.

(** ** What the clients do *)

Section Clients.
Context {S : Type} `{HS : PageStore S}.
Implicit Types (s : S) (b : BufMgr) (d : BufDesc) (f n i : Z) (T : gset (Z * Z)).

(** A page that was made dirty no longer counts as being changed. *)
Lemma pool_inv_retouch T T' s b :
  pool_inv T None s b ->
  (forall i d, zget (bufTable b) i = Some d -> bd_valid d = true -> (bd_file d, bd_pageNo d) ∉ T' ->
     (bd_file d, bd_pageNo d) ∉ T \/ bd_dirty d = true) ->
  pool_inv T' None s b.
Proof.
  intros [H1 H2 H3 H4 H5 H6 H7] HT. split; try done. intros i d Hd Hx. specialize (H6 i d Hd Hx).
  specialize (HT i d Hd). unfold frame_inv in *. destruct (bd_valid d); [|done].
  destruct H6 as (Hf & Hp & q & Hq & Hc). split; [done|]. split; [done|]. exists q. split; [done|].
  intros [H0|Hn] Hdi; [by apply Hc; [left|]|]. apply Hc; [|done]. destruct (HT eq_refl Hn) as [?|?]; [by right|congruence].
Qed.

Lemma BufMgr_unPinPage_ok T s b f n (dirty : bool) :
  pool_inv T None s b -> 0 < pins b f n ->
  (dirty = false -> pins b f n = 1 -> (f, n) ∉ T) ->
  exists b', BufMgr_unPinPage f n dirty (s, b) = Some (Ok tt, (s, b')) /\
    pool_inv (if dirty then T ∖ {[(f, n)]} else T) None s b' /\
    (forall g m, logical s b' g m = logical s b g m) /\
    (forall g m, pins b' g m = if decide (g = f /\ m = n) then pins b f n - 1 else pins b g m) /\
    (forall g m, frame_of b' g m = frame_of b g m).
Proof.
  intros Hi Hpos HT. destruct (frame_of b f n) as [i|] eqn:Hf; [|unfold pins in Hpos; rewrite Hf in Hpos; lia].
  destruct (frame_page T None s b f n i Hi Hf) as (d & q & Hd & Hv & Hff & Hn & Hfi & Hq & Hk).
  unfold frame_inv in Hfi. rewrite Hv in Hfi. destruct Hfi as (_ & Hpin & q' & Hq' & Hcl).
  rewrite Hff, Hn in Hq'. simplify_eq.
  assert (pins b (bd_file d) (bd_pageNo d) = bd_pinCnt d) as Hpd by (unfold pins; by rewrite Hf, Hd).
  rewrite Hpd in *. set (d1 := if dirty then set_dirty true d else d).
  set (d2 := set_pinCnt (s32 (bd_pinCnt d1 - 1)) d1).
  assert (bd_pinCnt d2 = bd_pinCnt d - 1) as Hp2.
  { subst d2 d1. destruct dirty; cbn; apply wrapS_id; unfold inS; lia. }
  destruct (pool_inv_desc T s b i d d2 Hi Hd Hv) as (Hi' & Hl' & Hp'); try (by subst d2 d1; destruct dirty); [lia| |].
  { intros Hc Hdi. rewrite Hq'. apply Hcl; [|subst d2 d1; by destruct dirty].
    destruct dirty; [by subst d2 d1|]. right. destruct Hc as [Hc|Hc]; [|done]. apply HT; [done|lia]. }
  eexists. split.
  - unfold BufMgr_unPinPage. rewrite (bind_Ok _ _ _ _ _ (hash_lookup_run s b _ _ (pi_hash _ _ _ _ Hi) Hk)), Hf. step.
    erewrite (bind_Ok _ _ _ tt (s, if dirty then set_bufTable (<[Z.to_nat i := d1]> (bufTable b)) b else b)).
    2: { destruct dirty; [|done]. unfold upd_mgr. by rewrite (upd_desc_run b i d). }
    pose proof (zget_range _ _ _ Hd) as Hr.
    assert (zget (bufTable (if dirty then set_bufTable (<[Z.to_nat i := d1]> (bufTable b)) b else b)) i = Some d1) as Hd1.
    { subst d1. destruct dirty; [|done]. cbn. by rewrite zget_insert, decide_True. }
    erewrite (bind_Ok _ _ _ d1) by (unfold get_mgr; by rewrite Hd1).
    rewrite decide_False by (subst d1; destruct dirty; cbn; lia).
    unfold upd_mgr. rewrite (upd_desc_run _ i d1) by done. reflexivity.
  - assert (set_bufTable (<[Z.to_nat i := d2]> (bufTable (if dirty then set_bufTable (<[Z.to_nat i := d1]> (bufTable b)) b else b)))
      (if dirty then set_bufTable (<[Z.to_nat i := d1]> (bufTable b)) b else b) =
      set_bufTable (<[Z.to_nat i := d2]> (bufTable b)) b) as Heq.
    { destruct dirty; [|done]. unfold set_bufTable. cbn. by rewrite list_insert_insert_eq. }
    fold d2. rewrite Heq. split; [|split; [exact Hl'|split; [|done]]].
    + destruct dirty; [|done]. eapply pool_inv_retouch; [exact Hi'|]. intros j dj Hdj Hvj HnT.
      cbn in Hdj. rewrite zget_insert in Hdj by (by eapply zget_range). case_decide as Hji.
      * right. simplify_eq. done.
      * left. intros HinT. apply HnT. apply elem_of_difference. split; [done|]. intros Hs%elem_of_singleton.
        pose proof (pi_frame _ _ _ _ Hi j dj Hdj ltac:(done)) as Hfj. unfold frame_inv in Hfj. rewrite Hvj in Hfj.
        destruct Hfj as (Hfj & _). injection Hs as Hs1 Hs2. rewrite Hs1, Hs2 in Hfj. congruence.
    + intros g m. rewrite Hp', Hp2. done.
Qed.

Lemma client_write_ok T s b f n i p :
  pool_inv T None s b -> frame_of b f n = Some i -> 0 < pins b f n -> Z.of_nat (length p) = PAGESIZE ->
  exists b', client_write i p (s, b) = Some (Ok tt, (s, b')) /\ pool_inv ({[(f, n)]} ∪ T) None s b' /\
    (forall g m, logical s b' g m = if decide (g = f /\ m = n) then Some p else logical s b g m) /\
    (forall g m, pins b' g m = pins b g m) /\ (forall g m, frame_of b' g m = frame_of b g m).
Proof.
  intros Hi Hf Hpos Hp. destruct (frame_page T None s b f n i Hi Hf) as (d & q & Hd & Hv & Hff & Hn & Hfi & Hq & Hk).
  pose proof (zget_range _ _ _ Hd) as Hr. destruct (pi_clock _ _ _ _ Hi) as (_ & Hl & _).
  pose proof (pi_pool _ _ _ _ Hi) as Hlp. exists (set_bufPool (<[Z.to_nat i := p]> (bufPool b)) b).
  split; [unfold client_write, upd_mgr; by rewrite zset_in_range by lia|].
  assert (forall g m j, frame_of b g m = Some j -> j = i -> g = f /\ m = n) as Hinj.
  { intros g m j Hj ->. destruct (pi_entry _ _ _ _ Hi g m i Hj) as (_ & d' & Hd' & _ & ? & ?). by simplify_eq. }
  unfold pins in Hpos. rewrite Hf, Hd in Hpos.
  split; [|split; [|done]].
  - destruct Hi as [H1 H2 H3 H4 H5 H6 H7]. split; try done.
    + cbn. by rewrite length_insert.
    + intros j q'. cbn. rewrite zget_insert by lia. case_decide; [by intros [= <-]|apply H4].
    + intros j dj Hdj Hx. specialize (H6 j dj Hdj Hx). unfold frame_inv in *. destruct (bd_valid dj); [|done].
      destruct H6 as (Hfj & Hpj & qj & Hqj & Hc). split; [done|]. split; [done|]. exists qj. split; [done|].
      intros HT Hdi. cbn. rewrite zget_insert by lia. case_decide as Hji.
      * subst j. cbn in Hdj. assert (dj = d) as -> by congruence. destruct HT as [?|HT]; [lia|]. set_solver.
      * apply Hc; [|done]. destruct HT as [?|HT]; [by left|right; set_solver].
  - intros g m. unfold logical. change (frame_of (set_bufPool _ b) g m) with (frame_of b g m).
    destruct (decide (g = f /\ m = n)) as [[-> ->]|Hgm].
    + rewrite Hf. cbn. by rewrite zget_insert, decide_True by lia.
    + destruct (frame_of b g m) as [j|] eqn:Hj; [|done]. cbn. rewrite zget_insert by lia.
      rewrite decide_False; [done|]. intros <-. by apply Hgm, (Hinj g m i).
Qed.

(** Every frame of a pool without a reusable frame holds a pinned page. *)
Definition pool_full b : Prop :=
  exists l : list (Z * Z), NoDup l /\ Z.of_nat (length l) = numBufs b /\ forall f n, (f, n) ∈ l -> 0 < pins b f n.

Lemma no_reusable_full T s b :
  pool_inv T None s b -> (forall i d, zget (bufTable b) i = Some d -> ~ reusable d) -> pool_full b.
Proof.
  intros Hi Hno. destruct (pi_clock _ _ _ _ Hi) as (_ & Hl & _).
  assert (forall i d, zget (bufTable b) i = Some d -> bd_valid d = true /\ 0 < bd_pinCnt d /\
    frame_of b (bd_file d) (bd_pageNo d) = Some i) as Hall.
  { intros i d Hd. pose proof (pi_frame _ _ _ _ Hi i d Hd ltac:(done)) as Hfi. specialize (Hno i d Hd).
    unfold frame_inv, reusable in *. destruct (bd_valid d); [|naive_solver]. naive_solver lia. }
  exists ((fun d => (bd_file d, bd_pageNo d)) <$> bufTable b). split; [|split].
  - apply NoDup_alt. intros i j k Hi1 Hj1. rewrite list_lookup_fmap in Hi1, Hj1.
    destruct (bufTable b !! i) as [d1|] eqn:H1; [|done]. destruct (bufTable b !! j) as [d2|] eqn:H2; [|done].
    rewrite <- zget_of_nat in H1, H2. destruct (Hall _ _ H1) as (_ & _ & F1). destruct (Hall _ _ H2) as (_ & _ & F2).
    cbn in Hi1, Hj1. assert (bd_file d1 = bd_file d2 /\ bd_pageNo d1 = bd_pageNo d2) as [E1 E2] by naive_solver.
    rewrite E1, E2, F2 in F1. simplify_eq. lia.
  - by rewrite length_fmap.
  - intros f n ([? ?] & Hfn & [i Hd]%list_elem_of_lookup)%list_elem_of_fmap. injection Hfn as -> ->.
    rewrite <- zget_of_nat in Hd. destruct (Hall _ _ Hd) as (_ & Hp & Hf). unfold pins. cbn in *. by rewrite Hf, Hd.
Qed.

(** The view with page [(f, n)] added. *)
Definition page_added s b s' b' f n (p : block) : Prop :=
  forall g m, logical s' b' g m = if decide (g = f /\ m = n) then Some p else logical s b g m.

(** Allocating a page in the file does not disturb the pool. *)
Lemma pool_inv_new_page T s b s' f n p :
  pool_inv T None s b -> ps_page s f n = None -> ps_ok s' ->
  (forall g m, ps_page s' g m = upd_page (ps_page s) f n (Some p) g m) ->
  frame_of b f n = None /\ pool_inv T None s' b /\ page_added s b s' b f n p.
Proof.
  intros Hi Hnone Hok Hpg. assert (frame_of b f n = None) as Hf.
  { destruct (frame_of b f n) as [i|] eqn:Hf; [|done].
    destruct (frame_page T None s b f n i Hi Hf) as (d & q & _ & _ & _ & _ & _ & Hq & _). congruence. }
  split; [done|]. split; [by eapply pool_inv_write|]. intros g m. unfold logical. rewrite Hpg. unfold upd_page.
  destruct (decide (g = f /\ m = n)) as [[-> ->]|Hgm]; [by rewrite Hf|]. done.
Qed.

Lemma BufMgr_allocPage_ok T s b f :
  pool_inv T None s b -> ps_file s f ->
  exists r s' b', BufMgr_allocPage f (s, b) = Some (r, (s', b')) /\ (forall g, ps_file s' g <-> ps_file s g) /\
    match r with
    | Ok (n, i) => pool_inv ({[(f, n)]} ∪ T) None s' b' /\ frame_of b' f n = Some i /\ logical s b f n = None /\
        (exists p, page_added s b s' b' f n p) /\
        (forall g m, pins b' g m = if decide (g = f /\ m = n) then 1 else pins b g m) /\ pinned_stay b b'
    | Err e => pool_inv T None s' b' /\ (forall g m, pins b' g m = pins b g m) /\ pinned_stay b b' /\
        ((forall g m, logical s' b' g m = logical s b g m) \/
         (e = BUFFEREXCEEDED /\ pool_full b /\ exists n p, logical s b f n = None /\ page_added s b s' b' f n p))
    end.
Proof.
  intros Hi Hf. destruct (ps_allocate_ok s f (pi_store _ _ _ _ Hi) Hf) as (r & s1 & Ha & Hok & Hfile & Hr).
  unfold BufMgr_allocPage. destruct r as [n|e].
  2: { exists (Err e), s1, b. erewrite bind_Err by (unfold zoom; cbn; rewrite Ha; reflexivity).
       split; [done|]. split; [done|].
       split; [|split; [done|split; [done|left; intros; unfold logical; by destruct (frame_of b g m)]]].
       by eapply pool_inv_pages. }
  erewrite (bind_Ok _ _ _ n (s1, b)) by (unfold zoom; cbn; by rewrite Ha).
  destruct Hr as [Hnone [p0 Hpg]]. destruct (pool_inv_new_page T s b s1 f n p0 Hi Hnone Hok Hpg) as (Hfn & Hi1 & Hadd).
  assert (logical s b f n = None) as Hln by (unfold logical; by rewrite Hfn).
  assert (pool_inv ({[(f, n)]} ∪ T) None s1 b) as Hi1'.
  { eapply pool_inv_retouch; [exact Hi1|]. intros. left. set_solver. }
  destruct (allocBuf_ok _ s1 b Hi1') as [(i & d & s2 & b2 & Hrun & Hi2 & Hd & Hv & Hres & _)|(b2 & Hrun & Hi2 & Hv & Hno)].
  - rewrite (bind_Ok _ _ _ _ _ Hrun). pose proof (zget_range _ _ _ Hd) as Hr.
    destruct (pi_clock _ _ _ _ Hi2) as (_ & Hl2 & _). pose proof (pi_pool _ _ _ _ Hi2) as Hlp.
    destruct (zget_is_Some (bufPool b2) i) as [p Hp]; [lia|]. destruct Hv as (Hvl & Hvp & Hvf & Hvs).
    pose proof (Hres f n Hfn) as Hfn2.
    assert (ps_page s2 f n = Some p0) as Hq.
    { specialize (Hvl f n). rewrite Hadd, decide_True in Hvl by done. unfold logical in Hvl. by rewrite Hfn2 in Hvl. }
    destruct (enter_page _ s2 b2 i d f n p0 p Hi2 Hd Hfn2 Hq Hp) as (b3 & b4 & Hu & Hins & Hi4 & Hf4 & Hl4 & Hp4 & Hs4); [set_solver|].
    rewrite (bind_Ok _ _ _ _ _ Hu), (bind_Ok _ _ _ _ _ Hins). step. exists (Ok (n, i)), s2, b4. split; [done|].
    split; [intros g; by rewrite Hvf|]. split; [done|]. split; [done|]. split; [done|]. split.
    + exists p. intros g m. rewrite Hl4. case_decide; [done|]. rewrite Hvl, Hadd. by rewrite decide_False.
    + split; [intros g m; rewrite Hp4; by rewrite Hvp|].
      intros g m Hg. rewrite <- (Hvs g m Hg). apply Hs4. by rewrite Hvp.
  - rewrite (bind_Err _ _ _ _ _ Hrun). destruct Hv as (Hvl & Hvp & Hvf & Hvs). exists (Err BUFFEREXCEEDED), s1, b2.
    split; [done|]. split; [done|].
    split.
    { destruct (allocBuf_ok _ s1 b Hi1) as [(i & d & s3 & b3 & Hrun3 & _)|(b3 & Hrun3 & Hi3 & _)]; congruence. }
    split; [done|]. split; [done|]. right. split; [done|]. split; [by eapply no_reusable_full|]. exists n, p0.
    split; [done|]. intros g m. by rewrite Hvl.
Qed.

End Clients.

(** ** What every operation keeps

    A preorder on states that writing, allocating and disposing of pages in
    the store respect, and that does not depend on the pool beyond its size,
    is respected by all operations of the buffer manager. *)

Section Keeps.
Context {S : Type} `{HS : PageStore S}.
Implicit Types (s : S) (b : BufMgr).

Context (R : S * BufMgr -> S * BufMgr -> Prop) `{!PreOrder R}.
Abbreviation keeps := (keeps R).
Hypothesis R_mgr : forall s b b', numBufs b' = numBufs b -> R (s, b) (s, b').
Hypothesis R_write : forall f n p s st s' b, ps_writePage f n p s = Some (st, s') -> R (s, b) (s', b).
Hypothesis R_alloc : forall f s r s' b, ps_allocatePage f s = Some (r, s') -> R (s, b) (s', b).
Hypothesis R_dispose : forall f n s st s' b, ps_disposePage f n s = Some (st, s') -> R (s, b) (s', b).

Lemma keeps_get_mgr {A} (g : BufMgr -> option A) : keeps (get_mgr g).
Proof. intros [s b] r y Hr. unfold get_mgr in Hr. destruct (g b); simplify_eq/=. by apply R_mgr. Qed.

Lemma keeps_lift_mgr {A} (g : BufMgr -> option (A * BufMgr)) :
  (forall b a b', g b = Some (a, b') -> numBufs b' = numBufs b) -> keeps (lift_mgr g).
Proof.
  intros Hg [s b] r y Hr. unfold lift_mgr in Hr. destruct (g b) as [[a b1]|] eqn:Hgb; simplify_eq/=.
  eapply R_mgr. by eapply Hg.
Qed.

Lemma keeps_upd_mgr (g : BufMgr -> option BufMgr) :
  (forall b b', g b = Some b' -> numBufs b' = numBufs b) -> keeps (upd_mgr g).
Proof.
  intros Hg [s b] r y Hr. unfold upd_mgr in Hr. destruct (g b) as [b1|] eqn:Hgb; simplify_eq/=.
  eapply R_mgr. by eapply Hg.
Qed.

Lemma upd_desc_keeps i g b b' : upd_desc i g b = Some b' -> numBufs b' = numBufs b.
Proof.
  unfold upd_desc. destruct (zget _ _) as [d|]; [|done]. cbn. destruct (zset _ _ _); [|done]. by intros [= <-].
Qed.

Lemma clock_sweep_keeps (n : nat) b e rest b' : clock_sweep n b = Some (e, rest, b') -> numBufs b' = numBufs b.
Proof.
  revert b. induction n as [|n IH]; intros b; cbn [clock_sweep]; [naive_solver|].
  destruct (zget _ _) as [d|]; cbn [mbind option_bind]; [|done].
  destruct (negb (bd_valid d)); [by intros [= _ _ <-]|]. destruct (negb (bd_refbit d)).
  - case_decide; [|by intros ->%IH]. destruct (BufHashTbl_remove _ _ _) as [[? ?]|]; [|done]. by intros [= _ _ <-].
  - destruct (upd_desc _ _ _) as [b1|] eqn:Hu; cbn [mbind option_bind]; [|done].
    intros ->%IH. by rewrite (upd_desc_keeps _ _ _ _ Hu).
Qed.

Lemma keeps_write_frame f n i : keeps (write_frame f n i).
Proof.
  intros [s b] r y Hr. unfold write_frame in Hr. destruct (zget _ _); [|done]. cbn in Hr.
  destruct (ps_writePage _ _ _ _) as [[? ?]|] eqn:Hw; simplify_eq/=. by eapply R_write.
Qed.

Lemma keeps_read_frame f n i : keeps (read_frame f n i).
Proof.
  intros [s b] r y Hr. unfold read_frame in Hr. destruct (zget _ _); [|done]. cbn in Hr.
  destruct (ps_readPage _ _ _ _) as [[? ?]|]; [|done]. cbn in Hr. destruct (zset _ _ _); simplify_eq/=.
  by apply R_mgr.
Qed.

Lemma keeps_hash_insert f n i : keeps (hash_insert f n i).
Proof.
  apply keeps_lift_mgr. intros b a b'. destruct (BufHashTbl_insert _ _ _ _) as [[? ?]|]; [|done]. by intros [= _ <-].
Qed.

Lemma keeps_hash_remove f n : keeps (hash_remove f n).
Proof.
  apply keeps_lift_mgr. intros b a b'. destruct (BufHashTbl_remove _ _ _) as [[? ?]|]; [|done]. by intros [= _ <-].
Qed.

Lemma keeps_dispose f n :
  keeps ((fun '(s, b) => '(st, s') ← ps_disposePage f n s; Some (Ok st, (s', b))) : CODE (S * BufMgr) Status).
Proof.
  intros [s b] r y Hr. destruct (ps_disposePage _ _ _) as [[? ?]|] eqn:Hd; simplify_eq/=. by eapply R_dispose.
Qed.

Lemma keeps_allocate f : keeps (zoom fst (fun s '(_, b) => (s, b)) (ps_allocatePage f)).
Proof.
  intros [s b] r y Hr. unfold zoom in Hr. cbn in Hr. destruct (ps_allocatePage _ _) as [[? ?]|] eqn:Ha; simplify_eq/=.
  by eapply R_alloc.
Qed.

Hint Resolve keeps_get_mgr keeps_write_frame keeps_read_frame
  keeps_hash_insert keeps_hash_remove keeps_dispose keeps_allocate upd_desc_keeps clock_sweep_keeps : minirel.

Ltac keeps := repeat first
  [ solve [eauto with minirel] | apply keeps_bind; [done| |intros] | apply keeps_upd_mgr | progress intros | case_match | progress simplify_eq/= ].

Lemma keeps_return st : keeps (return_if_error st).
Proof. unfold return_if_error. keeps. Qed.

Lemma keeps_allocBuf : keeps allocBuf.
Proof.
  unfold allocBuf, return_if_error. apply keeps_bind; [done| |keeps]. apply keeps_lift_mgr. intros b [e rest] b'.
  destruct (clock_sweep _ _) as [[[? ?] ?]|] eqn:Hs; cbn; [|done]. intros [= <- <- <-]. eauto with minirel.
Qed.

Hint Resolve keeps_return keeps_allocBuf : minirel.

Lemma keeps_flush_from (n : nat) f i : keeps (flush_from n f i).
Proof. revert i. induction n as [|n IH]; intros i; cbn; [keeps|]. unfold flush_frame. keeps. Qed.

Hint Resolve keeps_flush_from : minirel.

Lemma keeps_readPage f n : keeps (BufMgr_readPage f n).
Proof. unfold BufMgr_readPage, hash_lookup. keeps. Qed.

Lemma keeps_unPinPage f n dirty : keeps (BufMgr_unPinPage f n dirty).
Proof. unfold BufMgr_unPinPage, hash_lookup. keeps. Qed.

Lemma keeps_allocPage f : keeps (BufMgr_allocPage f).
Proof. unfold BufMgr_allocPage. keeps. Qed.

Lemma keeps_disposePage f n : keeps (BufMgr_disposePage f n).
Proof. unfold BufMgr_disposePage, hash_lookup. keeps. Qed.

Lemma keeps_flushFile f : keeps (BufMgr_flushFile f).
Proof. unfold BufMgr_flushFile. keeps. Qed.

Lemma keeps_client_write i p : keeps (client_write i p).
Proof. apply keeps_upd_mgr. intros b b'. destruct (zset _ _ _); [|done]. by intros [= <-]. Qed.

End Keeps.

(** ** The pool refines a memory of pages

    The abstract memory has the pages themselves, how often each is pinned,
    which pinned pages have been changed, which files are open and how many
    pages can be pinned at once; it has neither frames nor a disk. *)

Record mem : Type := mkMem {
  m_page : Z -> Z -> option block;
  m_pins : Z -> Z -> Z;
  m_touched : gset (Z * Z);
  m_file : Z -> Prop;
  m_frames : Z;
}.

(** What a client asks for.  It writes through the [Page*] it holds. *)
Inductive buf_op : Type :=
| BRead (f n : Z)
| BWrite (f n : Z) (p : block)
| BUnpin (f n : Z) (dirty : bool)
| BAlloc (f : Z)
| BDispose (f n : Z)
| BFlush (f : Z).

Inductive buf_ans : Type :=
| APage (p : block)
| ANew (n : Z)
| AStatus (st : Status).

(** The discipline of the clients: read existing pages, write and unpin
    pinned pages, say at the last unpin that the page was changed, dispose of
    unpinned pages, and flush open files. *)
Definition legal (v : mem) (o : buf_op) : Prop :=
  match o with
  | BRead f n => is_Some (m_page v f n) /\ m_pins v f n < 2 ^ 31 - 1
  | BWrite f n p => 0 < m_pins v f n /\ Z.of_nat (length p) = PAGESIZE
  | BUnpin f n dirty => 0 < m_pins v f n /\ (dirty = false -> m_pins v f n = 1 -> (f, n) ∉ m_touched v)
  | BAlloc f => m_file v f
  | BDispose f n => is_Some (m_page v f n) /\ m_pins v f n = 0
  | BFlush f => 0 < f
  end.

Definition upd_pins (g : Z -> Z -> Z) (f n k : Z) : Z -> Z -> Z :=
  fun f' n' => if decide (f' = f /\ n' = n) then k else g f' n'.

(** All frames hold pinned pages. *)
Definition m_full (v : mem) : Prop :=
  exists l : list (Z * Z), NoDup l /\ Z.of_nat (length l) = m_frames v /\ forall f n, (f, n) ∈ l -> 0 < m_pins v f n.

(** [v'] has pages [pg], pin counts [pn] and changed pages [tc]. *)
Definition becomes (v v' : mem) (pg : Z -> Z -> option block) (pn : Z -> Z -> Z) (tc : gset (Z * Z)) : Prop :=
  (forall f n, m_page v' f n = pg f n) /\ (forall f n, m_pins v' f n = pn f n) /\ m_touched v' = tc /\
  (forall f, m_file v' f <-> m_file v f) /\ m_frames v' = m_frames v.

(** A page that cannot be disposed of may fall back to an older version. *)
Inductive mem_step (v : mem) : buf_op -> buf_ans -> mem -> Prop :=
| ms_read (f n : Z) (p : block) (v' : mem) :
    m_page v f n = Some p ->
    becomes v v' (m_page v) (upd_pins (m_pins v) f n (m_pins v f n + 1)) (m_touched v) ->
    mem_step v (BRead f n) (APage p) v'
| ms_read_full (f n : Z) (v' : mem) :
    m_full v -> m_pins v f n = 0 -> becomes v v' (m_page v) (m_pins v) (m_touched v) ->
    mem_step v (BRead f n) (AStatus BUFFEREXCEEDED) v'
| ms_write (f n : Z) (p : block) (v' : mem) :
    becomes v v' (upd_page (m_page v) f n (Some p)) (m_pins v) ({[(f, n)]} ∪ m_touched v) ->
    mem_step v (BWrite f n p) (AStatus OK) v'
| ms_unpin (f n : Z) (dirty : bool) (v' : mem) :
    becomes v v' (m_page v) (upd_pins (m_pins v) f n (m_pins v f n - 1))
      (if dirty then m_touched v ∖ {[(f, n)]} else m_touched v) ->
    mem_step v (BUnpin f n dirty) (AStatus OK) v'
| ms_alloc (f n : Z) (p : block) (v' : mem) :
    m_page v f n = None ->
    becomes v v' (upd_page (m_page v) f n (Some p)) (upd_pins (m_pins v) f n 1) ({[(f, n)]} ∪ m_touched v) ->
    mem_step v (BAlloc f) (ANew n) v'
| ms_alloc_err (f : Z) (e : Status) (v' : mem) :
    becomes v v' (m_page v) (m_pins v) (m_touched v) -> mem_step v (BAlloc f) (AStatus e) v'
| ms_alloc_leak (f n : Z) (p : block) (v' : mem) :
    m_full v -> m_page v f n = None -> becomes v v' (upd_page (m_page v) f n (Some p)) (m_pins v) (m_touched v) ->
    mem_step v (BAlloc f) (AStatus BUFFEREXCEEDED) v'
| ms_dispose (f n : Z) (v' : mem) :
    becomes v v' (upd_page (m_page v) f n None) (m_pins v) (m_touched v) ->
    mem_step v (BDispose f n) (AStatus OK) v'
| ms_dispose_err (f n : Z) (e : Status) (p : block) (v' : mem) :
    e <> OK -> becomes v v' (upd_page (m_page v) f n (Some p)) (m_pins v) (m_touched v) ->
    mem_step v (BDispose f n) (AStatus e) v'
| ms_flush (f : Z) (v' : mem) :
    becomes v v' (m_page v) (m_pins v) (m_touched v) -> mem_step v (BFlush f) (AStatus OK) v'
| ms_flush_pinned (f n : Z) (v' : mem) :
    0 < m_pins v f n -> becomes v v' (m_page v) (m_pins v) (m_touched v) ->
    mem_step v (BFlush f) (AStatus PAGEPINNED) v'.

Section Simulation.
Context {S : Type} `{HS : PageStore S}.
Implicit Types (s : S) (b : BufMgr) (v : mem).

(** Running an operation of a client.  The client found the frame it writes
    to when it pinned the page. *)
Definition run_buf_op (o : buf_op) : CODE (S * BufMgr) buf_ans := fun '(s, b) =>
  match o with
  | BRead f n => (let! i := BufMgr_readPage f n in let! p := client_read i in ret (APage p)) (s, b)
  | BWrite f n p => i ← frame_of b f n; (client_write i p ;;; ret (AStatus OK)) (s, b)
  | BUnpin f n dirty => (BufMgr_unPinPage f n dirty ;;; ret (AStatus OK)) (s, b)
  | BAlloc f => (let! (n, _) := BufMgr_allocPage f in ret (ANew n)) (s, b)
  | BDispose f n => (BufMgr_disposePage f n ;;; ret (AStatus OK)) (s, b)
  | BFlush f => (BufMgr_flushFile f ;;; ret (AStatus OK)) (s, b)
  end.

Definition answer (r : result buf_ans) : buf_ans := match r with Ok a => a | Err e => AStatus e end.

(** The pool in state [(s, b)] stands for the memory [v]. *)
Definition stands_for s b v : Prop :=
  pool_inv (m_touched v) None s b /\ (forall f n, m_page v f n = logical s b f n) /\
  (forall f n, m_pins v f n = pins b f n) /\ (forall f, m_file v f <-> ps_file s f) /\ m_frames v = numBufs b.

(** The number of frames never changes. *)
Lemma numBufs_op o s b r s' b' : run_buf_op o (s, b) = Some (r, (s', b')) -> numBufs b' = numBufs b.
Proof.
  set (R := fun x y : S * BufMgr => numBufs y.2 = numBufs x.2).
  assert (PreOrder R) as HR by (split; [by intros x|intros x y z; unfold R; congruence]).
  enough (keeps R (run_buf_op o)) as Hk by (intros Hr; exact (Hk _ _ _ Hr)).
  intros [s1 b1] r1 [s2 b2] Hr. unfold run_buf_op in Hr. revert Hr.
  destruct o as [f n|f n p|f n dirty|f|f n|f].
  - eapply keeps_bind; [done|by apply keeps_readPage|]. intros i. unfold client_read.
    apply keeps_bind; [done|by apply keeps_get_mgr|]. intros. by apply keeps_ret.
  - destruct (frame_of b1 f n) as [i|]; [|done]. eapply keeps_bind; [done|by apply keeps_client_write|intros; by apply keeps_ret].
  - eapply keeps_bind; [done|by apply keeps_unPinPage|intros; by apply keeps_ret].
  - eapply keeps_bind; [done|by apply keeps_allocPage|intros []; by apply keeps_ret].
  - eapply keeps_bind; [done|by apply keeps_disposePage|intros; by apply keeps_ret].
  - eapply keeps_bind; [done|by apply keeps_flushFile|intros; by apply keeps_ret].
Qed.

(** The memory a state stands for, given the changed pages. *)
Definition mem_of (T : gset (Z * Z)) s b : mem := mkMem (logical s b) (pins b) T (ps_file s) (numBufs b).

Lemma mem_of_becomes T s b s' b' v pg pn :
  stands_for s b v -> numBufs b' = numBufs b -> (forall f, ps_file s' f <-> ps_file s f) ->
  (forall f n, logical s' b' f n = pg f n) -> (forall f n, pins b' f n = pn f n) ->
  becomes v (mem_of T s' b') pg pn T.
Proof.
  intros (_ & _ & _ & Hf & Hn) Hnum Hfile Hpg Hpn. split; [done|]. split; [done|]. split; [done|]. cbn.
  split; [|congruence]. intros f. by rewrite Hfile, Hf.
Qed.

Lemma mem_of_stands T s b : pool_inv T None s b -> stands_for s b (mem_of T s b).
Proof. by split. Qed.

Lemma full_mem s b v : stands_for s b v -> pool_full b -> m_full v.
Proof.
  intros (_ & _ & Hp & _ & Hn) (l & H1 & H2 & H3). exists l. split; [done|]. split; [congruence|].
  intros f n Hfn. rewrite Hp. by apply H3.
Qed.

(** Close a simulation step with the memory of the new state. *)
Ltac sim T s' b' := exists (mem_of T s' b'); split; [|by apply mem_of_stands].

Lemma sim_read s b v f n :
  stands_for s b v -> legal v (BRead f n) ->
  exists r s' b', run_buf_op (BRead f n) (s, b) = Some (r, (s', b')) /\
    exists v', mem_step v (BRead f n) (answer r) v' /\ stands_for s' b' v'.
Proof.
  intros Hv [[p Hp] Hlt]. pose proof Hv as (Hi & Hpg & Hpn & Hf & Hn). rewrite Hpg in Hp. rewrite Hpn in Hlt.
  destruct (BufMgr_readPage_ok _ s b f n p Hi Hp Hlt) as
    [(i & s' & b' & Hrun & Hi' & Hfr & Hb & Hl & Hpi & Hfile & _)|(b' & Hrun & Hi' & (Hl & Hpi & Hfile & _) & Hnone & Hno)].
  - assert (run_buf_op (BRead f n) (s, b) = Some (Ok (APage p), (s', b'))) as Hr.
    { cbn. rewrite (bind_Ok _ _ _ _ _ Hrun). erewrite bind_Ok by (unfold client_read, get_mgr; rewrite Hb; reflexivity). done. }
    exists (Ok (APage p)), s', b'. split; [done|]. sim (m_touched v) s' b'.
    eapply ms_read; [by rewrite Hpg|]. eapply mem_of_becomes; [done|by eapply numBufs_op|done| |].
    + intros. by rewrite Hpg, Hl.
    + intros. unfold upd_pins. rewrite !Hpn, Hpi. done.
  - assert (run_buf_op (BRead f n) (s, b) = Some (Err BUFFEREXCEEDED, (s, b'))) as Hr.
    { cbn. by rewrite (bind_Err _ _ _ _ _ Hrun). }
    exists (Err BUFFEREXCEEDED), s, b'. split; [done|]. sim (m_touched v) s b'.
    apply ms_read_full; [eapply full_mem, no_reusable_full; done| |].
    + rewrite Hpn. unfold pins. by rewrite Hnone.
    + eapply mem_of_becomes; [done|by eapply numBufs_op|done| |]; intros; by rewrite ?Hpg, ?Hpn, ?Hl, ?Hpi.
Qed.

Lemma sim_write s b v f n p :
  stands_for s b v -> legal v (BWrite f n p) ->
  exists r s' b', run_buf_op (BWrite f n p) (s, b) = Some (r, (s', b')) /\
    exists v', mem_step v (BWrite f n p) (answer r) v' /\ stands_for s' b' v'.
Proof.
  intros Hv [Hpos Hlen]. pose proof Hv as (Hi & Hpg & Hpn & Hf & Hn). rewrite Hpn in Hpos.
  destruct (frame_of b f n) as [i|] eqn:Hfr; [|unfold pins in Hpos; rewrite Hfr in Hpos; lia].
  destruct (client_write_ok _ s b f n i p Hi Hfr Hpos Hlen) as (b' & Hrun & Hi' & Hl & Hpi & _).
  assert (run_buf_op (BWrite f n p) (s, b) = Some (Ok (AStatus OK), (s, b'))) as Hr.
  { cbn. rewrite Hfr. cbn. by rewrite (bind_Ok _ _ _ _ _ Hrun). }
  exists (Ok (AStatus OK)), s, b'. split; [done|]. sim ({[(f, n)]} ∪ m_touched v) s b'.
  apply ms_write. eapply mem_of_becomes; [done|by eapply numBufs_op|done| |]; intros.
  - unfold upd_page. by rewrite Hpg, Hl.
  - by rewrite Hpn, Hpi.
Qed.

Lemma sim_unpin s b v f n dirty :
  stands_for s b v -> legal v (BUnpin f n dirty) ->
  exists r s' b', run_buf_op (BUnpin f n dirty) (s, b) = Some (r, (s', b')) /\
    exists v', mem_step v (BUnpin f n dirty) (answer r) v' /\ stands_for s' b' v'.
Proof.
  intros Hv [Hpos Ht]. pose proof Hv as (Hi & Hpg & Hpn & Hf & Hn). rewrite Hpn in Hpos, Ht.
  destruct (BufMgr_unPinPage_ok _ s b f n dirty Hi Hpos Ht) as (b' & Hrun & Hi' & Hl & Hpi & _).
  assert (run_buf_op (BUnpin f n dirty) (s, b) = Some (Ok (AStatus OK), (s, b'))) as Hr.
  { cbn. by rewrite (bind_Ok _ _ _ _ _ Hrun). }
  exists (Ok (AStatus OK)), s, b'. split; [done|]. eexists (mem_of _ s b'). split; [|by apply mem_of_stands].
  apply ms_unpin. eapply mem_of_becomes; [done|by eapply numBufs_op|done| |]; intros.
  - by rewrite Hpg, Hl.
  - unfold upd_pins. by rewrite !Hpn, Hpi.
Qed.

Lemma sim_alloc s b v f :
  stands_for s b v -> legal v (BAlloc f) ->
  exists r s' b', run_buf_op (BAlloc f) (s, b) = Some (r, (s', b')) /\
    exists v', mem_step v (BAlloc f) (answer r) v' /\ stands_for s' b' v'.
Proof.
  intros Hv Hfile. pose proof Hv as (Hi & Hpg & Hpn & Hf & Hn). apply Hf in Hfile.
  destruct (BufMgr_allocPage_ok _ s b f Hi Hfile) as ([[n i]|e] & s' & b' & Hrun & Hfs & Hr).
  - assert (run_buf_op (BAlloc f) (s, b) = Some (Ok (ANew n), (s', b'))) as Hr'.
    { cbn. by rewrite (bind_Ok _ _ _ _ _ Hrun). }
    destruct Hr as (Hi' & _ & Hnone & [p Hadd] & Hpi & _). exists (Ok (ANew n)), s', b'. split; [done|].
    sim ({[(f, n)]} ∪ m_touched v) s' b'. apply (ms_alloc v f n p); [by rewrite Hpg|].
    eapply mem_of_becomes; [done|by eapply numBufs_op|done| |]; intros.
    + unfold upd_page. by rewrite Hpg, Hadd.
    + unfold upd_pins. by rewrite Hpn, Hpi.
  - assert (run_buf_op (BAlloc f) (s, b) = Some (Err e, (s', b'))) as Hr'.
    { cbn. by rewrite (bind_Err _ _ _ _ _ Hrun). }
    destruct Hr as (Hi' & Hpi & _ & Hl). exists (Err e), s', b'. split; [done|]. sim (m_touched v) s' b'.
    destruct Hl as [Hl|(-> & Hfull & n & p & Hnone & Hadd)].
    + apply ms_alloc_err. eapply mem_of_becomes; [done|by eapply numBufs_op|done| |]; intros; by rewrite ?Hpg, ?Hpn, ?Hl, ?Hpi.
    + apply (ms_alloc_leak v f n p); [by eapply full_mem|by rewrite Hpg|].
      eapply mem_of_becomes; [done|by eapply numBufs_op|done| |]; intros.
      * unfold upd_page. by rewrite Hpg, Hadd.
      * by rewrite Hpn, Hpi.
Qed.

Lemma sim_dispose s b v f n :
  stands_for s b v -> legal v (BDispose f n) ->
  exists r s' b', run_buf_op (BDispose f n) (s, b) = Some (r, (s', b')) /\
    exists v', mem_step v (BDispose f n) (answer r) v' /\ stands_for s' b' v'.
Proof.
  intros Hv [[p Hp] H0]. pose proof Hv as (Hi & Hpg & Hpn & Hf & Hn). rewrite Hpg in Hp. rewrite Hpn in H0.
  destruct (BufMgr_disposePage_ok _ s b f n p Hi Hp) as (st & s' & b' & Hrun & Hi' & Hnone & Hfs & Hlf & Hoth).
  destruct (logical_page _ None s b f n p Hi Hp) as (_ & _ & _ & _ & q & Hq).
  assert (run_buf_op (BDispose f n) (s, b) =
    Some (if decide (st = OK) then Ok (AStatus OK) else Err st, (s', b'))) as Hr.
  { cbn. case_decide; [by rewrite (bind_Ok _ _ _ _ _ Hrun)|by rewrite (bind_Err _ _ _ _ _ Hrun)]. }
  assert (forall g m, pins b' g m = m_pins v g m) as Hpi.
  { intros g m. rewrite Hpn. destruct (decide ((g, m) = (f, n))) as [[= -> ->]|Hne]; [|by apply Hoth].
    rewrite H0. unfold pins. by rewrite Hnone. }
  eexists _, s', b'. split; [exact Hr|]. sim (m_touched v) s' b'. case_decide as Hst; cbn [answer].
  - apply ms_dispose. eapply mem_of_becomes; [done|by eapply numBufs_op|done| |done].
    intros g m. unfold upd_page. case_decide as Hgm; [by destruct Hgm as [-> ->]|].
    rewrite Hpg. apply Hoth. naive_solver.
  - apply (ms_dispose_err v f n st q); [done|]. eapply mem_of_becomes; [done|by eapply numBufs_op|done| |done].
    intros g m. unfold upd_page. case_decide as Hgm; [destruct Hgm as [-> ->]; congruence|].
    rewrite Hpg. apply Hoth. naive_solver.
Qed.

Lemma sim_flush s b v f :
  stands_for s b v -> legal v (BFlush f) ->
  exists r s' b', run_buf_op (BFlush f) (s, b) = Some (r, (s', b')) /\
    exists v', mem_step v (BFlush f) (answer r) v' /\ stands_for s' b' v'.
Proof.
  intros Hv H0. pose proof Hv as (Hi & Hpg & Hpn & Hf & Hn).
  destruct (BufMgr_flushFile_ok _ s b f Hi H0) as (r & s' & b' & Hrun & Hi' & (Hl & Hpi & Hfs & _) & Hr).
  assert (run_buf_op (BFlush f) (s, b) =
    Some (match r with Ok _ => Ok (AStatus OK) | Err e => Err e end, (s', b'))) as Hr'.
  { cbn. destruct r; [by rewrite (bind_Ok _ _ _ _ _ Hrun)|by rewrite (bind_Err _ _ _ _ _ Hrun)]. }
  eexists _, s', b'. split; [exact Hr'|]. sim (m_touched v) s' b'.
  assert (becomes v (mem_of (m_touched v) s' b') (m_page v) (m_pins v) (m_touched v)) as Hb.
  { eapply mem_of_becomes; [done|by eapply numBufs_op|done| |]; intros; by rewrite ?Hpg, ?Hpn, ?Hl, ?Hpi. }
  destruct r as [[]|e]; cbn [answer]; [by apply ms_flush|]. destruct Hr as (-> & n & Hp).
  apply (ms_flush_pinned v f n); [by rewrite Hpn|done].
Qed.

Lemma run_buf_op_sim s b v o :
  stands_for s b v -> legal v o ->
  exists r s' b', run_buf_op o (s, b) = Some (r, (s', b')) /\
    exists v', mem_step v o (answer r) v' /\ stands_for s' b' v'.
Proof.
  destruct o; [apply sim_read|apply sim_write|apply sim_unpin|apply sim_alloc|apply sim_dispose|apply sim_flush].
Qed.

(** *** Sessions *)

Fixpoint run_buf_ops (os : list buf_op) (st : S * BufMgr) : option (list buf_ans * (S * BufMgr)) :=
  match os with
  | [] => Some ([], st)
  | o :: os => '(r, st1) ← run_buf_op o st; '(rs, st2) ← run_buf_ops os st1; Some (answer r :: rs, st2)
  end.

(** Every operation is legal whatever the earlier ones may have answered. *)
Fixpoint legal_run (v : mem) (os : list buf_op) : Prop :=
  match os with
  | [] => True
  | o :: os => legal v o /\ forall a v', mem_step v o a v' -> legal_run v' os
  end.

Inductive mem_run : mem -> list buf_op -> list buf_ans -> mem -> Prop :=
| mr_nil v : mem_run v [] [] v
| mr_cons v o a v1 os rs v2 : mem_step v o a v1 -> mem_run v1 os rs v2 -> mem_run v (o :: os) (a :: rs) v2.

Lemma run_buf_ops_sim os s b v :
  stands_for s b v -> legal_run v os ->
  exists rs s' b' v', run_buf_ops os (s, b) = Some (rs, (s', b')) /\ mem_run v os rs v' /\ stands_for s' b' v'.
Proof.
  revert s b v. induction os as [|o os IH]; intros s b v Hv Hl.
  - exists [], s, b, v. split; [done|]. split; [constructor|done].
  - destruct Hl as [Ho Hl]. destruct (run_buf_op_sim s b v o Hv Ho) as (r & s1 & b1 & Hr & v1 & Hs & Hv1).
    destruct (IH s1 b1 v1 Hv1 (Hl _ _ Hs)) as (rs & s2 & b2 & v2 & Hrs & Hm & Hv2).
    exists (answer r :: rs), s2, b2, v2. split; [|split; [by econstructor|done]].
    cbn [run_buf_ops]. rewrite Hr. cbn. by rewrite Hrs.
Qed.

End Simulation.
