(* ===== verification/Pool.v ===== *)
(** * The buffer pool over real files

    The buffer manager of BufMgr.v instantiated with the [File] objects of
    File.v: the properties of the whole page cache, and the executions in
    which its error paths lose updates. *)

From S2P Require Export File BufMgr.

(** A new pool is empty. *)
Lemma BufMgr_new_ok d bufs T :
  disk_ok d -> 0 < bufs < 2 ^ 29 ->
  pool_inv T None d (BufMgr_new bufs) /\ (forall f n, logical d (BufMgr_new bufs) f n = disk_page d f n) /\
  (forall f n, pins (BufMgr_new bufs) f n = 0).
Proof.
  intros Hd Hb. assert (0 < htsize bufs < 2 ^ 31) as Hh.
  { unfold htsize. pose proof (Z.mul_div_le (bufs * 12) 10 ltac:(lia)) as H1.
    pose proof (Z.mod_pos_bound (bufs * 12) 10 ltac:(lia)). pose proof (Z.div_mod (bufs * 12) 10 ltac:(lia)).
    rewrite s32_id by lia. rewrite Z.div_mul by lia. lia. }
  destruct (BufHashTbl_new_ok (htsize bufs) Hh) as [Hbh Hm].
  assert (forall f n, frame_of (BufMgr_new bufs) f n = None) as Hf.
  { intros f n. unfold frame_of. cbn [hashTable BufMgr_new]. by rewrite Hm, lookup_empty. }
  split; [split|split].
  - done.
  - split; [cbn; lia|]. cbn. rewrite length_fmap, length_seqZ. lia.
  - cbn. rewrite length_replicate. lia.
  - intros i p [_ [-> _]%lookup_replicate]%zget_Some. by vm_compute.
  - exact Hbh.
  - intros i x [_ Hi]%zget_Some _. cbn in Hi. rewrite list_lookup_fmap in Hi.
    destruct (seqZ 0 bufs !! Z.to_nat i); [|done]. cbn in Hi. simplify_eq. done.
  - intros f n i. by rewrite Hf.
  - intros f n. unfold logical. by rewrite Hf.
  - intros f n. unfold pins. by rewrite Hf.
Qed.

(** A disk with one file of three pages and a pool of two frames. *)
Definition demo_pool : Disk * BufMgr := (demo_disk2, BufMgr_new 2).

Lemma demo_pool_inv T : pool_inv T None demo_disk2 (BufMgr_new 2).
Proof. apply BufMgr_new_ok; [exact demo_disk2_ok|lia]. Qed.

(** A page with one byte repeated. *)
Definition fill (x : byte) : block := replicate (Z.to_nat PAGESIZE) x.

(** C3.  The buffer pool is transparent: whatever a disciplined client does
    with a new pool over a well-formed disk (reading and writing pinned
    pages, unpinning, allocating, disposing, flushing files), no operation
    runs into undefined behaviour, and the statuses and page contents it
    returns are those of a plain memory of pages, in which a read returns
    what was last written and [BUFFEREXCEEDED] occurs only when as many pages
    are pinned as there are frames. *)
Theorem pool_refines_memory d bufs os :
  disk_ok d -> 0 < bufs < 2 ^ 29 ->
  legal_run (mkMem (disk_page d) (fun _ _ => 0) ∅ (disk_file d) bufs) os ->
  exists rs d' b' v', run_buf_ops os (d, BufMgr_new bufs) = Some (rs, (d', b')) /\
    mem_run (mkMem (disk_page d) (fun _ _ => 0) ∅ (disk_file d) bufs) os rs v' /\ stands_for d' b' v'.
Proof.
  intros Hd Hb Hl. destruct (BufMgr_new_ok d bufs ∅ Hd Hb) as (Hi & Hlog & Hpins).
  apply run_buf_ops_sim; [|done]. split; [done|]. cbn. split; [done|]. split; [done|]. done.
Qed.

(** Nothing is pinned, so the memory is not full. *)
Lemma not_full v : 0 < m_frames v -> (forall f n, m_pins v f n = 0) -> ~ m_full v.
Proof.
  intros Hn Hp (l & _ & Hl & Hall). destruct l as [|[f n] l]; [cbn in Hl; lia|].
  specialize (Hall f n ltac:(by left)). rewrite Hp in Hall. lia.
Qed.

Definition demo_session (p : block) : list buf_op :=
  [BRead 4096 2; BWrite 4096 2 p; BUnpin 4096 2 true; BRead 4096 2].

Lemma demo_session_legal v p :
  is_Some (m_page v 4096 2) -> 0 < m_frames v -> (forall f n, m_pins v f n = 0) ->
  Z.of_nat (length p) = PAGESIZE -> legal_run v (demo_session p).
Proof.
  intros Hp Hn H0 Hlen. split; [split; [done|rewrite H0; lia]|]. intros a1 v1 H1.
  inversion H1 as [? ? ? ? Hp1 (G1 & P1 & T1 & F1 & N1)|? ? ? Hfull| | | | | | | | |]; subst; [|by apply not_full in Hfull].
  split; [split; [rewrite P1; unfold upd_pins; rewrite decide_True by done; rewrite H0; lia|done]|]. intros a2 v2 H2.
  inversion H2 as [| |? ? ? ? (G2 & P2 & T2 & F2 & N2)| | | | | | | |]; subst.
  split; [split; [rewrite P2, P1; unfold upd_pins; rewrite decide_True by done; rewrite H0; lia|done]|]. intros a3 v3 H3.
  inversion H3 as [| | |? ? ? ? (G3 & P3 & T3 & F3 & N3)| | | | | | |]; subst.
  split; [|done]. split.
  - rewrite G3, G2. unfold upd_page. rewrite decide_True by done. by eexists.
  - rewrite P3. unfold upd_pins. rewrite decide_True by done. rewrite P2, P1. unfold upd_pins.
    rewrite decide_True by done. rewrite H0. lia.
Qed.

Lemma pool_refines_memory_witness :
  exists rs d' b', run_buf_ops (demo_session (fill x41)) demo_pool = Some (rs, (d', b')) /\
    rs = [APage zeroPage; AStatus OK; AStatus OK; APage (fill x41)].
Proof.
  destruct (pool_refines_memory demo_disk2 2 (demo_session (fill x41)) demo_disk2_ok) as (rs & d' & b' & v' & Hr & _ & _).
  - lia.
  - apply demo_session_legal; [exists zeroPage; by vm_compute|done|done|by vm_compute].
  - exists rs, d', b'. split; [exact Hr|]. revert Hr. vm_compute. congruence.
Defined.

(** C26.  The clock finds a frame whenever there is one: [allocBuf] needs at
    most two sweeps and succeeds exactly when some frame is invalid or not
    pinned; otherwise it returns [BUFFEREXCEEDED].  In both cases no client
    can see a difference: a dirty victim has been written back. *)
Theorem allocBuf_succeeds_iff d b T :
  pool_inv T None d b ->
  exists r d' b', allocBuf (d, b) = Some (r, (d', b')) /\ same_view d b d' b' /\
    ((exists i, r = Ok i) <-> exists i x, zget (bufTable b) i = Some x /\ reusable x) /\
    (r = Err BUFFEREXCEEDED <-> forall i x, zget (bufTable b) i = Some x -> ~ reusable x).
Proof.
  intros Hi. destruct (allocBuf_ok T d b Hi) as
    [(i & x & d' & b' & Hrun & _ & _ & Hv & _ & x0 & Hx0 & Hre)|(b' & Hrun & _ & Hv & Hno)].
  - exists (Ok i), d', b'. split; [done|]. split; [done|]. split; split; try done.
    + intros _. by exists i, x0.
    + by eexists.
    + intros Hall. by destruct (Hall i x0 Hx0).
  - exists (Err BUFFEREXCEEDED), d, b'. split; [done|]. split; [done|]. split; split; try done.
    + by intros [i ?].
    + intros (i & x & Hx & Hre). by destruct (Hno i x Hx).
Qed.

Lemma allocBuf_succeeds_iff_witness :
  exists r d' b', allocBuf demo_pool = Some (r, (d', b')) /\ same_view demo_disk2 (BufMgr_new 2) d' b' /\ r = Ok 0.
Proof.
  destruct (allocBuf_succeeds_iff demo_disk2 (BufMgr_new 2) ∅ (demo_pool_inv ∅)) as (r & d' & b' & Hr & Hv & _).
  exists r, d', b'. split; [exact Hr|]. split; [exact Hv|]. revert Hr. vm_compute. congruence.
Defined.

(** [flushFile] makes a file durable: without changing what clients
    see, it returns [OK] exactly when no page of the file is pinned, and then
    no page of the file is left in the pool and the disk holds the bytes the
    clients see; otherwise it returns [PAGEPINNED]. *)
Theorem flushFile_durable d b T f :
  pool_inv T None d b -> 0 < f ->
  exists r d' b', BufMgr_flushFile f (d, b) = Some (r, (d', b')) /\ same_view d b d' b' /\
    match r with
    | Ok _ => forall n, frame_of b' f n = None /\ disk_page d' f n = logical d b f n
    | Err e => e = PAGEPINNED
    end /\
    (r = Ok tt <-> forall n, pins b f n <= 0).
Proof.
  intros Hi Hf. destruct (BufMgr_flushFile_ok T d b f Hi Hf) as (r & d' & b' & Hr & _ & Hv & Hp).
  exists r, d', b'. split; [done|]. split; [done|]. destruct r as [[]|e].
  - split; [done|]. split; [|done]. intros _ n. destruct (Hp n) as [Hn _]. destruct Hv as (_ & Hpins & _).
    rewrite <- Hpins. unfold pins. by rewrite Hn.
  - destruct Hp as (-> & n & Hp). split; [done|]. split; [done|]. intros Hz. specialize (Hz n). lia.
Qed.

(** The pool after a page has been changed and unpinned. *)
Definition demo_dirty : option (list buf_ans * (Disk * BufMgr)) :=
  run_buf_ops [BRead 4096 2; BWrite 4096 2 (fill x41); BUnpin 4096 2 true] demo_pool.

Lemma demo_dirty_inv : exists rs d b v, demo_dirty = Some (rs, (d, b)) /\ pool_inv (m_touched v) None d b.
Proof.
  destruct (BufMgr_new_ok demo_disk2 2 ∅ demo_disk2_ok ltac:(lia)) as (Hi & Hlog & Hpins).
  destruct (run_buf_ops_sim [BRead 4096 2; BWrite 4096 2 (fill x41); BUnpin 4096 2 true] demo_disk2 (BufMgr_new 2)
    (mkMem (disk_page demo_disk2) (fun _ _ => 0) ∅ (disk_file demo_disk2) 2)) as (rs & d & b & v & Hr & _ & Hs).
  - done.
  - destruct (demo_session_legal (mkMem (disk_page demo_disk2) (fun _ _ => 0) ∅ (disk_file demo_disk2) 2) (fill x41))
      as [L1 N1]; [exists zeroPage; by vm_compute|done|done|by vm_compute|].
    split; [done|]. intros a1 v1 S1. destruct (N1 a1 v1 S1) as [L2 N2]. split; [done|]. intros a2 v2 S2.
    destruct (N2 a2 v2 S2) as [L3 _]. split; [done|]. done.
  - exists rs, d, b, v. split; [exact Hr|apply Hs].
Qed.

Lemma flushFile_durable_witness :
  exists d b d' b', demo_dirty = Some ([APage zeroPage; AStatus OK; AStatus OK], (d, b)) /\
    disk_page d 4096 2 = Some zeroPage /\
    BufMgr_flushFile 4096 (d, b) = Some (Ok tt, (d', b')) /\ disk_page d' 4096 2 = Some (fill x41).
Proof.
  destruct demo_dirty_inv as (rs & d & b & v & Hr & Hi).
  destruct (flushFile_durable d b (m_touched v) 4096 Hi ltac:(lia)) as (r & d' & b' & Hf & _ & Hres & _).
  assert (rs = [APage zeroPage; AStatus OK; AStatus OK] /\ disk_page d 4096 2 = Some zeroPage /\
    logical d b 4096 2 = Some (fill x41) /\ fst <$> BufMgr_flushFile 4096 (d, b) = Some (Ok tt)) as (-> & Hd & Hl & Hok).
  { assert ((fun '(rs, (d, b)) => (rs, disk_page d 4096 2, logical d b 4096 2, fst <$> BufMgr_flushFile 4096 (d, b)))
      <$> demo_dirty = Some ([APage zeroPage; AStatus OK; AStatus OK], Some zeroPage, Some (fill x41), Some (Ok tt)))
      as Hc by (vm_compute; reflexivity).
    rewrite Hr in Hc. cbn [fmap option_fmap option_map] in Hc. injection Hc as H1 H2 H3 H4.
    exact (conj H1 (conj H2 (conj H3 H4))). }
  rewrite Hf in Hok. injection Hok as ->. exists d, b, d', b'. split; [exact Hr|]. split; [exact Hd|].
  split; [exact Hf|]. rewrite <- Hl. apply Hres.
Defined.

(** The destructor of the pool leaves nothing behind: every page that is
    not pinned has the bytes on disk that the clients saw last. *)
Theorem shutdown_durable d b T :
  pool_inv T None d b ->
  exists d', BufMgr_delete (d, b) = Some (Ok tt, (d', b)) /\ disk_ok d' /\
    forall f n, pins b f n = 0 -> disk_page d' f n = logical d b f n.
Proof.
  intros Hi. destruct (BufMgr_delete_ok T d b Hi) as (d' & Hr & Hok & Hp).
  exists d'. split; [done|]. split; [done|]. intros f n H0. apply Hp. by left.
Qed.

Lemma shutdown_durable_witness :
  exists d b d', demo_dirty = Some ([APage zeroPage; AStatus OK; AStatus OK], (d, b)) /\
    BufMgr_delete (d, b) = Some (Ok tt, (d', b)) /\ disk_page d' 4096 2 = Some (fill x41).
Proof.
  destruct demo_dirty_inv as (rs & d & b & v & Hr & Hi).
  destruct (shutdown_durable d b (m_touched v) Hi) as (d' & Hf & _ & Hres).
  assert ((fun '(rs, (d, b)) => (rs, logical d b 4096 2, pins b 4096 2)) <$> demo_dirty =
    Some ([APage zeroPage; AStatus OK; AStatus OK], Some (fill x41), 0)) as Hc by (vm_compute; reflexivity).
  rewrite Hr in Hc. cbn [fmap option_fmap option_map] in Hc. injection Hc as -> H2 H3.
  exists d, b, d'. split; [exact Hr|]. split; [exact Hf|]. rewrite <- H2. exact (Hres 4096 2 H3).
Defined.

(** ** Executions in which an error path loses an update *)

(** Running client operations and keeping the last answer. *)
Definition last_answer (os : list buf_op) (st : Disk * BufMgr) : option buf_ans :=
  '(rs, _) ← run_buf_ops os st; last rs.

(** While page 1 is pinned, page 2 is changed to all [A]s and unpinned; then
    the file is asked for page 9, which it does not have. *)
Definition failed_read : list buf_op :=
  [BRead 4096 1; BRead 4096 2; BWrite 4096 2 (fill x41); BUnpin 4096 2 true; BRead 4096 9].

(** Then page 2 is changed to all [B]s, the file is flushed, and page 2 is
    read again. *)
Definition after_failed_read : list buf_op :=
  [BUnpin 4096 1 false; BRead 4096 2; BWrite 4096 2 (fill x42); BUnpin 4096 2 true; BFlush 4096; BRead 4096 2].

(** A page read that fails leaves the evicted frame behind as a valid,
    dirty frame of a page the hash table no longer knows.  In a pool of two
    frames the stale copy is written over a later update when the file is
    flushed: the last read of page 2 returns the [A]s although the [B]s were
    written after them. *)
Theorem failed_read_loses_update :
  last_answer failed_read demo_pool = Some (AStatus UNIXERR) /\
  last_answer (failed_read ++ after_failed_read) demo_pool = Some (APage (fill x41)).
Proof. split; vm_compute; reflexivity. Qed.

(** [disposePage] drops the buffered bytes before it asks the file: the
    first page of a file cannot be disposed of, and the failed call still
    reverts it to its version on disk. *)
Theorem failed_dispose_loses_update :
  last_answer [BRead 4096 1; BWrite 4096 1 (fill x41); BUnpin 4096 1 true; BDispose 4096 1] demo_pool =
    Some (AStatus BADPAGENO) /\
  last_answer [BRead 4096 1; BWrite 4096 1 (fill x41); BUnpin 4096 1 true; BDispose 4096 1; BRead 4096 1] demo_pool =
    Some (APage zeroPage).
Proof. split; vm_compute; reflexivity. Qed.
