(* ===== verification/Db.v ===== *)
(** * The database files (File::open, File::close, class DB of db.C)

    The [DB] object keeps one [File] object per open file in a hash table;
    opening a file twice counts references, and the last close flushes the
    file through the buffer manager before it closes the Unix file.  The
    global [bufMgr] exists whenever files are opened. *)

From S2P Require Export Pool.

(** The state of the storage layer: the disk with its [File] objects, the
    buffer manager, and the table of open files. *)
Record World : Set := mkWorld { w_disk : Disk; w_mgr : BufMgr; w_open : OpenFileHashTbl }.

Definition set_disk (d : Disk) (w : World) : World := mkWorld d (w_mgr w) (w_open w).
Definition set_open (t : OpenFileHashTbl) (w : World) : World := mkWorld (w_disk w) (w_mgr w) t.

(** [File::close]: the status of [flushFile] is not looked at. *)
Definition File_close (this : Z) (w : World) : option (Status * World) :=
  f ← files (w_disk w) !! this;
  if decide (openCnt f <= 0) then Some (FILENOTOPEN, w)
  else
    let f := mkFile (fileName f) (openCnt f - 1) (unixFile f) in
    let w := set_disk (set_file this f (w_disk w)) w in
    if decide (openCnt f = 0) then
      '(_, (d, b)) ← BufMgr_flushFile this (w_disk w, w_mgr w);
      match unix_close (unixFile f) (unix d) with
      | (Some _, u) => Some (UNIXERR, mkWorld (set_unix u d) b (w_open w))
      | (None, u) => Some (OK, mkWorld (set_unix u d) b (w_open w))
      end
    else Some (OK, w).

(** Freeing the memory of a [File] object. *)
Definition free_file (this : Z) (d : Disk) : Disk := mkDisk (unix d) (delete this (files d)) (nextPtr d).

(** [delete file]: the destructor [File::~File], which prints a status other
    than [OK], and the release of the object. *)
Definition File_delete (this : Z) (w : World) : option World :=
  f ← files (w_disk w) !! this;
  if decide (openCnt f = 0) then Some (set_disk (free_file this (w_disk w)) w)
  else
    let w := set_disk (set_file this (mkFile (fileName f) 1 (unixFile f)) (w_disk w)) w in
    '(_, w) ← File_close this w;
    Some (set_disk (free_file this (w_disk w)) w).

(** [DB::createFile]. *)
Definition DB_createFile (fileName : string) (w : World) : option (Status * World) :=
  if decide (fileName = ""%string) then Some (BADFILE, w)
  else
    r ← OpenFileHashTbl_find fileName (w_open w);
    match r with
    | Ok _ => Some (FILEEXISTS, w)
    | Err _ => '(st, d) ← File_create fileName (w_disk w); Some (st, set_disk d w)
    end.

(** [DB::destroyFile]. *)
Definition DB_destroyFile (fileName : string) (w : World) : option (Status * World) :=
  if decide (fileName = ""%string) then Some (BADFILE, w)
  else
    r ← OpenFileHashTbl_find fileName (w_open w);
    match r with
    | Ok _ => Some (FILEOPEN, w)
    | Err _ => let '(st, d) := File_destroy fileName (w_disk w) in Some (st, set_disk d w)
    end.

(** [DB::openFile]: the status and the [File*]. *)
Definition DB_openFile (fileName : string) (w : World) : option (result Z * World) :=
  if decide (fileName = ""%string) then Some (Err BADFILE, w)
  else
    r ← OpenFileHashTbl_find fileName (w_open w);
    match r with
    | Ok file =>
        '(st, d) ← File_open file (w_disk w);
        Some (if decide (st = OK) then Ok file else Err st, set_disk d w)
    | Err _ =>
        let '(filePtr, d) := File_new fileName (w_disk w) in
        '(st, d) ← File_open filePtr d;
        if decide (st <> OK) then
          w ← File_delete filePtr (set_disk d w); Some (Err st, w)
        else
          '(st, t) ← OpenFileHashTbl_insert fileName filePtr (w_open w);
          Some (if decide (st = OK) then Ok filePtr else Err st, set_open t (set_disk d w))
    end.

(** [DB::closeFile]: the status of [file->close()] is not looked at. *)
Definition DB_closeFile (file : Z) (w : World) : option (Status * World) :=
  if decide (file = 0) then Some (BADFILEPTR, w)
  else
    '(_, w) ← File_close file w;
    f ← files (w_disk w) !! file;
    if decide (openCnt f = 0) then
      '(st, t) ← OpenFileHashTbl_erase (fileName f) (w_open w);
      let w := set_open t w in
      if decide (st <> OK) then Some (BADFILEPTR, w)
      else w ← File_delete file w; Some (OK, w)
    else Some (OK, w).

(** [OpenFileHashTbl::~OpenFileHashTbl]: the objects that were not closed. *)
Fixpoint delete_files (fs : list Z) (w : World) : option World :=
  match fs with
  | [] => Some w
  | f :: fs => w ← (if decide (f <> 0) then File_delete f w else Some w); delete_files fs w
  end.

Definition OpenFileHashTbl_delete (w : World) : option World :=
  delete_files (fhb_file <$> concat (of_ht (w_open w))) w.

(** ** What the page operations leave alone *)

(** The operations on pages change the contents of connected inodes only. *)
Record disk_frame (d d' : Disk) : Prop := {
  df_files : files d' = files d;
  df_ptr : nextPtr d' = nextPtr d;
  df_dir : u_dir (unix d') = u_dir (unix d);
  df_fds : u_fds (unix d') = u_fds (unix d);
  df_ino : u_nextIno (unix d') = u_nextIno (unix d);
  df_fd : u_nextFd (unix d') = u_nextFd (unix d);
  df_maxFds : u_maxFds (unix d') = u_maxFds (unix d);
  df_fsize : u_fsize (unix d') = u_fsize (unix d);
  df_data : forall i, (forall f, conn d f <> Some i) -> u_data (unix d') !! i = u_data (unix d) !! i;
}.

Lemma disk_frame_conn d d' f : disk_frame d d' -> conn d' f = conn d f.
Proof. intros Hf. unfold conn. by rewrite (df_files _ _ Hf), (df_fds _ _ Hf). Qed.

#[export] Instance disk_frame_preorder : PreOrder disk_frame.
Proof.
  split; [by split|]. intros d1 d2 d3 H12 H23. pose proof (disk_frame_conn d1 d2) as Hc.
  destruct H12 eqn:E12, H23 as [? ? ? ? ? ? ? ? Hd]. split; try congruence.
  intros i Hi. rewrite Hd; [auto|]. intros f. rewrite Hc; [auto|exact H12].
Qed.

Lemma intwrite_frame f n p d st d' : File_intwrite f n p d = Some (st, d') -> disk_frame d d'.
Proof.
  unfold File_intwrite. destruct (files d !! f) as [o|] eqn:Ho; [|done]. cbn [mbind option_bind].
  case_decide; [by intros [= _ <-]|]. unfold unix_write.
  destruct (u_fds (unix d) !! unixFile o) as [ino|] eqn:Hfd; [|by intros [= _ <-]].
  destruct (u_data (unix d) !! ino) as [c|]; [|by intros [= _ <-]].
  case_decide; intros [= _ <-]; [by split|]. split; try done. intros i Hi. cbn.
  rewrite lookup_insert_ne; [done|]. intros ->. apply (Hi f). unfold conn. by rewrite Ho.
Qed.

Lemma keeps_intread f n : keeps disk_frame (intread_or_return f n).
Proof.
  intros d r d' Hr. unfold intread_or_return in Hr. destruct (File_intread _ _ _ _) as [[? ?]|]; [|done].
  cbn in Hr. by injection Hr as _ <-.
Qed.

Lemma keeps_intwrite f n p : keeps disk_frame (intwrite_or_return f n p).
Proof.
  intros d r d' Hr. unfold intwrite_or_return in Hr. destruct (File_intwrite _ _ _ _) as [[? ?]|] eqn:Hw; [|done].
  cbn in Hr. injection Hr as _ <-. by eapply intwrite_frame.
Qed.

#[export] Hint Resolve keeps_intread keeps_intwrite : minirel.

Ltac keeps_disk := repeat first
  [ solve [eauto with minirel typeclass_instances] | apply keeps_bind; [apply _| |intros] | case_match ].

Lemma writePage_frame f n p d st d' : File_writePage f n p d = Some (st, d') -> disk_frame d d'.
Proof. unfold File_writePage. case_decide; [by intros [= _ <-]|apply intwrite_frame]. Qed.

Lemma allocatePage_frame f : keeps disk_frame (File_allocatePage f).
Proof. unfold File_allocatePage. keeps_disk. Qed.

Lemma disposePage_frame f n d st d' : File_disposePage f n d = Some (st, d') -> disk_frame d d'.
Proof.
  assert (keeps disk_frame (File_disposePage_code f n)) as Hk by (unfold File_disposePage_code; keeps_disk).
  unfold File_disposePage. destruct (File_disposePage_code f n d) as [[r d1]|] eqn:Hr; [|done].
  cbn. intros [= _ <-]. by eapply Hk.
Qed.

Lemma flushFile_frame f d b r d' b' : BufMgr_flushFile f (d, b) = Some (r, (d', b')) -> disk_frame d d'.
Proof.
  intros Hr. set (R := fun x y : Disk * BufMgr => disk_frame x.1 y.1).
  assert (PreOrder R) as HR.
  { split; [by intros x; unfold R|intros x y z; unfold R; by transitivity y.1]. }
  enough (keeps R (BufMgr_flushFile f)) as Hk by exact (Hk _ _ _ Hr).
  apply keeps_flushFile; [done|by intros; unfold R|]. intros. unfold R. cbn. by eapply writePage_frame.
Qed.

(** ** The invariant of the storage layer *)

(** The inode [i] holds a file of the database layer. *)
Definition formatted (u : Unix) (i : Z) : Prop := exists c, u_data u !! i = Some c /\ file_okb c = true.

(** The directory: distinct names are distinct files, and the fresh numbers
    are fresh.  Files of other programs may have any contents. *)
Record unix_ok (u : Unix) : Prop := {
  uo_inj : forall n1 n2 i, u_dir u !! n1 = Some i -> u_dir u !! n2 = Some i -> n1 = n2;
  uo_file : forall name i, u_dir u !! name = Some i -> is_Some (u_data u !! i);
  uo_ino : forall i c, u_data u !! i = Some c -> i < u_nextIno u;
  uo_fd : forall fd i, u_fds u !! fd = Some i -> fd < u_nextFd u;
  uo_size : forall i c, u_data u !! i = Some c -> Z.of_nat (length c) <= u_fsize u;
  uo_fsize : 0 <= u_fsize u < (2 ^ 31 - 1) * PAGESIZE;
}.

(** An open object is in the table under its name, and its descriptor refers
    to the file of that name. *)
Record object_ok (w : World) (f : Z) (o : File) : Prop := {
  oo_cnt : 0 < openCnt o < 2 ^ 31;
  oo_tab : of_map (w_open w) !! fileName o = Some f;
  oo_ptr : 0 < f < nextPtr (w_disk w);
  oo_ino : exists i, u_fds (unix (w_disk w)) !! unixFile o = Some i /\ u_dir (unix (w_disk w)) !! fileName o = Some i;
}.

Record world_ok (T : gset (Z * Z)) (w : World) : Prop := {
  wo_unix : unix_ok (unix (w_disk w));
  wo_tab_ok : of_ok (w_open w);
  wo_obj : forall f o, files (w_disk w) !! f = Some o -> object_ok w f o;
  wo_tab : forall name f, of_map (w_open w) !! name = Some f ->
    exists o, files (w_disk w) !! f = Some o /\ fileName o = name;
  wo_ptr : 0 < nextPtr (w_disk w) <= 2 ^ 62;
  wo_pool : pool_inv T None (w_disk w) (w_mgr w);
}.

Lemma world_conn T w f i :
  world_ok T w -> conn (w_disk w) f = Some i ->
  exists o, files (w_disk w) !! f = Some o /\ object_ok w f o /\ u_fds (unix (w_disk w)) !! unixFile o = Some i /\
    u_dir (unix (w_disk w)) !! fileName o = Some i.
Proof.
  intros Hw Hc. destruct (conn_open _ _ _ Hc) as (o & Ho & Hfd). exists o.
  pose proof (wo_obj _ _ Hw f o Ho) as Hoo. destruct (oo_ino _ _ _ Hoo) as (i' & Hi' & Hd).
  rewrite Hfd in Hi'. injection Hi' as <-. done.
Qed.

(** A disk with the properties that the invariant gives is well formed. *)
Lemma disk_ok_intro d :
  unix_ok (unix d) ->
  (forall f i, conn d f = Some i -> 0 < f < 2 ^ 62 /\ formatted (unix d) i) ->
  (forall f g i, conn d f = Some i -> conn d g = Some i -> f = g) -> disk_ok d.
Proof.
  intros Hu Hc Hinj. split.
  - done.
  - intros f i Hi. destruct (Hc f i Hi) as (_ & c & Hd & (n & fr & Hf)%file_okb_spec). by exists c, n, fr.
  - apply Hu.
  - intros f i Hi. by apply (Hc f i Hi).
  - apply Hu.
Qed.

Lemma disk_formatted d f i : disk_ok d -> conn d f = Some i -> formatted (unix d) i.
Proof. intros Hd Hi. destruct (do_file _ Hd f i Hi) as (c & n & fr & Hc & Hf). exists c. split; [done|]. apply file_okb_spec. by exists n, fr. Qed.

Lemma object_inj w f g o1 o2 i :
  object_ok w f o1 -> object_ok w g o2 -> unix_ok (unix (w_disk w)) ->
  u_dir (unix (w_disk w)) !! fileName o1 = Some i -> u_dir (unix (w_disk w)) !! fileName o2 = Some i -> f = g.
Proof.
  intros Hf Hg Hu H1 H2. pose proof (uo_inj _ Hu _ _ _ H1 H2) as Hn.
  pose proof (oo_tab _ _ _ Hf) as T1. pose proof (oo_tab _ _ _ Hg) as T2. rewrite Hn in T1. congruence.
Qed.

(** The pages of the database file stored under a name; a file of another
    program has none. *)
Definition stored_page (w : World) (name : string) (n : Z) : option block :=
  i ← u_dir (unix (w_disk w)) !! name; c ← u_data (unix (w_disk w)) !! i;
  if file_okb c && bool_decide (1 <= n /\ n ∉ free_list c) then page_at c n else None.

Lemma stored_formatted w name i c n :
  u_dir (unix (w_disk w)) !! name = Some i -> u_data (unix (w_disk w)) !! i = Some c -> file_okb c = true ->
  stored_page w name n = if decide (1 <= n /\ n ∉ free_list c) then page_at c n else None.
Proof.
  intros Hd Hc Hf. unfold stored_page. rewrite Hd. cbn. rewrite Hc. cbn. rewrite Hf. cbn [andb].
  case_decide; [by rewrite bool_decide_eq_true_2|by rewrite bool_decide_eq_false_2].
Qed.

Lemma stored_page_Some w name n p : stored_page w name n = Some p -> exists i, u_dir (unix (w_disk w)) !! name = Some i /\ formatted (unix (w_disk w)) i.
Proof.
  unfold stored_page. intros (i & Hi & (c & Hc & H)%bind_Some)%bind_Some. exists i. split; [done|]. exists c. split; [done|].
  by destruct (file_okb c).
Qed.

(** An open file reads and writes the pages stored under its name. *)
Lemma stored_page_open T w f o n :
  world_ok T w -> files (w_disk w) !! f = Some o -> stored_page w (fileName o) n = disk_page (w_disk w) f n.
Proof.
  intros Hw Ho. destruct (oo_ino _ _ _ (wo_obj _ _ Hw f o Ho)) as (i & Hi & Hd).
  assert (conn (w_disk w) f = Some i) as Hci by (unfold conn; rewrite Ho; exact Hi).
  destruct (disk_formatted _ _ _ (pi_store _ _ _ _ (wo_pool _ _ Hw)) Hci) as (c & Hc & Hf).
  rewrite (stored_formatted w _ i c) by done. unfold disk_page, content. rewrite Hci. cbn. by rewrite Hc.
Qed.

(** What a client sees under a name: through the buffer pool while the file
    is open. *)
Definition named_page (w : World) (name : string) (n : Z) : option block :=
  match of_map (w_open w) !! name with
  | Some f => logical (w_disk w) (w_mgr w) f n
  | None => stored_page w name n
  end.

(** ** [openFile] *)

Lemma find_run w name : of_ok (w_open w) ->
  OpenFileHashTbl_find name (w_open w) =
    Some match of_map (w_open w) !! name with Some f => Ok f | None => Err HASHNOTFOUND end.
Proof. intros Ht. exact (mt_find_ok (w_open w) name Ht I). Qed.

(** Changing the reference count of an object. *)
Lemma set_cnt_conn d f o k g :
  files d !! f = Some o -> conn (set_file f (mkFile (fileName o) k (unixFile o)) d) g = conn d g.
Proof.
  intros Ho. unfold conn. cbn. destruct (decide (g = f)) as [->|Hg].
  - rewrite lookup_insert_eq, Ho. done.
  - by rewrite lookup_insert_ne by done.
Qed.

Lemma disk_page_conn d d' f n :
  conn d' f = conn d f -> u_data (unix d') = u_data (unix d) -> disk_page d' f n = disk_page d f n.
Proof. intros Hc Hd. unfold disk_page, content. by rewrite Hc, Hd. Qed.

Lemma disk_ok_conn d d' :
  disk_ok d -> (forall f, conn d' f = conn d f) -> unix d' = unix d -> disk_ok d'.
Proof.
  intros [H1 H2 H3 H4 H5] Hc Hu. split; try (by rewrite Hu).
  - intros f g i. rewrite !Hc. apply H1.
  - intros f i. rewrite Hc, Hu. apply H2.
  - intros f i. rewrite Hc. apply H4.
Qed.

Lemma set_cnt_ok T w f o k :
  world_ok T w -> files (w_disk w) !! f = Some o ->
  let d' := set_file f (mkFile (fileName o) k (unixFile o)) (w_disk w) in
  disk_ok d' /\ pool_inv T None d' (w_mgr w) /\ (forall g n, disk_page d' g n = disk_page (w_disk w) g n).
Proof.
  intros Hw Ho d'. pose proof (pi_store _ _ _ _ (wo_pool _ _ Hw)) as Hd.
  assert (forall g, conn d' g = conn (w_disk w) g) as Hc by (intros g; by apply set_cnt_conn).
  assert (disk_ok d') as Hd' by (by eapply disk_ok_conn).
  assert (forall g n, disk_page d' g n = disk_page (w_disk w) g n) as Hp by (intros; by apply disk_page_conn).
  split; [done|]. split; [|done]. eapply pool_inv_pages; [apply (wo_pool _ _ Hw)|done|]. intros. apply Hp.
Qed.

(** Opening a file that is open counts one more reference. *)
Lemma DB_openFile_again T w name f o :
  world_ok T w -> name <> ""%string -> of_map (w_open w) !! name = Some f ->
  files (w_disk w) !! f = Some o -> openCnt o < 2 ^ 31 - 1 ->
  exists w', DB_openFile name w = Some (Ok f, w') /\ world_ok T w' /\
    files (w_disk w') !! f = Some (mkFile name (openCnt o + 1) (unixFile o)) /\
    (forall nm n, named_page w' nm n = named_page w nm n) /\
    w' = set_disk (set_file f (mkFile (fileName o) (openCnt o + 1) (unixFile o)) (w_disk w)) w.
Proof.
  intros Hw Hne Hf Ho Hlt. destruct (wo_tab _ _ Hw name f Hf) as (o' & Ho' & Hn).
  assert (o' = o) as -> by congruence. pose proof (wo_obj _ _ Hw f o Ho) as Hoo.
  pose proof (oo_cnt _ _ _ Hoo) as Hcnt. unfold DB_openFile. rewrite decide_False by done.
  rewrite (find_run w name (wo_tab_ok _ _ Hw)), Hf. cbn [mbind option_bind]. unfold File_open. rewrite Ho.
  cbn [mbind option_bind]. rewrite decide_False by lia. cbn [mbind option_bind]. rewrite decide_True by done.
  rewrite s32_id by lia. destruct (set_cnt_ok T w f o (openCnt o + 1) Hw Ho) as (Hd' & Hp' & Hpg).
  eexists. split; [done|]. split; [|split; [|split; [|reflexivity]]].
  - destruct Hw as [H1 H2 H3 H4 H5 H6]. split; try done.
    + intros g og. cbn. intros [[<- <-]|[Hg Hog]]%lookup_insert_Some.
      * destruct Hoo as [? ? ? ?]. split; cbn; try done. lia.
      * destruct (H3 g og Hog) as [? ? ? ?]. by split.
    + intros nm g Hg. destruct (H4 nm g Hg) as (og & Hog & Hnm). cbn. destruct (decide (g = f)) as [->|Hgf].
      * rewrite lookup_insert_eq. eexists. split; [done|]. cbn. congruence.
      * rewrite lookup_insert_ne by done. by exists og.
  - cbn. rewrite lookup_insert_eq. by rewrite Hn.
  - intros nm n. unfold named_page. cbn. destruct (of_map (w_open w) !! nm) as [g|]; [|done].
    unfold logical. destruct (frame_of _ g n); [done|]. apply Hpg.
Qed.

(** A page in the pool belongs to a connected object. *)
Lemma frame_conn T x d b g n i : pool_inv T x d b -> frame_of b g n = Some i -> is_Some (conn d g).
Proof.
  intros Hp Hf. destruct (frame_page T x d b g n i Hp Hf) as (_ & q & _ & _ & _ & _ & _ & Hq & _).
  destruct (disk_page_inv d g n q (pi_store _ _ _ _ Hp) Hq) as (j & _ & _ & _ & Hj & _). by exists j.
Qed.

Lemma new_object_none T w : world_ok T w -> files (w_disk w) !! nextPtr (w_disk w) = None.
Proof.
  intros Hw. destruct (files (w_disk w) !! nextPtr (w_disk w)) as [o|] eqn:Ho; [|done].
  pose proof (oo_ptr _ _ _ (wo_obj _ _ Hw _ _ Ho)). lia.
Qed.

(** The disk with a new object for the file [i] under [name]. *)
Definition opened_disk (d : Disk) (name : string) (i : Z) : Disk :=
  mkDisk (new_fd i (unix d)).2 (<[nextPtr d := mkFile name 1 (u_nextFd (unix d))]> (files d)) (nextPtr d + 64).

Lemma opened_conn T w name i g :
  world_ok T w -> conn (opened_disk (w_disk w) name i) g =
    if decide (g = nextPtr (w_disk w)) then Some i else conn (w_disk w) g.
Proof.
  intros Hw. unfold conn. cbn. case_decide as Hg.
  - subst g. rewrite lookup_insert_eq. cbn. by rewrite lookup_insert_eq.
  - rewrite lookup_insert_ne by done. destruct (files (w_disk w) !! g) as [o|] eqn:Ho; [|done]. cbn.
    destruct (oo_ino _ _ _ (wo_obj _ _ Hw g o Ho)) as (j & Hj & _).
    rewrite lookup_insert_ne; [done|]. intros Heq. rewrite <- Heq in Hj.
    pose proof (uo_fd _ (wo_unix _ _ Hw) _ _ Hj). lia.
Qed.

Lemma opened_disk_ok T w name i :
  world_ok T w -> of_map (w_open w) !! name = None -> u_dir (unix (w_disk w)) !! name = Some i ->
  formatted (unix (w_disk w)) i -> nextPtr (w_disk w) < 2 ^ 62 ->
  disk_ok (opened_disk (w_disk w) name i) /\ pool_inv T None (opened_disk (w_disk w) name i) (w_mgr w) /\
  forall g n, g <> nextPtr (w_disk w) -> disk_page (opened_disk (w_disk w) name i) g n = disk_page (w_disk w) g n.
Proof.
  intros Hw Hnone Hdir Hfo Hptr. pose proof (opened_conn T w name i) as Hc.
  pose proof (wo_ptr _ _ Hw) as Hp0. pose proof (new_object_none T w Hw) as Hnew.
  assert (forall g n, g <> nextPtr (w_disk w) ->
    disk_page (opened_disk (w_disk w) name i) g n = disk_page (w_disk w) g n) as Hpg.
  { intros g n Hg. apply disk_page_conn; [|done]. by rewrite Hc, decide_False. }
  assert (forall g, conn (w_disk w) g <> Some i) as Hni.
  { intros g Hg. destruct (world_conn T w g i Hw Hg) as (o & Ho & Hoo & _ & Hd).
    pose proof (uo_inj _ (wo_unix _ _ Hw) _ _ _ Hd Hdir) as Heq. pose proof (oo_tab _ _ _ Hoo). congruence. }
  assert (disk_ok (opened_disk (w_disk w) name i)) as Hd.
  { apply disk_ok_intro.
    - destruct (wo_unix _ _ Hw) as [H1 H2 H3 H4 H5 H6]. split; try done. cbn.
      intros fd j [[<- _]|[_ Hj]]%lookup_insert_Some; [lia|]. specialize (H4 fd j Hj). lia.
    - intros g j. rewrite Hc by done. case_decide as Hg.
      + intros [= <-]. split; [lia|done].
      + intros Hj. destruct (world_conn T w g j Hw Hj) as (o & Ho & Hoo & _ & Hdo).
        pose proof (oo_ptr _ _ _ Hoo). split; [lia|]. exact (disk_formatted _ _ _ (pi_store _ _ _ _ (wo_pool _ _ Hw)) Hj).
    - intros f g j. rewrite !Hc by done.
      destruct (decide (f = nextPtr (w_disk w))) as [->|Hf0], (decide (g = nextPtr (w_disk w))) as [->|Hg0]; [done|..].
      + intros Hj Hg. destruct (Hni g). congruence.
      + intros Hf Hj. destruct (Hni f). congruence.
      + intros Hf Hg. pose proof (pi_store _ _ _ _ (wo_pool _ _ Hw)) as Hd. by eapply (do_inj _ Hd). }
  split; [done|]. split; [|done].
  eapply pool_inv_pages; [apply (wo_pool _ _ Hw)|done|]. intros k x Hx Hv. apply Hpg. intros Heq.
  pose proof (pi_frame _ _ _ _ (wo_pool _ _ Hw) k x Hx ltac:(done)) as Hfi. unfold frame_inv in Hfi. rewrite Hv in Hfi.
  destruct Hfi as (Hfr & _). destruct (frame_conn _ _ _ _ _ _ _ (wo_pool _ _ Hw) Hfr) as [j Hj].
  rewrite Heq in Hj. unfold conn in Hj. by rewrite Hnew in Hj.
Qed.

Lemma DB_openFile_new T w name i :
  world_ok T w -> name <> ""%string -> of_map (w_open w) !! name = None ->
  u_dir (unix (w_disk w)) !! name = Some i -> formatted (unix (w_disk w)) i ->
  Z.of_nat (size (u_fds (unix (w_disk w)))) < u_maxFds (unix (w_disk w)) ->
  nextPtr (w_disk w) + 64 <= 2 ^ 62 ->
  exists w', DB_openFile name w = Some (Ok (nextPtr (w_disk w)), w') /\ world_ok T w' /\
    of_map (w_open w') = <[name := nextPtr (w_disk w)]> (of_map (w_open w)) /\
    (forall nm n, named_page w' nm n = named_page w nm n) /\ w_mgr w' = w_mgr w /\
    w_disk w' = opened_disk (w_disk w) name i.
Proof.
  intros Hw Hne Hnone Hdir Hfo Hfds Hptr. pose proof (new_object_none T w Hw) as Hnew.
  pose proof (mt_insert_ok (w_open w) name (nextPtr (w_disk w)) (wo_tab_ok _ _ Hw) I) as Hins.
  cbn [mt_map mt_insert mt_ok OpenFileHashTbl_table] in Hins. rewrite Hnone in Hins.
  destruct Hins as (t' & Hins & Ht' & Hm').
  set (w' := set_open t' (set_disk (opened_disk (w_disk w) name i) w)).
  assert (DB_openFile name w = Some (Ok (nextPtr (w_disk w)), w')) as Hrun.
  { unfold DB_openFile. rewrite decide_False by done. rewrite (find_run w name (wo_tab_ok _ _ Hw)), Hnone.
    cbn [mbind option_bind]. unfold File_new, File_open. cbn [files]. rewrite lookup_insert_eq.
    cbn [mbind option_bind openCnt fileName unixFile unix]. rewrite decide_True by done. unfold unix_open. rewrite Hdir.
    rewrite decide_False by lia. cbn [new_fd mbind option_bind]. rewrite decide_False by naive_solver.
    rewrite Hins. cbn [mbind option_bind]. rewrite decide_True by done. unfold set_file. cbn.
    rewrite insert_insert_eq. done. }
  destruct (opened_disk_ok T w name i Hw Hnone Hdir Hfo ltac:(lia)) as (Hd' & Hp' & Hpg).
  exists w'. split; [done|]. split; [|split; [done|split; [|done]]].
  - pose proof Hw as [H1 H2 H3 H4 H5 H6]. split; try done.
    + destruct H1 as [U1 U2 U3 U4 U5 U6]. split; try done. cbn.
      intros fd j [[<- _]|[_ Hj]]%lookup_insert_Some; [lia|]. specialize (U4 fd j Hj). lia.
    + cbn. intros g og [[<- <-]|[Hg Hog]]%lookup_insert_Some.
      * split; cbn; try lia; [by rewrite Hm', lookup_insert_eq|]. exists i. by rewrite lookup_insert_eq.
      * destruct (H3 g og Hog) as [O1 O2 O3 (j & O4 & O5)]. split; cbn; try done; [| lia|].
        -- rewrite Hm', lookup_insert_ne; [done|]. intros Heq. congruence.
        -- exists j. split; [|done]. rewrite lookup_insert_ne; [done|]. intros Heq. rewrite <- Heq in O4.
           pose proof (uo_fd _ H1 _ _ O4). lia.
    + cbn. intros nm g. rewrite Hm'. intros [[<- <-]|[Hnm Hg]]%lookup_insert_Some.
      * rewrite lookup_insert_eq. by eexists.
      * destruct (H4 nm g Hg) as (og & Hog & Hnog). exists og. split; [|done].
        rewrite lookup_insert_ne; [done|]. intros <-. congruence.
    + cbn. lia.
  - intros nm n. unfold named_page. cbn [w_open w' set_open]. rewrite Hm'.
    destruct (decide (nm = name)) as [->|Hnm].
    + rewrite lookup_insert_eq, Hnone. unfold logical. cbn [w_mgr w_disk w' set_open set_disk].
      destruct (frame_of (w_mgr w) (nextPtr (w_disk w)) n) as [k|] eqn:Hk.
      { destruct (frame_conn _ _ _ _ _ _ _ (wo_pool _ _ Hw) Hk) as [j Hj]. unfold conn in Hj. by rewrite Hnew in Hj. }
      change (disk_page (opened_disk (w_disk w) name i) (nextPtr (w_disk w)) n = stored_page w name n).
      destruct Hfo as (c & Hc & Hf). rewrite (stored_formatted w name i c) by done.
      unfold disk_page, content. rewrite (opened_conn T w), decide_True by done. cbn. by rewrite Hc.
    + rewrite lookup_insert_ne by done. destruct (of_map (w_open w) !! nm) as [g|] eqn:Hg; [|done].
      unfold logical. cbn [w_mgr w_disk w' set_open set_disk]. destruct (frame_of (w_mgr w) g n); [done|].
      apply Hpg. destruct (wo_tab _ _ Hw nm g Hg) as (og & Hog & _). intros ->. congruence.
Qed.

(** Opening a file that does not exist frees the new object again. *)
Lemma DB_openFile_missing T w name :
  world_ok T w -> name <> ""%string -> of_map (w_open w) !! name = None -> u_dir (unix (w_disk w)) !! name = None ->
  nextPtr (w_disk w) + 64 <= 2 ^ 62 ->
  exists w', DB_openFile name w = Some (Err UNIXERR, w') /\ world_ok T w' /\
    w' = set_disk (mkDisk (unix (w_disk w)) (files (w_disk w)) (nextPtr (w_disk w) + 64)) w.
Proof.
  intros Hw Hne Hno Hdir Hptr. pose proof (new_object_none T w Hw) as Hnew. eexists. split; [|split; [|reflexivity]].
  - unfold DB_openFile. rewrite decide_False by done. rewrite (find_run w name (wo_tab_ok _ _ Hw)), Hno.
    cbn [mbind option_bind]. unfold File_new, File_open. cbn [files]. rewrite lookup_insert_eq.
    cbn [mbind option_bind openCnt fileName unixFile unix]. rewrite decide_True by done. unfold unix_open. rewrite Hdir.
    cbn [mbind option_bind]. rewrite decide_True by done. unfold File_delete. cbn. rewrite lookup_insert_eq. cbn.
    unfold free_file, set_file, set_unix. cbn. rewrite insert_insert_eq, delete_insert_id by done. done.
  - destruct Hw as [H1 H2 H3 H4 H5 H6]. split; try done.
    + intros f o Ho. destruct (H3 f o Ho) as [O1 O2 O3 O4]. split; try done. cbn. lia.
    + cbn. lia.
    + eapply pool_inv_pages; [exact H6| |done]. by eapply disk_ok_conn; [apply (pi_store _ _ _ _ H6)|..].
Qed.

(** ** [closeFile] *)

(** Page operations keep the directory well formed. *)
Lemma unix_ok_frame d d' :
  unix_ok (unix d) -> (forall f i, conn d f = Some i -> exists name, u_dir (unix d) !! name = Some i) ->
  disk_ok d' -> disk_frame d d' -> unix_ok (unix d').
Proof.
  intros Hu Hdir Hd' Hf. assert (forall i, (exists f, conn d f = Some i) \/ (forall f, conn d f <> Some i)) as Hem.
  { intros i. destruct (decide (map_Exists (fun f _ => conn d f = Some i) (files d))) as [Hex|Hno].
    - left. destruct Hex as (f & o & _ & Hc). by exists f.
    - right. intros f Hc. apply Hno. destruct (conn_open _ _ _ Hc) as (o & Ho & _). by exists f, o. }
  destruct Hu as [H1 H2 H3 H4 H5 H6]. split.
  - rewrite (df_dir _ _ Hf). done.
  - intros name i. rewrite (df_dir _ _ Hf). intros Hn. destruct (Hem i) as [[f Hc]|Hno].
    + destruct (do_file _ Hd' f i) as (c & _ & _ & -> & _); [by rewrite (disk_frame_conn _ _ _ Hf)|done].
    + rewrite (df_data _ _ Hf) by done. by eapply H2.
  - intros i c Hc. rewrite (df_ino _ _ Hf). destruct (Hem i) as [[f Hcf]|Hno].
    + destruct (Hdir f i Hcf) as [name Hn]. destruct (H2 name i Hn) as [c0 Hc0]. by eapply H3.
    + rewrite (df_data _ _ Hf) in Hc by done. by eapply H3.
  - rewrite (df_fds _ _ Hf), (df_fd _ _ Hf). done.
  - apply (do_size _ Hd').
  - rewrite (df_fsize _ _ Hf). done.
Qed.

Lemma world_dir T w f i : world_ok T w -> conn (w_disk w) f = Some i -> exists name, u_dir (unix (w_disk w)) !! name = Some i.
Proof. intros Hw Hc. destruct (world_conn T w f i Hw Hc) as (o & _ & _ & _ & Hd). by eexists. Qed.

(** The disk after the last close of [f], whose flush ended in [d]. *)
Definition closed_disk (d : Disk) (f fd : Z) : Disk :=
  mkDisk (set_fds (delete fd (u_fds (unix d))) (unix d)) (delete f (files d)) (nextPtr d).

Lemma closed_conn T w f o d' g :
  world_ok T w -> files (w_disk w) !! f = Some o ->
  disk_frame (set_file f (mkFile (fileName o) 0 (unixFile o)) (w_disk w)) d' ->
  conn (closed_disk d' f (unixFile o)) g = if decide (g = f) then None else conn (w_disk w) g.
Proof.
  intros Hw Ho Hf. unfold conn. cbn. rewrite (df_files _ _ Hf), (df_fds _ _ Hf). cbn. case_decide as Hg.
  - subst g. by rewrite lookup_delete_eq.
  - rewrite lookup_delete_ne, lookup_insert_ne by done. destruct (files (w_disk w) !! g) as [og|] eqn:Hog; [|done]. cbn.
    apply lookup_delete_ne. intros Heq. apply Hg.
    destruct (oo_ino _ _ _ (wo_obj _ _ Hw f o Ho)) as (i & Hi & Hdi).
    destruct (oo_ino _ _ _ (wo_obj _ _ Hw g og Hog)) as (j & Hj & Hdj). rewrite <- Heq, Hi in Hj. injection Hj as <-.
    symmetry. eapply (object_inj w f g o og i); [by apply (wo_obj _ _ Hw)..|apply (wo_unix _ _ Hw)|done|done].
Qed.

Lemma closed_world T w f o d' b' :
  world_ok T w -> files (w_disk w) !! f = Some o ->
  disk_frame (set_file f (mkFile (fileName o) 0 (unixFile o)) (w_disk w)) d' ->
  pool_inv T None d' b' -> (forall n, frame_of b' f n = None) ->
  disk_ok (closed_disk d' f (unixFile o)) /\ unix_ok (unix (closed_disk d' f (unixFile o))) /\
  pool_inv T None (closed_disk d' f (unixFile o)) b' /\
  (forall g n, g <> f -> disk_page (closed_disk d' f (unixFile o)) g n = disk_page d' g n).
Proof.
  intros Hw Ho Hf Hp Hnone. pose proof (closed_conn T w f o d') as Hc. pose proof (pi_store _ _ _ _ Hp) as Hd'.
  assert (forall g, conn d' g = conn (w_disk w) g) as Hc'.
  { intros g. rewrite (disk_frame_conn _ _ _ Hf). by apply set_cnt_conn. }
  assert (unix_ok (unix d')) as Hu'.
  { eapply unix_ok_frame; [|intros g i; rewrite set_cnt_conn by done|done|exact Hf]; [apply (wo_unix _ _ Hw)|].
    intros Hg. by eapply world_dir. }
  assert (unix_ok (unix (closed_disk d' f (unixFile o)))) as Hu.
  { destruct Hu' as [H1 H2 H3 H4 H5 H6]. split; try done. cbn. intros fd i [_ Hi]%lookup_delete_Some. by eapply H4. }
  assert (disk_ok (closed_disk d' f (unixFile o))) as Hd.
  { apply disk_ok_intro; [done| |].
    - intros g i. rewrite Hc by done. case_decide; [done|]. intros Hg. rewrite <- Hc' in Hg.
      split; [by eapply (do_ptr _ Hd')|]. exact (disk_formatted _ _ _ Hd' Hg).
    - intros g1 g2 i. rewrite !Hc by done. repeat case_decide; try done. rewrite <- !Hc'. apply (do_inj _ Hd'). }
  assert (forall g n, g <> f -> disk_page (closed_disk d' f (unixFile o)) g n = disk_page d' g n) as Hpg.
  { intros g n Hg. apply disk_page_conn; [|done]. by rewrite Hc, decide_False, Hc' by done. }
  split; [done|]. split; [done|]. split; [|done].
  eapply pool_inv_pages; [exact Hp|done|]. intros k x Hx Hv. apply Hpg. intros Heq.
  pose proof (pi_frame _ _ _ _ Hp k x Hx ltac:(done)) as Hfi. unfold frame_inv in Hfi. rewrite Hv in Hfi.
  destruct Hfi as (Hfr & _). rewrite Heq, Hnone in Hfr. done.
Qed.

(** The last close, up to the final states of the flush. *)
Lemma DB_closeFile_run T w f o d' b' r :
  world_ok T w -> files (w_disk w) !! f = Some o -> openCnt o = 1 ->
  BufMgr_flushFile f (set_file f (mkFile (fileName o) 0 (unixFile o)) (w_disk w), w_mgr w) = Some (r, (d', b')) ->
  exists t', DB_closeFile f w = Some (OK, mkWorld (closed_disk d' f (unixFile o)) b' t') /\ of_ok t' /\
    of_map t' = delete (fileName o) (of_map (w_open w)).
Proof.
  intros Hw Ho Hcnt Hfl. pose proof (wo_obj _ _ Hw f o Ho) as Hoo. pose proof (oo_ptr _ _ _ Hoo) as Hptr.
  pose proof (flushFile_frame _ _ _ _ _ _ Hfl) as Hf. destruct (oo_ino _ _ _ Hoo) as (i & Hi & Hdir).
  pose proof (mt_remove_ok (w_open w) (fileName o) (wo_tab_ok _ _ Hw) I) as Her.
  cbn [mt_map mt_remove mt_ok OpenFileHashTbl_table] in Her. rewrite (oo_tab _ _ _ Hoo) in Her.
  destruct Her as (t' & Her & Ht' & Hm'). exists t'. split; [|done].
  unfold DB_closeFile. rewrite decide_False by lia. unfold File_close. rewrite Ho. cbn [mbind option_bind].
  rewrite decide_False by lia. cbn [openCnt fileName unixFile]. rewrite Hcnt.
  replace (1 - 1) with 0 by lia. rewrite decide_True by done. cbn [w_disk w_mgr set_disk w_open].
  rewrite Hfl. cbn [mbind option_bind]. unfold unix_close. rewrite (df_fds _ _ Hf). cbn [set_file unix]. rewrite Hi.
  cbn [mbind option_bind w_disk set_unix files w_open]. rewrite (df_files _ _ Hf). cbn [set_file files].
  rewrite lookup_insert_eq. cbn [mbind option_bind openCnt fileName]. rewrite decide_True by done.
  rewrite Her. cbn [mbind option_bind]. rewrite decide_False by naive_solver.
  unfold File_delete. cbn [w_disk set_open files set_unix]. rewrite (df_files _ _ Hf). cbn [set_file files].
  rewrite lookup_insert_eq. cbn [mbind option_bind openCnt]. rewrite decide_True by done.
  unfold set_disk, closed_disk, free_file, set_unix. cbn. by rewrite (df_files _ _ Hf), (df_fds _ _ Hf).
Qed.

(** The clients of other files do not notice: pins and pinned pages stay. *)
Definition pins_stay (b b' : BufMgr) : Prop :=
  numBufs b' = numBufs b /\ (forall g n, pins b' g n = pins b g n) /\ pinned_stay b b'.

Lemma flushFile_num f (d : Disk) b r d' b' : BufMgr_flushFile f (d, b) = Some (r, (d', b')) -> numBufs b' = numBufs b.
Proof.
  intros Hr. apply (numBufs_op (BFlush f) d b (match r with Ok _ => Ok (AStatus OK) | Err e => Err e end) d' b').
  cbn. unfold bind. rewrite Hr. by destruct r.
Qed.

Lemma DB_closeFile_last T w f o :
  world_ok T w -> files (w_disk w) !! f = Some o -> openCnt o = 1 -> (forall n, pins (w_mgr w) f n = 0) ->
  exists w', DB_closeFile f w = Some (OK, w') /\ world_ok T w' /\
    of_map (w_open w') = delete (fileName o) (of_map (w_open w)) /\
    (forall nm n, named_page w' nm n = named_page w nm n) /\
    (forall n, stored_page w' (fileName o) n = logical (w_disk w) (w_mgr w) f n) /\
    pins_stay (w_mgr w) (w_mgr w') /\ files (w_disk w') = delete f (files (w_disk w)) /\
    u_dir (unix (w_disk w')) = u_dir (unix (w_disk w)) /\
    u_fds (unix (w_disk w')) = delete (unixFile o) (u_fds (unix (w_disk w))) /\
    u_maxFds (unix (w_disk w')) = u_maxFds (unix (w_disk w)) /\ nextPtr (w_disk w') = nextPtr (w_disk w).
Proof.
  intros Hw Ho Hcnt Hpins. pose proof (wo_obj _ _ Hw f o Ho) as Hoo. pose proof (oo_ptr _ _ _ Hoo) as Hptr.
  destruct (set_cnt_ok T w f o 0 Hw Ho) as (Hd1 & Hp1 & Hpg1).
  destruct (BufMgr_flushFile_ok T _ _ f Hp1 ltac:(lia)) as (r & d' & b' & Hfl & Hp' & Hv & Hres).
  destruct r as [[]|e]; [|destruct Hres as (_ & n & Hn); rewrite Hpins in Hn; lia].
  pose proof (flushFile_frame _ _ _ _ _ _ Hfl) as Hf. destruct (oo_ino _ _ _ Hoo) as (i & Hi & Hdir).
  destruct (DB_closeFile_run T w f o d' b' _ Hw Ho Hcnt Hfl) as (t' & Hrun & Ht' & Hm').
  destruct (closed_world T w f o d' b' Hw Ho Hf Hp' ltac:(intros n; apply Hres)) as (Hd & Hu & Hp & Hpg).
  set (w' := mkWorld (closed_disk d' f (unixFile o)) b' t') in *.
  assert (forall g n, logical (w_disk w) (w_mgr w) g n = logical d' b' g n) as Hlog.
  { intros g n. destruct Hv as [Hvl _]. rewrite Hvl. unfold logical. destruct (frame_of _ g n); [done|]. symmetry. apply Hpg1. }
  assert (forall n, stored_page w' (fileName o) n = logical (w_disk w) (w_mgr w) f n) as Hst.
  { intros n. rewrite Hlog. destruct (Hres n) as [Hn _]. unfold logical. rewrite Hn. change (ps_page d' f n) with (disk_page d' f n).
    assert (conn d' f = Some i) as Hci by (rewrite (disk_frame_conn _ _ _ Hf), set_cnt_conn by done; unfold conn; rewrite Ho; exact Hi).
    destruct (disk_formatted _ _ _ (pi_store _ _ _ _ Hp') Hci) as (c & Hc & Hfc).
    rewrite (stored_formatted w' _ i c); [|cbn; by rewrite (df_dir _ _ Hf)|done|done]. unfold disk_page, content. rewrite Hci. cbn. by rewrite Hc. }
  exists w'. split; [done|]. split; [|split; [done|split; [|split; [done|split; [|split]]]]].
  - pose proof Hw as [H1 H2 H3 H4 H5 H6]. split; try done.
    + cbn. rewrite (df_files _ _ Hf). cbn. intros g og. rewrite delete_insert_eq. intros [Hg Hog]%lookup_delete_Some.
      destruct (H3 g og Hog) as [O1 O2 O3 O4]. split; cbn; try done.
      * rewrite Hm', lookup_delete_ne; [done|]. intros Heq. pose proof (oo_tab _ _ _ Hoo). congruence.
      * by rewrite (df_ptr _ _ Hf).
      * destruct O4 as (j & Hj & Hdj). exists j. rewrite (df_fds _ _ Hf), (df_dir _ _ Hf). split; [|done].
        cbn. rewrite lookup_delete_ne; [done|]. intros Heq. apply Hg. rewrite <- Heq, Hi in Hj. injection Hj as <-.
        eapply (object_inj w f g o og i); [done|by apply H3|done|done|done].
    + cbn. intros nm g. rewrite Hm'. intros [Hnm Hg]%lookup_delete_Some. destruct (H4 nm g Hg) as (og & Hog & Hn).
      exists og. split; [|done]. rewrite (df_files _ _ Hf). cbn. rewrite delete_insert_eq, lookup_delete_ne; [done|].
      intros <-. congruence.
    + cbn. by rewrite (df_ptr _ _ Hf).
  - intros nm n. unfold named_page at 1. cbn [w_open w']. rewrite Hm'. destruct (decide (nm = fileName o)) as [->|Hnm].
    + rewrite lookup_delete_eq, Hst. unfold named_page. by rewrite (oo_tab _ _ _ Hoo).
    + rewrite lookup_delete_ne by done. unfold named_page. destruct (of_map (w_open w) !! nm) as [g|] eqn:Hg.
      * rewrite Hlog. unfold logical. cbn [w_mgr w_disk w']. destruct (frame_of b' g n); [done|]. apply Hpg.
        destruct (wo_tab _ _ Hw nm g Hg) as (og & Hog & Hn). intros ->. congruence.
      * unfold stored_page. cbn. rewrite (df_dir _ _ Hf). cbn. destruct (u_dir (unix (w_disk w)) !! nm) as [j|] eqn:Hj; [|done].
        cbn. rewrite (df_data _ _ Hf); [done|]. intros g. rewrite set_cnt_conn by done. intros Hgj.
        destruct (world_conn T w g j Hw Hgj) as (og & _ & Hog & _ & Hdj).
        pose proof (uo_inj _ (wo_unix _ _ Hw) _ _ _ Hj Hdj) as ->. pose proof (oo_tab _ _ _ Hog). congruence.
  - destruct Hv as (_ & Hvp & _ & Hvs). split; [by eapply flushFile_num|]. by split.
  - cbn. rewrite (df_files _ _ Hf). cbn. apply delete_insert_eq.
  - cbn. by rewrite (df_dir _ _ Hf), (df_fds _ _ Hf), (df_maxFds _ _ Hf), (df_ptr _ _ Hf).
Qed.

(** Closing one of several references only counts it off. *)
Lemma DB_closeFile_more T w f o :
  world_ok T w -> files (w_disk w) !! f = Some o -> 1 < openCnt o ->
  exists w', DB_closeFile f w = Some (OK, w') /\ world_ok T w' /\
    files (w_disk w') !! f = Some (mkFile (fileName o) (openCnt o - 1) (unixFile o)) /\
    (forall nm n, named_page w' nm n = named_page w nm n) /\
    w' = set_disk (set_file f (mkFile (fileName o) (openCnt o - 1) (unixFile o)) (w_disk w)) w.
Proof.
  intros Hw Ho Hcnt. pose proof (wo_obj _ _ Hw f o Ho) as Hoo. pose proof (oo_ptr _ _ _ Hoo) as Hptr.
  destruct (set_cnt_ok T w f o (openCnt o - 1) Hw Ho) as (Hd' & Hp' & Hpg).
  eexists. split.
  { unfold DB_closeFile. rewrite decide_False by lia. unfold File_close. rewrite Ho. cbn [mbind option_bind].
    rewrite decide_False by lia. cbn [openCnt fileName unixFile]. rewrite decide_False by lia.
    cbn [mbind option_bind w_disk set_disk files set_file]. rewrite lookup_insert_eq. cbn [mbind option_bind openCnt].
    rewrite decide_False by lia. reflexivity. }
  split; [|split; [|split; [|reflexivity]]].
  - destruct Hw as [H1 H2 H3 H4 H5 H6]. split; try done.
    + intros g og. cbn. intros [[<- <-]|[Hg Hog]]%lookup_insert_Some.
      * destruct Hoo as [? ? ? ?]. split; cbn; try done. lia.
      * destruct (H3 g og Hog) as [? ? ? ?]. by split.
    + intros nm g Hg. destruct (H4 nm g Hg) as (og & Hog & Hnm). cbn. destruct (decide (g = f)) as [->|Hgf].
      * rewrite lookup_insert_eq. eexists. split; [done|]. cbn. congruence.
      * rewrite lookup_insert_ne by done. by exists og.
  - cbn. by rewrite lookup_insert_eq.
  - intros nm n. unfold named_page. cbn. destruct (of_map (w_open w) !! nm) as [g|]; [|done].
    unfold logical. destruct (frame_of _ g n); [done|]. apply Hpg.
Qed.

(** ** [createFile] and [destroyFile] *)

(** A disk that differs in the directory, in unconnected inodes and in
    descriptors of no object. *)
Lemma world_ok_dir T w u :
  world_ok T w -> unix_ok u -> (forall f o, files (w_disk w) !! f = Some o -> u_fds u !! unixFile o = u_fds (unix (w_disk w)) !! unixFile o) ->
  (forall f i, conn (w_disk w) f = Some i -> u_data u !! i = u_data (unix (w_disk w)) !! i) ->
  (forall f o, files (w_disk w) !! f = Some o -> u_dir u !! fileName o = u_dir (unix (w_disk w)) !! fileName o) ->
  world_ok T (set_disk (set_unix u (w_disk w)) w).
Proof.
  intros Hw Hu Hfds Hdata Hdir. pose proof Hw as [H1 H2 H3 H4 H5 H6].
  assert (forall f, conn (set_unix u (w_disk w)) f = conn (w_disk w) f) as Hc.
  { intros f. unfold conn. cbn. destruct (files (w_disk w) !! f) as [o|] eqn:Ho; [|done]. by apply (Hfds f). }
  assert (forall f n, disk_page (set_unix u (w_disk w)) f n = disk_page (w_disk w) f n) as Hpg.
  { intros f n. unfold disk_page, content. rewrite Hc. destruct (conn (w_disk w) f) as [i|] eqn:Hi; [|done].
    cbn. by rewrite (Hdata f i Hi). }
  assert (disk_ok (set_unix u (w_disk w))) as Hd.
  { apply disk_ok_intro; [done| |].
    - intros f i. rewrite Hc. intros Hi. destruct (world_conn T w f i Hw Hi) as (o & Ho & Hoo & _ & Hdi).
      split; [by eapply (do_ptr _ (pi_store _ _ _ _ H6))|]. destruct (disk_formatted _ _ _ (pi_store _ _ _ _ H6) Hi) as (c & Hc1 & Hc2).
      exists c. split; [|done]. cbn. by rewrite (Hdata f i Hi).
    - intros f g i. rewrite !Hc. apply (do_inj _ (pi_store _ _ _ _ H6)). }
  split; try done.
  - intros f o Ho. destruct (H3 f o Ho) as [O1 O2 O3 (i & O4 & O5)]. split; try done. exists i. cbn.
    rewrite (Hfds f o Ho). split; [done|]. by rewrite (Hdir f o Ho).
  - eapply pool_inv_pages; [exact H6|done|]. intros. apply Hpg.
Qed.

(** An object's descriptor is an old one. *)
Lemma object_fd T w f o : world_ok T w -> files (w_disk w) !! f = Some o -> unixFile o < u_nextFd (unix (w_disk w)).
Proof. intros Hw Ho. destruct (oo_ino _ _ _ (wo_obj _ _ Hw f o Ho)) as (i & Hi & _). by eapply (uo_fd _ (wo_unix _ _ Hw)). Qed.

Lemma inode_old T w nm i : world_ok T w -> u_dir (unix (w_disk w)) !! nm = Some i -> i < u_nextIno (unix (w_disk w)).
Proof. intros Hw Hi. destruct (uo_file _ (wo_unix _ _ Hw) nm i Hi) as [c Hc]. by eapply (uo_ino _ (wo_unix _ _ Hw)). Qed.

(** A new name with new contents [c], and perhaps a new descriptor. *)
Definition with_file (name : string) (c : block) (fds : gmap Z Z) (u : Unix) : Unix :=
  mkUnix (<[name := u_nextIno u]> (u_dir u)) (<[u_nextIno u := c]> (u_data u)) fds (u_nextIno u + 1) (u_nextFd u + 1) (u_maxFds u) (u_fsize u).

Lemma with_file_unix T w name c fds :
  world_ok T w -> u_dir (unix (w_disk w)) !! name = None -> Z.of_nat (length c) <= u_fsize (unix (w_disk w)) ->
  (forall fd i, fds !! fd = Some i -> fd <= u_nextFd (unix (w_disk w))) -> unix_ok (with_file name c fds (unix (w_disk w))).
Proof.
  intros Hw Hdir Hlen Hfds. pose proof (inode_old T w) as Hold. destruct (wo_unix _ _ Hw) as [U1 U2 U3 U4 U5 U6]. split; cbn; try done.
  - intros n1 n2 i [[<- <-]|[Hn1 Hi1]]%lookup_insert_Some [[<- Hi2]|[Hn2 Hi2]]%lookup_insert_Some; try done.
    + specialize (Hold n2 _ Hw Hi2). lia.
    + subst i. specialize (Hold n1 _ Hw Hi1). lia.
    + by eapply U1.
  - intros nm i [[<- <-]|[Hnm Hi]]%lookup_insert_Some; [by rewrite lookup_insert_eq|].
    specialize (Hold nm _ Hw Hi). rewrite lookup_insert_ne by lia. by eapply U2.
  - intros i c' [[<- _]|[_ Hc]]%lookup_insert_Some; [lia|]. specialize (U3 i c' Hc). lia.
  - intros fd i Hi%Hfds. lia.
  - intros i c' [[_ <-]|[_ Hc]]%lookup_insert_Some; [done|by eapply U5].
Qed.

(** The storage layer does not notice it, but for the new name. *)
Lemma with_file_ok T w name c fds :
  let u := with_file name c fds (unix (w_disk w)) in
  world_ok T w -> unix_ok u -> of_map (w_open w) !! name = None ->
  (forall f o, files (w_disk w) !! f = Some o -> fds !! unixFile o = u_fds (unix (w_disk w)) !! unixFile o) ->
  let w' := set_disk (set_unix u (w_disk w)) w in
  world_ok T w' /\ forall nm n, nm <> name -> named_page w' nm n = named_page w nm n.
Proof.
  intros u Hw Hu Hno Hfds w'. pose proof (inode_old T w) as Hold.
  assert (forall f i, conn (w_disk w) f = Some i -> u_data u !! i = u_data (unix (w_disk w)) !! i) as Hdata.
  { intros f i Hi. destruct (world_dir T w f i Hw Hi) as [n Hn]. specialize (Hold n i Hw Hn). cbn. by rewrite lookup_insert_ne by lia. }
  split; [apply world_ok_dir; try done|].
  - intros f o Ho. cbn. rewrite lookup_insert_ne; [done|]. intros Heq. pose proof (oo_tab _ _ _ (wo_obj _ _ Hw f o Ho)). congruence.
  - intros nm n Hnm. unfold named_page. cbn [w_open set_disk w']. destruct (of_map (w_open w) !! nm) as [g|] eqn:Hg.
    + unfold logical. change (w_mgr w') with (w_mgr w). destruct (frame_of (w_mgr w) g n); [done|]. change (disk_page (set_unix u (w_disk w)) g n = disk_page (w_disk w) g n).
      unfold disk_page, content. assert (conn (set_unix u (w_disk w)) g = conn (w_disk w) g) as ->.
      { unfold conn. cbn. destruct (files (w_disk w) !! g) as [o|] eqn:Ho; [|done]. by apply (Hfds g). }
      destruct (conn (w_disk w) g) as [i|] eqn:Hi; [|done]. cbn [mbind option_bind]. change (u_data (unix (set_unix u (w_disk w)))) with (u_data u). by rewrite (Hdata g i Hi).
    + unfold stored_page. cbn. rewrite lookup_insert_ne by done.
      destruct (u_dir (unix (w_disk w)) !! nm) as [i|] eqn:Hi; [|done]. cbn. specialize (Hold nm i Hw Hi). by rewrite lookup_insert_ne by lia.
Qed.

(** [createFile] of a new name with a free descriptor. *)
Lemma DB_createFile_run T w name :
  let u := unix (w_disk w) in
  world_ok T w -> name <> ""%string -> of_map (w_open w) !! name = None -> u_dir u !! name = None -> Z.of_nat (size (u_fds u)) < u_maxFds u ->
  exists c, let room := decide (PAGESIZE <= u_fsize u) in
    let w' := set_disk (set_unix (with_file name c (if room then u_fds u else <[u_nextFd u := u_nextIno u]> (u_fds u)) u) (w_disk w)) w in
    DB_createFile name w = Some (if room then OK else UNIXERR, w') /\ world_ok T w' /\
    (forall n, named_page w' name n = None) /\ (forall nm n, nm <> name -> named_page w' nm n = named_page w nm n) /\
    if room then file_okb c = true else Z.of_nat (length c) = u_fsize u.
Proof.
  intros u Hw Hne Hno Hdir Hfds. pose proof (wo_unix _ _ Hw) as Hu. pose proof (uo_fsize _ Hu) as Hs. subst u.
  assert (u_fds (unix (w_disk w)) !! u_nextFd (unix (w_disk w)) = None) as Hfresh.
  { destruct (u_fds _ !! u_nextFd _) as [i|] eqn:Hc; [|done]. pose proof (uo_fd _ Hu _ _ Hc). lia. }
  destruct (File_create_run name (w_disk w) Hdir Hfds Hfresh ltac:(lia)) as (h & Hf & Hlh & Hrun). cbv zeta in Hrun.
  exists (take (Z.to_nat (u_fsize (unix (w_disk w)))) h). cbv zeta. set (room := decide _) in *. set (fds := if room then u_fds (unix (w_disk w)) else _) in *.
  fold (with_file name (take (Z.to_nat (u_fsize (unix (w_disk w)))) h) fds (unix (w_disk w))) in Hrun.
  assert (forall fd i, fds !! fd = Some i -> fd <= u_nextFd (unix (w_disk w))) as Hle.
  { intros fd i. subst fds. destruct room; [intros Hi; pose proof (uo_fd _ Hu _ _ Hi); lia|].
    intros [[<- _]|[_ Hi]]%lookup_insert_Some; [lia|]. pose proof (uo_fd _ Hu _ _ Hi). lia. }
  assert (forall f o, files (w_disk w) !! f = Some o -> fds !! unixFile o = u_fds (unix (w_disk w)) !! unixFile o) as Hsame.
  { intros f o Ho. subst fds. destruct room; [done|]. pose proof (object_fd T w f o Hw Ho). by rewrite lookup_insert_ne by lia. }
  set (c := take _ h) in *. assert (Z.of_nat (length c) = Z.min (u_fsize (unix (w_disk w))) PAGESIZE) as Hlc by (subst c; rewrite length_take; lia).
  destruct (with_file_ok T w name c fds Hw (with_file_unix T w name c fds Hw Hdir ltac:(lia) Hle) Hno Hsame) as [Hw' Hoth].
  assert (PAGESIZE <= u_fsize (unix (w_disk w)) -> c = h) as Hch by (intros; subst c; apply take_ge; lia).
  split; [|split; [done|split; [|split; [done|]]]].
  - unfold DB_createFile. rewrite decide_False by done. rewrite (find_run w name (wo_tab_ok _ _ Hw)), Hno. cbn [mbind option_bind]. by rewrite Hrun.
  - intros n. unfold named_page. cbn [w_open set_disk]. rewrite Hno. unfold stored_page. cbn. rewrite lookup_insert_eq.
    cbn. rewrite lookup_insert_eq. cbn. destruct (file_okb c && _) eqn:Hb; [|done].
    apply andb_true_iff in Hb as [[m [fr Hfm]]%file_okb_spec Hn%bool_decide_eq_true_1]. destruct (page_at c n) as [p|] eqn:Hp; [|done].
    pose proof (page_at_range c m n p (fo_len _ _ _ Hfm) Hp). destruct (fo_len _ _ _ Hfm) as [Hl _]. rewrite PAGESIZE_eq in *. lia.
  - destruct room; [rewrite Hch by done; apply file_okb_spec; by exists 1, []|lia].
Qed.

Lemma DB_createFile_ok T w name :
  world_ok T w -> name <> ""%string -> of_map (w_open w) !! name = None ->
  u_dir (unix (w_disk w)) !! name = None ->
  Z.of_nat (size (u_fds (unix (w_disk w)))) < u_maxFds (unix (w_disk w)) -> PAGESIZE <= u_fsize (unix (w_disk w)) ->
  exists w', DB_createFile name w = Some (OK, w') /\ world_ok T w' /\
    (exists i, u_dir (unix (w_disk w')) = <[name := i]> (u_dir (unix (w_disk w))) /\ formatted (unix (w_disk w')) i) /\ (forall n, named_page w' name n = None) /\
    (forall nm n, nm <> name -> named_page w' nm n = named_page w nm n) /\
    w_mgr w' = w_mgr w /\ w_open w' = w_open w /\ files (w_disk w') = files (w_disk w) /\
    nextPtr (w_disk w') = nextPtr (w_disk w) /\ u_fds (unix (w_disk w')) = u_fds (unix (w_disk w)) /\
    u_maxFds (unix (w_disk w')) = u_maxFds (unix (w_disk w)).
Proof.
  intros Hw Hne Hno Hdir Hfds Hs. destruct (DB_createFile_run T w name Hw Hne Hno Hdir Hfds) as (c & Hrun). cbv zeta in Hrun.
  destruct (decide _); [|done]. destruct Hrun as (R & Hw' & Hn & Ho & Hc). eexists. split; [exact R|]. split; [done|].
  split; [|done]. eexists. split; [done|]. exists c. split; [apply lookup_insert_eq|done].
Qed.

Lemma DB_destroyFile_ok T w name :
  world_ok T w -> name <> ""%string -> of_map (w_open w) !! name = None -> is_Some (u_dir (unix (w_disk w)) !! name) ->
  exists w', DB_destroyFile name w = Some (OK, w') /\ world_ok T w' /\ u_dir (unix (w_disk w')) !! name = None /\
    (forall n, named_page w' name n = None) /\ (w_open w' = w_open w /\ nextPtr (w_disk w') = nextPtr (w_disk w)) /\ forall nm n, nm <> name -> named_page w' nm n = named_page w nm n.
Proof.
  intros Hw Hne Hno [i Hdir]. set (u := set_dir (delete name (u_dir (unix (w_disk w)))) (unix (w_disk w))).
  exists (set_disk (set_unix u (w_disk w)) w). split; [|split; [|split; [|split; [|split; [done|]]]]].
  - unfold DB_destroyFile. rewrite decide_False by done. rewrite (find_run w name (wo_tab_ok _ _ Hw)), Hno.
    cbn [mbind option_bind]. unfold File_destroy, unix_remove. by rewrite Hdir.
  - apply world_ok_dir; try done.
    + destruct (wo_unix _ _ Hw) as [U1 U2 U3 U4 U5 U6]. split; try done; cbn.
      * intros n1 n2 j [_ H1]%lookup_delete_Some [_ H2]%lookup_delete_Some. by eapply U1.
      * intros nm j [_ Hj]%lookup_delete_Some. by eapply U2.
    + intros f o Ho. cbn. rewrite lookup_delete_ne; [done|]. intros Heq.
      pose proof (oo_tab _ _ _ (wo_obj _ _ Hw f o Ho)). congruence.
  - cbn. apply lookup_delete_eq.
  - intros n. unfold named_page. cbn [w_open set_disk]. rewrite Hno. unfold stored_page. cbn. by rewrite lookup_delete_eq.
  - intros nm n Hnm. unfold named_page. cbn [w_open set_disk]. destruct (of_map (w_open w) !! nm) as [g|]; [done|].
    unfold stored_page. cbn. by rewrite lookup_delete_ne by done.
Qed.

(** ** A small database *)

Definition demo_world0 : World := mkWorld (mkDisk demo_unix ∅ 4096) (BufMgr_new 2) OpenFileHashTbl_new.

Lemma demo_world0_ok : world_ok ∅ demo_world0.
Proof.
  assert (unix_ok demo_unix) as Hu by (split; try done; by vm_compute).
  assert (disk_ok (mkDisk demo_unix ∅ 4096)) as Hd by (by apply disk_ok_intro).
  split; try done.
  - apply OpenFileHashTbl_new_ok.
  - apply BufMgr_new_ok; [done|lia].
Qed.

(** The database after creating and opening a file and storing a page in it. *)
Definition demo_world : option (World * Z) :=
  '(_, w) ← DB_createFile "r" demo_world0;
  '(r, w) ← DB_openFile "r" w;
  f ← match r with Ok f => Some f | Err _ => None end;
  Some (w, f).

Lemma demo_world_ok : exists w f o, demo_world = Some (w, f) /\ world_ok ∅ w /\
  files (w_disk w) !! f = Some o /\ fileName o = "r"%string /\ openCnt o = 1 /\ forall n, pins (w_mgr w) f n = 0.
Proof.
  destruct (DB_createFile_ok ∅ demo_world0 "r" demo_world0_ok) as (w1 & H1 & Hw1 & (i & Hd1 & Hfo) & _); [done|by vm_compute..|].
  assert (u_dir (unix (w_disk w1)) !! "r"%string = Some i) as Hi by (rewrite Hd1; apply lookup_insert_eq).
  assert (w1 = default demo_world0 (snd <$> DB_createFile "r" demo_world0)) as Hw1e by (by rewrite H1).
  destruct (DB_openFile_new ∅ w1 "r" i Hw1) as (w2 & H2 & Hw2 & Hm2 & _); [done| |done|done| | |].
  1-3: rewrite Hw1e; by vm_compute.
  assert (of_map (w_open w2) !! "r"%string = Some (nextPtr (w_disk w1))) as Hf by (rewrite Hm2; apply lookup_insert_eq).
  destruct (wo_tab _ _ Hw2 _ _ Hf) as (o & Ho & Hn). exists w2, (nextPtr (w_disk w1)), o.
  assert (demo_world = Some (w2, nextPtr (w_disk w1))) as Hd.
  { unfold demo_world. rewrite H1. cbn [mbind option_bind]. rewrite H2. done. }
  split; [done|]. split; [done|]. split; [done|]. split; [done|].
  assert ((fun '(w, f) => (openCnt <$> files (w_disk w) !! f, bh_map (hashTable (w_mgr w)))) <$> demo_world =
    Some (Some 1, ∅)) as Hc by (vm_compute; reflexivity).
  rewrite Hd in Hc. cbn [fmap option_fmap option_map] in Hc. injection Hc as Hc1 Hc2. rewrite Ho in Hc1.
  injection Hc1 as Hc1. split; [done|]. intros n. unfold pins, frame_of. by rewrite Hc2, lookup_empty.
Qed.

(** ** Properties *)

(** Closing a file makes it durable: when the last reference is closed
    and none of its pages is pinned, [closeFile] returns [OK], takes the file
    out of the table, and the Unix file of that name holds every page as the
    clients saw it; no other file looks different. *)
Theorem closeFile_durable T w f o :
  world_ok T w -> files (w_disk w) !! f = Some o -> openCnt o = 1 -> (forall n, pins (w_mgr w) f n = 0) ->
  exists w', DB_closeFile f w = Some (OK, w') /\ world_ok T w' /\ of_map (w_open w') !! fileName o = None /\
    (forall n, stored_page w' (fileName o) n = logical (w_disk w) (w_mgr w) f n) /\
    (forall nm n, named_page w' nm n = named_page w nm n).
Proof.
  intros Hw Ho Hcnt Hp. destruct (DB_closeFile_last T w f o Hw Ho Hcnt Hp) as (w' & Hr & Hw' & Hm & Hn & Hs & _).
  exists w'. split; [done|]. split; [done|]. split; [by rewrite Hm, lookup_delete_eq|]. done.
Qed.

Lemma closeFile_durable_witness :
  exists w f w', demo_world = Some (w, f) /\ DB_closeFile f w = Some (OK, w') /\
    of_map (w_open w') !! "r"%string = None.
Proof.
  destruct demo_world_ok as (w & f & o & Hd & Hw & Ho & Hn & Hc & Hp).
  destruct (closeFile_durable ∅ w f o Hw Ho Hc Hp) as (w' & Hr & _ & Hm & _).
  rewrite Hn in Hm. exists w, f, w'. exact (conj Hd (conj Hr Hm)).
Defined.

(** C24.  Closing and reopening a file loses nothing: the new [File] object
    shows exactly the pages the old one showed, those that were only in the
    buffer pool included. *)
Theorem close_reopen_roundtrip T w f o :
  world_ok T w -> files (w_disk w) !! f = Some o -> fileName o <> ""%string -> openCnt o = 1 ->
  (forall n, pins (w_mgr w) f n = 0) -> nextPtr (w_disk w) + 64 <= 2 ^ 62 ->
  Z.of_nat (size (u_fds (unix (w_disk w)))) <= u_maxFds (unix (w_disk w)) ->
  exists w1 g w2, DB_closeFile f w = Some (OK, w1) /\ DB_openFile (fileName o) w1 = Some (Ok g, w2) /\
    world_ok T w2 /\ forall n, logical (w_disk w2) (w_mgr w2) g n = logical (w_disk w) (w_mgr w) f n.
Proof.
  intros Hw Ho Hne Hcnt Hp Hptr Hfds. pose proof (wo_obj _ _ Hw f o Ho) as Hoo. pose proof (oo_ptr _ _ _ Hoo) as Hfp.
  destruct (oo_ino _ _ _ Hoo) as (i & Hi & Hdir).
  destruct (set_cnt_ok T w f o 0 Hw Ho) as (Hd1 & Hp1 & _).
  destruct (BufMgr_flushFile_ok T _ _ f Hp1 ltac:(lia)) as (r & d' & b' & Hfl & [Hd' _ _ _ _ _ _] & _).
  pose proof (flushFile_frame _ _ _ _ _ _ Hfl) as Hf.
  destruct (DB_closeFile_run T w f o d' b' r Hw Ho Hcnt Hfl) as (t' & Hrun & _ & _).
  destruct (DB_closeFile_last T w f o Hw Ho Hcnt Hp) as (w1 & Hr & Hw1 & Hm & Hn & Hs & _).
  rewrite Hrun in Hr. injection Hr as <-. set (w1 := mkWorld _ _ _) in *.
  destruct (DB_openFile_new T w1 (fileName o) i Hw1 Hne) as (w2 & Hr2 & Hw2 & Hm2 & Hn2 & _).
  - by rewrite Hm, lookup_delete_eq.
  - cbn. by rewrite (df_dir _ _ Hf).
  - apply (disk_formatted d' f i); [done|]. rewrite (disk_frame_conn _ _ _ Hf), set_cnt_conn by done. unfold conn. rewrite Ho. exact Hi.
  - cbn. rewrite (df_fds _ _ Hf), (df_maxFds _ _ Hf). cbn. rewrite map_size_delete_Some by (by eexists).
    assert (size (u_fds (unix (w_disk w))) <> 0%nat); [|lia].
    intros Hz%map_size_empty_inv. by rewrite Hz, lookup_empty in Hi.
  - cbn. by rewrite (df_ptr _ _ Hf).
  - exists w1, (nextPtr (w_disk w1)), w2. split; [done|]. split; [done|]. split; [done|]. intros n.
    pose proof (Hn2 (fileName o) n) as H2. pose proof (Hn (fileName o) n) as H1. rewrite H1 in H2.
    unfold named_page in H2. by rewrite Hm2, lookup_insert_eq, (oo_tab _ _ _ Hoo) in H2.
Qed.

Lemma close_reopen_roundtrip_witness :
  exists w f w1 g w2, demo_world = Some (w, f) /\ DB_closeFile f w = Some (OK, w1) /\
    DB_openFile "r" w1 = Some (Ok g, w2).
Proof.
  destruct demo_world_ok as (w & f & o & Hd & Hw & Ho & Hn & Hc & Hp).
  assert ((fun '(w, f) => (nextPtr (w_disk w), size (u_fds (unix (w_disk w))), u_maxFds (unix (w_disk w)))) <$> demo_world =
    Some (4160, 1%nat, 16)) as Hv by (vm_compute; reflexivity).
  rewrite Hd in Hv. cbn [fmap option_fmap option_map] in Hv. injection Hv as H1 H2 H3.
  destruct (close_reopen_roundtrip ∅ w f o Hw Ho) as (w1 & g & w2 & Hr1 & Hr2 & _);
    [rewrite Hn; done|done|done|rewrite H1; lia|rewrite H2, H3; lia|].
  rewrite Hn in Hr2. exists w, f, w1, g, w2. exact (conj Hd (conj Hr1 Hr2)).
Defined.

(** C33.  [createFile] and [destroyFile] return the documented status in every
    case: an empty name is [BADFILE]; a file that is open or exists is
    [FILEEXISTS] for the one and, when open, [FILEOPEN] for the other; a full
    descriptor table and a missing file are [UNIXERR]; none of these changes
    anything.  When the header page does not fit into the largest file,
    [createFile] returns [UNIXERR] and leaves a file without pages that holds
    the bytes that fit, and its descriptor open.  Otherwise the name has an
    empty file afterwards, respectively no file.  All other files keep their
    pages. *)
Theorem create_destroy_statuses T w name :
  world_ok T w ->
  let u := unix (w_disk w) in
  let opened := of_map (w_open w) !! name in
  let stored := u_dir u !! name in
  (name = ""%string -> DB_createFile name w = Some (BADFILE, w) /\ DB_destroyFile name w = Some (BADFILE, w)) /\
  (name <> ""%string -> is_Some stored -> DB_createFile name w = Some (FILEEXISTS, w)) /\
  (name <> ""%string -> is_Some opened -> DB_destroyFile name w = Some (FILEOPEN, w)) /\
  (name <> ""%string -> stored = None -> u_maxFds u <= Z.of_nat (size (u_fds u)) -> DB_createFile name w = Some (UNIXERR, w)) /\
  (name <> ""%string -> stored = None -> DB_destroyFile name w = Some (UNIXERR, w)) /\
  (name <> ""%string -> stored = None -> Z.of_nat (size (u_fds u)) < u_maxFds u ->
     exists st w', DB_createFile name w = Some (st, w') /\ world_ok T w' /\ (forall n, named_page w' name n = None) /\
       (forall nm n, nm <> name -> named_page w' nm n = named_page w nm n) /\
       exists i c, u_dir (unix (w_disk w')) = <[name := i]> (u_dir u) /\ u_data (unix (w_disk w')) !! i = Some c /\
         if decide (PAGESIZE <= u_fsize u) then st = OK /\ file_okb c = true /\ u_fds (unix (w_disk w')) = u_fds u
         else st = UNIXERR /\ Z.of_nat (length c) = u_fsize u /\ u_fds (unix (w_disk w')) = <[u_nextFd u := i]> (u_fds u)) /\
  (name <> ""%string -> opened = None -> is_Some stored ->
     exists w', DB_destroyFile name w = Some (OK, w') /\ world_ok T w' /\ u_dir (unix (w_disk w')) !! name = None /\
       forall nm n, nm <> name -> named_page w' nm n = named_page w nm n).
Proof.
  intros Hw u opened stored.
  assert (stored = None -> opened = None) as Hso.
  { intros Hs. destruct opened as [f|] eqn:Hf; [|done]. destruct (wo_tab _ _ Hw name f Hf) as (o & Ho & Hn).
    destruct (oo_ino _ _ _ (wo_obj _ _ Hw f o Ho)) as (i & _ & Hi). rewrite Hn in Hi. subst stored u. congruence. }
  pose proof (find_run w name (wo_tab_ok _ _ Hw)) as Hfind. fold opened in Hfind.
  assert (set_disk (set_unix (unix (w_disk w)) (w_disk w)) w = w) as Hid.
  { rewrite set_unix_id. by destruct w. }
  assert (set_disk (w_disk w) w = w) as Hid2 by (by destruct w).
  split; [by intros ->|]. split; [|split; [|split; [|split; [|split]]]].
  - intros Hne [i Hi]. unfold DB_createFile. rewrite Hfind, decide_False by done. cbn [mbind option_bind]. destruct opened as [f|]; [done|].
    unfold File_create, unix_creat. subst stored u. rewrite Hi. cbn. by rewrite Hid2.
  - intros Hne [f Hf]. unfold DB_destroyFile. rewrite Hfind, decide_False by done. by rewrite Hf.
  - intros Hne Hs Hfull. unfold DB_createFile. rewrite Hfind, decide_False by done. rewrite (Hso Hs). cbn [mbind option_bind]. unfold File_create, unix_creat.
    subst stored u. rewrite Hs, decide_True by done. cbn. by rewrite Hid2.
  - intros Hne Hs. unfold DB_destroyFile. rewrite Hfind, decide_False by done. rewrite (Hso Hs). cbn [mbind option_bind]. unfold File_destroy, unix_remove.
    subst stored u. rewrite Hs. by rewrite Hid.
  - intros Hne Hs Hfds. destruct (DB_createFile_run T w name Hw Hne (Hso Hs) Hs Hfds) as (c & Hrun). cbv zeta in Hrun. fold u in Hrun.
    destruct Hrun as (R & Hw' & Hn & Ho & Hc). eexists _, _. split; [exact R|]. do 3 (split; [done|]). exists (u_nextIno u), c. cbn.
    split; [done|]. split; [apply lookup_insert_eq|]. by destruct (decide _).
  - intros Hne Ho Hs. destruct (DB_destroyFile_ok T w name Hw Hne Ho Hs) as (w' & Hr & Hw' & Hd & _ & _ & Hoth). by exists w'.
Qed.

Lemma create_destroy_statuses_witness :
  exists w', DB_createFile "r" demo_world0 = Some (OK, w') /\ world_ok ∅ w' /\
    DB_createFile "r" w' = Some (FILEEXISTS, w').
Proof.
  destruct (create_destroy_statuses ∅ demo_world0 "r" demo_world0_ok) as (_ & _ & _ & _ & _ & Hc & _).
  destruct Hc as (st & w' & Hr & Hw' & _ & _ & i & c & _ & _ & Hst); [done|by vm_compute..|].
  rewrite decide_True in Hst by (vm_compute; discriminate). destruct Hst as [-> _]. exists w'. split; [exact Hr|]. split; [exact Hw'|].
  apply (create_destroy_statuses ∅ w' "r" Hw'); [done|].
  assert ((fun '(_, w) => bool_decide (is_Some (u_dir (unix (w_disk w)) !! "r"%string))) <$> DB_createFile "r" demo_world0 =
    Some true) as Hv by (vm_compute; reflexivity).
  rewrite Hr in Hv. cbn [fmap option_fmap option_map] in Hv. injection Hv as Hv. exact (bool_decide_eq_true_1 _ Hv).
Defined.

(** References are counted: opening a file that is open hands out the
    same object, and the matching close leaves the file open with every page
    as before, whatever is pinned. *)
Theorem open_twice_close_once T w name f o :
  world_ok T w -> name <> ""%string -> of_map (w_open w) !! name = Some f -> files (w_disk w) !! f = Some o ->
  openCnt o < 2 ^ 31 - 1 ->
  exists w1 w2, DB_openFile name w = Some (Ok f, w1) /\ DB_closeFile f w1 = Some (OK, w2) /\ world_ok T w2 /\
    files (w_disk w2) !! f = Some o /\ forall nm n, named_page w2 nm n = named_page w nm n.
Proof.
  intros Hw Hne Hf Ho Hlt. pose proof (oo_cnt _ _ _ (wo_obj _ _ Hw f o Ho)) as Hc.
  destruct (wo_tab _ _ Hw name f Hf) as (o' & Ho' & Hn). assert (o' = o) as -> by congruence.
  destruct (DB_openFile_again T w name f o Hw Hne Hf Ho Hlt) as (w1 & H1 & Hw1 & Ho1 & Hn1 & _).
  destruct (DB_closeFile_more T w1 f _ Hw1 Ho1) as (w2 & H2 & Hw2 & Ho2 & Hn2 & _); [cbn; lia|].
  exists w1, w2. split; [done|]. split; [done|]. split; [done|]. split.
  - rewrite Ho2. cbn. f_equal. destruct o as [nm c u]. cbn in *. rewrite Hn. f_equal. lia.
  - intros nm n. by rewrite Hn2, Hn1.
Qed.

Lemma open_twice_close_once_witness :
  exists w f w1 w2, demo_world = Some (w, f) /\ DB_openFile "r" w = Some (Ok f, w1) /\ DB_closeFile f w1 = Some (OK, w2).
Proof.
  destruct demo_world_ok as (w & f & o & Hd & Hw & Ho & Hn & Hc & Hp).
  pose proof (oo_tab _ _ _ (wo_obj _ _ Hw f o Ho)) as Ht. rewrite Hn in Ht.
  destruct (open_twice_close_once ∅ w "r" f o Hw) as (w1 & w2 & H1 & H2 & _); [done|exact Ht|exact Ho|rewrite Hc; lia|].
  exists w, f, w1, w2. exact (conj Hd (conj H1 H2)).
Defined.

(** ** Closing a file while a page is pinned *)

(** Run buffer manager code on the storage layer. *)
Definition on_pool {A} (m : CODE (Disk * BufMgr) A) (w : World) : option (result A * World) :=
  '(r, (d, b)) ← m (w_disk w, w_mgr w); Some (r, mkWorld d b (w_open w)).

(** A page of ["r"] is allocated and still pinned when the file is closed;
    the client unpins it later and goes on with other pages. *)
Definition close_pinned : option (Status * World) :=
  '(w, f) ← demo_world;
  '(_, w) ← on_pool (BufMgr_allocPage f) w;
  '(st, w) ← DB_closeFile f w;
  '(_, w) ← on_pool (BufMgr_unPinPage f 1 true) w;
  Some (st, w).

Definition reopen (w : World) : option (Z * World) :=
  '(r, w) ← DB_openFile "r" w;
  g ← match r with Ok g => Some g | Err _ => None end;
  '(_, w) ← on_pool (BufMgr_allocPage g) w;
  Some (g, w).

(** A frame with changes to write back through a freed [File] object. *)
Definition dangling_frame (w : World) (x : BufDesc) : bool :=
  bd_valid x && bd_dirty x && bool_decide (files (w_disk w) !! bd_file x = None).

(** [File::close] ignores the status of [flushFile].  Closing a file
    with a pinned page returns [OK] and frees the [File] object while a frame
    of the pool still refers to it; when that frame is chosen for another
    page the buffer manager writes through the dangling pointer, which is
    undefined behaviour. *)
Theorem close_pinned_dangles :
  ('(st, w) ← close_pinned; '(g, w') ← reopen w;
   Some (st, existsb (dangling_frame w) (bufTable (w_mgr w)), fst <$> on_pool (BufMgr_allocPage g) w')) =
  Some (OK, true, None).
Proof. vm_compute. reflexivity. Qed.
