(* ===== verification/Match.v ===== *)
(** * Scan predicates (matchRec of heapfile.C)

    The comparison of an attribute of a record with a filter value: the three
    datatypes, the [float] difference all of them go through, and the six
    operators. *)

From Stdlib Require Export SpecFloat.
From S2P Require Export Page.

(** ** The data types of heapfile.h *)

Inductive Datatype : Set := STRING | INTEGER | FLOAT.
Inductive Operator : Set := LT | LTE | EQ | GTE | GT | NE.

#[export] Instance Datatype_eq_dec : EqDecision Datatype.
Proof. solve_decision. Defined.
#[export] Instance Operator_eq_dec : EqDecision Operator.
Proof. solve_decision. Defined.

Definition sizeof_float : Z := 4.

(** ** [float]: IEEE 754 binary32 *)

Definition flt_prec : Z := 24.
Definition flt_emax : Z := 128.

(** The number with the bits [z]. *)
Definition flt_of_bits (z : Z) : spec_float :=
  let s := Z.testbit z 31 in
  let e := Z.land (Z.shiftr z 23) 255 in
  let m := Z.land z (2 ^ 23 - 1) in
  if decide (e = 255) then if decide (m = 0) then S754_infinity s else S754_nan
  else if decide (e = 0) then
    match m with Zpos q => S754_finite s q (-149) | _ => S754_zero s end
  else match m + 2 ^ 23 with Zpos q => S754_finite s q (e - 150) | _ => S754_nan end.

Definition flt_sub (x y : spec_float) : spec_float := SFsub flt_prec flt_emax x y.

(** The conversion of an [int] to [float]. *)
Definition flt_of_int (z : Z) : spec_float := binary_normalize flt_prec flt_emax z 0 false.

(** The sign of a [float]: [None] for a NaN. *)
Definition flt_sign (x : spec_float) : option comparison := SFcompare x (S754_zero false).

(** ** The difference of attribute and filter *)

(** [strncmp(a, b, n)]: bytes compare as [unsigned char], a common NUL ends
    the comparison; reading past the end of either buffer is undefined. *)
Fixpoint strncmp (n : nat) (a b : block) : option Z :=
  match n with
  | O => Some 0
  | S n =>
      x ← head a;
      y ← head b;
      if decide (x = y) then if decide (x = x00) then Some 0 else strncmp n (tail a) (tail b)
      else Some (byteZ x - byteZ y)
  end.

(** [memcpy] of [length] bytes into a variable of four bytes. *)
Definition memcpy4 (src : block) (off len : Z) : option Z :=
  if decide (len = 4) then le_dec <$> rd off 4 src else None.

(** [diff] of [matchRec]. *)
Definition attr_diff (type : Datatype) (rec : Record) (offset length : Z) (filter : block) : option spec_float :=
  match type with
  | INTEGER =>
      iattr ← memcpy4 rec offset length;
      ifltr ← memcpy4 filter 0 length;
      Some (flt_of_int (s32 (s32 iattr - s32 ifltr)))
  | FLOAT =>
      fattr ← memcpy4 rec offset length;
      ffltr ← memcpy4 filter 0 length;
      Some (flt_sub (flt_of_bits fattr) (flt_of_bits ffltr))
  | STRING =>
      flt_of_int <$> strncmp (Z.to_nat length) (drop (Z.to_nat offset) rec) filter
  end.

(** The second [switch]: a comparison with a NaN is false, but for [!=]. *)
Definition op_holds (op : Operator) (diff : spec_float) : bool :=
  match op, flt_sign diff with
  | LT, Some Lt => true
  | LTE, Some (Lt | Eq) => true
  | EQ, Some Eq => true
  | GTE, Some (Eq | Gt) => true
  | GT, Some Gt => true
  | NE, Some (Lt | Gt) | NE, None => true
  | _, _ => false
  end.

(** ** Converting an [int] to [float] keeps its sign *)

Section Float.
Implicit Types (m p q : positive) (e : Z).

Abbreviation digits p := (Zpos (digits2_pos p)).

Lemma digits_xO p : digits p~0 = digits p + 1.
Proof. cbn [digits2_pos]. rewrite Pos2Z.inj_succ. lia. Qed.

Lemma digits_xI p : digits p~1 = digits p + 1.
Proof. cbn [digits2_pos]. rewrite Pos2Z.inj_succ. lia. Qed.

Lemma digits_succ p : digits (Pos.succ p) <= digits p + 1.
Proof.
  induction p as [p IH|p IH|].
  - change (Pos.succ p~1) with (Pos.succ p)~0%positive. rewrite digits_xO, digits_xI. lia.
  - change (Pos.succ p~0) with p~1%positive. rewrite digits_xO, digits_xI. lia.
  - by vm_compute.
Qed.

Lemma digits_lt p (w : Z) : 0 <= w -> Zpos p < 2 ^ w -> digits p <= w.
Proof.
  intros Hw. revert p. pattern w. apply natlike_ind; [|clear w Hw|done].
  - intros p. lia.
  - intros w Hw IH p. rewrite Z.pow_succ_r by done.
    destruct p as [p|p|]; rewrite ?digits_xO, ?digits_xI; intros; [specialize (IH p)|specialize (IH p)|cbn]; lia.
Qed.

Lemma digits_shl p k : digits (Pos.iter xO p k) = digits p + Zpos k.
Proof.
  induction k as [|k IH] using Pos.peano_ind.
  - change (digits p~0 = digits p + 1). apply digits_xO.
  - rewrite Pos.iter_succ, digits_xO, IH. lia.
Qed.

Lemma iter_pos_iter {A} (f : A -> A) n x : SpecFloat.iter_pos f n x = Pos.iter f x n.
Proof.
  revert x. induction n as [n IH|n IH|]; intros x; cbn [SpecFloat.iter_pos]; rewrite ?IH; [|done..].
  cbn [Pos.iter]. by rewrite !Pos.iter_swap.
Qed.

(** Shifting right by less than the number of digits. *)
Lemma shr_pos k p r :
  shr_m r = Zpos p -> Zpos k < digits p ->
  exists q, shr_m (Pos.iter shr_1 r k) = Zpos q /\ digits q = digits p - Zpos k.
Proof.
  intros Hr. induction k as [|k IH] using Pos.peano_ind; intros Hk.
  - destruct r as [m rr s]. cbn in *. subst m. destruct p as [p|p|]; rewrite ?digits_xO, ?digits_xI in *; [| |by cbn in Hk]; exists p; (split; [done|lia]).
  - destruct IH as (q & Hq & Hd); [lia|]. rewrite Pos.iter_succ. destruct (Pos.iter shr_1 r k) as [m rr s].
    cbn in Hq. subst m. destruct q as [q|q|]; rewrite ?digits_xO, ?digits_xI in Hd; [| |cbn in Hd; lia]; exists q; (split; [done|lia]).
Qed.

Lemma shr_fexp_pos p e l :
  -149 <= e ->
  exists q r e', shr_fexp flt_prec flt_emax (Zpos p) e l = (r, e') /\ shr_m r = Zpos q /\
    e <= e' <= e + digits p /\ digits q <= digits p.
Proof.
  intros He. unfold shr_fexp, shr, fexp, emin, flt_prec, flt_emax. cbn [Zdigits2].
  assert (shr_m (shr_record_of_loc (Zpos p) l) = Zpos p) as Hm by (by destruct l as [|[]]).
  destruct (_ - e) as [|n|n] eqn:Hn; [eexists p, _, e; split; [done|]; split; [done|lia]| |
    eexists p, _, e; split; [done|]; split; [done|lia]].
  destruct (shr_pos n p _ Hm) as (q & Hq & Hd); [lia|].
  rewrite iter_pos_iter. eexists q, _, _. split; [reflexivity|]. split; [exact Hq|]. lia.
Qed.

Lemma round_pos p l : exists q, round_nearest_even (Zpos p) l = Zpos q /\ digits q <= digits p + 1.
Proof.
  pose proof (digits_succ p). rewrite <- Pos.add_1_r in *.
  destruct l as [|[]]; cbn [round_nearest_even]; try (destruct (Z.even _)); eexists; (split; [done|lia]).
Qed.

Lemma binary_round_finite s p e :
  -149 <= e -> e + 2 * digits p < 104 ->
  exists m e', binary_round_aux flt_prec flt_emax s (Zpos p) e loc_Exact = S754_finite s m e'.
Proof.
  intros He Hd. unfold binary_round_aux.
  destruct (shr_fexp_pos p e loc_Exact He) as (q & r & e1 & -> & Hq & He1 & Hd1). rewrite Hq.
  destruct (round_pos q (loc_of_shr_record r)) as (q' & -> & Hd2).
  destruct (shr_fexp_pos q' e1 loc_Exact ltac:(lia)) as (q2 & r2 & e2 & -> & Hq2 & He2 & Hd3). rewrite Hq2.
  rewrite (proj2 (Z.leb_le e2 (flt_emax - flt_prec))) by (unfold flt_emax, flt_prec; lia). by eexists _, _.
Qed.

Lemma flt_of_int_sign z : inS 32 z -> flt_sign (flt_of_int z) = Some (z ?= 0).
Proof.
  intros Hz. assert (forall s p, Zpos p < 2 ^ 32 -> exists m e, binary_round flt_prec flt_emax s p 0 = S754_finite s m e) as Hr.
  { intros s p Hp. pose proof (digits_lt p 32 ltac:(lia) Hp). unfold binary_round, shl_align, fexp, emin.
    destruct (_ - 0) as [|n|n] eqn:Hn; [apply binary_round_finite; lia..|].
    unfold flt_prec, flt_emax in Hn. pose proof (digits_shl p n). apply binary_round_finite; unfold flt_prec, flt_emax; lia. }
  unfold inS in Hz. unfold flt_sign, flt_of_int. destruct z as [|p|p]; cbn [binary_normalize]; [done| |].
  - by destruct (Hr false p ltac:(lia)) as (m & e & ->).
  - by destruct (Hr true p ltac:(lia)) as (m & e & ->).
Qed.

End Float.

(** ** The test of [matchRec] when a filter is set *)

Definition match_attr (offset length : Z) (type : Datatype) (filter : block) (op : Operator) (rec : Record) : option bool :=
  if decide (s32 (offset + length - 1) >= Z.of_nat (List.length rec)) then Some false
  else diff ← attr_diff type rec offset length filter; Some (op_holds op diff).

(** ** Integer attributes *)

(** The operators on mathematical integers. *)
Definition op_int (op : Operator) (x y : Z) : bool :=
  match op with
  | LT => x <? y | LTE => x <=? y | EQ => x =? y | GTE => y <=? x | GT => y <? x | NE => negb (x =? y)
  end.

Lemma op_holds_int op z : inS 32 z -> op_holds op (flt_of_int z) = op_int op z 0.
Proof. intros Hz. unfold op_holds. rewrite flt_of_int_sign by done. destruct op; cbn; destruct (Z.compare_spec z 0); lia. Qed.

Lemma memcpy4_rd32 off b x : rd32 off b = Some x -> exists u, memcpy4 b off 4 = Some u /\ s32 u = x.
Proof. unfold rd32, memcpy4. rewrite decide_True by done. intros (v & -> & ->)%fmap_Some. by eexists. Qed.

(** The subtraction in [int], the conversion and the test of the sign. *)
Lemma match_attr_int offset rec filter op x y :
  Z.of_nat (length rec) < 2 ^ 31 -> rd32 offset rec = Some x -> rd32 0 filter = Some y ->
  match_attr offset sizeof_int INTEGER filter op rec = Some (if decide (inS 32 (x - y)) then op_int op x y else op_int op y x).
Proof.
  intros Hlen Hx Hy. pose proof (rd32_range _ _ _ Hx) as Rx. pose proof (rd32_range _ _ _ Hy) as Ry.
  assert (0 <= offset /\ offset + 4 <= Z.of_nat (length rec)) as Hoff.
  { unfold rd32 in Hx. apply fmap_Some in Hx as (v & [Hv _]%rd_Some & _). lia. }
  destruct (memcpy4_rd32 _ _ _ Hx) as (u & Hu & <-), (memcpy4_rd32 _ _ _ Hy) as (v & Hv & <-).
  unfold match_attr, attr_diff, sizeof_int. rewrite decide_False by (rewrite wrapS_id by (unfold inS; cbn; lia); lia).
  rewrite Hu, Hv. cbn [mbind option_bind]. set (a := s32 u) in *. set (b := s32 v) in *. unfold inS in Rx, Ry. cbn in Rx, Ry. f_equal.
  assert (s32 (a - b) = if decide (inS 32 (a - b)) then a - b else if decide (b < a) then a - b - 2 ^ 32 else a - b + 2 ^ 32) as Hd.
  { case_decide as Hi; [by apply wrapS_id|]. unfold inS in Hi. cbn in Hi. case_decide.
    - rewrite <- (wrapS_id 32 (a - b - 2 ^ 32)) by (unfold inS; cbn; lia). unfold wrapS. f_equal. rewrite <- (Z_mod_plus_full _ (-1)). f_equal. lia.
    - rewrite <- (wrapS_id 32 (a - b + 2 ^ 32)) by (unfold inS; cbn; lia). unfold wrapS. f_equal. rewrite <- (Z_mod_plus_full _ 1). f_equal. lia. }
  rewrite op_holds_int by (apply wrapS_range; lia). rewrite Hd.
  destruct (decide (inS 32 (a - b))) as [Hi|Hi]; [destruct op; cbn; lia|]. unfold inS in Hi. cbn in Hi.
  case_decide; destruct op; cbn; lia.
Qed.

(** C34.  Comparing an integer attribute [x] with a filter [y]: the code
    subtracts them as [int]s, converts the difference to [float] and tests
    its sign.  The result is the comparison of [x] and [y] when their
    difference is an [int], the conversion to [float] notwithstanding, and
    the comparison with the operands exchanged when it is not. *)
Theorem match_int_order offset rec filter op x y :
  Z.of_nat (length rec) < 2 ^ 31 -> rd32 offset rec = Some x -> rd32 0 filter = Some y ->
  match_attr offset sizeof_int INTEGER filter op rec = Some (if decide (inS 32 (x - y)) then op_int op x y else op_int op y x).
Proof. apply match_attr_int. Qed.

Lemma match_int_order_witness :
  match_attr 0 4 INTEGER (le_enc 4 5) LT (le_enc 4 3) = Some true /\
  match_attr 0 4 INTEGER (le_enc 4 (-2000000000)) LT (le_enc 4 2000000000) = Some true.
Proof.
  split.
  - exact (match_int_order 0 (le_enc 4 3) (le_enc 4 5) LT 3 5 ltac:(reflexivity) ltac:(reflexivity) ltac:(reflexivity)).
  - exact (match_int_order 0 (le_enc 4 2000000000) (le_enc 4 (-2000000000)) LT 2000000000 (-2000000000) ltac:(reflexivity) ltac:(reflexivity) ltac:(reflexivity)).
Defined.
