(* ===== verification/CLib.v ===== *)
(** * The C library below the catalogs and the query layer

    Character arrays, the string functions on them, [atoi], [atof] and the
    bytes of a [float].  A character array is the block from the pointer to
    the end of its object: running off the end is undefined ([None]). *)

From S2P Require Export Match.

(** ** Strings *)

(** The characters of a [std::string], and what [c_str()] points to. *)
Definition chars (s : string) : block := String.list_byte_of_string s.
Definition c_str (s : string) : block := chars s ++ [x00].

Definition is_nul (c : byte) : bool := bool_decide (c = x00).

(** The characters before the terminator. *)
Definition cstring (b : block) : option block :=
  let n := first_idx is_nul b in
  if decide (n < length b)%nat then Some (take n b) else None.

Definition strlen (b : block) : option Z := (fun s => Z.of_nat (length s)) <$> cstring b.

(** Bytes compare as [unsigned char]. *)
Fixpoint strcmp (a b : block) : option Z :=
  match a, b with
  | x :: a, y :: b =>
      if decide (x = y) then if decide (x = x00) then Some 0 else strcmp a b
      else Some (byteZ x - byteZ y)
  | _, _ => None
  end.

(** [strcpy(dst, src)] into an array with the contents [dst]. *)
Definition strcpy (dst src : block) : option block := s ← cstring src; wr 0 (s ++ [x00]) dst.

(** [memset(&a[off], 0, sizeof a - off)]. *)
Definition zero_from (off : Z) (a : block) : option block :=
  wr off (replicate (length a - Z.to_nat off) x00) a.

(** ** Numbers *)

Definition is_space (c : byte) : bool := bool_decide (byteZ c = 32 \/ 9 <= byteZ c <= 13).
Definition is_digit (c : byte) : bool := bool_decide (48 <= byteZ c <= 57).

Fixpoint skip_spaces (s : block) : block :=
  match s with c :: s' => if is_space c then skip_spaces s' else s | [] => [] end.

(** An optional sign: whether it is a minus, and the rest. *)
Definition get_sign (s : block) : bool * block :=
  match s with
  | c :: s' => if decide (byteZ c = 45) then (true, s') else if decide (byteZ c = 43) then (false, s') else (false, s)
  | [] => (false, [])
  end.

(** Decimal digits: their value from [z] on, how many there are, and the rest. *)
Fixpoint get_digits (z : Z) (k : Z) (s : block) : Z * Z * block :=
  match s with
  | c :: s' => if is_digit c then get_digits (10 * z + (byteZ c - 48)) (k + 1) s' else (z, k, s)
  | [] => (z, k, [])
  end.

(** [atoi]: a value that is no [int] is undefined behaviour. *)
Definition atoi (b : block) : option Z :=
  s ← cstring b;
  let '(neg, s) := get_sign (skip_spaces s) in
  let '(z, _, _) := get_digits 0 0 s in
  let v := if neg then - z else z in
  if decide (inS 32 v) then Some v else None.

(** The [float] or [double] nearest to [m * 10 ^ e]. *)
Definition dec_round (prec emax : Z) (neg : bool) (m e : Z) : spec_float :=
  match m with
  | Zpos p =>
      match (if decide (0 <= e) then 1 else 10 ^ (- e)) with
      | Zpos q =>
          if decide (0 <= e) then
            match m * 10 ^ e with Zpos r => binary_round prec emax neg r 0 | _ => S754_nan end
          else
            let '(mz, ez, lz) := SFdiv_core_binary prec emax (Zpos p) 0 (Zpos q) 0 in
            binary_round_aux prec emax neg mz ez lz
      | _ => S754_nan
      end
  | _ => S754_zero neg
  end.

(** The conversion of a [double] to [float]. *)
Definition flt_of_dbl (x : spec_float) : spec_float :=
  match x with S754_finite s m e => binary_round flt_prec flt_emax s m e | _ => x end.

(** The exponent part of a number, zero when there is none. *)
Definition get_exp (s : block) : Z :=
  match s with
  | c :: s' =>
      if decide (byteZ c = 101 \/ byteZ c = 69) then
        let '(neg, s) := get_sign s' in
        let '(z, _, _) := get_digits 0 0 s in
        if neg then - z else z
      else 0
  | [] => 0
  end.

(** [(float) atof(b)] for decimal numbers; the spellings of infinities, NaNs
    and hexadecimal numbers, which [strtod] also reads, are outside of the
    model. *)
Definition atof (b : block) : option spec_float :=
  s ← cstring b;
  let '(neg, s) := get_sign (skip_spaces s) in
  let '(z, k, s) := get_digits 0 0 s in
  let special := match s with
                 | c :: _ => bool_decide ((k = 0 /\ byteZ c ∈ [73; 105; 78; 110]) \/ (k = 1 /\ z = 0 /\ byteZ c ∈ [88; 120]))
                 | [] => false
                 end in
  let '(m, k', s) := match s with
                     | c :: s' => if decide (byteZ c = 46) then get_digits z 0 s' else (z, 0, s)
                     | [] => (z, 0, [])
                     end in
  if special then None
  else Some (flt_of_dbl (dec_round 53 1024 neg m ((if decide (0 < k + k') then get_exp s else 0) - k'))).

(** The bits of a [float]; a NaN is the default quiet one. *)
Definition flt_bits (x : spec_float) : Z :=
  let sign (s : bool) := if s then 2 ^ 31 else 0 in
  match x with
  | S754_zero s => sign s
  | S754_infinity s => sign s + 255 * 2 ^ 23
  | S754_nan => 511 * 2 ^ 22
  | S754_finite s m e =>
      sign s + (if decide (Zpos m < 2 ^ 23) then Zpos m else (e + 150) * 2 ^ 23 + (Zpos m - 2 ^ 23))
  end.

(** The bytes of an [int] and of a [float] variable. *)
Definition int_bytes (z : Z) : block := le_enc 4 z.
Definition flt_bytes (x : spec_float) : block := le_enc 4 (flt_bits x).
