(* ===== verification/HeapFile.v ===== *)
(** * Heap files (heapfile.h, heapfile.C)

    A heap file is a header page and a chain of slotted pages.  The three
    classes [HeapFile], [HeapFileScan] and [InsertFileScan] as records, their
    methods as code over the storage layer and the object. *)

From S2P Require Export Db Match.

(** ** Objects *)

(** A [Page*] member: never assigned, [NULL], or the address of a frame. *)
Inductive ptr : Set := PUninit | PNull | PFrame (i : Z).

(** The members of class [HeapFile]; [None] is a member no constructor or
    method has assigned. *)
Record HeapFile : Set := mkHeapFile {
  filePtr : option Z; headerPage : ptr; headerPageNo : option Z; hdrDirtyFlag : option bool;
  curPage : ptr; curPageNo : option Z; curDirtyFlag : option bool; curRec : option RID }.

Definition HeapFile_uninit : HeapFile := mkHeapFile None PUninit None None PUninit None None None.

Definition set_hdrDirtyFlag (b : bool) (h : HeapFile) : HeapFile :=
  mkHeapFile (filePtr h) (headerPage h) (headerPageNo h) (Some b) (curPage h) (curPageNo h) (curDirtyFlag h) (curRec h).
Definition set_curPage (p : ptr) (h : HeapFile) : HeapFile :=
  mkHeapFile (filePtr h) (headerPage h) (headerPageNo h) (hdrDirtyFlag h) p (curPageNo h) (curDirtyFlag h) (curRec h).
Definition set_curPageNo (n : Z) (h : HeapFile) : HeapFile :=
  mkHeapFile (filePtr h) (headerPage h) (headerPageNo h) (hdrDirtyFlag h) (curPage h) (Some n) (curDirtyFlag h) (curRec h).
Definition set_curDirtyFlag (b : bool) (h : HeapFile) : HeapFile :=
  mkHeapFile (filePtr h) (headerPage h) (headerPageNo h) (hdrDirtyFlag h) (curPage h) (curPageNo h) (Some b) (curRec h).
Definition set_curRec (r : RID) (h : HeapFile) : HeapFile :=
  mkHeapFile (filePtr h) (headerPage h) (headerPageNo h) (hdrDirtyFlag h) (curPage h) (curPageNo h) (curDirtyFlag h) (Some r).

(** [curRec] becomes indeterminate. *)
Definition undef_curRec (h : HeapFile) : HeapFile :=
  mkHeapFile (filePtr h) (headerPage h) (headerPageNo h) (hdrDirtyFlag h) (curPage h) (curPageNo h) (curDirtyFlag h) None.

(** Class [HeapFileScan]: the bytes behind [filter] are those it points to
    while the scan runs. *)
Record HeapFileScan : Set := mkHeapFileScan {
  hfs_base : HeapFile;
  sc_offset : option Z; sc_length : option Z; sc_type : option Datatype;
  sc_filter : option block; sc_op : option Operator;
  markedPageNo : option Z; markedRec : option RID }.

Definition set_base (h : HeapFile) (s : HeapFileScan) : HeapFileScan :=
  mkHeapFileScan h (sc_offset s) (sc_length s) (sc_type s) (sc_filter s) (sc_op s) (markedPageNo s) (markedRec s).

(** ** Code over the storage layer and an object *)

Section Plumbing.
Context {O : Type}.

(** Code of the storage layer. *)
Definition io {A} (m : CODE World A) : CODE (World * O) A := zoom fst (fun w '(_, o) => (w, o)) m.

(** A member; reading one that was never assigned is undefined. *)
Definition member {A} (g : O -> option A) : CODE (World * O) A :=
  fun '(w, o) => a ← g o; Some (Ok a, (w, o)).

Definition assign (g : O -> O) : CODE (World * O) unit := fun '(w, o) => Some (Ok tt, (w, g o)).

(** Run the code of a method on an object that is a local variable. *)
Definition call {A} (m : CODE (World * O) A) (o : O) : CODE World (result A * O) :=
  fun w => '(r, (w, o)) ← m (w, o); Some (Ok (r, o), w).

End Plumbing.

(** A method of the base class run on a scan. *)
Definition base {A} (m : CODE (World * HeapFile) A) : CODE (World * HeapFileScan) A :=
  zoom (fun '(w, s) => (w, hfs_base s)) (fun '(w, h) '(_, s) => (w, set_base h s)) m.

(** Functions that return a [Status]. *)
Definition status {S} (m : S -> option (Status * S)) : CODE S unit := fun s =>
  '(st, s) ← m s; Some (if decide (st = OK) then Ok tt else Err st, s).

Definition openFile (name : string) : CODE World Z := DB_openFile name.
Definition createFile (name : string) : CODE World unit := status (DB_createFile name).
Definition destroyFile (name : string) : CODE World unit := status (DB_destroyFile name).
Definition closeFile (file : Z) : CODE World unit := status (DB_closeFile file).
Definition readPage (file n : Z) : CODE World Z := on_pool (BufMgr_readPage file n).
Definition unPinPage (file n : Z) (dirty : bool) : CODE World unit := on_pool (BufMgr_unPinPage file n dirty).
Definition allocPage (file : Z) : CODE World (Z * Z) := on_pool (BufMgr_allocPage file).
Definition flushFile (file : Z) : CODE World unit := on_pool (BufMgr_flushFile file).
Definition getFirstPage (file : Z) : CODE World Z :=
  zoom w_disk set_disk (File_getFirstPage file).

(** The bytes behind a page pointer. *)
Definition load (p : ptr) : CODE World block :=
  match p with PFrame i => on_pool (client_read i) | _ => undef end.
Definition store (p : ptr) (q : block) : CODE World unit :=
  match p with PFrame i => on_pool (client_write i q) | _ => undef end.

(** A [const] method of [Page] through a pointer, and one that changes it. *)
Definition page_get {A} (p : ptr) (g : block -> option A) : CODE World A :=
  let! q := load p in defined (g q).
Definition page_set {A} (p : ptr) (g : block -> option (A * block)) : CODE World A :=
  let! q := load p in let! (a, q') := defined (g q) in store p q' ;;; ret a.
Definition page_upd (p : ptr) (g : block -> option block) : CODE World unit :=
  page_set p (fun q => q' ← g q; Some (tt, q')).

(** [p != NULL]. *)
Definition notnull (p : ptr) : option bool :=
  match p with PUninit => None | PNull => Some false | PFrame _ => Some true end.

(** ** The header page *)

Definition MAXNAMESIZE : Z := 50.

(** The offsets of the members of [FileHdrPage]: the name is padded to the
    alignment of [int]. *)
Definition off_fileName : Z := 0.
Definition off_first : Z := 52.
Definition off_last : Z := 56.
Definition off_pageCnt : Z := 60.
Definition off_recCnt : Z := 64.

(** The bytes of a C string without its terminator. *)
Definition cstr (s : string) : block :=
  let l := String.list_byte_of_string s in take (first_idx (fun c => bool_decide (c = x00)) l) l.

(** [strncpy(dst, src, MAXNAMESIZE)]: truncated or padded with zeros. *)
Definition strncpy_name (s : string) : block :=
  take (Z.to_nat MAXNAMESIZE) (cstr s ++ replicate (Z.to_nat MAXNAMESIZE) x00).

(** ** [createHeapFile], [destroyHeapFile] *)

(** The header page and an empty data page of the new file. *)
Definition format_heap (file : Z) (fileName : string) : CODE World unit :=
  let! (hdrPageNo, h) := allocPage file in
  page_upd (PFrame h) (wr off_fileName (strncpy_name fileName)) ;;;
  let! (newPageNo, n) := allocPage file in
  page_upd (PFrame n) (init newPageNo) ;;;
  page_upd (PFrame n) (setNextPage (-1)) ;;;
  page_upd (PFrame h) (wr32 off_recCnt 0) ;;;
  page_upd (PFrame h) (wr32 off_pageCnt 1) ;;;
  page_upd (PFrame h) (wr32 off_last newPageNo) ;;;
  page_upd (PFrame h) (wr32 off_first newPageNo) ;;;
  unPinPage file newPageNo true ;;;
  unPinPage file hdrPageNo true ;;;
  flushFile file ;;;
  closeFile file.

Definition createHeapFile (fileName : string) : CODE World unit :=
  let! r := attempt (openFile fileName) in
  match r with
  | Ok _ => throw FILEEXISTS
  | Err _ =>
      createFile fileName ;;;
      let! file := openFile fileName in
      format_heap file fileName
  end.

Definition destroyHeapFile (fileName : string) : CODE World unit := destroyFile fileName.

(** ** class HeapFile *)

(** [this->p->m()]. *)
Definition cur_get {A} (g : block -> option A) : CODE (World * HeapFile) A :=
  let! p := member (fun h => Some (curPage h)) in io (page_get p g).
Definition cur_set {A} (g : block -> option (A * block)) : CODE (World * HeapFile) A :=
  let! p := member (fun h => Some (curPage h)) in io (page_set p g).
Definition hdr_get (off : Z) : CODE (World * HeapFile) Z :=
  let! p := member (fun h => Some (headerPage h)) in io (page_get p (rd32 off)).
Definition hdr_set (off z : Z) : CODE (World * HeapFile) unit :=
  let! p := member (fun h => Some (headerPage h)) in io (page_upd p (wr32 off z)).

(** [bufMgr->unPinPage(filePtr, curPageNo, curDirtyFlag)]. *)
Definition unpin_cur : CODE (World * HeapFile) unit :=
  let! f := member filePtr in
  let! n := member curPageNo in
  let! d := member curDirtyFlag in
  io (unPinPage f n d).

(** [bufMgr->readPage(filePtr, n, curPage)]: [curPage] is assigned when the
    status is [OK]. *)
Definition read_cur (n : Z) : CODE (World * HeapFile) unit :=
  let! f := member filePtr in
  let! i := io (readPage f n) in
  assign (set_curPage (PFrame i)).

(** The constructor: the status it reports and the object.  After a failed
    [openFile] no member is set. *)
Definition HeapFile_new (fileName : string) : CODE World (Status * HeapFile) :=
  let! r := attempt (openFile fileName) in
  match r with
  | Ok f =>
      (* when this fails [headerPageNo] and [pagePtr] stay undefined *)
      let! n := attempt (getFirstPage f) in
      let! n := defined match n with Ok n => Some n | Err _ => None end in
      let! i := attempt (readPage f n) in
      let! i := defined match i with Ok i => Some i | Err _ => None end in
      let! first := page_get (PFrame i) (rd32 off_first) in
      let! c := attempt (readPage f first) in
      ret (OK, mkHeapFile (Some f) (PFrame i) (Some n) (Some false)
             (match c with Ok j => PFrame j | Err _ => PUninit end) (Some first) (Some false) (Some NULLRID))
  | Err st => ret (st, HeapFile_uninit)
  end.

(** The second half of the destructor: unpin the header and close the file. *)
Definition release_hdr : CODE (World * HeapFile) unit :=
  let! f := member filePtr in
  let! n := member headerPageNo in
  let! d := member hdrDirtyFlag in
  attempt (io (unPinPage f n d)) ;;;
  attempt (io (closeFile f)) ;;;
  ret tt.

(** The destructor. *)
Definition HeapFile_delete : CODE (World * HeapFile) unit :=
  let! b := member (fun h => notnull (curPage h)) in
  (if b then
     attempt unpin_cur ;;;
     assign (set_curPage PNull) ;;; assign (set_curPageNo 0) ;;; assign (set_curDirtyFlag false)
   else ret tt) ;;;
  release_hdr.

Definition HeapFile_getRecCnt : CODE (World * HeapFile) Z := hdr_get off_recCnt.

Definition HeapFile_getRecord (rid : RID) : CODE (World * HeapFile) Record :=
  let! b := member (fun h => notnull (curPage h)) in
  let! n := (if b then member curPageNo else ret 0) in
  if b && bool_decide (pageNo rid = n) then
    let! r := cur_get (getRecord rid) in
    assign (set_curRec rid) ;;;
    of_res r
  else
    (if b then
       let! r := attempt unpin_cur in
       match r with
       | Ok _ => ret tt
       | Err st =>
           assign (set_curPage PNull) ;;; assign (set_curPageNo 0) ;;; assign (set_curDirtyFlag false) ;;; throw st
       end
     else ret tt) ;;;
    read_cur (pageNo rid) ;;;
    assign (set_curPageNo (pageNo rid)) ;;;
    assign (set_curDirtyFlag false) ;;;
    assign (set_curRec rid) ;;;
    let! r := cur_get (getRecord rid) in
    of_res r.

(** ** class HeapFileScan *)

Definition HeapFileScan_new (name : string) : CODE World (Status * HeapFileScan) :=
  let! (st, h) := HeapFile_new name in
  ret (st, mkHeapFileScan h None None None None None None None).

(** The values of [Datatype] and [Operator] are all valid; the test of their
    range is always passed. *)
Definition HeapFileScan_startScan (offset_ length_ : Z) (type_ : Datatype) (filter_ : option block) (op_ : Operator) :
    CODE (World * HeapFileScan) unit :=
  match filter_ with
  | None => assign (fun s => mkHeapFileScan (hfs_base s) (sc_offset s) (sc_length s) (sc_type s) None (sc_op s)
                               (markedPageNo s) (markedRec s))
  | Some flt =>
      if decide (offset_ < 0 \/ length_ < 1 \/ (type_ = INTEGER /\ length_ <> sizeof_int) \/
                 (type_ = FLOAT /\ length_ <> sizeof_float))
      then throw BADSCANPARM
      else assign (fun s => mkHeapFileScan (hfs_base s) (Some offset_) (Some length_) (Some type_) (Some flt) (Some op_)
                              (markedPageNo s) (markedRec s))
  end.

Definition endScan : CODE (World * HeapFile) unit :=
  let! b := member (fun h => notnull (curPage h)) in
  if b then
    let! r := attempt unpin_cur in
    assign (set_curPage PNull) ;;; assign (set_curPageNo 0) ;;; assign (set_curDirtyFlag false) ;;;
    of_res r
  else ret tt.

Definition HeapFileScan_endScan : CODE (World * HeapFileScan) unit := base endScan.

(** The destructor, and that of the base class after it. *)
Definition HeapFileScan_delete : CODE (World * HeapFileScan) unit :=
  attempt HeapFileScan_endScan ;;; base HeapFile_delete.

Definition HeapFileScan_markScan : CODE (World * HeapFileScan) unit :=
  let! n := member (fun s => curPageNo (hfs_base s)) in
  let! r := member (fun s => curRec (hfs_base s)) in
  assign (fun s => mkHeapFileScan (hfs_base s) (sc_offset s) (sc_length s) (sc_type s) (sc_filter s) (sc_op s)
                     (Some n) (Some r)).

Definition HeapFileScan_resetScan : CODE (World * HeapFileScan) unit :=
  let! m := member markedPageNo in
  let! n := member (fun s => curPageNo (hfs_base s)) in
  let! r := member markedRec in
  base (if decide (m <> n) then
          let! b := member (fun h => notnull (curPage h)) in
          (if b then unpin_cur else ret tt) ;;;
          assign (set_curPageNo m) ;;;
          assign (set_curRec r) ;;;
          read_cur m ;;;
          assign (set_curDirtyFlag false)
        else assign (set_curRec r)).

Definition matchRec (s : HeapFileScan) (rec : Record) : option bool :=
  match sc_filter s with
  | None => Some true
  | Some flt =>
      offset ← sc_offset s;
      length ← sc_length s;
      type ← sc_type s;
      op ← sc_op s;
      match_attr offset length type flt op rec
  end.

(** [status == ENDOFPAGE || status == NORECORDS]. *)
Definition page_done (st : Status) : bool := bool_decide (st = ENDOFPAGE) || bool_decide (st = NORECORDS).

(** The inner [while] of [scanNext]: to the next page that has a record.
    [fuel] bounds the pages visited; running out of it is undefined. *)
Fixpoint next_page (fuel : nat) : CODE (World * HeapFile) unit :=
  match fuel with
  | O => undef
  | S fuel =>
      let! nextPageNo := cur_get getNextPage in
      if decide (nextPageNo = -1) then throw FILEEOF
      else
        let! r := attempt unpin_cur in
        assign (set_curPage PNull) ;;; assign (set_curPageNo (-1)) ;;;
        of_res r ;;;
        assign (set_curPageNo nextPageNo) ;;;
        assign (set_curDirtyFlag false) ;;;
        read_cur nextPageNo ;;;
        let! r := cur_get firstRecord in
        match r with
        | Ok rid => assign (set_curRec rid)
        | Err st => if page_done st then next_page fuel else ret tt
        end
  end.

(** The record [curRec] and whether it satisfies the predicate. *)
Definition test_cur : CODE (World * HeapFileScan) (RID * bool) :=
  let! rid := member (fun s => curRec (hfs_base s)) in
  let! r := base (cur_get (getRecord rid)) in
  let! rec := of_res r in
  let! b := member (fun s => matchRec s rec) in
  ret (rid, b).

(** The statements of the outer loop of [scanNext] that move to the next
    record. *)
Definition advance (fuel : nat) : CODE (World * HeapFile) unit :=
  let! rid := member curRec in
  let! r := cur_get (nextRecord rid) in
  match r with
  | Ok nextRid => assign (set_curRec nextRid)
  | Err st => if page_done st then next_page (S fuel) else ret tt
  end.

(** The outer loop of [scanNext]; [fuel] bounds the records looked at. *)
Fixpoint scan_loop (fuel : nat) : CODE (World * HeapFileScan) RID :=
  match fuel with
  | O => undef
  | S fuel =>
      base (advance fuel) ;;;
      let! (rid, b) := test_cur in
      if b then ret rid else scan_loop fuel
  end.

(** The special case at the start of [scanNext], when no page is pinned: the
    first record of the first page. *)
Definition scan_first (fuel : nat) : CODE (World * HeapFileScan) RID :=
  let! tmpRid := base (
    let! first := hdr_get off_first in
    assign (set_curPageNo first) ;;;
    if decide (first = -1) then throw FILEEOF
    else
      let! r := attempt (read_cur first) in
      assign (set_curDirtyFlag false) ;;; assign (set_curRec NULLRID) ;;;
      of_res r ;;;
      let! r := cur_get firstRecord in
      match r with
      | Ok tmpRid => assign (set_curRec tmpRid) ;;; ret tmpRid
      | Err st =>
          (* [curRec = tmpRid], which was not assigned *)
          assign undef_curRec ;;;
          if decide (st = NORECORDS) then
            unpin_cur ;;;
            assign (set_curPageNo (-1)) ;;; assign (set_curPage PNull) ;;;
            throw FILEEOF
          else undef
      end) in
  let! (rid, b) := test_cur in
  if b then ret rid else scan_loop fuel.

Definition HeapFileScan_scanNext (fuel : nat) : CODE (World * HeapFileScan) RID :=
  let! n := member (fun s => curPageNo (hfs_base s)) in
  if decide (n < 0) then throw FILEEOF
  else
    let! b := member (fun s => notnull (curPage (hfs_base s))) in
    if b then scan_loop fuel else scan_first fuel.

Definition HeapFileScan_getRecord : CODE (World * HeapFileScan) Record :=
  let! rid := member (fun s => curRec (hfs_base s)) in
  let! r := base (cur_get (getRecord rid)) in
  of_res r.

Definition HeapFileScan_deleteRecord : CODE (World * HeapFileScan) unit :=
  base (let! rid := member curRec in
        let! st := cur_set (deleteRecord rid) in
        assign (set_curDirtyFlag true) ;;;
        let! c := hdr_get off_recCnt in
        hdr_set off_recCnt (c - 1) ;;;
        assign (set_hdrDirtyFlag true) ;;;
        of_res (if decide (st = OK) then Ok tt else Err st)).

Definition HeapFileScan_markDirty : CODE (World * HeapFileScan) unit := base (assign (set_curDirtyFlag true)).

(** ** class InsertFileScan *)

(** The constructor: a status other than [OK] of [unPinPage] is overwritten
    by that of [readPage]. *)
Definition InsertFileScan_new (name : string) : CODE World (Status * HeapFile) :=
  let! (st, h) := HeapFile_new name in
  let! b := defined (notnull (curPage h)) in
  if b then
    let! last := page_get (headerPage h) (rd32 off_last) in
    let! n := defined (curPageNo h) in
    if decide (n <> last) then
      let! (_, h) := call unpin_cur h in
      let! (r, h) := call (assign (set_curPageNo last) ;;; read_cur last) h in
      let! (_, h) := call (assign (set_curDirtyFlag false)) h in
      ret (status_of r, h)
    else ret (st, h)
  else ret (st, h).

(** The destructor, and that of the base class after it. *)
Definition InsertFileScan_delete : CODE (World * HeapFile) unit :=
  let! b := member (fun h => notnull (curPage h)) in
  (if b then
     let! f := member filePtr in
     let! n := member curPageNo in
     attempt (io (unPinPage f n true)) ;;;
     assign (set_curPage PNull) ;;; assign (set_curPageNo 0)
   else ret tt) ;;;
  HeapFile_delete.

(** Count a record that was inserted on the current page. *)
Definition count_insert : CODE (World * HeapFile) unit :=
  let! c := hdr_get off_recCnt in
  hdr_set off_recCnt (c + 1) ;;;
  assign (set_hdrDirtyFlag true).

(** The new page in the frame [i] becomes the last page of the file, behind
    the current one. *)
Definition link_page (newPageNo i : Z) : CODE (World * HeapFile) unit :=
  io (page_upd (PFrame i) (init newPageNo)) ;;;
  io (page_upd (PFrame i) (setNextPage (-1))) ;;;
  hdr_set off_last newPageNo ;;;
  let! c := hdr_get off_pageCnt in
  hdr_set off_pageCnt (c + 1) ;;;
  assign (set_hdrDirtyFlag true) ;;;
  cur_set (fun q => q' ← setNextPage newPageNo q; Some (tt, q')).

Definition InsertFileScan_insertRecord (rec : Record) : CODE (World * HeapFile) RID :=
  if decide (Z.of_nat (length rec) > PAGESIZE - DPFIXED) then throw INVALIDRECLEN
  else
    let! b := member (fun h => notnull (curPage h)) in
    (if b then ret tt
     else let! last := hdr_get off_last in
          assign (set_curPageNo last) ;;; read_cur last) ;;;
    let! r := cur_set (insertRecord rec) in
    match r with
    | Ok rid => count_insert ;;; assign (set_curDirtyFlag true) ;;; ret rid
    | Err _ =>
        let! f := member filePtr in
        let! (newPageNo, i) := io (allocPage f) in
        link_page newPageNo i ;;;
        let! n := member curPageNo in
        let! u := attempt (io (unPinPage f n true)) in
        match u with
        | Err st =>
            assign (set_curPage PNull) ;;; assign (set_curPageNo (-1)) ;;; assign (set_curDirtyFlag false) ;;;
            attempt (io (unPinPage f newPageNo true)) ;;;
            throw st
        | Ok _ =>
            assign (set_curPage (PFrame i)) ;;; assign (set_curPageNo newPageNo) ;;;
            let! r := cur_set (insertRecord rec) in
            match r with
            | Ok rid => assign (set_curDirtyFlag true) ;;; count_insert ;;; ret rid
            | Err st => throw st
            end
        end
    end.
