(* ===== verification/Catalog.v ===== *)
(** * The catalogs (catalog.h, catalog.C, create.C, destroy.C)

    The relations [relcat] and [attrcat]: their tuples as structs with the
    bytes they are stored as, and the operations of [RelCatalog] and
    [AttrCatalog].  These never use the members of [this]: every operation
    opens the catalog file again.  [fuel] bounds the records a scan looks
    at; a failed [assert] ends the program and has no result. *)

From S2P Require Export HeapFile CLib.

Definition RELCATNAME : string := "relcat".
Definition ATTRCATNAME : string := "attrcat".
Definition MAXNAME : Z := 32.

(** ** Tuples *)

Record RelDesc : Set := mkRelDesc { rd_relName : block; rd_attrCnt : Z }.

Record attrInfo : Set := mkAttrInfo {
  ai_relName : block; ai_attrName : block; ai_attrType : Z; ai_attrLen : Z;
  ai_attrValue : option block }.     (* [NULL], or the bytes it points to *)

Record AttrDesc : Set := mkAttrDesc {
  ad_relName : block; ad_attrName : block; ad_attrOffset : Z; ad_attrType : Z; ad_attrLen : Z }.

Definition sizeof_RelDesc : Z := MAXNAME + 4.
Definition sizeof_AttrDesc : Z := 2 * MAXNAME + 12.

(** The bytes of a struct. *)
Definition RelDesc_bytes (r : RelDesc) : Record := rd_relName r ++ int_bytes (rd_attrCnt r).
Definition AttrDesc_bytes (a : AttrDesc) : Record :=
  ad_relName a ++ ad_attrName a ++ int_bytes (ad_attrOffset a) ++ int_bytes (ad_attrType a) ++ int_bytes (ad_attrLen a).

(** [assert(sizeof(RelDesc) == rec.length); memcpy(&record, rec.data, rec.length)]. *)
Definition RelDesc_of (rec : Record) : option RelDesc :=
  if decide (Z.of_nat (length rec) = sizeof_RelDesc) then
    n ← rd 0 MAXNAME rec; c ← rd32 MAXNAME rec; Some (mkRelDesc n c)
  else None.

Definition AttrDesc_of (rec : Record) : option AttrDesc :=
  if decide (Z.of_nat (length rec) = sizeof_AttrDesc) then
    r ← rd 0 MAXNAME rec;
    a ← rd MAXNAME MAXNAME rec;
    o ← rd32 (2 * MAXNAME) rec;
    t ← rd32 (2 * MAXNAME + 4) rec;
    l ← rd32 (2 * MAXNAME + 8) rec;
    Some (mkAttrDesc r a o t l)
  else None.

(** ** Objects on the heap *)

(** [delete hfs], [delete ifs]. *)
Definition delete_scan (s : HeapFileScan) : CODE World HeapFileScan :=
  let! (_, s) := call HeapFileScan_delete s in ret s.
Definition delete_ifs (h : HeapFile) : CODE World unit := call InsertFileScan_delete h ;;; ret tt.

(** [new HeapFileScan(name, status)], and a return when the status is not [OK]. *)
Definition new_scan (name : string) : CODE World HeapFileScan :=
  let! (st, s) := HeapFileScan_new name in
  if decide (st <> OK) then throw st else ret s.

(** The scan for the tuples of [relation]; it is deleted when [startScan]
    refuses its parameters. *)
Definition scan_for (catalog relation : string) : CODE World HeapFileScan :=
  let! s := new_scan catalog in
  let! (r, s) := call (HeapFileScan_startScan 0 (s32 (Z.of_nat (String.length relation) + 1)) STRING
                         (Some (c_str relation)) EQ) s in
  match r with
  | Ok _ => ret s
  | Err st => delete_scan s ;;; throw st
  end.

(** ** class RelCatalog *)

Definition RelCatalog_new : CODE World (Status * HeapFile) := HeapFile_new RELCATNAME.
Definition RelCatalog_delete (h : HeapFile) : CODE World unit := call HeapFile_delete h ;;; ret tt.

(** [hfs->endScan()] and [delete hfs]: the status of the first. *)
Definition finish_scan (s : HeapFileScan) : CODE World (result unit) :=
  let! (r, s) := call HeapFileScan_endScan s in
  delete_scan s ;;;
  ret r.

(** When [getRecord] fails the scan is not deleted. *)
Definition RelCatalog_getInfo (fuel : nat) (relation : string) : CODE World RelDesc :=
  if decide (relation = ""%string) then throw BADCATPARM
  else
    let! hfs := scan_for RELCATNAME relation in
    let! (r, hfs) := call (HeapFileScan_scanNext fuel) hfs in
    match r with
    | Ok _ =>
        let! (r, hfs) := call HeapFileScan_getRecord hfs in
        let! rec := of_res r in
        let! record := defined (RelDesc_of rec) in
        let! r := finish_scan hfs in
        of_res r ;;;
        ret record
    | Err st =>
        finish_scan hfs ;;;
        throw (if decide (st = FILEEOF) then RELNOTFOUND else st)
    end.

(** The name, zeros up to the end of the array. *)
Definition pad_name (name : block) : option block := len ← strlen name; zero_from len name.

(** Insert a tuple into a catalog. *)
Definition add_tuple (catalog : string) (tuple : option Record) : CODE World unit :=
  let! (st, ifs) := InsertFileScan_new catalog in
  if decide (st <> OK) then throw st
  else
    let! rec := defined tuple in
    let! (r, ifs) := call (InsertFileScan_insertRecord rec) ifs in
    delete_ifs ifs ;;;
    of_res r ;;;
    ret tt.

(** [record] as [addInfo] leaves it. *)
Definition pad_RelDesc (r : RelDesc) : option RelDesc :=
  n ← pad_name (rd_relName r); Some (mkRelDesc n (rd_attrCnt r)).

Definition RelCatalog_addInfo (record : RelDesc) : CODE World unit :=
  add_tuple RELCATNAME (RelDesc_bytes <$> pad_RelDesc record).

Section Freed.

(** What the members of a [HeapFileScan] read as after [delete]: freed memory
    is unspecified, [None] when the access itself is undefined. *)
Variable freed : HeapFileScan -> option HeapFileScan.

(** The end of [removeInfo], after [delete hfs]: [endScan] is called on the
    deleted object. *)
Definition after_delete (r : result unit) (hfs : HeapFileScan) : CODE World unit :=
  let! hfs := defined (freed hfs) in
  call HeapFileScan_endScan hfs ;;;
  match r with
  | Err st => if decide (st = NORECORDS) then ret tt else throw st
  | Ok _ => ret tt
  end.

Definition RelCatalog_removeInfo (fuel : nat) (relation : string) : CODE World unit :=
  if decide (relation = ""%string) then throw BADCATPARM
  else
    let! hfs := scan_for RELCATNAME relation in
    let! (r, hfs) := call (HeapFileScan_scanNext fuel) hfs in
    let! (r, hfs) := match r with
                     | Ok _ => call HeapFileScan_deleteRecord hfs
                     | Err st => ret (Err (if decide (st = FILEEOF) then RELNOTFOUND else st), hfs)
                     end in
    let! hfs := delete_scan hfs in
    after_delete r hfs.

(** ** class AttrCatalog *)

Definition AttrCatalog_new : CODE World (Status * HeapFile) := HeapFile_new ATTRCATNAME.
Definition AttrCatalog_delete (h : HeapFile) : CODE World unit := call HeapFile_delete h ;;; ret tt.

(** The loop of [getInfo] and [removeInfo]: the first tuple of the scan with
    this attribute name, or the status [scanNext] ended the loop with.  A
    status of [getRecord] returns from the function. *)
Fixpoint find_attr (n fuel : nat) (attrName : string) (hfs : HeapFileScan) : CODE World (result AttrDesc * HeapFileScan) :=
  match n with
  | O => undef
  | S n =>
      let! (r, hfs) := call (HeapFileScan_scanNext fuel) hfs in
      match r with
      | Err st => ret (Err st, hfs)
      | Ok _ =>
          let! (r, hfs) := call HeapFileScan_getRecord hfs in
          let! rec := of_res r in
          let! record := defined (AttrDesc_of rec) in
          let! name := defined (cstring (ad_attrName record)) in
          if decide (name = chars attrName) then ret (Ok record, hfs) else find_attr n fuel attrName hfs
      end
  end.

Definition AttrCatalog_getInfo (n fuel : nat) (relation attrName : string) : CODE World AttrDesc :=
  if decide (relation = ""%string \/ attrName = ""%string) then throw BADCATPARM
  else
    let! hfs := scan_for ATTRCATNAME relation in
    let! (r, hfs) := find_attr n fuel attrName hfs in
    let! e := finish_scan hfs in
    match r with
    | Ok record => of_res e ;;; ret record
    | Err st => throw (if decide (st = FILEEOF) then ATTRNOTFOUND else st)
    end.

Definition pad_AttrDesc (a : AttrDesc) : option AttrDesc :=
  r ← pad_name (ad_relName a);
  n ← pad_name (ad_attrName a);
  Some (mkAttrDesc r n (ad_attrOffset a) (ad_attrType a) (ad_attrLen a)).

Definition AttrCatalog_addInfo (record : AttrDesc) : CODE World unit :=
  add_tuple ATTRCATNAME (AttrDesc_bytes <$> pad_AttrDesc record).

Definition AttrCatalog_removeInfo (n fuel : nat) (relation attrName : string) : CODE World unit :=
  if decide (relation = ""%string \/ attrName = ""%string) then throw BADCATPARM
  else
    let! hfs := scan_for ATTRCATNAME relation in
    let! (r, hfs) := find_attr n fuel attrName hfs in
    let! (r, hfs) := match r with
                     | Ok _ => call HeapFileScan_deleteRecord hfs
                     | Err st => ret (Err (if decide (st = FILEEOF) then RELNOTFOUND else st), hfs)
                     end in
    finish_scan hfs ;;;
    match r with
    | Err st => if decide (st = NORECORDS) then ret tt else throw st
    | Ok _ => ret tt
    end.

(** The loop of [getRelInfo]: the tuples it collects and the status that
    ended it.  [malloc] and [realloc] do not fail. *)
Fixpoint collect_attrs (n fuel : nat) (hfs : HeapFileScan) : CODE World (list AttrDesc * Status * HeapFileScan) :=
  match n with
  | O => undef
  | S n =>
      let! (r, hfs) := call (HeapFileScan_scanNext fuel) hfs in
      match r with
      | Err st => ret ([], st, hfs)
      | Ok _ =>
          let! (r, hfs) := call HeapFileScan_getRecord hfs in
          let! rec := of_res r in
          let! record := defined (AttrDesc_of rec) in
          let! (attrs, st, hfs) := collect_attrs n fuel hfs in
          ret (record :: attrs, st, hfs)
      end
  end.

Definition AttrCatalog_getRelInfo (n fuel : nat) (relation : string) : CODE World (list AttrDesc) :=
  if decide (relation = ""%string) then throw BADCATPARM
  else
    let! hfs := scan_for ATTRCATNAME relation in
    let! (attrs, st, hfs) := collect_attrs n fuel hfs in
    let! e := finish_scan hfs in
    if decide (st = FILEEOF) then
      match attrs with
      | [] => throw RELNOTFOUND
      | _ => of_res e ;;; ret attrs
      end
    else throw st.

(** ** [RelCatalog::createRel] *)

(** The inner loop of the test for duplicates, over the attributes before. *)
Fixpoint dup_in (name : block) (before : list attrInfo) : option bool :=
  match before with
  | [] => Some false
  | a :: before => c ← strcmp name (ai_attrName a); if decide (c = 0) then Some true else dup_in name before
  end.

(** The outer loop, from attribute [i] on: the width of the tuple. *)
Fixpoint check_attrs (attrList : list attrInfo) (k i : nat) (tupleWidth : Z) : CODE World Z :=
  match k with
  | O => ret tupleWidth
  | S k =>
      let! a := defined (attrList !! i) in
      let! b := defined (dup_in (ai_attrName a) (take i attrList)) in
      if b then throw DUPLATTR
      else check_attrs attrList k (S i) (u32 (tupleWidth + ai_attrLen a))
  end.

(** The loop that adds the attributes; [ad] is the variable as the iteration
    before left it. *)
Fixpoint add_attrs (attrs : list attrInfo) (ad : AttrDesc) (offset : Z) : CODE World unit :=
  match attrs with
  | [] => ret tt
  | a :: attrs =>
      let! len := defined (strlen (ai_attrName a)) in
      if decide (MAXNAME <= len) then throw NAMETOOLONG
      else
        let! name := defined (strcpy (ad_attrName ad) (ai_attrName a)) in
        let ad := mkAttrDesc (ad_relName ad) name offset (ai_attrType a) (ai_attrLen a) in
        AttrCatalog_addInfo ad ;;;
        let! ad := defined (pad_AttrDesc ad) in
        add_attrs attrs ad (s32 (offset + ad_attrLen ad))
  end.

(** [rd0], [ad0]: what the local variables hold before they are assigned. *)
Definition RelCatalog_createRel (rd0 : RelDesc) (ad0 : AttrDesc) (fuel : nat) (relation : string) (attrCnt : Z)
    (attrList : list attrInfo) : CODE World unit :=
  if decide (relation = ""%string \/ attrCnt < 1) then throw BADCATPARM
  else if decide (MAXNAME <= Z.of_nat (String.length relation)) then throw NAMETOOLONG
  else
    let! r := attempt (RelCatalog_getInfo fuel relation) in
    match r with
    | Ok _ => throw RELEXISTS
    | Err st =>
        if decide (st <> RELNOTFOUND) then throw st
        else
          let! a0 := defined (attrList !! 0%nat) in
          let! tupleWidth := check_attrs attrList (Z.to_nat (attrCnt - 1)) 1 (u32 (ai_attrLen a0)) in
          if decide (tupleWidth > PAGESIZE) then throw ATTRTOOLONG
          else
            let! name := defined (strcpy (rd_relName rd0) (c_str relation)) in
            RelCatalog_addInfo (mkRelDesc name attrCnt) ;;;
            let! name := defined (strcpy (ad_relName ad0) (c_str relation)) in
            add_attrs (take (Z.to_nat attrCnt) attrList)
              (mkAttrDesc name (ad_attrName ad0) (ad_attrOffset ad0) (ad_attrType ad0) (ad_attrLen ad0)) 0 ;;;
            createHeapFile relation
    end.

(** ** [AttrCatalog::dropRelation], [RelCatalog::destroyRel] *)

Fixpoint remove_attrs (n fuel : nat) (relation : string) (attrs : list AttrDesc) : CODE World unit :=
  match attrs with
  | [] => ret tt
  | a :: attrs =>
      let! name := defined (cstring (ad_attrName a)) in
      AttrCatalog_removeInfo n fuel relation (String.string_of_list_byte name) ;;;
      remove_attrs n fuel relation attrs
  end.

Definition AttrCatalog_dropRelation (n fuel : nat) (relation : string) : CODE World unit :=
  if decide (relation = ""%string) then throw BADCATPARM
  else
    let! attrs := AttrCatalog_getRelInfo n fuel relation in
    remove_attrs n fuel relation attrs.

Definition RelCatalog_destroyRel (n fuel : nat) (relation : string) : CODE World unit :=
  if decide (relation = ""%string \/ relation = RELCATNAME \/ relation = ATTRCATNAME) then throw BADCATPARM
  else
    AttrCatalog_dropRelation n fuel relation ;;;
    RelCatalog_removeInfo fuel relation ;;;
    destroyHeapFile relation.

End Freed.
