(* ===== verification/Query.v ===== *)
(** * The query layer (insert.C, delete.C, select.C, join.C)

    Selections, joins, insertions and deletions over the heap files and the
    catalogs.  Objects that are local variables are deleted
    when their function returns, the last one first.  [n] and [fuel] bound
    the iterations of the scans. *)

From S2P Require Export Catalog.

(** The contents of a local array that was never assigned: [stack k] is its
    byte [k]. *)
Definition fresh_array (stack : nat -> byte) (len : Z) : option block :=
  if decide (0 <= len) then Some (stack <$> seq 0 (Z.to_nat len)) else None.

(** The value of an enumeration type converted from an [int]. *)
Definition Datatype_of_int (z : Z) : option Datatype :=
  if decide (z = 0) then Some STRING else if decide (z = 1) then Some INTEGER
  else if decide (z = 2) then Some FLOAT else None.

(** [startScan] with a type that may be out of range of the enumeration. *)
Definition start_scan (offset len : Z) (type : option Datatype) (filter : option block) (op : Operator) :
    CODE (World * HeapFileScan) unit :=
  match type, filter with
  | None, Some _ => throw BADSCANPARM
  | None, None => HeapFileScan_startScan offset len STRING None op
  | Some t, _ => HeapFileScan_startScan offset len t filter op
  end.

(** A [HeapFileScan] that goes out of scope. *)
Definition end_scope (s : HeapFileScan) : CODE World unit := delete_scan s ;;; ret tt.

(** A local [InsertFileScan]: the rest of the function, then its destructor. *)
Definition with_insert {A} (name : string) (body : HeapFile -> CODE World (result A * HeapFile)) : CODE World A :=
  let! (st, h) := InsertFileScan_new name in
  if decide (st <> OK) then delete_ifs h ;;; throw st
  else let! (r, h) := body h in delete_ifs h ;;; of_res r.

(** ** [QU_Insert] *)

(** The bytes a value is copied from. *)
Definition value_bytes (type : Z) (value : option block) (tempPtr : option block) : option (option block) :=
  if decide (type = 0) then Some value
  else if decide (type = 1) then v ← value; z ← atoi v; Some (Some (int_bytes z))
  else if decide (type = 2) then v ← value; x ← atof v; Some (Some (flt_bytes x))
  else Some tempPtr.

(** The inner loop over the values given, for the attribute [a]; the state is
    [outputData], [recordOffset] and what [tempPtr] points to. *)
Fixpoint fill_attr (a : AttrDesc) (attrList : list attrInfo) (st : block * Z * option block) : option (block * Z * option block) :=
  match attrList with
  | [] => Some st
  | v :: attrList =>
      c ← strcmp (ad_attrName a) (ai_attrName v);
      if decide (c = 0) then
        let '(out, off, tempPtr) := st in
        tempPtr ← value_bytes (ad_attrType a) (ai_attrValue v) tempPtr;
        src ← tempPtr;
        bytes ← rd 0 (ad_attrLen a) src;
        out ← wr off bytes out;
        fill_attr a attrList (out, s32 (off + ad_attrLen a), tempPtr)
      else fill_attr a attrList st
  end.

Fixpoint fill_record (attrs : list AttrDesc) (attrList : list attrInfo) (st : block * Z * option block) : option (block * Z * option block) :=
  match attrs with
  | [] => Some st
  | a :: attrs => st ← fill_attr a attrList st; fill_record attrs attrList st
  end.

(** [for (i = 0; i < attrCnt; ++i)] over an array: undefined when the array is
    shorter. *)
Definition first_n {A} (k : Z) (l : list A) : option (list A) :=
  if decide (k <= Z.of_nat (length l)) then Some (take (Z.to_nat k) l) else None.

(** The sum of the lengths, as an [int]. *)
Definition total_len (attrs : list AttrDesc) : Z := foldl (fun t a => s32 (t + ad_attrLen a)) 0 attrs.

(** [string(rd.relName)]. *)
Definition name_string (b : block) : option string := String.string_of_list_byte <$> cstring b.

Definition QU_Insert (stack : nat -> byte) (n fuel : nat) (relation : string) (attrCnt : Z) (attrList : list attrInfo) :
    CODE World unit :=
  let! rd := RelCatalog_getInfo fuel relation in
  let! relName := defined (name_string (rd_relName rd)) in
  let! attrs := AttrCatalog_getRelInfo n fuel relName in
  let! attrs := defined (first_n attrCnt attrs) in
  let! values := defined (first_n attrCnt attrList) in
  let! outputData := defined (fresh_array stack (total_len attrs)) in
  let! (record, _, _) := defined (fill_record attrs values (outputData, 0, None)) in
  (* the status of the constructor is overwritten *)
  let! (_, ifs) := InsertFileScan_new relation in
  let! (r, ifs) := call (InsertFileScan_insertRecord record) ifs in
  delete_ifs ifs ;;;
  of_res r ;;;
  ret tt.

(** ** [QU_Delete] *)

(** What [filter] points to: [tempInt], [tempFloat] or the string. *)
Definition filter_bytes (type : Datatype) (value : option block) : option block :=
  match type with
  | STRING => value
  | INTEGER => v ← value; int_bytes <$> atoi v
  | FLOAT => v ← value; flt_bytes <$> atof v
  end.

(** The loop: a status of [scanNext] other than [OK] and [FILEEOF] still
    deletes once before it ends the loop. *)
Fixpoint delete_loop (n fuel : nat) (hfs : HeapFileScan) : CODE World HeapFileScan :=
  match n with
  | O => undef
  | S n =>
      let! (r, hfs) := call (HeapFileScan_scanNext fuel) hfs in
      match r with
      | Ok _ => let! (_, hfs) := call HeapFileScan_deleteRecord hfs in delete_loop n fuel hfs
      | Err st =>
          if decide (st = FILEEOF) then ret hfs
          else let! (_, hfs) := call HeapFileScan_deleteRecord hfs in ret hfs
      end
  end.

(** The status of [startScan] is ignored; when the catalog does not know the
    attribute the scan is not deleted. *)
Definition QU_Delete (n fuel : nat) (relation attrName : string) (op : Operator) (type : Datatype) (attrValue : option block) :
    CODE World unit :=
  if decide (relation = ""%string \/ relation = RELCATNAME \/ relation = ATTRCATNAME) then throw BADCATPARM
  else
    let! hfs := new_scan relation in
    let! (_, hfs) :=
      (if decide (attrName = ""%string) then call (HeapFileScan_startScan 0 0 type None op) hfs
       else
         let! filter := defined (filter_bytes type attrValue) in
         let! attrDesc := AttrCatalog_getInfo n fuel relation attrName in
         call (HeapFileScan_startScan (ad_attrOffset attrDesc) (ad_attrLen attrDesc) type (Some filter) op) hfs) in
    let! hfs := delete_loop n fuel hfs in
    delete_scan hfs ;;;
    ret tt.

(** ** [QU_Select] *)

(** Copy the projected attributes of a record into [outputData]; a descriptor
    that was never filled in is undefined. *)
Fixpoint project (projs : list (option AttrDesc)) (rec : Record) (outputOffset : Z) (outputData : block) : option block :=
  match projs with
  | [] => Some outputData
  | p :: projs =>
      p ← p;
      bytes ← rd (ad_attrOffset p) (ad_attrLen p) rec;
      outputData ← wr outputOffset bytes outputData;
      project projs rec (s32 (outputOffset + ad_attrLen p)) outputData
  end.

(** The loop of [ScanSelect]: any status of [scanNext] ends it. *)
Fixpoint select_loop (n fuel : nat) (projs : list (option AttrDesc)) (outputData : block) (ins : HeapFile) (hfs : HeapFileScan) :
    CODE World (result unit * HeapFile * HeapFileScan) :=
  match n with
  | O => undef
  | S n =>
      let! (r, hfs) := call (HeapFileScan_scanNext fuel) hfs in
      match r with
      | Err _ => ret (Ok tt, ins, hfs)
      | Ok _ =>
          let! (r, hfs) := call HeapFileScan_getRecord hfs in
          match r with
          | Err st => ret (Err st, ins, hfs)
          | Ok rec =>
              let! outputData := defined (project projs rec 0 outputData) in
              let! (r, ins) := call (InsertFileScan_insertRecord outputData) ins in
              match r with
              | Err st => ret (Err st, ins, hfs)
              | Ok _ => select_loop n fuel projs outputData ins hfs
              end
          end
      end
  end.

(** In the first case the type passed to [startScan] is not initialised;
    [startScan] does not look at it when the filter is [NULL]. *)
Definition ScanSelect (stack : nat -> byte) (n fuel : nat) (result : string) (projNames : list (option AttrDesc))
    (attrDesc : option AttrDesc) (op : Operator) (filter : option block) (reclen : Z) : CODE World unit :=
  with_insert result (fun insertResult =>
    let! p0 := defined (mjoin (projNames !! 0%nat)) in
    let! relName := defined (name_string (ad_relName p0)) in
    let! (st, heapResult) := HeapFileScan_new relName in
    if decide (st <> OK) then end_scope heapResult ;;; ret (Err st, insertResult)
    else
      let! attrDesc := defined attrDesc in
      let type := if decide (ad_attrType attrDesc = 0) then STRING
                  else if decide (ad_attrType attrDesc = 1) then INTEGER else FLOAT in
      let! newFilter := (match filter with
                         | None => ret None
                         | Some _ => let! b := defined (filter_bytes type filter) in ret (Some b)
                         end) in
      let! (r, heapResult) := call (HeapFileScan_startScan (ad_attrOffset attrDesc) (ad_attrLen attrDesc) type newFilter op) heapResult in
      match r with
      | Err st => end_scope heapResult ;;; ret (Err st, insertResult)
      | Ok _ =>
          let! outputData := defined (fresh_array stack reclen) in
          let! (r, insertResult, heapResult) := select_loop n fuel projNames outputData insertResult heapResult in
          end_scope heapResult ;;;
          ret (r, insertResult)
      end).

(** The first loop of [QU_Select] for attribute [a]: the projections it
    fills, and the record length. *)
Fixpoint match_projs (a : AttrDesc) (projNames : list attrInfo) (projs : list (option AttrDesc)) (reclen : Z) :
    option (list (option AttrDesc) * Z) :=
  match projNames, projs with
  | p :: projNames, d :: projs =>
      c ← strcmp (ad_attrName a) (ai_attrName p);
      let '(d, reclen) := if decide (c = 0) then (Some a, s32 (reclen + ad_attrLen a)) else (d, reclen) in
      '(projs, reclen) ← match_projs a projNames projs reclen;
      Some (d :: projs, reclen)
  | _, _ => Some ([], reclen)
  end.

(** The state of the loop: the projections, the length, and [attrIdx] as the
    descriptor it selects. *)
Fixpoint match_attrs (attrs : list AttrDesc) (projNames : list attrInfo) (attr : option attrInfo)
    (st : list (option AttrDesc) * Z * option AttrDesc) : option (list (option AttrDesc) * Z * option AttrDesc) :=
  match attrs with
  | [] => Some st
  | a :: attrs =>
      let '(projs, reclen, idx) := st in
      '(projs, reclen) ← match_projs a projNames projs reclen;
      idx ← match attr with
            | None => Some idx
            | Some v => c ← strcmp (ad_attrName a) (ai_attrName v); Some (if decide (c = 0) then Some a else idx)
            end;
      match_attrs attrs projNames attr (projs, reclen, idx)
  end.

Definition QU_Select (stack : nat -> byte) (n fuel : nat) (result : string) (projCnt : Z) (projNames : list attrInfo)
    (attr : option attrInfo) (op : Operator) (attrValue : option block) : CODE World unit :=
  if match attr with Some a => bool_decide (ai_attrType a < 0 \/ ai_attrType a > 2) | None => false end then throw ATTRTYPEMISMATCH
  else
    let! p0 := defined (projNames !! 0%nat) in
    let! relName := defined (name_string (ai_relName p0)) in
    let! attrDescArray := AttrCatalog_getRelInfo n fuel relName in
    let! projNames := defined (first_n projCnt projNames) in
    let! (projs, reclen, idx) :=
      defined (match_attrs attrDescArray projNames attr (replicate (length projNames) None, 0, None)) in
    match attr with
    | None => ScanSelect stack n fuel result projs (mjoin (projs !! 0%nat)) EQ None reclen
    | Some _ =>
        let! d := defined idx in
        ScanSelect stack n fuel result projs (Some d) op attrValue reclen
    end.

(** ** [QU_Join] *)

Inductive JoinType : Set := NLJoin | SMJoin | HashJoin.

#[export] Instance JoinType_eq_dec : EqDecision JoinType.
Proof. solve_decision. Defined.

(** The operator seen from the inner relation. *)
Definition flip_op (op : Operator) : Operator :=
  match op with EQ => EQ | GT => LT | GTE => LTE | LT => GT | LTE => GTE | NE => NE end.

(** The copy loop: an attribute of the outer relation or of the inner one. *)
Fixpoint join_record (attrs : list AttrDesc) (outer : block) (outerRec innerRec : Record) (outputOffset : Z) (outputData : block) :
    option block :=
  match attrs with
  | [] => Some outputData
  | a :: attrs =>
      c ← strcmp (ad_relName a) outer;
      bytes ← rd (ad_attrOffset a) (ad_attrLen a) (if decide (c = 0) then outerRec else innerRec);
      outputData ← wr outputOffset bytes outputData;
      join_record attrs outer outerRec innerRec (s32 (outputOffset + ad_attrLen a)) outputData
  end.

(** The inner loop; [ASSERT] ends the program when the status is not [OK]. *)
Fixpoint inner_loop (n fuel : nat) (attrs : list AttrDesc) (outer : block) (outerRec : Record) (outputData : block)
    (resultRel : HeapFile) (innerScan : HeapFileScan) : CODE World (block * HeapFile * HeapFileScan) :=
  match n with
  | O => undef
  | S n =>
      let! (r, innerScan) := call (HeapFileScan_scanNext fuel) innerScan in
      match r with
      | Err _ => ret (outputData, resultRel, innerScan)
      | Ok _ =>
          let! (r, innerScan) := call HeapFileScan_getRecord innerScan in
          let! innerRec := defined match r with Ok rec => Some rec | Err _ => None end in
          let! outputData := defined (join_record attrs outer outerRec innerRec 0 outputData) in
          let! (r, resultRel) := call (InsertFileScan_insertRecord outputData) resultRel in
          match r with
          | Ok _ => inner_loop n fuel attrs outer outerRec outputData resultRel innerScan
          | Err _ => undef
          end
      end
  end.

(** The outer loop.  The filter of the inner scan points into the outer
    record: its bytes from the attribute on. *)
Fixpoint outer_loop (n m fuel : nat) (attrs : list AttrDesc) (d1 d2 : AttrDesc) (op : Operator) (outputData : block)
    (resultRel : HeapFile) (outerScan : HeapFileScan) : CODE World (result unit * HeapFile * HeapFileScan) :=
  match n with
  | O => undef
  | S n =>
      let! (r, outerScan) := call (HeapFileScan_scanNext fuel) outerScan in
      match r with
      | Err _ => ret (Ok tt, resultRel, outerScan)
      | Ok _ =>
          let! (r, outerScan) := call HeapFileScan_getRecord outerScan in
          let! outerRec := defined match r with Ok rec => Some rec | Err _ => None end in
          let! inner := defined (name_string (ad_relName d2)) in
          let! (st, innerScan) := HeapFileScan_new inner in
          if decide (st <> OK) then end_scope innerScan ;;; ret (Err st, resultRel, outerScan)
          else
            let! (r, innerScan) := call (start_scan (ad_attrOffset d2) (ad_attrLen d2) (Datatype_of_int (ad_attrType d2))
                                           (Some (drop (Z.to_nat (ad_attrOffset d1)) outerRec)) op) innerScan in
            match r with
            | Err st => end_scope innerScan ;;; ret (Err st, resultRel, outerScan)
            | Ok _ =>
                let! (outputData, resultRel, innerScan) :=
                  inner_loop m fuel attrs (ad_relName d1) outerRec outputData resultRel innerScan in
                end_scope innerScan ;;;
                outer_loop n m fuel attrs d1 d2 op outputData resultRel outerScan
            end
      end
  end.

(** The descriptors of the projection list. *)
Fixpoint lookup_attrs (n fuel : nat) (projNames : list attrInfo) : CODE World (list AttrDesc) :=
  match projNames with
  | [] => ret []
  | p :: projNames =>
      let! rel := defined (name_string (ai_relName p)) in
      let! attr := defined (name_string (ai_attrName p)) in
      let! d := AttrCatalog_getInfo n fuel rel attr in
      let! ds := lookup_attrs n fuel projNames in
      ret (d :: ds)
  end.

Definition lookup_attr (n fuel : nat) (a : attrInfo) : CODE World AttrDesc :=
  let! rel := defined (name_string (ai_relName a)) in
  let! attr := defined (name_string (ai_attrName a)) in
  AttrCatalog_getInfo n fuel rel attr.

(** The test of the three join functions on the attributes they are given. *)
Definition same_type (attr1 attr2 : attrInfo) : bool :=
  bool_decide (ai_attrType attr1 = ai_attrType attr2) && bool_decide (ai_attrLen attr1 = ai_attrLen attr2).

Definition QU_NL_Join (stack : nat -> byte) (n fuel : nat) (result : string) (projCnt : Z) (projNames : list attrInfo)
    (attr1 : attrInfo) (op : Operator) (attr2 : attrInfo) : CODE World unit :=
  if negb (same_type attr1 attr2) then throw ATTRTYPEMISMATCH
  else
    let! projNames := defined (first_n projCnt projNames) in
    let! attrs := lookup_attrs n fuel projNames in
    let! d1 := lookup_attr n fuel attr1 in
    let! d2 := lookup_attr n fuel attr2 in
    let reclen := total_len attrs in
    with_insert result (fun resultRel =>
      let! outputData := defined (fresh_array stack reclen) in
      let! outer := defined (name_string (ad_relName d1)) in
      let! (st, outerScan) := HeapFileScan_new outer in
      if decide (st <> OK) then end_scope outerScan ;;; ret (Err st, resultRel)
      else
        let! (r, outerScan) := call (HeapFileScan_startScan 0 0 STRING None EQ) outerScan in
        match r with
        | Err st => end_scope outerScan ;;; ret (Err st, resultRel)
        | Ok _ =>
            let! (r, resultRel, outerScan) := outer_loop n n fuel attrs d1 d2 (flip_op op) outputData resultRel outerScan in
            end_scope outerScan ;;;
            ret (r, resultRel)
        end).

(** The other two join methods only test their arguments. *)
Definition QU_SM_Join (attr1 attr2 : attrInfo) : CODE World unit :=
  if negb (same_type attr1 attr2) then throw ATTRTYPEMISMATCH else ret tt.
Definition QU_Hash_Join (attr1 attr2 : attrInfo) : CODE World unit :=
  if negb (same_type attr1 attr2) then throw ATTRTYPEMISMATCH else ret tt.

Definition QU_Join (JoinMethod : JoinType) (stack : nat -> byte) (n fuel : nat) (result : string) (projCnt : Z)
    (projNames : list attrInfo) (attr1 : attrInfo) (op : Operator) (attr2 : attrInfo) : CODE World unit :=
  if decide (JoinMethod = NLJoin \/ (JoinMethod = HashJoin /\ op <> EQ)) then
    QU_NL_Join stack n fuel result projCnt projNames attr1 op attr2
  else if decide (JoinMethod = SMJoin) then QU_SM_Join attr1 attr2
  else QU_Hash_Join attr1 attr2.
