(* ===== verification/Program.v ===== *)
(** * The programs (dbcreate.C, minirel.C, quit.C)

    [dbcreate] makes the directory and the two catalogs of an empty database,
    [minirel] opens them and calls the parser, and [UT_Quit] closes them and
    flushes the pool.  The directory of the file system is that of the
    database, as after [chdir].  [exit] after an error is the early return
    with that status. *)

From S2P Require Export Query.

Definition str (s : string) : block := c_str s.

(** [bufMgr = new BufMgr(100)]. *)
Definition new_pool (bufs : Z) : CODE World unit := modify (fun w => mkWorld (w_disk w) (BufMgr_new bufs) (w_open w)).
Definition delete_pool : CODE World unit := on_pool BufMgr_delete.

(** The catalogs open; an error ends the program. *)
Definition open_catalogs : CODE World (HeapFile * HeapFile) :=
  let! (st, relCat) := RelCatalog_new in
  if decide (st <> OK) then throw st
  else
    let! (st, attrCat) := AttrCatalog_new in
    if decide (st <> OK) then throw st else ret (relCat, attrCat).

Definition close_all (relCat attrCat : HeapFile) : CODE World unit :=
  RelCatalog_delete relCat ;;;
  AttrCatalog_delete attrCat ;;;
  delete_pool.

(** Assignments to [ad] in [main]. *)
Definition set_attr (attrName : string) (attrOffset : Z) (attrType : Z) (attrLen : Z) (ad : AttrDesc) : option AttrDesc :=
  n ← strcpy (ad_attrName ad) (str attrName);
  Some (mkAttrDesc (ad_relName ad) n attrOffset attrType attrLen).

Definition set_rel (relName : string) (ad : AttrDesc) : option AttrDesc :=
  n ← strcpy (ad_relName ad) (str relName);
  Some (mkAttrDesc n (ad_attrName ad) (ad_attrOffset ad) (ad_attrType ad) (ad_attrLen ad)).

(** One [CALL(attrCat->addInfo(ad))] with the assignments before it: [ad] as
    the call leaves it. *)
Definition describe (attrName : string) (attrOffset attrType attrLen : Z) (ad : AttrDesc) : CODE World AttrDesc :=
  let! ad := defined (set_attr attrName attrOffset attrType attrLen ad) in
  AttrCatalog_addInfo ad ;;;
  defined (pad_AttrDesc ad).

(** The tuples that describe the catalogs themselves; [rd0] and [ad0] are the
    local structs of [main] before they are assigned. *)
Definition describe_catalogs (rd0 : RelDesc) (ad0 : AttrDesc) : CODE World unit :=
  let! n := defined (strcpy (rd_relName rd0) (str RELCATNAME)) in
  let rd := mkRelDesc n 2 in
  RelCatalog_addInfo rd ;;;
  let! rd := defined (pad_RelDesc rd) in
  let! ad := defined (set_rel RELCATNAME ad0) in
  let! ad := describe "relName" 0 0 MAXNAME ad in
  let! ad := describe "attrCnt" (ad_attrOffset ad + MAXNAME) 1 4 ad in
  let! n := defined (strcpy (rd_relName rd) (str ATTRCATNAME)) in
  RelCatalog_addInfo (mkRelDesc n 5) ;;;
  let! ad := defined (set_rel ATTRCATNAME ad) in
  let! ad := describe "relName" 0 0 MAXNAME ad in
  let! ad := describe "attrName" (ad_attrOffset ad + MAXNAME) 0 MAXNAME ad in
  let! ad := describe "attrOffset" (ad_attrOffset ad + MAXNAME) 1 4 ad in
  let! ad := describe "attrType" (ad_attrOffset ad + 4) 1 4 ad in
  let! ad := describe "attrLen" (ad_attrOffset ad + 4) 1 4 ad in
  ret tt.

(** [main] of dbcreate.C after the directory is there. *)
Definition dbcreate_main (rd0 : RelDesc) (ad0 : AttrDesc) : CODE World unit :=
  new_pool 100 ;;;
  createHeapFile RELCATNAME ;;;
  createHeapFile ATTRCATNAME ;;;
  let! (relCat, attrCat) := open_catalogs in
  describe_catalogs rd0 ad0 ;;;
  close_all relCat attrCat.

(** [JoinMethod] from the second argument of minirel. *)
Definition join_method (arg : option string) : JoinType :=
  match arg with
  | None => NLJoin
  | Some a => if decide (a = "SM"%string) then SMJoin else if decide (a = "HJ"%string) then HashJoin else NLJoin
  end.

(** The start of [main] of minirel.C. *)
Definition minirel_start : CODE World (HeapFile * HeapFile) := new_pool 100 ;;; open_catalogs.

(** A new process in the directory of the database: [db] has no open files,
    [ptr] is the first address that [new] returns, and the pool is not there
    until [new_pool]. *)
Definition process (u : Unix) (ptr : Z) : World := mkWorld (mkDisk u ∅ ptr) (BufMgr_new 1) OpenFileHashTbl_new.

(** What the programs write to the error stream before they end. *)
Inductive complaint : Set :=
| usage (argv0 : string)         (* cerr << "Usage: " ... *)
| perror (call : string)         (* perror of a system call *)
| engine (st : Status).          (* error.print *)

(** The whole of [main] of dbcreate.C: the exit code, the complaint and the
    line on the standard output.  [mkdir] and [chdir] tell whether the calls
    succeed. *)
Definition dbcreate (mkdir chdir : string -> bool) (argv0 : string) (args : list string) (rd0 : RelDesc) (ad0 : AttrDesc) (w : World) :
    option (Z * option complaint * block * World) :=
  match args with
  | [] => Some (1, Some (usage argv0), [], w)
  | dbname :: _ =>
      if negb (mkdir dbname) then Some (1, Some (perror "mkdir"), [], w)
      else if negb (chdir dbname) then Some (1, Some (perror "chdir"), [], w)
      else
        '(r, w) ← dbcreate_main rd0 ad0 w;
        match r with
        | Err st => Some (1, Some (engine st), [], w)
        | Ok _ => Some (0, None, chars "Database " ++ chars dbname ++ chars " created", w)
        end
  end.

Definition welcome (m : JoinType) : list block :=
  [chars "Welcome to Minirel";
   chars "    Using " ++ match m with NLJoin => chars "Nested Loops Join Method" | HashJoin => chars "Hash Join Method" | SMJoin => chars "Sort Merge Join Method" end].

(** The whole of [main] of minirel.C; [parse] is the loop of the generated
    parser, which works on the world with the two catalogs open. *)
Definition minirel (chdir : string -> bool) (parse : JoinType -> HeapFile -> HeapFile -> World -> option World)
    (argv0 : string) (args : list string) (w : World) : option (Z * option complaint * list block * World) :=
  match args with
  | [] => Some (1, Some (usage argv0), [], w)
  | dbname :: rest =>
      if negb (chdir dbname) then Some (1, Some (perror "chdir"), [], w)
      else
        let JoinMethod := join_method (match rest with [m] => Some m | _ => None end) in
        '(r, w) ← minirel_start w;
        match r with
        | Err st => Some (1, Some (engine st), [], w)
        | Ok (relCat, attrCat) => w ← parse JoinMethod relCat attrCat w; Some (0, None, welcome JoinMethod, w)
        end
  end.

(** [UT_Quit] up to [exit]. *)
Definition UT_Quit (relCat attrCat : HeapFile) : CODE World unit := close_all relCat attrCat.
