(* ===== verification/HeapView.v ===== *)
(** * What a heap file denotes

    The page operations lifted to the storage layer, and the abstract heap
    file: the chain of pages with their records, and the records in scan
    order.  The header page of a heap file is the first page of its file,
    page 1. *)

From S2P Require Export HeapFile.

(** ** The storage layer as clients see it *)

Definition wlog (w : World) (f n : Z) : option block := logical (w_disk w) (w_mgr w) f n.
Definition wpin (w : World) (f n : Z) : Z := pins (w_mgr w) f n.
Definition wfrm (w : World) (f n : Z) : option Z := frame_of (w_mgr w) f n.

(** What no page operation changes: the open files and the directory. *)
Record world_frame (w w' : World) : Prop := {
  wf_open : w_open w' = w_open w;
  wf_disk : disk_frame (w_disk w) (w_disk w');
  wf_num : numBufs (w_mgr w') = numBufs (w_mgr w);
}.

#[export] Instance world_frame_preorder : PreOrder world_frame.
Proof.
  split; [by split|]. intros w1 w2 w3 [H1 H2 H3] [H4 H5 H6]. split; [congruence|by transitivity (w_disk w2)|congruence].
Qed.

Section Pages.
Implicit Types (T : gset (Z * Z)) (w : World) (f n i : Z) (p : block).

(** Buffer manager code keeps the invariant of the storage layer. *)
Lemma on_pool_ok {A} (m : CODE (Disk * BufMgr) A) T T' w r d b :
  world_ok T w -> m (w_disk w, w_mgr w) = Some (r, (d, b)) -> disk_frame (w_disk w) d /\ numBufs b = numBufs (w_mgr w) ->
  pool_inv T' None d b ->
  exists w', on_pool m w = Some (r, w') /\ world_ok T' w' /\ world_frame w w' /\ w_disk w' = d /\ w_mgr w' = b.
Proof.
  intros Hw Hm [Hf Hnb] Hp. exists (mkWorld d b (w_open w)). unfold on_pool. rewrite Hm. split; [done|]. split; [|by split].
  pose proof (pi_store _ _ _ _ Hp) as Hd. split; cbn.
  - eapply unix_ok_frame; [apply (wo_unix _ _ Hw)| |done|done]. intros g j. by eapply world_dir.
  - apply Hw.
  - intros g o. rewrite (df_files _ _ Hf). intros Ho. destruct (wo_obj _ _ Hw g o Ho) as [H1 H2 H3 H4].
    split; cbn; [done|done|by rewrite (df_ptr _ _ Hf)|by rewrite (df_fds _ _ Hf), (df_dir _ _ Hf)].
  - rewrite (df_files _ _ Hf). apply Hw.
  - rewrite (df_ptr _ _ Hf). apply Hw.
  - done.
Qed.

Lemma keeps_frame {A} (m : CODE (Disk * BufMgr) A) :
  (forall R : Disk * BufMgr -> Disk * BufMgr -> Prop, PreOrder R ->
     (forall s b b', numBufs b' = numBufs b -> R (s, b) (s, b')) ->
     (forall f n p s st s' b, File_writePage f n p s = Some (st, s') -> R (s, b) (s', b)) ->
     (forall f s r s' b, File_allocatePage f s = Some (r, s') -> R (s, b) (s', b)) ->
     keeps R m) ->
  forall d b r d' b', m (d, b) = Some (r, (d', b')) -> disk_frame d d' /\ numBufs b' = numBufs b.
Proof.
  intros Hk d b r d' b' Hr.
  set (R := fun x y : Disk * BufMgr => disk_frame x.1 y.1 /\ numBufs y.2 = numBufs x.2).
  refine (Hk R _ _ _ _ (d, b) r (d', b') Hr).
  - split; [by intros x; unfold R|]. intros x y z [A1 A2] [B1 B2]. split; [by transitivity y.1|congruence].
  - by intros; unfold R.
  - intros. split; [by eapply writePage_frame|done].
  - intros. split; [by eapply allocatePage_frame|done].
Qed.

Lemma wlog_bounds T w f n p :
  world_ok T w -> wlog w f n = Some p -> Z.of_nat (length p) = PAGESIZE /\ 1 <= n < 2 ^ 31 - 1 /\ is_Some (conn (w_disk w) f).
Proof.
  intros Hw Hl. destruct (logical_page T None _ _ f n p (wo_pool _ _ Hw) Hl) as (Hlen & _ & _ & Hf & q & Hq).
  split; [done|]. split; [|done]. pose proof (pi_store _ _ _ _ (wo_pool _ _ Hw)) as Hd.
  destruct (disk_page_inv _ _ _ _ Hd Hq) as (i & c & N & fr & _ & Hc & Hfo & Hn & _).
  pose proof (do_size _ Hd i c Hc). pose proof (do_fsize _ Hd). pose proof (fo_len _ _ _ Hfo) as [Hc1 Hc2].
  rewrite PAGESIZE_eq in *. lia.
Qed.

(** Files that are not looked at keep their pages. *)
Lemma named_frame T w w' (P : Z -> Prop) nm n :
  world_ok T w -> world_frame w w' -> (forall g m, P g -> wlog w' g m = wlog w g m) ->
  (forall g, of_map (w_open w) !! nm = Some g -> P g) -> named_page w' nm n = named_page w nm n.
Proof.
  intros Hw Hf Hlog HP. unfold named_page. rewrite (wf_open _ _ Hf).
  destruct (of_map (w_open w) !! nm) as [g|] eqn:Hg; [by apply Hlog, HP|].
  pose proof (wf_disk _ _ Hf) as Hd. unfold stored_page. rewrite (df_dir _ _ Hd).
  destruct (u_dir (unix (w_disk w)) !! nm) as [i|] eqn:Hi; [|done]. cbn. rewrite (df_data _ _ Hd); [done|].
  intros g Hc. destruct (world_conn T w g i Hw Hc) as (o & Ho & Hoo & _ & Hdo).
  pose proof (uo_inj _ (wo_unix _ _ Hw) _ _ _ Hi Hdo) as ->. pose proof (oo_tab _ _ _ Hoo). congruence.
Qed.

(** *** [readPage] *)
Lemma readPage_W T w f n p :
  world_ok T w -> wlog w f n = Some p -> wpin w f n < 2 ^ 31 - 1 ->
  (exists i w', readPage f n w = Some (Ok i, w') /\ world_ok T w' /\ world_frame w w' /\ wfrm w' f n = Some i /\
     (forall g m, wlog w' g m = wlog w g m) /\
     (forall g m, wpin w' g m = if decide (g = f /\ m = n) then wpin w f n + 1 else wpin w g m) /\
     (forall g m, 0 < wpin w g m -> wfrm w' g m = wfrm w g m)) \/
  (exists w', readPage f n w = Some (Err BUFFEREXCEEDED, w') /\ world_ok T w' /\ world_frame w w' /\
     (forall g m, wlog w' g m = wlog w g m) /\ (forall g m, wpin w' g m = wpin w g m) /\
     (forall g m, 0 < wpin w g m -> wfrm w' g m = wfrm w g m) /\
     forall i d, zget (bufTable (w_mgr w)) i = Some d -> ~ reusable d).
Proof.
  intros Hw Hl Hp. pose proof (wo_pool _ _ Hw) as Hi. unfold readPage.
  destruct (BufMgr_readPage_ok T _ _ f n p Hi Hl Hp) as
    [(i & d & b & Hrun & Hi' & Hfr & _ & Hv & Hpn & _ & Hs)|(b & Hrun & Hi' & (Hv & Hpn & _ & Hs) & _ & Hno)].
  - left. destruct (on_pool_ok _ T T w _ _ _ Hw Hrun) as (w' & Hr & Hw' & Hf & Hd & Hb); [|done|].
    { eapply keeps_frame; [|exact Hrun]. intros R HR H1 H2 H3. by apply keeps_readPage. }
    exists i, w'. unfold wlog, wpin, wfrm. rewrite Hd, Hb. done.
  - right. destruct (on_pool_ok _ T T w _ _ _ Hw Hrun ltac:(eapply keeps_frame; [|exact Hrun]; intros R HR H1 H2 H3; by apply keeps_readPage) Hi') as (w' & Hr & Hw' & Hf & Hd & Hb).
    exists w'. unfold wlog, wpin, wfrm. rewrite Hd, Hb. done.
Qed.

(** *** [unPinPage] *)
Lemma unPinPage_W T w f n dirty :
  world_ok T w -> 0 < wpin w f n -> (dirty = false -> wpin w f n = 1 -> (f, n) ∉ T) ->
  exists w', unPinPage f n dirty w = Some (Ok tt, w') /\
    world_ok (if dirty then T ∖ {[(f, n)]} else T) w' /\ world_frame w w' /\
    (forall g m, wlog w' g m = wlog w g m) /\
    (forall g m, wpin w' g m = if decide (g = f /\ m = n) then wpin w f n - 1 else wpin w g m) /\
    (forall g m, wfrm w' g m = wfrm w g m).
Proof.
  intros Hw Hpos HT. destruct (BufMgr_unPinPage_ok T _ _ f n dirty (wo_pool _ _ Hw) Hpos HT) as (b & Hrun & Hi & Hv & Hp & Hfr).
  destruct (on_pool_ok _ T _ w _ _ _ Hw Hrun ltac:(eapply keeps_frame; [|exact Hrun]; intros R HR H1 H2 H3; by apply keeps_unPinPage) Hi) as (w' & Hr & Hw' & Hf & Hd & Hb).
  exists w'. unfold wlog, wpin, wfrm. rewrite Hd, Hb. done.
Qed.

(** *** [flushFile] *)
Lemma flushFile_W T w f :
  world_ok T w -> 0 < f -> (forall n, wpin w f n = 0) ->
  exists w', flushFile f w = Some (Ok tt, w') /\ world_ok T w' /\ world_frame w w' /\
    (forall g m, wlog w' g m = wlog w g m) /\ (forall g m, wpin w' g m = wpin w g m) /\
    (forall g m, 0 < wpin w g m -> wfrm w' g m = wfrm w g m).
Proof.
  intros Hw Hpos Hp. destruct (BufMgr_flushFile_ok T _ _ f (wo_pool _ _ Hw) Hpos) as (r & d & b & Hrun & Hi & (Hv & Hpn & _ & Hst) & Hr).
  destruct r as [[]|e]; [|destruct Hr as (_ & n & Hn); unfold wpin in Hp; rewrite Hp in Hn; lia].
  destruct (on_pool_ok _ T T w _ _ _ Hw Hrun) as (w' & Hr' & Hw' & Hf & Hd & Hb); [|done|].
  { split; [by eapply flushFile_frame|by eapply flushFile_num]. }
  exists w'. unfold wlog, wpin, wfrm. rewrite Hd, Hb. done.
Qed.

(** The first page of a file that has pages. *)
Lemma first_page_W T w f n p : world_ok T w -> wlog w f n = Some p -> wlog w f 1 <> None.
Proof.
  intros Hw Hl. destruct (logical_page T None _ _ f n p (wo_pool _ _ Hw) Hl) as (_ & _ & _ & _ & q & Hq).
  pose proof (pi_store _ _ _ _ (wo_pool _ _ Hw)) as Hd.
  destruct (disk_page_inv _ _ _ _ Hd Hq) as (i & c & N & fr & Hi & Hc & Hfo & Hn & _).
  unfold wlog, logical. destruct (frame_of _ f 1) as [k|] eqn:Hk.
  - destruct (pi_entry _ _ _ _ (wo_pool _ _ Hw) f 1 k Hk) as (_ & d & Hdk & _). apply zget_range in Hdk.
    destruct (pi_clock _ _ _ _ (wo_pool _ _ Hw)) as (_ & Hlen & _). pose proof (pi_pool _ _ _ _ (wo_pool _ _ Hw)).
    destruct (zget_is_Some (bufPool (w_mgr w)) k) as [x Hx]; [lia|]. by rewrite Hx.
  - change (disk_page (w_disk w) f 1 <> None). rewrite (disk_page_file _ f i c N fr 1 Hi Hc Hfo). unfold file_page.
    destruct (file_ok_page c N fr 1 Hfo ltac:(lia)) as [x Hx]. rewrite decide_True, Hx; [done|]. split; [lia|].
    intros Hin. pose proof (fo_range _ _ _ Hfo) as Hr. rewrite list.Forall_forall in Hr. specialize (Hr 1 Hin). lia.
Qed.

(** *** Access to the bytes of a pinned page *)
Lemma load_W w f n i p : wfrm w f n = Some i -> wlog w f n = Some p -> load (PFrame i) w = Some (Ok p, w).
Proof.
  intros Hf Hl. unfold wlog, logical in Hl. unfold wfrm in Hf. rewrite Hf in Hl. cbn. unfold on_pool, client_read, get_mgr.
  rewrite Hl. by destruct w.
Qed.

Lemma store_W T w f n i q :
  world_ok T w -> wfrm w f n = Some i -> 0 < wpin w f n -> Z.of_nat (length q) = PAGESIZE ->
  exists w', store (PFrame i) q w = Some (Ok tt, w') /\ world_ok ({[(f, n)]} ∪ T) w' /\ world_frame w w' /\
    (forall g m, wlog w' g m = if decide (g = f /\ m = n) then Some q else wlog w g m) /\
    (forall g m, wpin w' g m = wpin w g m) /\ (forall g m, wfrm w' g m = wfrm w g m).
Proof.
  intros Hw Hf Hp Hq. destruct (client_write_ok T _ _ f n i q (wo_pool _ _ Hw) Hf Hp Hq) as (b & Hrun & Hi & Hv & Hpn & Hfr).
  destruct (on_pool_ok _ T _ w _ _ _ Hw Hrun ltac:(eapply keeps_frame; [|exact Hrun]; intros R HR H1 H2 H3; by apply keeps_client_write) Hi) as (w' & Hr & Hw' & Hfm & Hd & Hb).
  exists w'. unfold wlog, wpin, wfrm. rewrite Hd, Hb. done.
Qed.

Lemma page_get_W {A} w f n i p (g : block -> option A) a :
  wfrm w f n = Some i -> wlog w f n = Some p -> g p = Some a -> page_get (PFrame i) g w = Some (Ok a, w).
Proof.
  intros Hf Hl Hg. unfold page_get. rewrite (bind_Ok _ _ _ _ _ (load_W w f n i p Hf Hl)). unfold defined. by rewrite Hg.
Qed.

Lemma page_set_W {A} T w f n i p (g : block -> option (A * block)) a q :
  world_ok T w -> wfrm w f n = Some i -> 0 < wpin w f n -> wlog w f n = Some p -> g p = Some (a, q) ->
  Z.of_nat (length q) = PAGESIZE ->
  exists w', page_set (PFrame i) g w = Some (Ok a, w') /\ world_ok ({[(f, n)]} ∪ T) w' /\ world_frame w w' /\
    (forall g m, wlog w' g m = if decide (g = f /\ m = n) then Some q else wlog w g m) /\
    (forall g m, wpin w' g m = wpin w g m) /\ (forall g m, wfrm w' g m = wfrm w g m).
Proof.
  intros Hw Hf Hp Hl Hg Hq. destruct (store_W T w f n i q Hw Hf Hp Hq) as (w' & Hr & Hrest). exists w'.
  split; [|done]. unfold page_set. rewrite (bind_Ok _ _ _ _ _ (load_W w f n i p Hf Hl)).
  erewrite bind_Ok by (unfold defined; rewrite Hg; reflexivity). cbn beta iota. by rewrite (bind_Ok _ _ _ _ _ Hr).
Qed.

Lemma page_upd_W T w f n i p (g : block -> option block) q :
  world_ok T w -> wfrm w f n = Some i -> 0 < wpin w f n -> wlog w f n = Some p -> g p = Some q ->
  Z.of_nat (length q) = PAGESIZE ->
  exists w', page_upd (PFrame i) g w = Some (Ok tt, w') /\ world_ok ({[(f, n)]} ∪ T) w' /\ world_frame w w' /\
    (forall g m, wlog w' g m = if decide (g = f /\ m = n) then Some q else wlog w g m) /\
    (forall g m, wpin w' g m = wpin w g m) /\ (forall g m, wfrm w' g m = wfrm w g m).
Proof.
  intros Hw Hf Hp Hl Hg Hq. eapply page_set_W; [done..| |done]. cbn. by rewrite Hg.
Qed.

(** *** [allocPage] *)
Lemma allocPage_W T w f :
  world_ok T w -> is_Some (conn (w_disk w) f) ->
  exists r w', allocPage f w = Some (r, w') /\ world_frame w w' /\
    (forall g m, 0 < wpin w g m -> wfrm w' g m = wfrm w g m) /\
    match r with
    | Ok (n, i) => world_ok ({[(f, n)]} ∪ T) w' /\ wfrm w' f n = Some i /\ wlog w f n = None /\
        (exists p, forall g m, wlog w' g m = if decide (g = f /\ m = n) then Some p else wlog w g m) /\
        (forall g m, wpin w' g m = if decide (g = f /\ m = n) then 1 else wpin w g m)
    | Err e => world_ok T w' /\ (forall g m, wpin w' g m = wpin w g m) /\
        (forall g m, g <> f -> wlog w' g m = wlog w g m) /\
        (forall m p, wlog w f m = Some p -> wlog w' f m = Some p)
    end.
Proof.
  intros Hw Hc. destruct (BufMgr_allocPage_ok T _ _ f (wo_pool _ _ Hw) Hc) as (r & d & b & Hrun & _ & Hr).
  assert (disk_frame (w_disk w) d /\ numBufs b = numBufs (w_mgr w)) as Hf.
  { eapply keeps_frame; [|exact Hrun]. intros R HR H1 H2 H3. by apply keeps_allocPage. }
  unfold allocPage. destruct r as [[n i]|e].
  - destruct Hr as (Hi & Hfr & Hnone & [p Hadd] & Hp & Hs).
    destruct (on_pool_ok _ T _ w _ _ _ Hw Hrun Hf Hi) as (w' & Hr & Hw' & Hwf & Hd & Hb).
    exists (Ok (n, i)), w'. unfold wlog, wpin, wfrm. rewrite Hd, Hb. eauto 10.
  - destruct Hr as (Hi & Hp & Hs & Hl).
    destruct (on_pool_ok _ T _ w _ _ _ Hw Hrun Hf Hi) as (w' & Hr & Hw' & Hwf & Hd & Hb).
    exists (Err e), w'. unfold wlog, wpin, wfrm. rewrite Hd, Hb. do 5 (split; [done|]).
    destruct Hl as [Hl|(_ & _ & n & p & Hnone & Hadd)]; [split; intros; by rewrite Hl|]. split.
    + intros g m Hg. rewrite Hadd, decide_False by naive_solver. done.
    + intros m q Hq. rewrite Hadd. case_decide as Hgm; [|done]. destruct Hgm as [_ ->]. congruence.
Qed.

End Pages.

(** ** The abstract heap file *)

(** A page of the chain: its number and its slots. *)
Abbreviation hpage := (Z * list (option Record))%type.

(** The records of a page from slot [k] on, with their identifiers. *)
Fixpoint recs_at (n : Z) (k : nat) (c : list (option Record)) : list (RID * Record) :=
  match c with
  | [] => []
  | Some r :: c => (mkRID n (Z.of_nat k), r) :: recs_at n (S k) c
  | None :: c => recs_at n (S k) c
  end.

(** The records of the file in the order of a scan. *)
Definition heap_recs (l : list hpage) : list (RID * Record) := l ≫= fun '(n, c) => recs_at n 0 c.

(** The number the page before [l] in the chain points to. *)
Definition next_no (l : list hpage) : Z := match l with [] => -1 | (n, _) :: _ => n end.

(** Page [n] holds the slots [c] and points to page [nx]. *)
Definition page_entry (pg : Z -> option block) (n nx : Z) (c : list (option Record)) : Prop :=
  exists p, pg n = Some p /\ page_ok p /\ contents p = c /\ getNextPage p = Some nx /\ rd32 off_curPage p = Some n.

Fixpoint chain (pg : Z -> option block) (l : list hpage) : Prop :=
  match l with
  | [] => True
  | (n, c) :: l => page_entry pg n (next_no l) c /\ chain pg l
  end.

(** The header page describes the chain [l]. *)
Definition header_for (p : block) (l : list hpage) : Prop :=
  rd32 off_first p = Some (next_no l) /\
  (fst <$> last l) = rd32 off_last p /\
  rd32 off_pageCnt p = Some (s32 (Z.of_nat (length l))) /\
  rd32 off_recCnt p = Some (s32 (Z.of_nat (length (heap_recs l)))).

Definition hdr_no : Z := 1.

(** A well-formed heap file with the pages [pg] and the chain [l]. *)
Record heap_ok (pg : Z -> option block) (l : list hpage) : Prop := {
  ho_hdr : exists p, pg hdr_no = Some p /\ header_for p l;
  ho_nodup : NoDup (hdr_no :: l.*1);
  ho_chain : chain pg l;
}.

Section Heap.
Implicit Types (pg : Z -> option block) (l : list hpage) (c : list (option Record)) (n k : Z).

Lemma recs_at_app n j c c' : recs_at n j (c ++ c') = recs_at n j c ++ recs_at n (j + length c) c'.
Proof.
  revert j. induction c as [|[r|] c IH]; intros j; cbn.
  - f_equal. lia.
  - rewrite IH. do 3 f_equal. lia.
  - rewrite IH. do 2 f_equal. lia.
Qed.

Lemma recs_at_none n j c : (forall r, Some r ∉ c) -> recs_at n j c = [].
Proof.
  revert j. induction c as [|[r|] c IH]; intros j Hc; cbn; [done| |].
  - destruct (Hc r). by left.
  - apply IH. intros r Hr. apply (Hc r). by right.
Qed.

(** The records from slot [j] on start with the one [sp_next] finds. *)
Lemma recs_at_next n j c :
  recs_at n j (drop j c) = match sp_next j c with
                           | Some i => match c !! i with
                                       | Some (Some r) => (mkRID n (Z.of_nat i), r) :: recs_at n (S i) (drop (S i) c)
                                       | _ => []
                                       end
                           | None => []
                           end.
Proof.
  destruct (sp_next j c) as [i|] eqn:Hn.
  - apply sp_next_Some in Hn as (Hji & [r Hi] & Hno). rewrite Hi.
    pose proof (lookup_lt_Some _ _ _ Hi) as Hlt.
    assert (drop j c = take (i - j) (drop j c) ++ Some r :: drop (S i) c) as ->.
    { rewrite <- (take_drop (i - j) (drop j c)) at 1. f_equal. rewrite drop_drop.
      replace (j + (i - j))%nat with i by lia. by apply drop_S. }
    rewrite recs_at_app, recs_at_none.
    + cbn [app]. rewrite length_take, length_drop. replace (j + (i - j) `min` (length c - j))%nat with i by lia. done.
    + intros r' [m Hm]%list_elem_of_lookup. rewrite lookup_take_Some in Hm. destruct Hm as [Hm Hlt'].
      rewrite lookup_drop in Hm. by destruct (Hno (j + m)%nat r' ltac:(lia)).
  - apply recs_at_none. intros r [m Hm]%list_elem_of_lookup.
    unfold sp_next in Hn. case_decide as Hd; [done|]. apply Hd.
    pose proof (lookup_lt_Some _ _ _ Hm) as Hlt. rewrite length_drop in Hlt.
    destruct (decide (first_idx has_rec (drop j c) <= m)%nat); [lia|].
    apply (first_idx_before has_rec) in Hm; [done|lia].
Qed.

Lemma heap_recs_app l l' : heap_recs (l ++ l') = heap_recs l ++ heap_recs l'.
Proof. unfold heap_recs. apply bind_app. Qed.

Lemma next_no_app l n c l' : l <> [] -> next_no (l ++ (n, c) :: l') = next_no l.
Proof. by destruct l as [|[]]. Qed.

Lemma chain_app pg l n c l' :
  chain pg (l ++ (n, c) :: l') -> page_entry pg n (next_no l') c /\ chain pg l'.
Proof. induction l as [|[m d] l IH]; cbn; [done|]. intros [_ Hc]. by apply IH. Qed.

(** The chain depends on the bytes of its pages only. *)
Lemma chain_ext pg pg' l : (forall n, n ∈ l.*1 -> pg' n = pg n) -> chain pg l -> chain pg' l.
Proof.
  induction l as [|[m d] l IH]; [done|]. intros He [(p & Hp & Hrest) Hc]. split.
  - exists p. rewrite He by (cbn; by left). done.
  - apply IH; [|done]. intros n Hn. apply He. cbn. by right.
Qed.

Lemma heap_ok_ext pg pg' l : (forall n, n = hdr_no \/ n ∈ l.*1 -> pg' n = pg n) -> heap_ok pg l -> heap_ok pg' l.
Proof.
  intros He [(p & Hp & Hh) Hn Hc]. split; [|done|].
  - exists p. by rewrite He by auto.
  - eapply chain_ext; [|done]. auto.
Qed.

End Heap.
