(* ===== verification/HeapScan.v ===== *)
(** * Scanning a heap file

    The invariant of an open [HeapFile] object and the correctness of
    [scanNext]: it walks the chain of pages and returns the matching records
    in order, each once. *)

From S2P Require Export HeapView.

(** ** Stepping through methods *)

Section Run.
Context {O : Type}.
Implicit Types (w : World) (o : O).

Lemma io_run {A} (m : CODE World A) w o r w' : m w = Some (r, w') -> io m (w, o) = Some (r, (w', o)).
Proof. intros H. unfold io, zoom. cbn. by rewrite H. Qed.

Lemma member_run {A} (g : O -> option A) w o a : g o = Some a -> member g (w, o) = Some (Ok a, (w, o)).
Proof. intros H. unfold member. by rewrite H. Qed.

Lemma assign_run (g : O -> O) w o : assign g (w, o) = Some (Ok tt, (w, g o)).
Proof. done. Qed.

End Run.

Lemma base_run {A} (m : CODE (World * HeapFile) A) w s r w' h' :
  m (w, hfs_base s) = Some (r, (w', h')) -> base m (w, s) = Some (r, (w', set_base h' s)).
Proof. intros H. unfold base, zoom. by rewrite H. Qed.

Lemma call_run {Ob A} (m : CODE (World * Ob) A) o w r w' o' :
  m (w, o) = Some (r, (w', o')) -> call m o w = Some (Ok (r, o'), w').
Proof. intros H. unfold call. by rewrite H. Qed.

Lemma defined_run {S A} (x : option A) a (s : S) : x = Some a -> (defined x : CODE S A) s = Some (Ok a, s).
Proof. by intros ->. Qed.

(** Run the next statement, when what it does is known. *)
Ltac run_with H := first
  [ rewrite (bind_Ok _ _ _ _ _ H) | rewrite (bind_Err _ _ _ _ _ H) | rewrite H ]; cbn beta iota.
Ltac run_assign := rewrite (bind_Ok _ _ _ _ _ (assign_run _ _ _)); cbn beta iota.

(** ** Room in the buffer pool *)

Section Room.
Implicit Types (T : gset (Z * Z)) (w : World) (f n k : Z).

(** The pages with pins in [P], and [k] frames besides. *)
Definition frames_for (P : Z -> Z -> Z) k (bufs : Z) : Prop :=
  exists l0 : list (Z * Z), (forall g m, 0 < P g m -> (g, m) ∈ l0) /\ Z.of_nat (length l0) + k <= bufs.

(** [k] more pages can be pinned. *)
Definition room k w : Prop := frames_for (wpin w) k (numBufs (w_mgr w)).

Lemma frames_for_le P k k' bufs : k <= k' -> frames_for P k' bufs -> frames_for P k bufs.
Proof. intros Hk (l0 & H1 & H2). exists l0. split; [done|lia]. Qed.

(** One more page takes one frame. *)
Lemma frames_for_one P P' k bufs f n :
  (forall g m, (g, m) <> (f, n) -> P' g m = P g m) -> frames_for P (k + 1) bufs -> frames_for P' k bufs.
Proof.
  intros Hp (l0 & H1 & H2). exists ((f, n) :: l0). split; [|cbn; lia]. intros g m Hg.
  destruct (decide ((g, m) = (f, n))) as [->|Hne]; [by left|]. rewrite Hp in Hg by done. right. auto.
Qed.

Lemma room_not_full w : room 1 w -> ~ pool_full (w_mgr w).
Proof.
  intros (l0 & H1 & H2) (l1 & Hnd & Hlen & Hpin).
  assert (length l1 <= length l0)%nat; [|lia]. apply submseteq_length, NoDup_submseteq; [done|].
  intros [g m] Hin. apply H1, Hpin, Hin.
Qed.

Lemma readPage_room T w f n p :
  world_ok T w -> wlog w f n = Some p -> wpin w f n < 2 ^ 31 - 1 -> room 1 w ->
  exists i w', readPage f n w = Some (Ok i, w') /\ world_ok T w' /\ world_frame w w' /\ wfrm w' f n = Some i /\
     (forall g m, wlog w' g m = wlog w g m) /\
     (forall g m, wpin w' g m = if decide (g = f /\ m = n) then wpin w f n + 1 else wpin w g m) /\
     (forall g m, 0 < wpin w g m -> wfrm w' g m = wfrm w g m).
Proof.
  intros Hw Hl Hp Hroom. destruct (readPage_W T w f n p Hw Hl Hp) as
    [(i & w' & Hr & Hw' & Hf & Hfr & Hl' & Hp' & Hs)|(w' & _ & _ & _ & _ & _ & _ & Hno)]; [by exists i, w'|].
  destruct (room_not_full w Hroom). eapply no_reusable_full; [apply (wo_pool _ _ Hw)|exact Hno].
Qed.

End Room.

(** ** The invariant of an open object *)

(** What other clients hold while an object is open: their pins on page [m]
    of [g], and for how many more objects there has to be room.  They may have
    the same file open and the same pages pinned. *)
Record Clients : Set := mkClients { cl_pins : Z -> Z -> Z; cl_spare : Z }.
Coercion cl_pins : Clients >-> Funclass.

Section Object.
Context {O : Clients}.
Implicit Types (T H : gset (Z * Z)) (w : World) (f n cur : Z) (h : HeapFile) (l : list hpage).

(** The pages of [H] are pinned once more than by the other clients. *)
Definition pinned w H : Prop := forall g m, wpin w g m = O g m + (if decide ((g, m) ∈ H) then 1 else 0).

(** The other clients leave two frames to the object, for its header page and
    its current page. *)
Record others w : Prop := {
  ot_spare : 0 <= cl_spare O;
  ot_pos : forall g m, 0 <= O g m;
  ot_small : forall g m, O g m + cl_spare O < 2 ^ 31 - 2;
  ot_room : frames_for O (2 * cl_spare O + 2) (numBufs (w_mgr w));
}.

(** The object has the header page pinned. *)
Record holds_hdr T w f h : Prop := {
  hh_file : filePtr h = Some f;
  hh_no : headerPageNo h = Some hdr_no;
  hh_page : exists i, headerPage h = PFrame i /\ wfrm w f hdr_no = Some i;
  hh_dirty : exists b, hdrDirtyFlag h = Some b /\ ((f, hdr_no) ∈ T -> b = true);
}.

(** It has page [cur] pinned as its current page. *)
Record holds_cur T w f h cur : Prop := {
  hc_no : curPageNo h = Some cur;
  hc_page : exists i, curPage h = PFrame i /\ wfrm w f cur = Some i;
  hc_dirty : exists b, curDirtyFlag h = Some b /\ ((f, cur) ∈ T -> b = true);
}.

(** No other page of the file is being changed. *)
Definition quiet T f (oc : option Z) : Prop := forall n, n <> hdr_no -> oc <> Some n -> (f, n) ∉ T.

Record opened T w f h cur : Prop := {
  op_hdr : holds_hdr T w f h;
  op_cur : holds_cur T w f h cur;
  op_quiet : quiet T f (Some cur);
  op_ne : cur <> hdr_no;
  op_pins : pinned w {[(f, hdr_no); (f, cur)]};
  op_others : others w;
}.

(** No current page. *)
Record parked T w f h : Prop := {
  pk_hdr : holds_hdr T w f h;
  pk_quiet : quiet T f None;
  pk_pins : pinned w {[(f, hdr_no)]};
  pk_others : others w;
}.

(** A step that no other client notices, but for the pages that are no longer
    being changed. *)
Record step_same T w T' w' : Prop := {
  ss_world : world_ok T' w';
  ss_frame : world_frame w w';
  ss_sub : T' ⊆ T;
  ss_log : forall g m, wlog w' g m = wlog w g m;
  ss_frm : forall g m, 0 < O g m -> wfrm w' g m = wfrm w g m;
}.

Lemma step_same_refl T w : world_ok T w -> step_same T w T w.
Proof. by split. Qed.

Lemma step_same_trans T w T1 w1 T2 w2 : step_same T w T1 w1 -> step_same T1 w1 T2 w2 -> step_same T w T2 w2.
Proof.
  intros [A1 A2 A3 A4 A5] [B1 B2 B3 B4 B5]. split.
  - done.
  - by transitivity w1.
  - by transitivity T1.
  - intros. by rewrite B4, A4.
  - intros g m Hp. by rewrite B5, A5.
Qed.

Lemma heap_ok_same T w f T' w' l : step_same T w T' w' -> heap_ok (wlog w f) l -> heap_ok (wlog w' f) l.
Proof. intros Hs. apply heap_ok_ext. intros. apply (ss_log _ _ _ _ Hs). Qed.

(** The part of the object that belongs to the header does not move. *)
Definition same_hdr h h' : Prop :=
  filePtr h' = filePtr h /\ headerPage h' = headerPage h /\ headerPageNo h' = headerPageNo h /\ hdrDirtyFlag h' = hdrDirtyFlag h.

Lemma holds_hdr_ext T w f h h' : same_hdr h h' -> holds_hdr T w f h -> holds_hdr T w f h'.
Proof. intros (H1 & H2 & H3 & H4) [A B C D]. split; by rewrite ?H1, ?H2, ?H3, ?H4. Qed.

Lemma parked_ext T w f h h' : same_hdr h h' -> parked T w f h -> parked T w f h'.
Proof. intros Hs [A B C D]. split; try done. by eapply holds_hdr_ext. Qed.

Lemma opened_rec T w f h cur r : opened T w f h cur -> opened T w f (set_curRec r h) cur.
Proof. intros [[] [] ? ? ? ?]. split; [by split|by split|done..]. Qed.

Lemma others_frame w w' : world_frame w w' -> others w -> others w'.
Proof. intros Hf [A B C D]. split; [done..|]. by rewrite (wf_num _ _ Hf). Qed.

(** Pinned pages do not move. *)
Lemma pinned_pos w H g m : pinned w H -> others w -> (g, m) ∈ H -> 0 < wpin w g m.
Proof. intros Hp Ho Hin. rewrite Hp, decide_True by done. pose proof (ot_pos _ Ho g m). lia. Qed.

Lemma pinned_others w H : pinned w H -> forall g m, 0 < O g m -> 0 < wpin w g m.
Proof. intros Hp g m Hg. rewrite Hp. case_decide; lia. Qed.

(** One frame is left beside the header page. *)
Lemma parked_room T w f h : parked T w f h -> room 1 w.
Proof.
  intros [_ _ Hp [Hsp _ _ Hr]]. apply (frames_for_one O (wpin w) 1 _ f hdr_no); [|eapply frames_for_le; [|exact Hr]; lia].
  intros g m Hne. rewrite Hp, decide_False by set_solver. lia.
Qed.

(** Beside an open object there is room for the others to come. *)
Lemma opened_room T w f h cur : opened T w f h cur -> room (2 * cl_spare O) w.
Proof.
  intros [_ _ _ _ Hp [Hsp _ _ Hr]]. set (P g m := O g m + (if decide ((g, m) ∈ ({[(f, hdr_no)]} : gset (Z * Z))) then 1 else 0)).
  apply (frames_for_one P (wpin w) _ _ f cur); [|apply (frames_for_one O P _ _ f hdr_no); [|eapply frames_for_le; [|exact Hr]; lia]].
  - intros g m Hne. rewrite Hp. subst P. cbn beta. repeat case_decide; set_solver.
  - intros g m Hne. subst P. cbn beta. rewrite decide_False by set_solver. lia.
Qed.

(** Unpinning the current page. *)
Lemma unpin_cur_ok T w f h cur :
  world_ok T w -> opened T w f h cur ->
  exists T' w', unpin_cur (w, h) = Some (Ok tt, (w', h)) /\ step_same T w T' w' /\ parked T' w' f h.
Proof.
  intros Hw [[A1 A2 (i & A3 & A3') (bh & A5 & A5')] [B1 (j & B2 & B2') (bc & B4 & B4')] Hq Hne Hpin Hoth].
  pose proof (ot_pos _ Hoth f cur) as Hpos.
  assert (wpin w f cur = O f cur + 1) as Hpc by (rewrite Hpin, decide_True by set_solver; done).
  destruct (unPinPage_W T w f cur bc Hw) as (w' & Hr & Hw' & Hf & Hl & Hp & Hfr); [lia|intros -> _ Hin; by specialize (B4' Hin)|].
  set (T' := if bc then T ∖ {[(f, cur)]} else T) in *. exists T', w'.
  assert (forall n, (f, n) ∈ T' -> (f, n) ∈ T /\ n <> cur) as HT.
  { intros n. subst T'. destruct bc; [set_solver|]. intros Hn. split; [done|]. intros ->. by specialize (B4' Hn). }
  split.
  { unfold unpin_cur. run_with (member_run filePtr w h f A1). run_with (member_run curPageNo w h cur B1).
    run_with (member_run curDirtyFlag w h bc B4). by apply io_run. }
  split; [split; [done|done|subst T'; destruct bc; set_solver|done|intros; apply Hfr]|].
  split; [| | |by eapply others_frame].
  - split; [done|done|exists i; by rewrite Hfr|]. exists bh. split; [done|]. intros Hin. apply A5', (HT _ Hin).
  - intros n Hn _ Hin. destruct (HT _ Hin) as [Hin' Hnc]. apply (Hq n Hn); [congruence|done].
  - intros g m. rewrite Hp, Hpin. case_decide as Hgm.
    + destruct Hgm as [-> ->]. rewrite (decide_True (P := (f, cur) ∈ {[(f, hdr_no); (f, cur)]})), decide_False by set_solver. lia.
    + rewrite Hpin. repeat case_decide; set_solver.
Qed.

(** Pinning another page as the current one. *)
Lemma read_cur_ok T w f h n p :
  world_ok T w -> parked T w f h -> n <> hdr_no -> wlog w f n = Some p ->
  exists i w', read_cur n (w, h) = Some (Ok tt, (w', set_curPage (PFrame i) h)) /\ step_same T w T w' /\
    wfrm w' f n = Some i /\
    forall h' b, same_hdr h h' -> curPage h' = PFrame i -> curPageNo h' = Some n -> curDirtyFlag h' = Some b ->
      opened T w' f h' n.
Proof.
  intros Hw Hpk Hne Hl. pose proof (parked_room _ _ _ _ Hpk) as Hroom. destruct Hpk as [Hh Hq Hpin Hoth].
  pose proof (ot_pos _ Hoth f n) as Hpos. pose proof (ot_small _ Hoth f n) as Hsm; pose proof (ot_spare _ Hoth).
  assert (wpin w f n = O f n) as Hpn by (rewrite Hpin, decide_False by set_solver; lia).
  destruct (readPage_room T w f n p Hw Hl ltac:(lia) Hroom) as (i & w' & Hr & Hw' & Hf & Hfr & Hl' & Hp & Hs).
  exists i, w'. split.
  { unfold read_cur. run_with (member_run filePtr w h f (hh_file _ _ _ _ Hh)). run_with (io_run _ w h _ _ Hr). done. }
  split.
  { split; try done. intros g m Hm. apply Hs. rewrite Hpin. case_decide; lia. }
  split; [done|]. intros h' b Hsame E5 E6 E7. split; [| |by intros m Hm _; apply Hq|done| |by eapply others_frame].
  - apply (holds_hdr_ext T w' f h h' Hsame). destruct Hh as [A1 A2 (j & A3 & A3') A5]. split; try done.
    exists j. rewrite Hs; [done|]. eapply pinned_pos; [done|done|set_solver].
  - split; [done|by exists i|]. exists b. split; [done|]. intros Hin. by destruct (Hq n Hne ltac:(done)).
  - intros g m. rewrite Hp. case_decide as Hgm.
    + destruct Hgm as [-> ->]. rewrite decide_True by set_solver. lia.
    + rewrite Hpin. repeat case_decide; set_solver.
Qed.

End Object.

(** ** Walking the chain *)

Section Walk.
Context {O : Clients}.
Local Abbreviation opened := (opened (O := O)).
Local Abbreviation step_same := (step_same (O := O)).
Implicit Types (T : gset (Z * Z)) (w : World) (f n cur : Z) (h : HeapFile) (l : list hpage) (c : list (option Record)).

Lemma cur_get_ok {A} T w f h cur p (g : block -> option A) a :
  holds_cur T w f h cur -> wlog w f cur = Some p -> g p = Some a -> cur_get g (w, h) = Some (Ok a, (w, h)).
Proof.
  intros Hc Hl Hg. destruct (hc_page _ _ _ _ _ Hc) as (i & Hi & Hf). unfold cur_get.
  erewrite bind_Ok by (by apply member_run). rewrite Hi. apply io_run. by eapply page_get_W.
Qed.

Lemma contents_small p : page_ok p -> (length (contents p) < 1024)%nat.
Proof.
  intros (v & Hr & Hwf). rewrite (contents_spec p v Hr Hwf). unfold v_contents. rewrite length_fmap.
  pose proof (repr_bounds p v Hr Hwf). lia.
Qed.

(** The page of the chain that is current. *)
Lemma cur_entry pg l l1 n c l2 :
  heap_ok pg l -> l = l1 ++ (n, c) :: l2 ->
  n <> hdr_no /\ exists p, pg n = Some p /\ page_ok p /\ contents p = c /\ getNextPage p = Some (next_no l2) /\
    rd32 off_curPage p = Some n /\ (length c < 1024)%nat.
Proof.
  intros [_ Hnd Hch] ->. split.
  - intros ->. apply list.NoDup_cons in Hnd as [Hnd _]. apply Hnd. rewrite fmap_app, elem_of_app. right. by left.
  - destruct (chain_app _ _ _ _ _ Hch) as [(p & Hp & Hok & Hc & Hnx & Hcp) _]. exists p. do 5 (split; [done|]).
    rewrite <- Hc. by apply contents_small.
Qed.

(** What [next_page] finds behind the current page: the first page with
    records, or the end of the file. *)
Definition found T w f l l2 h' : Prop :=
  exists l1' n c l2' j r, l = l1' ++ (n, c) :: l2' /\ (length l2' < length l2)%nat /\ opened T w f h' n /\
    curRec h' = Some (mkRID n (Z.of_nat j)) /\ c !! j = Some (Some r) /\
    heap_recs l2 = (mkRID n (Z.of_nat j), r) :: recs_at n (S j) (drop (S j) c) ++ heap_recs l2'.

Definition ended T w f l h cur c l2 h' : Prop :=
  heap_recs l2 = [] /\ curRec h' = curRec h /\
  exists l1' n d, l = l1' ++ [(n, d)] /\ opened T w f h' n /\
    ((n = cur /\ d = c) \/ forall j, recs_at n j (drop j d) = []).

Lemma recs_at_nil n c : recs_at n 0 c = [] -> forall j, recs_at n j (drop j c) = [].
Proof.
  intros Hn j. destruct (decide (j <= length c)%nat); [|by rewrite drop_ge by lia].
  rewrite <- (take_drop j c), recs_at_app in Hn. apply app_eq_nil in Hn as [_ Hn].
  rewrite length_take in Hn. by replace (0 + j `min` length c)%nat with j in Hn by lia.
Qed.

Lemma next_page_ok (fuel : nat) l l1 cur c l2 T w f h :
  (length l2 < fuel)%nat -> l = l1 ++ (cur, c) :: l2 -> heap_ok (wlog w f) l -> world_ok T w -> opened T w f h cur ->
  exists r T' w' h', next_page fuel (w, h) = Some (r, (w', h')) /\ step_same T w T' w' /\
    match r with
    | Ok _ => found T' w' f l l2 h'
    | Err st => st = FILEEOF /\ ended T' w' f l h cur c l2 h'
    end.
Proof.
  revert l1 cur c l2 T w h. induction fuel as [|fuel IH]; intros l1 cur c l2 T w h Hfuel Hl Hok Hw Ho; [lia|].
  destruct (cur_entry _ _ _ _ _ _ Hok Hl) as (Hne & p & Hp & Hpok & Hpc & Hnx & Hcp & Hsmall). cbn [next_page].
  run_with (cur_get_ok T w f h cur p _ _ (op_cur _ _ _ _ _ Ho) Hp Hnx).
  destruct l2 as [|[n d] l2]; cbn [next_no].
  { exists (Err FILEEOF), T, w, h. rewrite decide_True by done. split; [done|]. split; [by apply step_same_refl|].
    split; [done|]. split; [done|]. split; [done|]. exists l1, cur, c. naive_solver. }
  assert (l = (l1 ++ [(cur, c)]) ++ (n, d) :: l2) as Hl2 by (by rewrite <- app_assoc).
  destruct (cur_entry _ _ _ _ _ _ Hok Hl2) as (Hne2 & q & Hq & Hqok & Hqc & Hqnx & Hqcp & Hqs).
  destruct (wlog_bounds T w f n q Hw Hq) as (_ & Hnb & _). rewrite decide_False by lia.
  destruct (unpin_cur_ok T w f h cur Hw Ho) as (T1 & w1 & Hr1 & Hss1 & Hpk1). pose proof (ss_world _ _ _ _ Hss1) as Hw1.
  run_with (attempt_run _ _ _ _ Hr1). do 2 run_assign. step. do 2 run_assign. set (h1 := set_curDirtyFlag false _).
  assert (parked (O := O) T1 w1 f h1) as Hpk1' by (by eapply parked_ext; [|exact Hpk1]).
  destruct (read_cur_ok T1 w1 f h1 n q Hw1 Hpk1' Hne2) as (i & w2 & Hr2 & Hss2 & Hfr2 & Ho2); [by rewrite (ss_log _ _ _ _ Hss1)|].
  run_with Hr2. pose proof (ss_world _ _ _ _ Hss2) as Hw2. set (h2 := set_curPage (PFrame i) h1) in *.
  assert (opened T1 w2 f h2 n) as Ho2' by (by eapply Ho2).
  pose proof (step_same_trans _ _ _ _ _ _ Hss1 Hss2) as Hss.
  pose proof (firstRecord_ok q n Hqok Hqcp) as Hfirst. rewrite Hqc in Hfirst.
  assert (wlog w2 f n = Some q) as Hq2 by (by rewrite (ss_log _ _ _ _ Hss)).
  run_with (cur_get_ok T1 w2 f h2 n q _ _ (op_cur _ _ _ _ _ Ho2') Hq2 Hfirst).
  pose proof (recs_at_next n 0 d) as Hrec. rewrite drop_0 in Hrec.
  destruct (sp_next 0 d) as [j|] eqn:Hsp.
  - apply sp_next_Some in Hsp as (_ & [r Hj] & _). rewrite Hj in Hrec.
    eexists (Ok tt), T1, w2, _. split; [reflexivity|]. split; [done|].
    exists (l1 ++ [(cur, c)]), n, d, l2, j, r. split; [done|]. split; [cbn; lia|].
    split; [by apply opened_rec|]. split; [done|]. split; [done|]. cbn. rewrite Hrec. done.
  - cbn [page_done bool_decide decide_rel]. change (page_done NORECORDS) with true. cbn iota.
    pose proof (heap_ok_same _ _ _ _ _ _ Hss Hok) as Hok2.
    destruct (IH (l1 ++ [(cur, c)]) n d l2 T1 w2 h2 ltac:(cbn in Hfuel; lia) Hl2 Hok2 Hw2 Ho2')
      as (r & T' & w' & h' & Hr & Hss' & Hres).
    exists r, T', w', h'. split; [exact Hr|]. split; [by eapply step_same_trans|].
    assert (heap_recs ((n, d) :: l2) = heap_recs l2) as Hhr by (cbn; by rewrite Hrec).
    destruct r as [[]|st].
    + destruct Hres as (l1' & n' & c' & l2' & j & r & E1 & E2 & E3 & E4 & E5 & E6).
      exists l1', n', c', l2', j, r. rewrite Hhr. cbn. split; [done|]. split; [lia|]. done.
    + destruct Hres as (-> & E1 & E2 & l1' & n' & c' & E3 & E4 & E5). split; [done|]. split; [by rewrite Hhr|].
      split; [done|]. exists l1', n', c'. split; [done|]. split; [done|]. right.
      destruct E5 as [[-> ->]|E5]; [|done]. apply recs_at_nil. exact Hrec.
Qed.

(** The scan stands before the records [rest], with [np] pages to come. *)
Definition positioned T w f l h (rest : list (RID * Record)) (np : nat) : Prop :=
  exists l1 cur c l2 k rid, l = l1 ++ (cur, c) :: l2 /\ opened T w f h cur /\
    curRec h = Some rid /\ slotNo rid = Z.of_nat k - 1 /\ Z.of_nat k < 2 ^ 31 /\
    rest = recs_at cur k (drop k c) ++ heap_recs l2 /\ np = length l2.

(** The record [curRec] refers to. *)
Definition at_record w f h (rid : RID) (r : Record) : Prop :=
  curRec h = Some rid /\ cur_get (getRecord rid) (w, h) = Some (Ok (Ok r), (w, h)).

Lemma at_record_ok T w f l l1 n c l2 h j r :
  heap_ok (wlog w f) l -> l = l1 ++ (n, c) :: l2 -> opened T w f h n -> c !! j = Some (Some r) ->
  curRec h = Some (mkRID n (Z.of_nat j)) -> at_record w f h (mkRID n (Z.of_nat j)) r.
Proof.
  intros Hok Hl Ho Hj Hc. split; [done|].
  destruct (cur_entry _ _ _ _ _ _ Hok Hl) as (_ & p & Hp & Hpok & Hpc & _ & _ & Hs).
  pose proof (lookup_lt_Some _ _ _ Hj).
  eapply cur_get_ok; [apply (op_cur _ _ _ _ _ Ho)|exact Hp|].
  rewrite (getRecord_ok p _ j Hpok) by (cbn; lia). by rewrite Hpc, Hj.
Qed.

(** The scan stands at the record [rec], with the records [rest] and [np]
    pages to come. *)
Definition located T w f l h (rid : RID) (rec : Record) (rest : list (RID * Record)) (np : nat) : Prop :=
  exists l1 cur c l2 j, l = l1 ++ (cur, c) :: l2 /\ opened T w f h cur /\ curRec h = Some rid /\
    rid = mkRID cur (Z.of_nat j) /\ c !! j = Some (Some rec) /\ (j < 1024)%nat /\
    rest = recs_at cur (S j) (drop (S j) c) ++ heap_recs l2 /\ np = length l2.

Lemma located_positioned T w f l h rid rec rest np : located T w f l h rid rec rest np -> positioned T w f l h rest np.
Proof.
  intros (l1 & cur & c & l2 & j & H1 & H2 & H3 & H4 & H5 & H6 & H7 & H8). exists l1, cur, c, l2, (S j), rid.
  do 3 (split; [done|]). rewrite H4. cbn [slotNo]. split; [lia|]. split; [lia|]. done.
Qed.

Lemma located_record T w f l h rid rec rest np :
  heap_ok (wlog w f) l -> located T w f l h rid rec rest np -> at_record w f h rid rec.
Proof. intros Hok (l1 & cur & c & l2 & j & H1 & H2 & H3 & -> & H5 & _). by eapply at_record_ok. Qed.

(** The records behind and before the scan. *)
Lemma positioned_split T w f l h rest np : positioned T w f l h rest np -> exists seen, heap_recs l = seen ++ rest.
Proof.
  intros (l1 & cur & c & l2 & k & rid & -> & _ & _ & _ & _ & -> & _).
  exists (heap_recs l1 ++ recs_at cur 0 (take k c)). rewrite heap_recs_app. cbn. rewrite <- (take_drop k c) at 1.
  rewrite recs_at_app, <- !app_assoc. do 2 f_equal. destruct (decide (k <= length c)%nat) as [Hk|Hk].
  - by rewrite length_take_le.
  - by rewrite drop_ge by lia.
Qed.

Lemma advance_ok (fuel np : nat) l T w f h rest :
  (np <= fuel)%nat -> heap_ok (wlog w f) l -> world_ok T w -> positioned T w f l h rest np ->
  exists r T' w' h', advance fuel (w, h) = Some (r, (w', h')) /\ step_same T w T' w' /\
    match rest with
    | [] => r = Err FILEEOF /\ exists np', positioned T' w' f l h' [] np' /\ (np' <= np)%nat
    | (rid, rec) :: rest' => r = Ok tt /\ exists np', located T' w' f l h' rid rec rest' np' /\ (np' <= np)%nat
    end.
Proof.
  intros Hfuel Hok Hw (l1 & cur & c & l2 & k & rid & Hl & Ho & Hrid & Hk & Hk31 & Hrest & Hnp).
  destruct (cur_entry _ _ _ _ _ _ Hok Hl) as (Hne & p & Hp & Hpok & Hpc & Hnx & Hcp & Hs). unfold advance.
  run_with (member_run curRec w h rid Hrid). pose proof (nextRecord_ok p rid k cur Hpok Hcp Hk Hk31) as Hnext.
  rewrite Hpc in Hnext. run_with (cur_get_ok T w f h cur p _ _ (op_cur _ _ _ _ _ Ho) Hp Hnext).
  rewrite recs_at_next in Hrest. destruct (sp_next k c) as [j|] eqn:Hsp.
  - apply sp_next_Some in Hsp as (_ & [r Hj] & _). rewrite Hj in Hrest. pose proof (lookup_lt_Some _ _ _ Hj).
    eexists (Ok tt), T, w, _. split; [reflexivity|]. split; [by apply step_same_refl|]. rewrite Hrest. cbn [app].
    split; [done|]. exists np. split; [|done]. exists l1, cur, c, l2, j.
    split; [done|]. split; [by apply opened_rec|]. do 3 (split; [done|]). split; [lia|]. done.
  - change (page_done ENDOFPAGE) with true. cbn iota. cbn [app] in Hrest. subst rest.
    destruct (next_page_ok (S fuel) l l1 cur c l2 T w f h ltac:(lia) Hl Hok Hw Ho) as (r & T' & w' & h' & Hr & Hss & Hres).
    pose proof (heap_ok_same _ _ _ _ _ _ Hss Hok) as Hok'.
    exists r, T', w', h'. do 2 (split; [done|]). destruct r as [[]|st].
    + destruct Hres as (l1' & n & d & l2' & j & r & E1 & E2 & E3 & E4 & E5 & E6). rewrite E6. split; [done|].
      pose proof (lookup_lt_Some _ _ _ E5). destruct (cur_entry _ _ _ _ _ _ Hok' E1) as (_ & _ & _ & _ & _ & _ & _ & Hs').
      exists (length l2'). split; [|lia]. exists l1', n, d, l2', j. do 5 (split; [done|]). split; [lia|]. done.
    + destruct Hres as (-> & E1 & E2 & l1' & n & d & E3 & E4 & E5). rewrite E1. split; [done|]. exists 0%nat. split; [|lia].
      exists l1', n, d, [], k, rid. split; [done|]. split; [done|]. split; [by rewrite E2|]. split; [done|]. split; [done|].
      split; [|done]. destruct E5 as [[-> ->]|E5]; [|by rewrite E5]. by rewrite recs_at_next, Hsp.
Qed.


(** The records from the first one that satisfies the predicate on. *)
Fixpoint next_match (M : Record -> bool) (rest : list (RID * Record)) : list (RID * Record) :=
  match rest with
  | [] => []
  | (rid, r) :: rest' => if M r then rest else next_match M rest'
  end.

(** [matchRec] computes the predicate [M] on these records. *)
Definition predicate (s : HeapFileScan) (M : Record -> bool) (rs : list (RID * Record)) : Prop :=
  forall rid r, (rid, r) ∈ rs -> matchRec s r = Some (M r).

Lemma test_cur_ok w f s rid r (b : bool) :
  at_record w f (hfs_base s) rid r -> matchRec s r = Some b -> test_cur (w, s) = Some (Ok (rid, b), (w, s)).
Proof.
  intros [Hc Hg] Hm. unfold test_cur. run_with (member_run (fun s => curRec (hfs_base s)) w s rid Hc).
  pose proof (base_run _ w s _ _ _ Hg) as Hb. replace (set_base (hfs_base s) s) with s in Hb by (by destruct s).
  run_with Hb. step. run_with (member_run (fun s => matchRec s r) w s b Hm). done.
Qed.

(** What [scanNext] does from a position before [rest]. *)
Definition scans_to T w f l s (M : Record -> bool) (rest : list (RID * Record)) (np : nat) (r : result RID) T' w' s' : Prop :=
  step_same T w T' w' /\ (exists h', s' = set_base h' s) /\
  match next_match M rest with
  | [] => r = Err FILEEOF /\ exists np', positioned T' w' f l (hfs_base s') [] np' /\ (np' <= np)%nat
  | (rid, rec) :: rest' => r = Ok rid /\ exists np', located T' w' f l (hfs_base s') rid rec rest' np' /\ (np' <= np)%nat
  end.

Lemma scan_loop_ok (fuel np : nat) l T w f s M rest :
  (length rest + np < fuel)%nat -> heap_ok (wlog w f) l -> world_ok T w -> positioned T w f l (hfs_base s) rest np ->
  predicate s M rest ->
  exists r T' w' s', scan_loop fuel (w, s) = Some (r, (w', s')) /\ scans_to T w f l s M rest np r T' w' s'.
Proof.
  revert np T w s rest. induction fuel as [|fuel IH]; intros np T w s rest Hfuel Hok Hw Hpos HM; [lia|]. cbn [scan_loop].
  destruct (advance_ok fuel np l T w f (hfs_base s) rest ltac:(lia) Hok Hw Hpos) as (r & T1 & w1 & h1 & Hr & Hss1 & Hres).
  pose proof (base_run _ w s _ _ _ Hr) as Hb. destruct rest as [|[rid rec] rest].
  { destruct Hres as (-> & Hp). run_with Hb. exists (Err FILEEOF), T1, w1, (set_base h1 s). split; [done|]. split; [done|]. split; [by exists h1|done]. }
  destruct Hres as (-> & np1 & Hp1 & Hnp1). pose proof (heap_ok_same _ _ _ _ _ _ Hss1 Hok) as Hok1.
  pose proof (located_record T1 w1 f l h1 rid rec rest np1 Hok1 Hp1) as Hat. assert (matchRec s rec = Some (M rec)) as Hm by (apply (HM rid); by left).
  run_with Hb. run_with (test_cur_ok w1 f (set_base h1 s) rid rec (M rec) Hat Hm). unfold scans_to. cbn [next_match].
  destruct (M rec) eqn:HMr.
  { exists (Ok rid), T1, w1, (set_base h1 s). split; [done|]. split; [done|]. split; [by exists h1|]. eauto. }
  pose proof (ss_world _ _ _ _ Hss1) as Hw1. apply located_positioned in Hp1.
  destruct (IH np1 T1 w1 (set_base h1 s) rest) as (r & T' & w' & s' & Hr' & Hss' & [h' Hs'] & Hres); try done.
  { cbn in Hfuel. lia. }
  { intros rid' r' Hin. apply (HM rid'). by right. }
  exists r, T', w', s'. split; [done|]. split; [by eapply step_same_trans|]. split; [by exists h'|].
  destruct (next_match M rest) as [|[rid' rec'] rest'].
  - destruct Hres as (-> & np' & ? & ?). split; [done|]. exists np'. split; [done|lia].
  - destruct Hres as (-> & np' & ? & ?). split; [done|]. exists np'. split; [done|lia].
Qed.

Lemma scanNext_ok (fuel np : nat) l T w f s M rest :
  (length rest + np < fuel)%nat -> heap_ok (wlog w f) l -> world_ok T w -> positioned T w f l (hfs_base s) rest np ->
  predicate s M rest ->
  exists r T' w' s', HeapFileScan_scanNext fuel (w, s) = Some (r, (w', s')) /\ scans_to T w f l s M rest np r T' w' s'.
Proof.
  intros Hfuel Hok Hw Hpos HM. unfold HeapFileScan_scanNext. pose proof Hpos as (l1 & cur & c & l2 & k & rid & Hl & Ho & _).
  destruct (cur_entry _ _ _ _ _ _ Hok Hl) as (_ & p & Hp & _). destruct (wlog_bounds T w f cur p Hw Hp) as (_ & Hb & _).
  destruct (op_cur _ _ _ _ _ Ho) as [Hn (i & Hi & _) _ _].
  erewrite bind_Ok by (apply member_run; exact Hn). rewrite decide_False by lia.
  erewrite (bind_Ok _ _ _ true) by (apply member_run; by rewrite Hi). by apply scan_loop_ok.
Qed.

End Walk.
