(* ===== verification/HeapOpen.v ===== *)
(** * Opening and closing heap files

    The constructors and destructors of the heap file classes.  A file may be
    opened any number of times: an object shares the [File] object, the
    header page and the data pages with the others.  A session, from the
    constructor to the destructor, gives back all it took. *)

From S2P Require Export HeapScan.

(** ** Resources *)

(** The pages being changed belong to open files. *)
Definition live_touched (T : gset (Z * Z)) (w : World) : Prop :=
  forall g n, (g, n) ∈ T -> is_Some (files (w_disk w) !! g).

(** There can be [k] more objects at a time, and [j] more over time. *)
Record ready (k j : Z) (T : gset (Z * Z)) (w : World) : Prop := {
  rdy_world : world_ok T w;
  rdy_live : live_touched T w;
  rdy_pins : forall g m, wpin w g m + k < 2 ^ 31 - 1;
  rdy_room : room (2 * k) w;
  rdy_cnt : forall f o, files (w_disk w) !! f = Some o -> openCnt o + k < 2 ^ 31;
  rdy_fds : Z.of_nat (size (u_fds (unix (w_disk w)))) + k <= u_maxFds (unix (w_disk w));
  rdy_ptr : nextPtr (w_disk w) + 64 * j <= 2 ^ 62;
}.

(** The file [name] is a heap file with the chain [l], open or not, and nobody
    is changing it. *)
Record heap_at (T : gset (Z * Z)) (w : World) (name : string) (l : list hpage) : Prop := {
  ha_name : name <> ""%string;
  ha_heap : heap_ok (named_page w name) l;
  ha_clean : forall f n, of_map (w_open w) !! name = Some f -> (f, n) ∉ T;
}.

(** Nothing is left of the work between [w] and [w'] but the contents of files:
    pins, frames of pinned pages, open files and descriptors are the same. *)
Record restored (w w' : World) : Prop := {
  re_pin : forall g m, wpin w' g m = wpin w g m;
  re_frm : forall g m, 0 < wpin w g m -> wfrm w' g m = wfrm w g m;
  re_open : of_map (w_open w') = of_map (w_open w);
  re_files : files (w_disk w') = files (w_disk w);
  re_fds : size (u_fds (unix (w_disk w'))) = size (u_fds (unix (w_disk w)));
  re_max : u_maxFds (unix (w_disk w')) = u_maxFds (unix (w_disk w));
  re_num : numBufs (w_mgr w') = numBufs (w_mgr w);
}.

#[export] Instance restored_preorder : PreOrder restored.
Proof.
  split; [by split|]. intros w1 w2 w3 [A1 A2 A3 A4 A5 A6 A7] [B1 B2 B3 B4 B5 B6 B7]. split; try congruence.
  intros g m Hp. rewrite B2, A2 by (rewrite ?A1; done). done.
Qed.

(** What a session sees of the rest: pins and frames of pinned pages, open
    files and descriptors, without those of the session itself. *)
Record Base : Set := mkBase {
  b_pin : Z -> Z -> Z; b_frm : Z -> Z -> option Z; b_open : gmap string Z; b_files : gmap Z File;
  b_nfd : nat; b_max : Z; b_num : Z; b_dir : gmap string Z }.

Definition base_of (w : World) : Base :=
  mkBase (wpin w) (wfrm w) (of_map (w_open w)) (files (w_disk w)) (size (u_fds (unix (w_disk w))))
    (u_maxFds (unix (w_disk w))) (numBufs (w_mgr w)) (u_dir (unix (w_disk w))).

(** In [w] there is nothing else. *)
Record back_to (b : Base) (w : World) : Prop := {
  bt_pin : forall g m, wpin w g m = b_pin b g m;
  bt_frm : forall g m, 0 < b_pin b g m -> wfrm w g m = b_frm b g m;
  bt_open : of_map (w_open w) = b_open b;
  bt_files : files (w_disk w) = b_files b;
  bt_fds : size (u_fds (unix (w_disk w))) = b_nfd b;
  bt_max : u_maxFds (unix (w_disk w)) = b_max b;
  bt_num : numBufs (w_mgr w) = b_num b;
  bt_dir : u_dir (unix (w_disk w)) = b_dir b;
}.

Lemma back_restored w w' : back_to (base_of w) w' -> restored w w'.
Proof. intros [H1 H2 H3 H4 H5 H6 H7 H8]. by split. Qed.

(** From [w] to [w'] only files of [names] changed, and [c] objects were made. *)
Record kept (c : Z) (names : list string) (w w' : World) : Prop := {
  kp_named : forall nm m, nm ∉ names -> named_page w' nm m = named_page w nm m;
  kp_ptr : nextPtr (w_disk w') <= nextPtr (w_disk w) + 64 * c;
}.

Lemma kept_refl c names w : 0 <= c -> kept c names w w.
Proof. intros Hc. split; [done|lia]. Qed.

Lemma kept_trans c1 c2 c names w w1 w2 : kept c1 names w w1 -> kept c2 names w1 w2 -> c1 + c2 <= c -> kept c names w w2.
Proof. intros [A1 A2] [B1 B2] Hc. split; [|lia]. intros nm m Hnm. by rewrite B1, A1. Qed.

Lemma kept_weaken c c' names names' w w' : kept c names w w' -> c <= c' -> Forall (fun nm => nm ∈ names') names -> kept c' names' w w'.
Proof. intros [A1 A2] Hc Hsub. split; [|lia]. intros nm m Hnm. apply A1. rewrite list.Forall_forall in Hsub. auto. Qed.

Definition live_in (T : gset (Z * Z)) (fs : gmap Z File) : Prop := forall g n, (g, n) ∈ T -> is_Some (fs !! g).

Section Resources.
Implicit Types (T : gset (Z * Z)) (w : World) (f n k j : Z) (l : list hpage) (name : string).

Lemma world_ok_mono T T' w : T ⊆ T' -> world_ok T w -> world_ok T' w.
Proof.
  intros Hsub [H1 H2 H3 H4 H5 H6]. split; try done. eapply pool_inv_retouch; [exact H6|]. intros i d _ _ Hn. left. set_solver.
Qed.

Lemma wpin_nonneg T w g m : world_ok T w -> 0 <= wpin w g m.
Proof.
  intros Hw. unfold wpin, pins. destruct (frame_of (w_mgr w) g m) as [i|] eqn:Hi; [|lia].
  destruct (pi_entry _ _ _ _ (wo_pool _ _ Hw) g m i Hi) as (_ & d & Hd & Hv & _). rewrite Hd.
  pose proof (pi_frame _ _ _ _ (wo_pool _ _ Hw) i d Hd ltac:(done)) as Hf. unfold frame_inv in Hf. rewrite Hv in Hf. lia.
Qed.

(** A page that does not exist is not pinned. *)
Lemma wlog_unpinned T w g m : world_ok T w -> wlog w g m = None -> wpin w g m = 0.
Proof.
  intros Hw Hl. unfold wpin, pins. destruct (frame_of (w_mgr w) g m) as [i|] eqn:Hi; [|done]. exfalso.
  destruct (pi_entry _ _ _ _ (wo_pool _ _ Hw) g m i Hi) as (_ & d & Hd & _). apply zget_range in Hd.
  destruct (pi_clock _ _ _ _ (wo_pool _ _ Hw)) as (_ & Hlen & _). pose proof (pi_pool _ _ _ _ (wo_pool _ _ Hw)).
  destruct (zget_is_Some (bufPool (w_mgr w)) i) as [x Hx]; [lia|]. unfold wlog, logical in Hl. rewrite Hi, Hx in Hl. done.
Qed.

Lemma ready_restored k j j' T w w' :
  ready k j T w -> world_ok T w' -> restored w w' -> nextPtr (w_disk w') + 64 * j' <= 2 ^ 62 -> ready k j' T w'.
Proof.
  intros [R1 R2 R3 R4 R5 R6 R7] Hw [E1 E2 E3 E4 E5 E6 E7] Hp. split; [done|..|done].
  - intros g n Hin. rewrite E4. by eapply R2.
  - intros g m. by rewrite E1.
  - destruct R4 as (l0 & L1 & L2). exists l0. rewrite E7. split; [|done]. intros g m. rewrite E1. apply L1.
  - rewrite E4. done.
  - by rewrite E5, E6.
Qed.

Lemma ready_le k k' j j' T w : 0 <= k <= k' -> 0 <= j <= j' -> ready k' j' T w -> ready k j T w.
Proof.
  intros Hk Hj [R1 R2 R3 R4 R5 R6 R7]. split; [done|done|..].
  - intros g m. specialize (R3 g m). lia.
  - eapply frames_for_le; [|exact R4]. lia.
  - intros f o Ho. specialize (R5 f o Ho). lia.
  - lia.
  - lia.
Qed.

(** An open file is what its object shows. *)
Lemma named_open w name f n : of_map (w_open w) !! name = Some f -> named_page w name n = wlog w f n.
Proof. intros H. unfold named_page. by rewrite H. Qed.

(** The header page is the first page of its file. *)
Lemma getFirstPage_W T w f p :
  world_ok T w -> wlog w f hdr_no = Some p -> getFirstPage f w = Some (Ok hdr_no, w).
Proof.
  intros Hw Hl. destruct (logical_page T None _ _ f _ p (wo_pool _ _ Hw) Hl) as (_ & _ & _ & _ & q & Hq).
  pose proof (pi_store _ _ _ _ (wo_pool _ _ Hw)) as Hd.
  destruct (disk_page_inv _ _ _ _ Hd Hq) as (i & c & N & fr & Hi & Hc & Hfo & Hn & _).
  destruct (fo_hdr _ _ _ Hfo) as (hp & nx & Hhp & _ & Hfirst & _).
  unfold getFirstPage, zoom, File_getFirstPage.
  rewrite (bind_Ok _ _ _ _ _ (intread_or_return_ok _ f i c N fr 0 hp Hi Hc Hfo Hhp)). unfold defined. rewrite Hfirst.
  unfold hdr_no in Hn. rewrite decide_False by lia. by destruct w.
Qed.

Lemma heap_ok_ne (pg : Z -> option block) l :
  heap_ok pg l -> (forall n p, pg n = Some p -> Z.of_nat (length p) = PAGESIZE) -> l <> [].
Proof.
  intros [(p & Hp & _ & Hlast & _) _ _] Hlen ->. cbn in Hlast.
  destruct (rd32_is_Some off_last p) as [z Hz]; [by cbn|rewrite (Hlen _ _ Hp); by cbn|]. congruence.
Qed.

(** A file nobody has open is quiet after it was opened. *)
Lemma fresh_quiet T w w' name i :
  world_ok T w -> live_touched T w -> w_mgr w' = w_mgr w -> w_disk w' = opened_disk (w_disk w) name i ->
  (forall n, wpin w' (nextPtr (w_disk w)) n = 0 /\ (nextPtr (w_disk w), n) ∉ T) /\ live_touched T w'.
Proof.
  intros Hw Hlive Hm Hd. pose proof (new_object_none T w Hw) as Hnew. split.
  - intros n. split.
    + unfold wpin, pins. rewrite Hm. destruct (frame_of _ _ n) as [k|] eqn:Hk; [|done].
      destruct (frame_conn _ _ _ _ _ _ _ (wo_pool _ _ Hw) Hk) as [j Hj]. unfold conn in Hj. by rewrite Hnew in Hj.
    + intros Hin. destruct (Hlive _ _ Hin) as [o Ho]. congruence.
  - intros g n Hin. rewrite Hd. cbn. destruct (Hlive _ _ Hin) as [o Ho].
    rewrite lookup_insert_ne; [by exists o|]. intros <-. congruence.
Qed.

End Resources.

(** ** Opening *)

(** How the world [w] of a session came from [b]: [f] is the [File] object of
    [name], with [n] references besides that of the session. *)
Record since (T0 : gset (Z * Z)) (b : Base) (T : gset (Z * Z)) (w : World) (name : string) (f n : Z) : Prop := {
  si_T : forall g m, (g, m) ∈ T -> g = f \/ (g, m) ∈ T0;
  si_frm : forall g m, 0 < b_pin b g m -> wfrm w g m = b_frm b g m;
  si_dir : u_dir (unix (w_disk w)) = b_dir b;
  si_max : u_maxFds (unix (w_disk w)) = b_max b;
  si_num : numBufs (w_mgr w) = b_num b;
  si_clean : forall m, (f, m) ∉ T0;
  si_how : (n = 0 /\ b_open b !! name = None /\ b_files b !! f = None /\ (forall m, b_pin b f m = 0) /\
              of_map (w_open w) = <[name := f]> (b_open b) /\
              size (u_fds (unix (w_disk w))) = S (b_nfd b) /\
              exists fd, files (w_disk w) = <[f := mkFile name 1 fd]> (b_files b)) \/
           (0 < n /\ b_open b !! name = Some f /\ of_map (w_open w) = b_open b /\
              size (u_fds (unix (w_disk w))) = b_nfd b /\
              exists fd, b_files b !! f = Some (mkFile name n fd) /\
                files (w_disk w) = <[f := mkFile name (n + 1) fd]> (b_files b));
}.

Section Opening.
Implicit Types (T : gset (Z * Z)) (w : World) (f n k j : Z) (l : list hpage) (name : string).

Lemma since_object T0 b T w name f n :
  since T0 b T w name f n ->
  0 <= n /\ exists o, files (w_disk w) !! f = Some o /\ fileName o = name /\ openCnt o = n + 1.
Proof.
  intros [_ _ _ _ _ _ [(-> & _ & _ & _ & _ & _ & fd & ->)|(Hn & _ & _ & _ & fd & _ & ->)]];
    (split; [lia|]; eexists; by rewrite lookup_insert_eq).
Qed.

Lemma since_open T0 b T w name f n : since T0 b T w name f n -> of_map (w_open w) !! name = Some f.
Proof.
  intros [_ _ _ _ _ _ [(_ & _ & _ & _ & -> & _)|(_ & Hn & -> & _)]]; [apply lookup_insert_eq|done].
Qed.

Lemma since_live T0 b T w name f n : since T0 b T w name f n -> live_in T0 (b_files b) -> live_touched T w.
Proof.
  intros Hs Hl g m Hin. destruct (since_object _ _ _ _ _ _ _ Hs) as (_ & o & Ho & _).
  destruct (si_T _ _ _ _ _ _ _ Hs g m Hin) as [->|Hin0]; [by exists o|]. destruct (Hl g m Hin0) as [o0 Ho0].
  destruct (decide (g = f)) as [->|Hg]; [by exists o|]. exists o0.
  destruct (si_how _ _ _ _ _ _ _ Hs) as [(_ & _ & _ & _ & _ & _ & fd & ->)|(_ & _ & _ & _ & fd & _ & ->)];
    by rewrite lookup_insert_ne.
Qed.

(** Steps of the session and of its clients. *)
Lemma since_step T0 b T w T' w' name f n :
  since T0 b T w name f n -> world_frame w w' -> (forall g m, 0 < b_pin b g m -> wfrm w' g m = wfrm w g m) ->
  (forall g m, (g, m) ∈ T' -> g = f \/ (g, m) ∈ T) -> since T0 b T' w' name f n.
Proof.
  intros [A1 A2 A3 A4 A5 A7 A8] Hf Hs HT. pose proof (wf_disk _ _ Hf) as Hd.
  split; rewrite ?(df_dir _ _ Hd), ?(df_maxFds _ _ Hd), ?(wf_num _ _ Hf), ?(wf_open _ _ Hf), ?(df_fds _ _ Hd), ?(df_files _ _ Hd); try done.
  - intros g m Hin. destruct (HT g m Hin) as [?|?]; [by left|by apply A1].
  - intros g m Hp. by rewrite Hs, A2.
Qed.

(** Opening a file that is closed. *)
Lemma openFile_closed k j T w name i :
  ready k j T w -> 1 <= k -> 1 <= j -> name <> ""%string -> of_map (w_open w) !! name = None ->
  u_dir (unix (w_disk w)) !! name = Some i -> formatted (unix (w_disk w)) i ->
  exists f w', openFile name w = Some (Ok f, w') /\ world_ok T w' /\ w_mgr w' = w_mgr w /\ since T (base_of w) T w' name f 0 /\
    nextPtr (w_disk w') <= nextPtr (w_disk w) + 64 /\ (forall nm m, named_page w' nm m = named_page w nm m).
Proof.
  intros Hrd Hk Hj Hne Hopen Hdir Hfo. pose proof (rdy_world _ _ _ _ Hrd) as Hw. pose proof (rdy_ptr _ _ _ _ Hrd).
  pose proof (rdy_fds _ _ _ _ Hrd).
  destruct (DB_openFile_new T w name i Hw Hne Hopen Hdir Hfo ltac:(lia) ltac:(lia)) as (w' & Hr & Hw' & Hm & Hn & Hmgr & Hdisk).
  destruct (fresh_quiet T w w' name i Hw (rdy_live _ _ _ _ Hrd) Hmgr Hdisk) as [Hq Hlive'].
  exists (nextPtr (w_disk w)), w'. do 3 (split; [done|]). split; [|split; [by rewrite Hdisk; cbn; lia|done]].
  split; rewrite ?Hdisk; cbn; try done.
  - by right.
  - intros g m _. unfold wfrm. by rewrite Hmgr.
  - by rewrite Hmgr.
  - intros m. apply Hq.
  - left. split; [done|]. split; [done|]. split; [by apply (new_object_none T)|].
    split; [intros m; destruct (Hq m) as [Hqm _]; unfold wpin in *; by rewrite Hmgr in Hqm|].
    split; [done|]. split; [|by eexists]. apply map_size_insert_None.
    destruct (u_fds (unix (w_disk w)) !! u_nextFd (unix (w_disk w))) as [x|] eqn:Hx; [|done].
    pose proof (uo_fd _ (wo_unix _ _ Hw) _ _ Hx). lia.
Qed.

(** Opening the underlying file, whether it is open or not. *)
Lemma openFile_heap k j T w name l :
  ready k j T w -> heap_at T w name l -> 1 <= k -> 1 <= j ->
  exists f n w', openFile name w = Some (Ok f, w') /\ world_ok T w' /\ w_mgr w' = w_mgr w /\
    since T (base_of w) T w' name f n /\ heap_ok (wlog w' f) l /\ nextPtr (w_disk w') <= nextPtr (w_disk w) + 64 /\
    (forall nm m, named_page w' nm m = named_page w nm m).
Proof.
  intros Hrd [Hne Hok Hcl] Hk Hj. pose proof (rdy_world _ _ _ _ Hrd) as Hw. pose proof (rdy_ptr _ _ _ _ Hrd).
  destruct (of_map (w_open w) !! name) as [f|] eqn:Hopen.
  - destruct (wo_tab _ _ Hw name f Hopen) as (o & Ho & Hon). pose proof (rdy_cnt _ _ _ _ Hrd f o Ho).
    destruct (DB_openFile_again T w name f o Hw Hne Hopen Ho) as (w' & Hr & Hw' & Ho' & Hnm & Ew); [lia|].
    pose proof (oo_cnt _ _ _ (wo_obj _ _ Hw f o Ho)) as Hcnt.
    exists f, (openCnt o), w'. split; [done|]. split; [done|]. split; [by rewrite Ew|]. split; [|split; [|split; [rewrite Ew; cbn; lia|done]]].
    + split; rewrite ?Ew; cbn; try done.
      * by right.
      * intros m. by apply Hcl.
      * right. split; [lia|]. split; [done|]. split; [done|]. split; [done|]. exists (unixFile o).
        rewrite Ho, Hon. split; [|done]. by destruct o as [? ? ?]; cbn in *; subst.
    + eapply heap_ok_ext; [|exact Hok]. intros m _. rewrite <- Hnm. symmetry. apply named_open. by rewrite Ew.
  - destruct (ho_hdr _ _ Hok) as (p & Hp & _). unfold named_page in Hp. rewrite Hopen in Hp.
    destruct (stored_page_Some _ _ _ _ Hp) as (i & Hdir & Hfo).
    destruct (openFile_closed k j T w name i Hrd Hk Hj Hne Hopen Hdir Hfo) as (f & w' & Hr & Hw' & Hm & Hsi & Hptr & Hn).
    exists f, 0, w'. do 4 (split; [done|]). split; [|done].
    eapply heap_ok_ext; [|exact Hok]. intros m _. rewrite <- Hn. symmetry. apply named_open. by eapply since_open.
Qed.

End Opening.

(** ** Sessions *)

Section Session.
Context {O : Clients}.
Local Abbreviation opened := (opened (O := O)).
Local Abbreviation parked := (parked (O := O)).
Local Abbreviation step_same := (step_same (O := O)).
Implicit Types (T : gset (Z * Z)) (w : World) (f n cur : Z) (h : HeapFile) (l : list hpage) (name : string).

(** A session that began in [b] has the file [name] open as [f]. *)
Record handle T0 b T w name f : Prop := {
  hd_world : world_ok T w;
  hd_name : name <> ""%string;
  hd_live : live_in T0 (b_files b);
  hd_pins : forall g m, O g m = b_pin b g m;
  hd_since : exists n, since T0 b T w name f n;
}.

(** The object [h] has page [cur] of the chain [l] pinned. *)
Record session T0 b T w name f h cur l : Prop := {
  se_handle : handle T0 b T w name f;
  se_opened : opened T w f h cur;
  se_heap : heap_ok (wlog w f) l;
}.

Definition se_world {T0 b T w name f h cur l} (Hse : session T0 b T w name f h cur l) : world_ok T w :=
  hd_world _ _ _ _ _ _ (se_handle _ _ _ _ _ _ _ _ _ Hse).

Lemma handle_step T0 b T w T' w' name f :
  handle T0 b T w name f -> world_ok T' w' -> world_frame w w' -> (forall g m, 0 < O g m -> wfrm w' g m = wfrm w g m) ->
  (forall g m, (g, m) ∈ T' -> g = f \/ (g, m) ∈ T) -> handle T0 b T' w' name f.
Proof.
  intros [A1 A2 A3 A4 [n A5]] Hw Hf Hs HT. split; try done. exists n. eapply since_step; [done|done| |done].
  intros g m Hp. apply Hs. by rewrite A4.
Qed.

Lemma handle_same T0 b T w T' w' name f :
  handle T0 b T w name f -> step_same T w T' w' -> handle T0 b T' w' name f.
Proof.
  intros Hh [S1 S2 S3 S4 S5]. eapply handle_step; [done..|]. intros g m Hin. right. by apply S3.
Qed.

Lemma session_same T0 b T w name f h cur l T' w' h' cur' :
  session T0 b T w name f h cur l -> step_same T w T' w' -> opened T' w' f h' cur' -> session T0 b T' w' name f h' cur' l.
Proof. intros [Hh Hop Hok] Hss Ho'. split; [by eapply handle_same|done|by eapply heap_ok_same]. Qed.

(** Moving an object from one page of the chain to another. *)
Lemma move_cur T0 b T w name f h cur l n p :
  session T0 b T w name f h cur l -> wlog w f n = Some p -> n <> hdr_no ->
  exists T' w1 w' h', unpin_cur (w, h) = Some (Ok tt, (w1, h)) /\
    (assign (set_curPageNo n) ;;; read_cur n) (w1, h) = Some (Ok tt, (w', h')) /\
    step_same T w T' w' /\ session T0 b T' w' name f (set_curDirtyFlag false h') n l.
Proof.
  intros Hse Hp Hne. destruct (unpin_cur_ok T w f h cur (se_world Hse) (se_opened _ _ _ _ _ _ _ _ _ Hse)) as (T1 & w1 & Hr1 & Hss1 & Hpk1).
  set (h1 := set_curPageNo n h). assert (parked T1 w1 f h1) as Hpk1' by (by eapply parked_ext; [|exact Hpk1]).
  destruct (read_cur_ok T1 w1 f h1 n p (ss_world _ _ _ _ Hss1) Hpk1' Hne) as (i & w2 & Hr2 & Hss2 & _ & Ho2);
    [by rewrite (ss_log _ _ _ _ Hss1)|].
  pose proof (step_same_trans _ _ _ _ _ _ Hss1 Hss2) as Hss. eexists T1, w1, w2, _. split; [done|].
  split; [run_assign; exact Hr2|]. split; [done|]. eapply session_same; [done|done|]. by eapply Ho2.
Qed.

Lemma kept_same T w T' w' names : world_ok T w -> step_same T w T' w' -> kept 0 names w w'.
Proof.
  intros Hw Hss. split; [|rewrite (df_ptr _ _ (wf_disk _ _ (ss_frame _ _ _ _ Hss))); lia]. intros nm m _.
  apply (named_frame T w w' (fun _ => True)); [done|apply Hss|intros; apply Hss|done].
Qed.

(** *** Closing *)

(** What the end of the session gives. *)
Record ended_to T0 b w w' : Prop := {
  et_world : world_ok T0 w';
  et_back : back_to b w';
  et_named : forall nm m, named_page w' nm m = named_page w nm m;
  et_ptr : nextPtr (w_disk w') = nextPtr (w_disk w);
}.

Lemma ended_to_same T0 b T w T1 w1 w' :
  world_ok T w -> step_same T w T1 w1 -> ended_to T0 b w1 w' -> ended_to T0 b w w'.
Proof.
  intros Hw Hss [E1 E2 E3 E4]. split; [done|done| |by rewrite E4, (df_ptr _ _ (wf_disk _ _ (ss_frame _ _ _ _ Hss)))]. intros nm m. rewrite E3.
  apply (named_frame T w w1 (fun _ => True)); [done|apply Hss|intros; apply Hss|done].
Qed.

(** The last reference: the file is flushed and closed. *)
Lemma close_last T0 b T w name f o w2 :
  world_ok T w -> files (w_disk w) !! f = Some o -> openCnt o = 1 -> fileName o = name ->
  since T0 b T w name f 0 -> (forall g m, wpin w g m = b_pin b g m) -> (forall m, (f, m) ∉ T) ->
  DB_closeFile f w = Some (OK, w2) -> ended_to T0 b w w2.
Proof.
  intros Hw Ho Hcnt Hon Hsi Hp HT Hr. pose proof Hsi as [A1 A2 A3 A4 A5 A7 [(_ & B2 & B3 & B4 & B5 & B6 & fd & B7)|(? & _)]]; [|lia].
  destruct (DB_closeFile_last T w f o Hw Ho Hcnt) as
    (w2' & Hr2 & Hw2 & Hm2 & Hn2 & Hs2 & (Hb2 & Hp2 & Hst2) & Hfi2 & Hdir2 & Hfd2 & Hmx2 & Hnp2).
  { intros n. change (wpin w f n = 0). by rewrite Hp, B4. }
  rewrite Hr2 in Hr. injection Hr as ->. pose proof (wo_obj _ _ Hw f o Ho) as Hoo. destruct (oo_ino _ _ _ Hoo) as (ino & Hino & _).
  split; [|split|done|by rewrite Hnp2].
  - eapply world_ok_mono; [|exact Hw2]. intros [g m] Hin. destruct (A1 g m Hin) as [->|?]; [by destruct (HT m)|done].
  - intros g m. rewrite <- Hp. apply Hp2.
  - intros g m Hg. rewrite <- A2 by done. apply Hst2. change (0 < wpin w g m). by rewrite Hp.
  - rewrite Hm2, B5, Hon, delete_insert_id; [done|]. done.
  - rewrite Hfi2, B7. by apply delete_insert_id.
  - rewrite Hfd2, map_size_delete_Some, B6 by (by eexists). lia.
  - congruence.
  - congruence.
  - congruence.
Qed.

(** Another object keeps the file open. *)
Lemma close_more T0 b T w name f n o w2 :
  world_ok T w -> files (w_disk w) !! f = Some o -> openCnt o = n + 1 -> 0 < n ->
  since T0 b T w name f n -> (forall g m, wpin w g m = b_pin b g m) -> (forall m, (f, m) ∉ T) ->
  DB_closeFile f w = Some (OK, w2) -> ended_to T0 b w w2.
Proof.
  intros Hw Ho Hcnt Hn Hsi Hp HT Hr. pose proof Hsi as [A1 A2 A3 A4 A5 A7 [(? & _)|(_ & B2 & B3 & B4 & fd & B5 & B6)]]; [lia|].
  destruct (DB_closeFile_more T w f o Hw Ho ltac:(lia)) as (w2' & Hr2 & Hw2 & Ho2 & Hn2 & Ew).
  rewrite Hr2 in Hr. injection Hr as ->. rewrite B6, lookup_insert_eq in Ho. injection Ho as <-. cbn in Ew, Hcnt.
  split; [|split|done|..]; rewrite ?Ew; cbn; try done.
  - rewrite <- Ew. eapply world_ok_mono; [|exact Hw2]. intros [g m] Hin. destruct (A1 g m Hin) as [->|?]; [by destruct (HT m)|done].
  - rewrite B6, insert_insert_eq. replace (n + 1 - 1) with n by lia. by rewrite insert_id.
Qed.

(** Unpin the header page and close the file. *)
Lemma release_hdr_ok T0 b T w name f h :
  handle T0 b T w name f -> parked T w f h ->
  exists w', release_hdr (w, h) = Some (Ok tt, (w', h)) /\ ended_to T0 b w w'.
Proof.
  intros Hd Hpk. pose proof Hd as [Hw Hne Hlive HO [n Hsi]]. pose proof Hpk as [[A1 A2 (i & A3 & A3') (bh & A5 & A5')] Hq Hpin Hoth].
  destruct (since_object _ _ _ _ _ _ _ Hsi) as (Hn & o & Ho & Hon & Hcnt). pose proof (ot_pos _ Hoth f hdr_no) as Hpos.
  assert (wpin w f hdr_no = O f hdr_no + 1) as Hph by (rewrite Hpin, decide_True by set_solver; done).
  destruct (unPinPage_W T w f hdr_no bh Hw) as (w1 & Hr1 & Hw1 & Hf1 & Hl1 & Hp1 & Hfr1); [lia|intros -> _ Hin; by specialize (A5' Hin)|].
  set (T' := if bh then T ∖ {[(f, hdr_no)]} else T) in *.
  assert (forall g m, (g, m) ∈ T' -> (g, m) ∈ T /\ g <> f) as HT.
  { intros g m Hin. assert ((g, m) ∈ T /\ (g, m) <> (f, hdr_no)) as [Hin1 Hin2].
    { subst T'. destruct bh; [set_solver|]. split; [done|]. intros [= -> ->]. by specialize (A5' Hin). }
    split; [done|]. intros ->. destruct (Hq m); [congruence|done|done]. }
  assert (since T0 b T' w1 name f n) as Hsi1.
  { eapply since_step; [done|done|by intros; apply Hfr1|]. intros g m Hin. right. by apply HT. }
  assert (forall g m, wpin w1 g m = b_pin b g m) as Hpw.
  { intros g m. rewrite Hp1, <- HO. case_decide as Hgm; [destruct Hgm as [-> ->]; lia|].
    rewrite Hpin, decide_False by set_solver. lia. }
  assert (forall m, (f, m) ∉ T') as HTf by (intros m Hin; by destruct (HT f m Hin)).
  pose proof (df_files _ _ (wf_disk _ _ Hf1)) as Hfi. assert (files (w_disk w1) !! f = Some o) as Ho1 by (by rewrite Hfi).
  assert (exists w2, DB_closeFile f w1 = Some (OK, w2) /\ ended_to T0 b w1 w2) as (w2 & Hr2 & Hend).
  { destruct (decide (n = 0)) as [->|Hn0].
    - pose proof Hsi1 as [_ _ _ _ _ _ [(_ & _ & _ & B4 & _)|(? & _)]]; [|lia].
      destruct (DB_closeFile_last T' w1 f o Hw1 Ho1 ltac:(lia)) as (w2 & Hr2 & _); [intros m; change (wpin w1 f m = 0); by rewrite Hpw, B4|].
      exists w2. split; [done|]. by eapply (close_last T0 b T' w1 name f o).
    - destruct (DB_closeFile_more T' w1 f o Hw1 Ho1 ltac:(lia)) as (w2 & Hr2 & _). exists w2. split; [done|].
      eapply (close_more T0 b T' w1 name f n o); try done. lia. }
  exists w2. split.
  - unfold release_hdr. run_with (member_run filePtr w h f A1). run_with (member_run headerPageNo w h hdr_no A2).
    run_with (member_run hdrDirtyFlag w h bh A5). run_with (attempt_run _ _ _ _ (io_run _ w h _ _ Hr1)).
    assert (closeFile f w1 = Some (Ok tt, w2)) as Hc by (unfold closeFile, status; by rewrite Hr2).
    run_with (attempt_run _ _ _ _ (io_run _ w1 h _ _ Hc)). done.
  - destruct Hend as [E1 E2 E3 E4]. split; [done|done| |by rewrite E4, (df_ptr _ _ (wf_disk _ _ Hf1))]. intros nm m. rewrite E3. by apply (named_frame T w w1 (fun _ => True)).
Qed.

(** *** The destructors *)

(** The object without its current page. *)
Definition unset_cur h : HeapFile := set_curDirtyFlag false (set_curPageNo 0 (set_curPage PNull h)).

Lemma unset_cur_hdr h : same_hdr h (unset_cur h).
Proof. done. Qed.

Lemma endScan_ok T0 b T w name f h cur l :
  session T0 b T w name f h cur l ->
  exists T1 w1, endScan (w, h) = Some (Ok tt, (w1, unset_cur h)) /\ step_same T w T1 w1 /\ handle T0 b T1 w1 name f /\
    parked T1 w1 f (unset_cur h).
Proof.
  intros Hse. pose proof (se_opened _ _ _ _ _ _ _ _ _ Hse) as Hop.
  destruct (unpin_cur_ok T w f h cur (se_world Hse) Hop) as (T1 & w1 & Hr1 & Hss1 & Hpk1). exists T1, w1. split.
  - destruct (hc_page _ _ _ _ _ (op_cur _ _ _ _ _ Hop)) as (i & Hi & _). unfold endScan.
    erewrite (bind_Ok _ _ _ true) by (apply member_run; by rewrite Hi). cbn iota.
    run_with (attempt_run _ _ _ _ Hr1). do 3 run_assign. done.
  - split; [done|]. split; [eapply handle_same; [apply Hse|done]|]. by eapply parked_ext; [|exact Hpk1].
Qed.

(** Without a current page [endScan] does nothing. *)
Lemma endScan_null w h : curPage h = PNull -> endScan (w, h) = Some (Ok tt, (w, h)).
Proof. intros Hc. unfold endScan. erewrite (bind_Ok _ _ _ false) by (apply member_run; by rewrite Hc). done. Qed.

Lemma HeapFile_delete_null w h r : curPage h = PNull -> release_hdr (w, h) = r -> HeapFile_delete (w, h) = r.
Proof. intros Hc Hr. unfold HeapFile_delete. erewrite (bind_Ok _ _ _ false) by (apply member_run; by rewrite Hc). cbn iota. step. exact Hr. Qed.

Lemma HeapFile_delete_ok T0 b T w name f h cur l :
  session T0 b T w name f h cur l ->
  exists w' h', HeapFile_delete (w, h) = Some (Ok tt, (w', h')) /\ ended_to T0 b w w'.
Proof.
  intros Hse. destruct (endScan_ok _ _ _ _ _ _ _ _ _ Hse) as (T1 & w1 & He & Hss & Hh & Hpk).
  destruct (release_hdr_ok _ _ _ _ _ _ _ Hh Hpk) as (w' & Hr & Hend). exists w', (unset_cur h). split.
  - pose proof (se_opened _ _ _ _ _ _ _ _ _ Hse) as Hop. destruct (hc_page _ _ _ _ _ (op_cur _ _ _ _ _ Hop)) as (i & Hi & _).
    destruct (unpin_cur_ok T w f h cur (se_world Hse) Hop) as (T2 & w2 & Hr1 & _).
    unfold endScan in He. erewrite (bind_Ok _ _ _ true) in He by (apply member_run; by rewrite Hi). cbn iota in He.
    rewrite (bind_Ok _ _ _ _ _ (attempt_run _ _ _ _ Hr1)) in He. cbn in He. injection He as ->.
    unfold HeapFile_delete. erewrite (bind_Ok _ _ _ true) by (apply member_run; by rewrite Hi). cbn iota.
    rewrite bind_assoc. run_with (attempt_run _ _ _ _ Hr1). do 2 (rewrite bind_assoc; run_assign). run_assign. exact Hr.
  - eapply ended_to_same; [exact (se_world Hse)|exact Hss|exact Hend].
Qed.

Lemma HeapFileScan_delete_ok T0 b T w name f s cur l :
  session T0 b T w name f (hfs_base s) cur l ->
  exists w' s', HeapFileScan_delete (w, s) = Some (Ok tt, (w', s')) /\ curPage (hfs_base s') = PNull /\ ended_to T0 b w w'.
Proof.
  intros Hse. destruct (endScan_ok _ _ _ _ _ _ _ _ _ Hse) as (T1 & w1 & He & Hss & Hh & Hpk).
  destruct (release_hdr_ok _ _ _ _ _ _ _ Hh Hpk) as (w' & Hr & Hend). set (h1 := unset_cur (hfs_base s)) in *.
  exists w', (set_base h1 (set_base h1 s)). split; [|split; [done|eapply ended_to_same; [exact (se_world Hse)|exact Hss|exact Hend]]].
  unfold HeapFileScan_delete, HeapFileScan_endScan. run_with (attempt_run _ _ _ _ (base_run _ w s _ _ _ He)).
  apply (base_run _ w1 (set_base h1 s)). by apply HeapFile_delete_null.
Qed.

(** [endScan] before the destructor. *)
Lemma finish_scan_ok T0 b T w name f s cur l :
  session T0 b T w name f (hfs_base s) cur l ->
  exists w1 s1 w' s', HeapFileScan_endScan (w, s) = Some (Ok tt, (w1, s1)) /\
    HeapFileScan_delete (w1, s1) = Some (Ok tt, (w', s')) /\ ended_to T0 b w w'.
Proof.
  intros Hse. destruct (endScan_ok _ _ _ _ _ _ _ _ _ Hse) as (T1 & w1 & He & Hss & Hh & Hpk).
  destruct (release_hdr_ok _ _ _ _ _ _ _ Hh Hpk) as (w' & Hr & Hend). set (h1 := unset_cur (hfs_base s)) in *.
  eexists w1, (set_base h1 s), w', _. split; [exact (base_run _ w s _ _ _ He)|].
  split; [|eapply ended_to_same; [exact (se_world Hse)|exact Hss|exact Hend]].
  unfold HeapFileScan_delete, HeapFileScan_endScan.
  run_with (attempt_run _ _ _ _ (base_run endScan w1 (set_base h1 s) _ _ _ (endScan_null w1 h1 eq_refl))).
  apply (base_run _ w1 (set_base h1 (set_base h1 s))). by apply HeapFile_delete_null.
Qed.

Lemma InsertFileScan_delete_ok T0 b T w name f h cur l :
  session T0 b T w name f h cur l ->
  exists w' h', InsertFileScan_delete (w, h) = Some (Ok tt, (w', h')) /\ ended_to T0 b w w'.
Proof.
  intros Hse. pose proof (se_opened _ _ _ _ _ _ _ _ _ Hse) as [Hh [C1 (i & C2 & C2') (bd & C4 & C4')] Hq Hnh Hpin Hoth].
  assert (opened T w f (set_curDirtyFlag true h) cur) as Hop'.
  { split; [by eapply holds_hdr_ext; [|exact Hh]| |done..]. split; [done|by exists i|by exists true]. }
  destruct (unpin_cur_ok T w f _ cur (se_world Hse) Hop') as (T1 & w1 & Hr1 & Hss1 & Hpk1).
  set (h1 := set_curPageNo 0 (set_curPage PNull h)).
  assert (parked T1 w1 f h1) as Hpk1' by (by eapply parked_ext; [|exact Hpk1]).
  assert (handle T0 b T1 w1 name f) as Hh1 by (eapply handle_same; [apply Hse|done]).
  destruct (release_hdr_ok _ _ _ _ _ _ _ Hh1 Hpk1') as (w' & Hr & Hend).
  exists w', h1. split; [|eapply ended_to_same; [exact (se_world Hse)|exact Hss1|exact Hend]].
  unfold InsertFileScan_delete. erewrite (bind_Ok _ _ _ true) by (apply member_run; by rewrite C2). cbn iota.
  rewrite bind_assoc. run_with (member_run filePtr w h f (hh_file _ _ _ _ Hh)).
  rewrite bind_assoc. run_with (member_run curPageNo w h cur C1).
  assert (io (unPinPage f cur true) (w, h) = Some (Ok tt, (w1, h))) as Hu.
  { unfold unpin_cur in Hr1. rewrite (bind_Ok _ _ _ f (w, set_curDirtyFlag true h)) in Hr1 by (apply member_run, (hh_file _ _ _ _ Hh)).
    rewrite (bind_Ok _ _ _ cur (w, set_curDirtyFlag true h)) in Hr1 by (by apply member_run).
    rewrite (bind_Ok _ _ _ true (w, set_curDirtyFlag true h)) in Hr1 by (by apply member_run).
    unfold io, zoom in Hr1 |- *. cbn [fst] in *. destruct (unPinPage f cur true w) as [[r w1']|]; [|done]. by injection Hr1 as -> ->. }
  rewrite bind_assoc. run_with (attempt_run _ _ _ _ Hu). rewrite bind_assoc. run_assign. run_assign. by apply HeapFile_delete_null.
Qed.

End Session.

(** ** The constructors *)

Section New.
Implicit Types (T : gset (Z * Z)) (w : World) (f n cur k j : Z) (h : HeapFile) (l : list hpage) (name : string).

(** What a new session sees of the others. *)
Definition clients w k : Clients := mkClients (wpin w) (k - 1).

Lemma clients_others k j T w w1 :
  ready k j T w -> 1 <= k -> numBufs (w_mgr w1) = numBufs (w_mgr w) -> others (O := clients w k) w1.
Proof.
  intros [R1 R2 R3 R4 R5 R6 R7] Hk Hn. split; cbn; [lia|intros; by eapply wpin_nonneg| |].
  - intros g m. specialize (R3 g m). lia.
  - rewrite Hn. by replace (2 * (k - 1) + 2) with (2 * k) by lia.
Qed.

(** [HeapFile::HeapFile]: header page and first data page pinned. *)
Lemma HeapFile_new_ok k j T w name l :
  ready k j T w -> heap_at T w name l -> 1 <= k -> 1 <= j ->
  exists f h w', HeapFile_new name w = Some (Ok (OK, h), w') /\ session (O := clients w k) T (base_of w) T w' name f h (next_no l) l /\
    curRec h = Some NULLRID /\ hdrDirtyFlag h = Some false /\ curDirtyFlag h = Some false /\
    kept 1 [] w w'.
Proof.
  intros Hrd Hat Hk Hj. pose proof Hat as [Hne Hok0 Hcl].
  destruct (openFile_heap k j T w name l Hrd Hat Hk Hj) as (f & n & w1 & Hr1 & Hw1 & Hm1 & Hsi & Hok1 & Hptr & Hnp).
  destruct (ho_hdr _ _ Hok1) as (hp & Hhp & Hfirst & _).
  assert (l <> []) as Hlne by (eapply heap_ok_ne; [exact Hok1|]; intros m p Hp; by apply (wlog_bounds T w1 f m p)).
  assert (forall g m, wpin w1 g m = wpin w g m) as Hpw by (intros; unfold wpin; by rewrite Hm1).
  pose proof (rdy_pins _ _ _ _ Hrd) as Hpins.
  assert (room 2 w1) as Hroom1.
  { unfold room. rewrite Hm1. destruct (rdy_room _ _ _ _ Hrd) as (l0 & L1 & L2). exists l0. split; [|lia]. intros g m. rewrite Hpw. apply L1. }
  destruct (readPage_room T w1 f hdr_no hp Hw1 Hhp) as (i & w2 & Hr2 & Hw2 & Hf2 & Hfr2 & Hlog2 & Hp2 & Hs2).
  { rewrite Hpw. specialize (Hpins f hdr_no). lia. } { eapply frames_for_le; [|exact Hroom1]. lia. }
  destruct l as [|[n0 c0] l]; [done|]. destruct (cur_entry _ _ [] n0 c0 l Hok1 eq_refl) as (Hn0 & p0 & Hp0 & _).
  destruct (readPage_room T w2 f n0 p0 Hw2) as (i' & w3 & Hr3 & Hw3 & Hf3 & Hfr3 & Hlog3 & Hp3 & Hs3).
  { by rewrite Hlog2. }
  { rewrite Hp2, decide_False, Hpw by naive_solver. specialize (Hpins f n0). lia. }
  { unfold room. rewrite (wf_num _ _ Hf2). apply (frames_for_one (wpin w1) (wpin w2) 1 _ f hdr_no); [|done].
    intros g m Hgm. by rewrite Hp2, decide_False by naive_solver. }
  set (h := mkHeapFile (Some f) (PFrame i) (Some hdr_no) (Some false) (PFrame i') (Some n0) (Some false) (Some NULLRID)).
  assert (forall m, (f, m) ∉ T) as HfT by apply Hsi.
  exists f, h, w3. split.
  { unfold HeapFile_new. run_with (attempt_run _ _ _ _ Hr1). run_with (attempt_run _ _ _ _ (getFirstPage_W T w1 f hp Hw1 Hhp)).
    step. run_with (attempt_run _ _ _ _ Hr2). step.
    rewrite <- Hlog2 in Hhp. run_with (page_get_W w2 f hdr_no i hp _ _ Hfr2 Hhp Hfirst). cbn [next_no].
    run_with (attempt_run _ _ _ _ Hr3). done. }
  assert (world_frame w1 w3) as Hf by (by transitivity w2).
  assert (0 < wpin w2 f hdr_no) as Hph2.
  { rewrite Hp2, decide_True by done. pose proof (wpin_nonneg T w1 f hdr_no Hw1). lia. }
  split; [split; [split; [done|done|apply (rdy_live _ _ _ _ Hrd)|done|]| |]|].
  - exists n. eapply since_step; [exact Hsi|done| |by right]. intros g m Hg. change (0 < wpin w g m) in Hg. rewrite Hs3, Hs2; rewrite ?Hp2; try done.
    + by rewrite Hpw.
    + case_decide as Hd; [destruct Hd as [-> ->]; rewrite Hpw; lia|by rewrite Hpw].
  - split; [| |intros m _ _; apply HfT|done| |].
    + split; [done|done|exists i; split; [done|]; by rewrite Hs3|]. exists false. split; [done|]. intros Hin. by destruct (HfT hdr_no).
    + split; [done|by exists i'|]. exists false. split; [done|]. intros Hin. by destruct (HfT n0).
    + intros g m. cbn [cl_pins clients next_no]. rewrite Hp3. case_decide as Hd1.
      { destruct Hd1 as [-> ->]. rewrite Hp2, decide_False, Hpw, decide_True by set_solver. done. }
      rewrite Hp2. case_decide as Hd2; [destruct Hd2 as [-> ->]; rewrite Hpw, decide_True by set_solver; done|].
      rewrite Hpw, decide_False; [lia|]. rewrite elem_of_union, !elem_of_singleton. naive_solver.
    + eapply clients_others; [exact Hrd|done|]. rewrite (wf_num _ _ Hf). by rewrite Hm1.
  - eapply heap_ok_ext; [|exact Hok1]. intros. by rewrite Hlog3, Hlog2.
  - do 3 (split; [done|]). split; [|rewrite (df_ptr _ _ (wf_disk _ _ Hf)); lia]. intros nm m _. rewrite <- Hnp.
    apply (named_frame T w1 w3 (fun _ => True)); [done|done|by intros; rewrite Hlog3, Hlog2|done].
Qed.

(** The constructor of [InsertFileScan] goes to the last page. *)
Lemma InsertFileScan_new_ok k j T w name l :
  ready k j T w -> heap_at T w name l -> 1 <= k -> 1 <= j ->
  exists f h w' T' l1 cur c, InsertFileScan_new name w = Some (Ok (OK, h), w') /\ l = l1 ++ [(cur, c)] /\
    session (O := clients w k) T (base_of w) T' w' name f h cur l /\ kept 1 [] w w'.
Proof.
  intros Hrd Hat Hk Hj.
  destruct (HeapFile_new_ok k j T w name l Hrd Hat Hk Hj) as (f & h & w1 & Hr1 & Hse & _ & _ & _ & Hnp).
  unfold InsertFileScan_new. run_with Hr1. pose proof (se_world Hse) as Hw1.
  pose proof Hse as [_ [[_ _ (i & A3 & A3') _] [B1 (i' & B2 & _) _] _ _ _ _] Hok].
  destruct (ho_hdr _ _ Hok) as (hp & Hhp & Hh). pose proof Hh as (_ & Hlast & _ & _).
  destruct (exists_last (l := l)) as (l1 & [cur c] & Hl).
  { eapply heap_ok_ne; [exact Hok|]. intros m p Hp. by apply (wlog_bounds T w1 f m p). }
  rewrite Hl, last_snoc in Hlast. cbn in Hlast. symmetry in Hlast.
  rewrite B2. step. rewrite A3. run_with (page_get_W w1 f hdr_no i hp _ _ A3' Hhp Hlast). rewrite B1. step.
  destruct (cur_entry _ _ l1 cur c [] Hok Hl) as (Hne & p & Hp & _).
  case_decide as Hcur.
  - destruct (move_cur T (base_of w) T w1 name f h _ l cur p Hse Hp Hne) as (T' & w2 & w3 & h3 & R2 & R3 & Hss & Hse').
    run_with (call_run _ h w1 _ _ _ R2). run_with (call_run _ h w2 _ _ _ R3). rewrite bind_Ok with (a := (Ok tt, set_curDirtyFlag false h3)) (s' := w3) by done.
    cbn beta iota. exists f, (set_curDirtyFlag false h3), w3, T', l1, cur, c. do 3 (split; [done|]).
    eapply kept_trans; [exact Hnp|eapply kept_same; [exact Hw1|exact Hss]|lia].
  - exists f, h, w1, T, l1, cur, c. split; [done|]. split; [done|]. split; [by rewrite Hcur in Hse|]. done.
Qed.

End New.
