(* ===== verification/HeapWrite.v ===== *)
(** * Changing the pages of a heap file

    Stores to the current page and to the header of an open heap file, on
    which insertion and deletion rest. *)

From S2P Require Export HeapOpen.

Section Write.
Context {O : Clients} {T0 : gset (Z * Z)} {b : Base}.
Local Abbreviation session := (session (O := O) T0 b).
Local Abbreviation handle := (handle (O := O) T0 b).
Local Abbreviation step_same := (step_same (O := O)).
Implicit Types (T : gset (Z * Z)) (w : World) (f n cur : Z) (h : HeapFile) (l : list hpage) (c : list (option Record)) (p q : block).

(** ** The header fields *)

Definition hdr_field (o : Z) : Prop := o = off_first \/ o = off_last \/ o = off_pageCnt \/ o = off_recCnt.

Lemma hdr_write p o z :
  Z.of_nat (length p) = PAGESIZE -> hdr_field o ->
  exists q, wr32 o z p = Some q /\ Z.of_nat (length q) = PAGESIZE /\
    forall o', hdr_field o' -> rd32 o' q = if decide (o' = o) then Some (s32 z) else rd32 o' p.
Proof.
  intros Hlen Ho. rewrite PAGESIZE_eq in Hlen.
  assert (0 <= o /\ o + 4 <= 1024) as Hb by (unfold hdr_field, off_first, off_last, off_pageCnt, off_recCnt in Ho; lia).
  destruct (wr32_is_Some o z p) as [q Hq]; [lia..|]. exists q. split; [done|].
  split; [rewrite (wr32_length _ _ _ _ Hq), PAGESIZE_eq; lia|]. intros o' Ho'. case_decide as Heq.
  - subst o'. by eapply rd32_wr32_same.
  - eapply rd32_wr32_disj; [exact Hq|]. unfold hdr_field, off_first, off_last, off_pageCnt, off_recCnt in *. lia.
Qed.

(** ** Stores to pinned pages *)

(** Page [n] of [f] now holds [q]; everything else is as before. *)
Record wrote T w f n q w' : Prop := {
  wr_world : world_ok ({[(f, n)]} ∪ T) w';
  wr_frame : world_frame w w';
  wr_log : forall g m, wlog w' g m = if decide (g = f /\ m = n) then Some q else wlog w g m;
  wr_pin : forall g m, wpin w' g m = wpin w g m;
  wr_frm : forall g m, wfrm w' g m = wfrm w g m;
}.

(** A step that other files do not notice. *)
Record step_other w f w' : Prop := {
  so_frame : world_frame w w';
  so_log : forall g m, g <> f -> wlog w' g m = wlog w g m;
  so_frm : forall g m, 0 < O g m -> wfrm w' g m = wfrm w g m;
}.

Lemma step_other_refl w f : step_other w f w.
Proof. by split. Qed.

Lemma step_other_trans w f w1 w2 : step_other w f w1 -> step_other w1 f w2 -> step_other w f w2.
Proof.
  intros [A1 A2 A3] [B1 B2 B3]. split.
  - by transitivity w1.
  - intros. by rewrite B2, A2.
  - intros g m Hp. by rewrite B3, A3.
Qed.

Lemma wrote_other T w f n q w' : wrote T w f n q w' -> step_other w f w'.
Proof.
  intros [H1 H2 H3 H4 H5]. split; try done. intros g m Hg. rewrite H3, decide_False by naive_solver. done.
Qed.

Lemma same_other T w f T' w' : step_same T w T' w' -> step_other w f w'.
Proof. intros [H1 H2 H3 H4 H5]. by split. Qed.

Lemma page_set_wrote {A} T w f n i p (g : block -> option (A * block)) a q :
  world_ok T w -> wfrm w f n = Some i -> 0 < wpin w f n -> wlog w f n = Some p -> g p = Some (a, q) ->
  Z.of_nat (length q) = PAGESIZE ->
  exists w', page_set (PFrame i) g w = Some (Ok a, w') /\ wrote T w f n q w'.
Proof.
  intros Hw Hf Hp Hl Hg Hq. destruct (page_set_W T w f n i p g a q Hw Hf Hp Hl Hg Hq) as (w' & Hr & ? & ? & ? & ? & ?).
  exists w'. split; [done|]. by split.
Qed.

Lemma page_upd_wrote T w f n i p (g : block -> option block) q :
  world_ok T w -> wfrm w f n = Some i -> 0 < wpin w f n -> wlog w f n = Some p -> g p = Some q ->
  Z.of_nat (length q) = PAGESIZE ->
  exists w', page_upd (PFrame i) g w = Some (Ok tt, w') /\ wrote T w f n q w'.
Proof. intros Hw Hf Hp Hl Hg Hq. eapply page_set_wrote; [done..| |done]. cbn. by rewrite Hg. Qed.

(** Storing the bytes that are there changes nothing. *)
Lemma page_set_same {A} w f n i p (g : block -> option (A * block)) a :
  wfrm w f n = Some i -> wlog w f n = Some p -> g p = Some (a, p) -> page_set (PFrame i) g w = Some (Ok a, w).
Proof.
  intros Hf Hl Hg. unfold page_set. rewrite (bind_Ok _ _ _ _ _ (load_W w f n i p Hf Hl)).
  erewrite bind_Ok by (unfold defined; rewrite Hg; reflexivity). cbn beta iota.
  unfold wlog, logical in Hl. unfold wfrm in Hf. rewrite Hf in Hl. rewrite bind_Ok with (a := tt) (s' := w); [done|].
  cbn. unfold on_pool, client_write, upd_mgr. pose proof (zget_range _ _ _ Hl) as Hr. rewrite zset_in_range by done. cbn.
  apply zget_Some in Hl as [_ Hl]. rewrite list_insert_id by done. by destruct w as [? [] ?].
Qed.

Lemma hdr_get_run w f h i p o z :
  headerPage h = PFrame i -> wfrm w f hdr_no = Some i -> wlog w f hdr_no = Some p -> rd32 o p = Some z ->
  hdr_get o (w, h) = Some (Ok z, (w, h)).
Proof.
  intros Hi Hf Hl Hz. unfold hdr_get. erewrite bind_Ok by (by apply member_run). rewrite Hi. apply io_run. by eapply page_get_W.
Qed.

Lemma hdr_set_run T w f i p o z :
  world_ok T w -> wfrm w f hdr_no = Some i -> 0 < wpin w f hdr_no ->
  wlog w f hdr_no = Some p -> hdr_field o ->
  exists q w', (forall h, headerPage h = PFrame i -> hdr_set o z (w, h) = Some (Ok tt, (w', h))) /\
    wrote T w f hdr_no q w' /\
    forall o', hdr_field o' -> rd32 o' q = if decide (o' = o) then Some (s32 z) else rd32 o' p.
Proof.
  intros Hw Hf Hp Hl Ho. destruct (wlog_bounds T w f _ p Hw Hl) as (Hlen & _ & _).
  destruct (hdr_write p o z Hlen Ho) as (q & Hq & Hlq & Hrd).
  destruct (page_upd_wrote T w f hdr_no i p _ q Hw Hf Hp Hl Hq Hlq) as (w' & Hr & Hwr).
  exists q, w'. split; [|done]. intros h Hi. unfold hdr_set. erewrite bind_Ok by (by apply member_run). rewrite Hi. by apply io_run.
Qed.

Lemma cur_set_run {A} w h i (g : block -> option (A * block)) r w' :
  curPage h = PFrame i -> page_set (PFrame i) g w = Some (r, w') -> cur_set g (w, h) = Some (r, (w', h)).
Proof. intros Hi Hg. unfold cur_set. erewrite bind_Ok by (by apply member_run). rewrite Hi. by apply io_run. Qed.

(** ** The current page *)

(** An open object, whatever its dirty flags say. *)
Record holding T w name f h cur l : Prop := {
  hg_handle : handle T w name f;
  hg_file : filePtr h = Some f;
  hg_hno : headerPageNo h = Some hdr_no;
  hg_hdr : exists i, headerPage h = PFrame i /\ wfrm w f hdr_no = Some i;
  hg_cno : curPageNo h = Some cur;
  hg_cur : exists j, curPage h = PFrame j /\ wfrm w f cur = Some j;
  hg_quiet : quiet T f (Some cur);
  hg_ne : cur <> hdr_no;
  hg_pins : pinned (O := O) w {[(f, hdr_no); (f, cur)]};
  hg_others : others (O := O) w;
  hg_heap : heap_ok (wlog w f) l;
}.

Lemma session_holding T w name f h cur l : session T w name f h cur l -> holding T w name f h cur l.
Proof. intros [? [[] [] ? ? ? ?] ?]. by split. Qed.

Lemma holding_session T w name f h cur l :
  holding T w name f h cur l -> hdrDirtyFlag h = Some true -> curDirtyFlag h = Some true -> session T w name f h cur l.
Proof.
  intros [] Hhd Hcd. split; [done| |done]. split; [| |done..].
  - split; [done..|by exists true].
  - split; [done..|by exists true].
Qed.

(** The pointers of [h'] are those of [h]. *)
Definition same_ptrs h h' : Prop :=
  filePtr h' = filePtr h /\ headerPage h' = headerPage h /\ headerPageNo h' = headerPageNo h /\
  curPage h' = curPage h /\ curPageNo h' = curPageNo h.

(** Other contents for a page of the chain. *)
Lemma chain_replace (pg pg' : Z -> option block) l1 n c c' l2 :
  chain pg (l1 ++ (n, c) :: l2) -> (forall m, m ∈ l1.*1 \/ m ∈ l2.*1 -> pg' m = pg m) -> page_entry pg' n (next_no l2) c' ->
  chain pg' (l1 ++ (n, c') :: l2).
Proof.
  intros Hch He Hn. induction l1 as [|[m d] l1 IH]; cbn.
  - destruct Hch as [_ Hch]. split; [done|]. eapply chain_ext; [|exact Hch]. intros m Hm. apply He. by right.
  - destruct Hch as [Hm Hch]. split.
    + destruct Hm as (p & Hp & Hrest). exists p. rewrite He by (cbn; left; by left). split; [done|].
      assert (next_no (l1 ++ (n, c') :: l2) = next_no (l1 ++ (n, c) :: l2)) as -> by (by destruct l1 as [|[]]). done.
    + apply IH; [done|]. intros k [Hk|Hk]; apply He; [left; by right|by right].
Qed.

(** The header after the number of records changed by [d]. *)
Lemma header_count p q l l' z d :
  header_for p l -> rd32 off_recCnt p = Some z ->
  (forall o, hdr_field o -> rd32 o q = if decide (o = off_recCnt) then Some (s32 (z + d)) else rd32 o p) ->
  l'.*1 = l.*1 -> Z.of_nat (length (heap_recs l')) = Z.of_nat (length (heap_recs l)) + d -> header_for q l'.
Proof.
  intros (H1 & H2 & H3 & H4) Hz Hq Hn Hlen. assert (z = s32 (Z.of_nat (length (heap_recs l)))) as -> by congruence.
  assert (length l' = length l) as Hll by (by rewrite <- (length_fmap fst l'), Hn, length_fmap).
  assert (next_no l' = next_no l) as Hnx.
  { destruct l as [|[n1 ?] ?], l' as [|[n2 ?] ?]; try done. cbn in Hn. by injection Hn as -> _. }
  assert (fst <$> last l' = fst <$> last l) as Hla by (by rewrite <- !fmap_last, Hn).
  split; [|split; [|split]]; rewrite ?Hq by (unfold hdr_field; auto); cbn.
  - by rewrite Hnx.
  - by rewrite Hla.
  - by rewrite Hll.
  - by rewrite wrapS_add, Hlen.
Qed.

(** The heap file after its page [cur] and the header changed. *)
Lemma heap_ok_replace (pg pg' : Z -> option block) l1 cur c c' l2 hp q p' z d :
  let l := l1 ++ (cur, c) :: l2 in let l' := l1 ++ (cur, c') :: l2 in
  heap_ok pg l -> pg hdr_no = Some hp -> rd32 off_recCnt hp = Some z ->
  (forall o, hdr_field o -> rd32 o q = if decide (o = off_recCnt) then Some (s32 (z + d)) else rd32 o hp) ->
  (forall m, pg' m = if decide (m = hdr_no) then Some q else if decide (m = cur) then Some p' else pg m) ->
  page_ok p' -> contents p' = c' -> getNextPage p' = Some (next_no l2) -> rd32 off_curPage p' = Some cur ->
  Z.of_nat (length (heap_recs l')) = Z.of_nat (length (heap_recs l)) + d -> heap_ok pg' l'.
Proof.
  intros l l' [(hp' & Hhp' & Hh) Hnd Hch] Hhp Hz Hq Hpg Hok' Hc' Hnx' Hcp' Hlen. assert (hp' = hp) as -> by congruence.
  assert (l'.*1 = l.*1) as Hn by (subst l l'; by rewrite !fmap_app). split.
  - exists q. rewrite Hpg, decide_True by done. split; [done|]. by eapply header_count.
  - by rewrite Hn.
  - subst l l'. rewrite fmap_app, fmap_cons in Hnd. apply list.NoDup_cons in Hnd as [Hn1 Hn2].
    rewrite elem_of_app, elem_of_cons in Hn1. apply list.NoDup_app in Hn2 as (_ & Hdj & Hn2). apply list.NoDup_cons in Hn2 as [Hn2 _].
    eapply chain_replace; [exact Hch| |].
    + intros m Hm. rewrite Hpg. rewrite decide_False by naive_solver. rewrite decide_False; [done|].
      intros ->. destruct Hm as [Hm|Hm]; [|done]. apply (Hdj _ Hm). by left.
    + exists p'. rewrite Hpg. rewrite decide_False by naive_solver. rewrite decide_True by done. done.
Qed.

(** Changing the current page, and the number of records by [d]. *)
Lemma write_cur {A} T w name f h l1 cur c c' l2 (g : block -> option (A * block)) a (p p' : block) d :
  let l := l1 ++ (cur, c) :: l2 in let l' := l1 ++ (cur, c') :: l2 in
  holding T w name f h cur l -> wlog w f cur = Some p -> g p = Some (a, p') -> page_ok p' -> contents p' = c' ->
  getNextPage p' = Some (next_no l2) -> rd32 off_curPage p' = Some cur ->
  Z.of_nat (length (heap_recs l')) = Z.of_nat (length (heap_recs l)) + d ->
  exists T' w1 w2 z, cur_set g (w, h) = Some (Ok a, (w1, h)) /\
    (forall h0, headerPage h0 = headerPage h -> hdr_get off_recCnt (w1, h0) = Some (Ok z, (w1, h0)) /\
       hdr_set off_recCnt (z + d) (w1, h0) = Some (Ok tt, (w2, h0))) /\
    step_other w f w2 /\ forall h', same_ptrs h h' -> holding T' w2 name f h' cur l'.
Proof.
  intros l l' [Hd Hfi Hhn (i & H1 & H2) Hcn (j & H4 & H5) Hq Hne Hpin Hoth Hheap] Hp Hg Hok' Hc' Hnx' Hcp' Hlen.
  pose proof (hd_world _ _ _ _ _ _ Hd) as Hw.
  assert (0 < wpin w f hdr_no) as H3 by (eapply pinned_pos; [done|done|set_solver]).
  assert (0 < wpin w f cur) as H6 by (eapply pinned_pos; [done|done|set_solver]).
  destruct (ho_hdr _ _ Hheap) as (hp & H8 & Hh).
  assert (Z.of_nat (length p') = PAGESIZE) as Hlp by (destruct Hok' as (v & Hr & _); apply (repr_length _ _ Hr)).
  destruct (page_set_wrote T w f cur j p _ _ p' Hw H5 ltac:(lia) Hp Hg Hlp) as (w1 & Hr1 & Hwr1). pose proof Hwr1 as [W1 F1 L1 P1 M1].
  pose proof Hh as (_ & _ & _ & Hcnt). set (z := s32 _) in Hcnt.
  assert (wfrm w1 f hdr_no = Some i) as Hf1 by (by rewrite M1).
  assert (wlog w1 f hdr_no = Some hp) as Hl1 by (rewrite L1, decide_False by naive_solver; done).
  destruct (hdr_set_run _ w1 f i hp off_recCnt (z + d) W1 Hf1 ltac:(rewrite P1; lia) Hl1) as (q & w2 & Hr2 & Hwr2 & Hfields);
    [unfold hdr_field; auto|]. pose proof Hwr2 as [W2 F2 L2 P2 M2].
  assert (step_other w f w2) as Hso by (eapply step_other_trans; by eapply wrote_other).
  exists ({[(f, hdr_no)]} ∪ ({[(f, cur)]} ∪ T)), w1, w2, z. split; [by eapply cur_set_run|]. split.
  { intros h0 Hh0. split; [by apply (hdr_get_run w1 f h0 i hp); try done; congruence|]. apply Hr2. congruence. }
  split; [done|]. intros h' (E1 & E2 & E3 & E4 & E5). split; rewrite ?E1, ?E2, ?E3, ?E4, ?E5; try done.
  - eapply handle_step; [exact Hd|exact W2|apply Hso|apply Hso|]. intros g' m. set_solver.
  - exists i. by rewrite M2, M1.
  - exists j. by rewrite M2, M1.
  - intros m Hm1 Hm2. specialize (Hq m Hm1 Hm2). set_solver.
  - intros g' m. by rewrite P2, P1.
  - eapply others_frame; [apply Hso|done].
  - eapply (heap_ok_replace (wlog w f) _ l1 cur c c' l2 hp q p' z d); try done.
    intros m. rewrite L2, L1. repeat case_decide; naive_solver.
Qed.

End Write.
