(* ===== verification/HeapInsert.v ===== *)
(** * Inserting into a heap file

    [InsertFileScan::insertRecord] adds the record to the last page of the
    chain, or to a new page behind it, and keeps the header in step. *)

From S2P Require Export HeapWrite.

Section Insert.
Context {O : Clients} {T0 : gset (Z * Z)} {b : Base}.
Local Abbreviation session := (session (O := O) T0 b).
Local Abbreviation handle := (handle (O := O) T0 b).
Local Abbreviation step_other := (step_other (O := O)).
Local Abbreviation holding := (holding (O := O) (T0 := T0) (b := b)).
Implicit Types (T : gset (Z * Z)) (w : World) (f n cur : Z) (h : HeapFile) (l : list hpage) (c : list (option Record)) (p q : block).

(** ** The abstract operation *)

(** Adding a record to the slots of a page adds it to the records. *)
Lemma recs_insert n r c :
  recs_at n 0 (sp_insert r c) ≡ₚ (mkRID n (Z.of_nat (sp_slot c)), r) :: recs_at n 0 c.
Proof.
  unfold sp_insert, sp_slot. case_decide as Hk.
  - destruct (first_idx_lt no_rec c Hk) as (x & Hx & Hnone). set (k := first_idx no_rec c) in *.
    apply bool_decide_eq_true_1 in Hnone. subst x.
    rewrite <- (take_drop_middle c k None Hx) at 2. rewrite insert_take_drop by done.
    rewrite !recs_at_app. cbn [recs_at]. rewrite length_take_le by lia. cbn [Nat.add].
    symmetry. apply Permutation_middle.
  - pose proof (first_idx_le no_rec c). assert (first_idx no_rec c = length c) as -> by lia.
    rewrite recs_at_app. cbn [recs_at Nat.add]. rewrite Permutation_app_comm. done.
Qed.

Lemma chain_extend (pg pg' : Z -> option block) l n c m d :
  chain pg (l ++ [(n, c)]) -> (forall k, k ∈ l.*1 -> pg' k = pg k) ->
  page_entry pg' n m c -> page_entry pg' m (-1) d -> chain pg' (l ++ [(n, c); (m, d)]).
Proof.
  intros Hch He Hn Hm. induction l as [|[k e] l IH]; cbn; [by split|]. destruct Hch as [Hk Hch]. split.
  - destruct Hk as (p & Hp & Hrest). exists p. rewrite He by (cbn; by left). split; [done|].
    assert (next_no (l ++ [(n, c); (m, d)]) = next_no (l ++ [(n, c)])) as -> by (by destruct l as [|[]]). done.
  - apply IH; [done|]. intros j Hj. apply He. cbn. by right.
Qed.

(** ** Inserting on the current page *)

Lemma heap_recs_last l n c c' r (rid : RID) :
  recs_at n 0 c' ≡ₚ (rid, r) :: recs_at n 0 c -> heap_recs (l ++ [(n, c')]) ≡ₚ (rid, r) :: heap_recs (l ++ [(n, c)]).
Proof.
  intros Hp. rewrite !heap_recs_app. cbn. rewrite !app_nil_r, Hp. symmetry. apply Permutation_middle.
Qed.

(** The state after an insertion: the new record is in the file, the others
    are as they were. *)
Definition inserted w name f l rec (rid : RID) T' w' h' : Prop :=
  exists l1 cur' c', session T' w' name f h' cur' (l1 ++ [(cur', c')]) /\ step_other w f w' /\
    heap_recs (l1 ++ [(cur', c')]) ≡ₚ (rid, rec) :: heap_recs l /\ rid ∉ (heap_recs l).*1.

Lemma recs_at_rid n j c (rid : RID) : rid ∈ (recs_at n j c).*1 -> pageNo rid = n.
Proof.
  revert j. induction c as [|[r|] c IH]; intros j; cbn; [by intros ?%not_elem_of_nil| |apply IH].
  intros [->|Hin]%elem_of_cons; [done|by eapply IH].
Qed.

Lemma heap_recs_page l (rid : RID) : rid ∈ (heap_recs l).*1 -> pageNo rid ∈ l.*1.
Proof.
  induction l as [|[n c] l IH]; cbn; [by intros ?%not_elem_of_nil|]. rewrite fmap_app, elem_of_app, elem_of_cons.
  intros [Hin|Hin]; [left; by eapply recs_at_rid|right; auto].
Qed.

Lemma recs_at_slot n j c k : mkRID n (Z.of_nat (j + k)) ∈ (recs_at n j c).*1 -> exists r, c !! k = Some (Some r).
Proof.
  revert j k. induction c as [|o c IH]; intros j k; cbn; [by intros ?%not_elem_of_nil|].
  assert (mkRID n (Z.of_nat (j + k)) ∈ (recs_at n (S j) c).*1 -> exists r, (o :: c) !! k = Some (Some r)) as Hrest.
  { destruct k as [|k]; [|intros Hin; apply (IH (S j) k); by replace (S j + k)%nat with (j + S k)%nat by lia].
    intros Hin. exfalso. assert (forall c i, mkRID n (Z.of_nat j) ∈ (recs_at n (S j + i) c).*1 -> False) as Hno.
    { clear. induction c as [|[r|] c IH]; intros i; cbn; [by intros ?%not_elem_of_nil| |].
      - intros [Heq|Hin]%elem_of_cons; [injection Heq; lia|]. apply (IH (S i)). by rewrite Nat.add_succ_r.
      - intros Hin. apply (IH (S i)). by rewrite Nat.add_succ_r. }
    apply (Hno c 0%nat). rewrite Nat.add_0_r in *. done. }
  destruct o as [r|]; [|done]. cbn. intros [Heq|Hin]%elem_of_cons; [|by apply Hrest].
  injection Heq as Heq. assert (k = 0%nat) as -> by lia. by exists r.
Qed.

(** A free slot identifies no record. *)
Lemma fresh_slot l n c :
  NoDup (l ++ [(n, c)]).*1 -> mkRID n (Z.of_nat (sp_slot c)) ∉ (heap_recs (l ++ [(n, c)])).*1.
Proof.
  rewrite fmap_app. intros Hnd Hin. rewrite heap_recs_app, fmap_app, elem_of_app in Hin. destruct Hin as [Hin|Hin].
  - apply heap_recs_page in Hin. apply list.NoDup_app in Hnd as (_ & Hd & _). apply (Hd _ Hin). cbn. by left.
  - cbn in Hin. rewrite app_nil_r in Hin. apply (recs_at_slot n 0 c) in Hin as [r Hr]. unfold sp_slot in Hr.
    destruct (first_idx_lt no_rec c) as (x & Hx & Hnone); [by eapply lookup_lt_Some|].
    rewrite Hx in Hr. injection Hr as ->. by apply bool_decide_eq_true_1 in Hnone.
Qed.

(** Storing a record that fits on the current page and counting it. *)
Lemma put_record T w name f h l1 cur c rec (p p' : block) (rid : RID) :
  let l := l1 ++ [(cur, c)] in let l' := l1 ++ [(cur, sp_insert rec c)] in
  holding T w name f h cur l -> wlog w f cur = Some p ->
  insertRecord rec p = Some (Ok rid, p') -> rid = mkRID cur (Z.of_nat (sp_slot c)) -> page_ok p' ->
  contents p' = sp_insert rec c -> getNextPage p' = Some (-1) -> rd32 off_curPage p' = Some cur ->
  exists T' w1 w2, cur_set (insertRecord rec) (w, h) = Some (Ok (Ok rid), (w1, h)) /\
    (forall h0, headerPage h0 = headerPage h -> count_insert (w1, h0) = Some (Ok tt, (w2, set_hdrDirtyFlag true h0))) /\
    step_other w f w2 /\ heap_recs l' ≡ₚ (rid, rec) :: heap_recs l /\ rid ∉ (heap_recs l).*1 /\
    forall h', same_ptrs h h' -> holding T' w2 name f h' cur l'.
Proof.
  intros l l' Hho Hp Hins Hrid Hok' Hc' Hnx' Hcp'.
  assert (heap_recs l' ≡ₚ (rid, rec) :: heap_recs l) as Hperm.
  { apply heap_recs_last. rewrite Hrid. apply recs_insert. }
  destruct (write_cur T w name f h l1 cur c (sp_insert rec c) [] _ _ p p' 1 Hho Hp Hins Hok' Hc' Hnx' Hcp') as
    (T' & w1 & w2 & z & R1 & R2 & Hso & Hh'); [change (Z.of_nat (length (heap_recs l')) = Z.of_nat (length (heap_recs l)) + 1); rewrite Hperm; cbn [length]; lia|].
  exists T', w1, w2. split; [done|]. split.
  { intros h0 Hh0. destruct (R2 h0 Hh0) as [R3 R4]. unfold count_insert. run_with R3. run_with R4. done. }
  do 2 (split; [done|]). split; [|done]. rewrite Hrid. apply fresh_slot.
  pose proof (ho_nodup _ _ (hg_heap _ _ _ _ _ _ _ Hho)) as Hnd. by apply list.NoDup_cons in Hnd as [_ Hnd].
Qed.

(** ** Appending a page *)

Lemma header_append p l n d p1 p2 :
  header_for p l -> (forall o, hdr_field o -> rd32 o p1 = if decide (o = off_last) then Some (s32 n) else rd32 o p) ->
  (forall o, hdr_field o -> rd32 o p2 = if decide (o = off_pageCnt) then Some (s32 (s32 (Z.of_nat (length l)) + 1)) else rd32 o p1) ->
  l <> [] -> 0 <= n < 2 ^ 31 -> recs_at n 0 d = [] -> header_for p2 (l ++ [(n, d)]).
Proof.
  intros (H1 & H2 & H3 & H4) Hp1 Hp2 Hne Hn Hd.
  assert (heap_recs (l ++ [(n, d)]) = heap_recs l) as Hrecs by (rewrite heap_recs_app; cbn; by rewrite Hd, !app_nil_r).
  split; [|split; [|split]]; rewrite ?Hp2, ?Hp1 by (unfold hdr_field; auto); cbn.
  - by rewrite next_no_app.
  - rewrite last_snoc, decide_False, decide_True by done. cbn. rewrite s32_id by lia. done.
  - rewrite decide_True by done. rewrite wrapS_add, length_app. cbn. do 2 f_equal. lia.
  - by rewrite Hrecs.
Qed.

(** The bytes of the new page. *)
Lemma new_page q n :
  Z.of_nat (length q) = PAGESIZE -> 0 <= n < 2 ^ 31 ->
  exists q1 q2, init n q = Some q1 /\ setNextPage (-1) q1 = Some q2 /\
    Z.of_nat (length q1) = PAGESIZE /\ Z.of_nat (length q2) = PAGESIZE /\ page_ok q2 /\ contents q2 = [] /\
    getNextPage q2 = Some (-1) /\ rd32 off_curPage q2 = Some n /\ getFreeSpace q2 = Some (PAGESIZE - DPFIXED).
Proof.
  intros Hq Hn. destruct (init_ok n q Hq) as (q1 & E1 & Hok1 & Hc1 & Hf1 & Hn1 & Hcp1).
  destruct (setNextPage_ok (-1) q1 Hok1) as (q2 & E2 & Hok2 & Hc2 & Hn2 & Hcp2). exists q1, q2.
  assert (forall p, page_ok p -> Z.of_nat (length p) = PAGESIZE) as Hlen by (intros p (v & Hr & _); apply (repr_length _ _ Hr)).
  do 2 (split; [done|]). split; [by apply Hlen|]. split; [by apply Hlen|]. split; [done|]. split; [by rewrite Hc2|].
  split; [done|]. split; [rewrite Hcp2, Hcp1, s32_id by lia; done|]. unfold setNextPage in E2. unfold getFreeSpace in *.
  rewrite <- Hf1. eapply rd16_wr32_disj; [exact E2|]. unfold off_freeSpace, off_nextPage, sizeof_short. lia.
Qed.

(** The state after [allocPage]. *)
Definition allocated T w f n k w1 : Prop :=
  world_ok ({[(f, n)]} ∪ T) w1 /\ world_frame w w1 /\ wfrm w1 f n = Some k /\ wlog w f n = None /\
  (exists q, forall g m, wlog w1 g m = if decide (g = f /\ m = n) then Some q else wlog w g m) /\
  (forall g m, wpin w1 g m = if decide (g = f /\ m = n) then 1 else wpin w g m) /\
  (forall g m, 0 < wpin w g m -> wfrm w1 g m = wfrm w g m).

Lemma allocated_other T w f n k w1 :
  (forall g m, 0 < O g m -> 0 < wpin w g m) -> allocated T w f n k w1 -> step_other w f w1.
Proof.
  intros HO (_ & Hf & _ & _ & [q Hl] & Hp & Hs). split; [done|..]; intros g m Hg.
  - by rewrite Hl, decide_False by naive_solver.
  - by apply Hs, HO.
Qed.

(** A page number that is not in use is not in the chain. *)
Lemma fresh_page (pg : Z -> option block) l n : heap_ok pg l -> pg n = None -> n <> hdr_no /\ n ∉ l.*1.
Proof.
  intros [(p & Hp & _) _ Hch] Hn. split; [congruence|]. intros Hin. induction l as [|[m d] l IH]; cbn in *; [by apply not_elem_of_nil in Hin|].
  destruct Hch as [(q & Hq & _) Hch]. apply elem_of_cons in Hin as [->|Hin]; [congruence|auto].
Qed.

Lemma link_page_ok T w name f h l1 cur c n k w1 :
  let l := l1 ++ [(cur, c)] in
  holding T w name f h cur l -> allocated T w f n k w1 ->
  exists T' w' q p', link_page n k (w1, h) = Some (Ok tt, (w', set_hdrDirtyFlag true h)) /\ world_ok T' w' /\
    step_other w f w' /\ wfrm w' f n = Some k /\ (forall m, 0 < wpin w f m -> wfrm w' f m = wfrm w f m) /\
    (forall g m, wpin w' g m = if decide (g = f /\ m = n) then 1 else wpin w g m) /\
    wlog w' f cur = Some p' /\ wlog w' f n = Some q /\ page_ok q /\ contents q = [] /\ getNextPage q = Some (-1) /\
    rd32 off_curPage q = Some n /\ getFreeSpace q = Some (PAGESIZE - DPFIXED) /\ heap_ok (wlog w' f) (l ++ [(n, [])]) /\
    (forall g m, (g, m) ∈ T' -> (g, m) ∈ T \/ (g = f /\ (m = n \/ m = hdr_no \/ m = cur))).
Proof.
  intros l [Hd Hfi Hhn (i & H1 & H2) Hcn (j & H4 & H5) Hq Hne Hpin Hoth Hheap] Hal.
  pose proof (hd_world _ _ _ _ _ _ Hd) as Hw.
  assert (0 < wpin w f hdr_no) as H3 by (eapply pinned_pos; [done|done|set_solver]).
  assert (0 < wpin w f cur) as H6 by (eapply pinned_pos; [done|done|set_solver]).
  destruct (ho_hdr _ _ Hheap) as (hp & Hhp & Hh).
  destruct (cur_entry _ _ l1 cur c [] Hheap eq_refl) as (_ & p & Hp & Hpok & Hpc & _ & Hcp & _).
  pose proof (allocated_other _ _ _ _ _ _ (pinned_others _ _ Hpin) Hal) as Hso1. destruct Hal as (Hw1 & Hf1 & Hk & Hnone & [q0 Hl1] & Hp1 & Hs1).
  destruct (fresh_page _ _ _ Hheap Hnone) as [Hn1 Hn2].
  assert (n <> cur) as Hnc by (intros ->; congruence).
  assert (wlog w1 f n = Some q0) as Hq0 by (by rewrite Hl1, decide_True).
  destruct (wlog_bounds _ w1 f n q0 Hw1 Hq0) as (Hlq & Hnb & _).
  destruct (new_page q0 n Hlq ltac:(lia)) as (q1 & q2 & E1 & E2 & Hlq1 & Hlq2 & Hok2 & Hc2 & Hnx2 & Hcp2 & Hfs2).
  assert (0 < wpin w1 f n) as Hpn by (rewrite Hp1, decide_True by done; lia).
  destruct (page_upd_wrote _ w1 f n k q0 _ q1 Hw1 Hk Hpn Hq0 E1 Hlq1) as (w2 & R2 & [W2 F2 L2 P2 M2]).
  destruct (page_upd_wrote _ w2 f n k q1 (setNextPage (-1)) q2 W2) as (w3 & R3 & [W3 F3 L3 P3 M3]); try done.
  { by rewrite M2. } { by rewrite P2. } { by rewrite L2, decide_True. }
  assert (wfrm w3 f hdr_no = Some i) as Hi3 by (rewrite M3, M2, Hs1 by lia; done).
  assert (0 < wpin w3 f hdr_no) as Hpi3 by (rewrite P3, P2, Hp1, decide_False by naive_solver; lia).
  assert (wlog w3 f hdr_no = Some hp) as Hhp3 by (rewrite L3, decide_False, L2, decide_False, Hl1, decide_False by naive_solver; done).
  destruct (hdr_set_run _ w3 f i hp off_last n W3 Hi3 Hpi3 Hhp3) as (hp1 & w4 & R4 & [W4 F4 L4 P4 M4] & Hrd1); [unfold hdr_field; auto|].
  assert (wfrm w4 f hdr_no = Some i) as Hi4 by (by rewrite M4).
  assert (0 < wpin w4 f hdr_no) as Hpi4 by (by rewrite P4).
  assert (wlog w4 f hdr_no = Some hp1) as Hhp4 by (by rewrite L4, decide_True).
  assert (rd32 off_pageCnt hp1 = Some (s32 (Z.of_nat (length l)))) as Hcnt.
  { rewrite Hrd1 by (unfold hdr_field; auto). rewrite decide_False by done. apply Hh. }
  destruct (hdr_set_run _ w4 f i hp1 off_pageCnt (s32 (Z.of_nat (length l)) + 1) W4 Hi4 Hpi4 Hhp4) as (hp2 & w5 & R5 & [W5 F5 L5 P5 M5] & Hrd2);
    [unfold hdr_field; auto|].
  destruct (setNextPage_ok n p Hpok) as (p' & E6 & Hok6 & Hc6 & Hnx6 & Hcp6). rewrite s32_id in Hnx6 by lia.
  destruct (page_set_wrote _ w5 f cur j p (fun q => q' ← setNextPage n q; Some (tt, q')) tt p' W5) as (w6 & R6 & [W6 F6 L6 P6 M6]).
  { rewrite M5, M4, M3, M2, Hs1 by lia. done. }
  { rewrite P5, P4, P3, P2, Hp1, decide_False by naive_solver. lia. }
  { rewrite L5, decide_False, L4, decide_False, L3, decide_False, L2, decide_False, Hl1, decide_False by naive_solver. done. }
  { by rewrite E6. }
  { destruct Hok6 as (v & Hr & _). apply (repr_length _ _ Hr). }
  assert (forall m, wlog w6 f m = if decide (m = cur) then Some p' else if decide (m = hdr_no) then Some hp2
                                  else if decide (m = n) then Some q2 else wlog w f m) as Hlog.
  { intros m. rewrite L6, L5, L4, L3, L2, Hl1. clear. destruct (decide (m = cur)), (decide (m = hdr_no)), (decide (m = n));
      repeat case_decide; naive_solver. }
  eexists _, w6, q2, p'. split.
  { unfold link_page. run_with (io_run _ w1 h _ _ R2). run_with (io_run _ w2 h _ _ R3). run_with (R4 h H1).
    run_with (hdr_get_run w4 f h i hp1 _ _ H1 Hi4 Hhp4 Hcnt). run_with (R5 h H1). run_assign.
    by apply (cur_set_run w5 _ j). }
  split; [exact W6|]. split.
  { eapply step_other_trans; [exact Hso1|]. split.
    - do 4 (etransitivity; [eassumption|]). done.
    - intros g m Hg. by rewrite L6, L5, L4, L3, L2, !decide_False by naive_solver.
    - intros g m _. by rewrite M6, M5, M4, M3, M2. }
  split; [by rewrite M6, M5, M4, M3, M2|]. split; [intros m Hm; by rewrite M6, M5, M4, M3, M2, Hs1|].
  split. { intros g m. by rewrite P6, P5, P4, P3, P2, Hp1. }
  split; [by rewrite Hlog, decide_True|].
  split; [by rewrite Hlog, !decide_False, decide_True by done|]. do 5 (split; [done|]). split.
  - destruct Hheap as [_ Hnd Hch]. split.
    + exists hp2. rewrite Hlog, decide_False, decide_True by done. split; [done|].
      eapply header_append; [exact Hh|exact Hrd1|exact Hrd2|by destruct l1|lia|done].
    + rewrite fmap_app. cbn. rewrite app_comm_cons. apply list.NoDup_app. split; [done|]. split; [|apply list.NoDup_singleton].
      intros m Hm Hmn%list_elem_of_singleton. subst m. apply elem_of_cons in Hm as [?|?]; done.
    + subst l. rewrite <- app_assoc. eapply chain_extend; [exact Hch| | |].
      * intros m Hm. rewrite Hlog. rewrite fmap_app in Hnd, Hn2. apply list.NoDup_cons in Hnd as [Hd1 Hd2].
        rewrite elem_of_app in Hd1, Hn2. apply list.NoDup_app in Hd2 as (_ & Hdj & _). rewrite !decide_False; [done|naive_solver..|].
        intros ->. apply (Hdj _ Hm). cbn. by left.
      * exists p'. rewrite Hlog, decide_True by done. split; [done|]. split; [done|]. split; [by rewrite Hc6|]. by rewrite Hcp6.
      * exists q2. rewrite Hlog, !decide_False, decide_True by done. done.
  - intros g m. rewrite !elem_of_union, !elem_of_singleton. clear. intros [Hx|[Hx|[Hx|[Hx|[Hx|[Hx|Hx]]]]]]; try (injection Hx as -> ->); auto 6.
Qed.

(** ** [insertRecord] *)

(** A failed allocation leaves the file as it was. *)
Lemma session_alloc_failed T w name f h cur l w1 :
  session T w name f h cur l -> world_ok T w1 -> world_frame w w1 -> (forall g m, wpin w1 g m = wpin w g m) ->
  (forall g m, 0 < wpin w g m -> wfrm w1 g m = wfrm w g m) -> (forall m p, wlog w f m = Some p -> wlog w1 f m = Some p) ->
  session T w1 name f h cur l.
Proof.
  intros [Hd [[A1 A2 (i & A3 & A3') A5] [B1 (j & B2 & B2') B4] Hq Hne Hpin Hoth] Hok] Hw1 Hf Hp Hs Hl.
  split; [|split; [| |done|done| |by eapply others_frame]|].
  - eapply handle_step; [done|done|done| |by right]. intros g m Hg. apply Hs. by apply (pinned_others _ _ Hpin).
  - split; [done|done| |done]. exists i. rewrite Hs; [done|]. eapply pinned_pos; [done|done|set_solver].
  - split; [done| |done]. exists j. rewrite Hs; [done|]. eapply pinned_pos; [done|done|set_solver].
  - intros g m. by rewrite Hp.
  - destruct Hok as [(p & Hp0 & Hh) Hnd Hch]. split; [exists p; auto|done|].
    clear Hnd Hh. induction l as [|[m d] l IH]; [done|]. destruct Hch as [(q & Hq0 & Hrest) Hch]. split; [exists q; auto|auto].
Qed.

Lemma elem_of_pages f m1 m2 g m : (g, m) ∈ ({[(f, m1); (f, m2)]} : gset (Z * Z)) <-> g = f /\ (m = m1 \/ m = m2).
Proof. rewrite elem_of_union, !elem_of_singleton. naive_solver. Qed.

(** The pins when the current page moves from [cur] to the new page [n]. *)
Lemma pins_move w w6 w7 f cur n :
  pinned (O := O) w {[(f, hdr_no); (f, cur)]} -> others (O := O) w -> wpin w f n = 0 -> n <> cur -> cur <> hdr_no ->
  (forall g m, wpin w6 g m = if decide (g = f /\ m = n) then 1 else wpin w g m) ->
  (forall g m, wpin w7 g m = if decide (g = f /\ m = cur) then wpin w6 f cur - 1 else wpin w6 g m) ->
  pinned (O := O) w7 {[(f, hdr_no); (f, n)]}.
Proof.
  intros Hpin Hoth Hz Hnc Hch H6 H7 g m. assert (O f n = 0) as HO.
  { pose proof (ot_pos _ Hoth f n). rewrite Hpin in Hz. destruct (decide _) in Hz; lia. }
  rewrite H7. case_decide as Hd1.
  { destruct Hd1 as [-> ->]. rewrite H6, decide_False by lia. rewrite Hpin, decide_True by (apply elem_of_pages; auto).
    rewrite decide_False by (rewrite elem_of_pages; lia). lia. }
  rewrite H6. case_decide as Hd2.
  { destruct Hd2 as [-> ->]. rewrite decide_True by (apply elem_of_pages; auto). lia. }
  rewrite Hpin. f_equal. apply decide_ext. rewrite !elem_of_pages. clear -Hd1 Hd2. naive_solver.
Qed.

Lemma move_to_new T w name f h cur l T6 w6 w7 n k h7 :
  holding T w name f h cur l -> wlog w f n = None -> n <> cur -> world_ok (T6 ∖ {[(f, cur)]}) w7 -> step_other w f w7 ->
  filePtr h7 = filePtr h -> headerPage h7 = headerPage h -> headerPageNo h7 = headerPageNo h ->
  curPage h7 = PFrame k -> curPageNo h7 = Some n ->
  wfrm w7 f n = Some k -> (forall m, 0 < wpin w f m -> wfrm w7 f m = wfrm w f m) ->
  (forall g m, (g, m) ∈ T6 -> (g, m) ∈ T \/ (g = f /\ (m = n \/ m = hdr_no \/ m = cur))) ->
  (forall g m, wpin w6 g m = if decide (g = f /\ m = n) then 1 else wpin w g m) ->
  (forall g m, wpin w7 g m = if decide (g = f /\ m = cur) then wpin w6 f cur - 1 else wpin w6 g m) ->
  heap_ok (wlog w7 f) (l ++ [(n, [])]) -> holding (T6 ∖ {[(f, cur)]}) w7 name f h7 n (l ++ [(n, [])]).
Proof.
  intros [Hd G1 G2 (i & G3 & G3') G5 G6 G8 G9 G7 G4 G10] Hnone Hnc W7 Hso E1 E2 E3 E4 E5 Hk Hst HT Hp6 Hp7 Hheap.
  assert (0 < wpin w f hdr_no) as Hph by (eapply pinned_pos; [done|done|apply elem_of_pages; auto]).
  destruct (fresh_page _ _ _ G10 Hnone) as [Hn1 _]. split; rewrite ?E1, ?E2, ?E3; try done.
  - eapply handle_step; [exact Hd|exact W7|apply Hso|apply Hso|]. intros g m [Hin _]%elem_of_difference.
    destruct (HT g m Hin) as [?|[-> _]]; auto.
  - exists i. split; [done|]. by rewrite Hst.
  - by exists k.
  - intros m Hm1 Hm2 [Hin Hnc']%elem_of_difference. rewrite elem_of_singleton in Hnc'.
    destruct (HT f m Hin) as [HinT|[_ [?|[?|?]]]]; try congruence. apply (G8 m Hm1); [congruence|done].
  - eapply pins_move; [done|done| |done..]. apply (wlog_unpinned _ _ _ _ (hd_world _ _ _ _ _ _ Hd) Hnone).
  - eapply others_frame; [apply Hso|done].
Qed.

Lemma insertRecord_session T w name f h l1 cur c rec :
  let l := l1 ++ [(cur, c)] in
  session T w name f h cur l -> rec <> [] -> Z.of_nat (length rec) + sizeof_slot <= PAGESIZE - DPFIXED ->
  exists r T' w' h', InsertFileScan_insertRecord rec (w, h) = Some (r, (w', h')) /\
    match r with
    | Ok rid => inserted w name f l rec rid T' w' h'
    | Err _ => session T' w' name f h' cur l /\ step_other w f w'
    end.
Proof.
  intros l Hse Hne Hlen. pose proof (session_holding _ _ _ _ _ _ _ Hse) as Hho.
  pose proof (hg_cur _ _ _ _ _ _ _ Hho) as (j & H4 & H5).
  destruct (cur_entry _ _ l1 cur c [] (hg_heap _ _ _ _ _ _ _ Hho) eq_refl) as (_ & p & Hp & Hpok & Hpc & Hnx & Hcp & _).
  unfold InsertFileScan_insertRecord. rewrite decide_False by (unfold sizeof_slot, sizeof_short in Hlen; lia).
  erewrite (bind_Ok _ _ _ true) by (apply member_run; by rewrite H4). cbn iota. step.
  destruct (insertRecord_ok p rec Hpok Hne) as (fs & Hfs & Hins). case_decide as Hfit.
  2: { destruct Hins as (p' & cur' & E1 & E2 & E3 & E4 & E5 & E6 & E7). assert (cur' = cur) as -> by congruence. rewrite Hpc in *.
    destruct (put_record T w name f h l1 cur c rec p p' _ Hho Hp E2 eq_refl E3 E4) as (T' & w1 & w2 & R1 & R2 & Hso & Hperm & Hfr & Hh'); [by rewrite E6|done|].
    run_with R1. run_with (R2 h eq_refl). run_assign. eexists (Ok _), T', w2, _. split; [done|].
    exists l1, cur, (sp_insert rec c). split; [|done]. apply holding_session; [by apply Hh'|done|done]. }
  pose proof (page_set_same w f cur j p (insertRecord rec) _ H5 Hp Hins) as Hs. run_with (cur_set_run w h j _ _ _ H4 Hs).
  run_with (member_run filePtr w h f (hg_file _ _ _ _ _ _ _ Hho)).
  destruct (wlog_bounds T w f cur p (se_world Hse) Hp) as (_ & _ & Hconn).
  destruct (allocPage_W T w f (se_world Hse) Hconn) as ([[n k]|e] & w1 & Ra & Hf & Hst & Hr).
  2: { destruct Hr as (Hw1 & Hpin & Hlo & Hlf). run_with (io_run _ w h _ _ Ra). exists (Err e), T, w1, h. split; [done|].
    split; [by eapply session_alloc_failed|]. split; [done|done|]. intros g m Hg. by apply Hst, (pinned_others _ _ (hg_pins _ _ _ _ _ _ _ Hho)). }
  destruct Hr as (Hw1 & Hk & Hnone & Hadd & Hpin). run_with (io_run _ w h _ _ Ra).
  assert (allocated T w f n k w1) as Hal by done.
  destruct (link_page_ok T w name f h l1 cur c n k w1 Hho Hal) as
    (T6 & w6 & q & p' & R6 & W6 & Hso & Hk6 & Hst6 & Hp6 & Hpc6 & Hq6 & Hqok & Hqc & Hqnx & Hqcp & Hqfs & Hheap6 & HT6).
  run_with R6. set (h6 := set_hdrDirtyFlag true h).
  assert (wlog w f cur <> None) as Hcn by congruence. assert (n <> cur) as Hnc by congruence.
  run_with (member_run curPageNo w6 h6 cur (hg_cno _ _ _ _ _ _ _ Hho)).
  destruct (unPinPage_W T6 w6 f cur true W6) as (w7 & R7 & W7 & F7 & L7 & P7 & M7); [|done|].
  { rewrite Hp6, decide_False by naive_solver. eapply pinned_pos; [apply (hg_pins _ _ _ _ _ _ _ Hho)|apply Hho|set_solver]. }
  run_with (attempt_run _ _ _ _ (io_run _ w6 h6 _ _ R7)). do 2 run_assign. cbn iota in W7.
  set (h7 := set_curPageNo n (set_curPage (PFrame k) h6)).
  assert (step_other w6 f w7) as Hso7.
  { split; [done|intros; apply L7|intros; apply M7]. }
  pose proof (step_other_trans _ _ _ _ Hso Hso7) as Hso'.
  assert (holding (T6 ∖ {[(f, cur)]}) w7 name f h7 n (l ++ [(n, [])])) as Hho7.
  { eapply (move_to_new T w name f h cur l T6 w6 w7 n k h7); try done; [by rewrite M7|intros m Hm; rewrite M7; by apply Hst6|]. eapply heap_ok_ext; [|exact Hheap6]. intros. apply L7. }
  destruct (insertRecord_ok q rec Hqok Hne) as (fs7 & Hfs7 & Hins7). rewrite Hqfs in Hfs7. injection Hfs7 as <-.
  rewrite decide_False in Hins7 by lia. destruct Hins7 as (q' & cur' & E1 & E2 & E3 & E4 & E5 & E6 & E7).
  assert (cur' = n) as -> by congruence. rewrite Hqc in *. rewrite <- L7 in Hq6.
  destruct (put_record _ w7 name f h7 l n [] rec q q' _ Hho7 Hq6 E2 eq_refl E3 E4) as (T' & w8 & w9 & R8 & R9 & Hso9 & Hperm & Hfr & Hh'); [by rewrite E6|done|].
  run_with R8. run_assign. run_with (R9 (set_curDirtyFlag true h7) eq_refl). eexists (Ok _), T', w9, _. split; [done|].
  assert (heap_recs (l ++ [(n, [])]) = heap_recs l) as Hhr by (rewrite heap_recs_app; cbn; by rewrite app_nil_r).
  rewrite Hhr in *. exists l, n, (sp_insert rec []). split; [|split; [by eapply step_other_trans|done]].
  apply holding_session; [by apply Hh'|done|done].
Qed.

End Insert.
