(* ===== verification/HeapDelete.v ===== *)
(** * Deleting from a heap file

    [HeapFileScan::deleteRecord] takes the record the scan stands at out of
    its page and keeps the header in step; the scan goes on behind it. *)

From S2P Require Export HeapWrite.

Section Delete.
Context {O : Clients} {T0 : gset (Z * Z)} {b : Base}.
Local Abbreviation session := (session (O := O) T0 b).
Local Abbreviation located := (located (O := O)).
Local Abbreviation positioned := (positioned (O := O)).
Local Abbreviation step_other := (step_other (O := O)).
Implicit Types (T : gset (Z * Z)) (w : World) (f n cur : Z) (h : HeapFile) (l : list hpage) (c : list (option Record)).

(** Deleting a record of a page takes it out of the records, and those behind
    it stay. *)
Lemma recs_delete n c j r :
  c !! j = Some (Some r) ->
  recs_at n 0 c = recs_at n 0 (take j c) ++ (mkRID n (Z.of_nat j), r) :: recs_at n (S j) (drop (S j) c) /\
  recs_at n 0 (sp_delete j c) = recs_at n 0 (take j c) ++ recs_at n (S j) (drop (S j) c) /\
  recs_at n (S j) (drop (S j) (sp_delete j c)) = recs_at n (S j) (drop (S j) c).
Proof.
  intros Hj. pose proof (lookup_lt_Some _ _ _ Hj) as Hlt.
  destruct (strip_prefix no_rec (<[j := None]> c)) as (t & Ht & Hnone). fold (sp_delete j c) in Ht.
  assert (forall i k, recs_at n i (drop k t) = []) as Hdrop .
  { intros i k. apply recs_at_none. intros x Hin. apply (Forall_drop _ k), list.Forall_forall with (x := Some x) in Hnone; done. }
  assert (forall i s, recs_at n i (s ++ t) = recs_at n i s) as Htail.
  { intros i s. pose proof (Hdrop (i + length s)%nat 0%nat) as H0. rewrite drop_0 in H0. by rewrite recs_at_app, H0, app_nil_r. }
  split; [|split].
  - rewrite <- (take_drop_middle c j _ Hj) at 1. rewrite recs_at_app, length_take_le by lia. done.
  - rewrite <- Htail, <- Ht, insert_take_drop, recs_at_app, length_take_le by lia. done.
  - transitivity (recs_at n (S j) (drop (S j) (<[j := None]> c))); [|by rewrite drop_insert_lt by lia].
    rewrite Ht. destruct (decide (S j <= length (sp_delete j c))%nat) as [Hle|Hgt].
    + by rewrite drop_app_le, Htail.
    + by rewrite drop_app_ge, Hdrop, drop_ge by lia.
Qed.

(** The state after a deletion: the record is gone, the others are as they
    were, and the scan stands where it stood. *)
Definition deleted T' w' name f l s rest np (rid : RID) (rec : Record) w s' : Prop :=
  exists l' cur' seen, session T' w' name f (hfs_base s') cur' l' /\ step_other w f w' /\
    positioned T' w' f l' (hfs_base s') rest np /\ length l' = length l /\ (exists h', s' = set_base h' s) /\
    heap_recs l = seen ++ (rid, rec) :: rest /\ heap_recs l' = seen ++ rest.

Lemma deleteRecord_session T w name f s cur l rid rec rest np :
  session T w name f (hfs_base s) cur l -> located T w f l (hfs_base s) rid rec rest np ->
  exists T' w' s', HeapFileScan_deleteRecord (w, s) = Some (Ok tt, (w', s')) /\
    deleted T' w' name f l s rest np rid rec w s'.
Proof.
  intros Hse (l1 & cur' & c & l2 & j & Hl & Hop & Hrid & -> & Hj & Hjb & Hrest & Hnp).
  assert (cur' = cur) as ->.
  { pose proof (hc_no _ _ _ _ _ (op_cur _ _ _ _ _ Hop)). pose proof (hc_no _ _ _ _ _ (op_cur _ _ _ _ _ (se_opened _ _ _ _ _ _ _ _ _ Hse))). congruence. }
  rewrite Hl in Hse. pose proof (session_holding _ _ _ _ _ _ _ Hse) as Hho. set (h := hfs_base s) in *.
  destruct (cur_entry _ _ l1 cur c l2 (hg_heap _ _ _ _ _ _ _ Hho) eq_refl) as (_ & p & Hp & Hpok & Hpc & Hnx & Hcp & _).
  pose proof (deleteRecord_ok p (mkRID cur (Z.of_nat j)) j Hpok eq_refl ltac:(lia)) as Hdel. rewrite Hpc, Hj in Hdel.
  destruct Hdel as (p' & E1 & E2 & E3 & E4 & E5). rewrite Hnx in E4. rewrite Hcp in E5.
  destruct (recs_delete cur c j rec Hj) as (Hr1 & Hr2 & Hr3).
  set (seen := heap_recs l1 ++ recs_at cur 0 (take j c)).
  assert (heap_recs (l1 ++ (cur, c) :: l2) = seen ++ (mkRID cur (Z.of_nat j), rec) :: rest) as Hs1.
  { subst seen rest. rewrite heap_recs_app, <- app_assoc. cbn. rewrite Hr1, <- app_assoc. done. }
  assert (heap_recs (l1 ++ (cur, sp_delete j c) :: l2) = seen ++ rest) as Hs2.
  { subst seen rest. rewrite heap_recs_app, <- app_assoc. cbn. rewrite Hr2, <- app_assoc. done. }
  destruct (write_cur T w name f h l1 cur c (sp_delete j c) l2 _ _ p p' (-1) Hho Hp E1 E2 E3 E4 E5) as
    (T' & w1 & w2 & z & R1 & R2 & Hso & Hh').
  { rewrite Hs1, Hs2, !length_app. cbn [length]. lia. }
  set (h1 := set_curDirtyFlag true h). destruct (R2 h1 eq_refl) as [R3 R4].
  set (h2 := set_hdrDirtyFlag true h1). exists T', w2, (set_base h2 s). split.
  { unfold HeapFileScan_deleteRecord. apply base_run. run_with (member_run curRec w h _ Hrid). run_with R1. run_assign.
    run_with R3. run_with R4. run_assign. done. }
  assert (session T' w2 name f h2 cur (l1 ++ (cur, sp_delete j c) :: l2)) as Hse2.
  { apply holding_session; [by apply Hh'|done|done]. }
  exists (l1 ++ (cur, sp_delete j c) :: l2), cur, seen. split; [done|]. split; [done|]. split.
  { exists l1, cur, (sp_delete j c), l2, (S j), (mkRID cur (Z.of_nat j)). split; [done|]. split; [apply Hse2|].
    split; [done|]. cbn [slotNo]. split; [lia|]. split; [lia|]. by rewrite Hr3. }
  rewrite Hl. split; [by rewrite !length_app|]. split; [by exists h2|]. done.
Qed.

End Delete.
