(* ===== verification/HeapCreate.v ===== *)
(** * Creating a heap file

    [createHeapFile] writes the header page and one empty data page; the
    result is a heap file without records. *)

From S2P Require Export HeapInsert.

Section Create.
Implicit Types (T : gset (Z * Z)) (w : World) (f n : Z) (l : list hpage) (name : string).

Lemma length_strncpy_name name : length (strncpy_name name) = 50%nat.
Proof.
  unfold strncpy_name. rewrite length_take, length_app, length_replicate. change (Z.to_nat MAXNAMESIZE) with 50%nat. lia.
Qed.

(** The bytes of the header of an empty heap file. *)
Lemma new_header q name n :
  Z.of_nat (length q) = PAGESIZE -> 0 <= n < 2 ^ 31 ->
  exists h0 h1 h2 h3 h4, wr off_fileName (strncpy_name name) q = Some h0 /\ wr32 off_recCnt 0 h0 = Some h1 /\
    wr32 off_pageCnt 1 h1 = Some h2 /\ wr32 off_last n h2 = Some h3 /\ wr32 off_first n h3 = Some h4 /\
    Forall (fun h => Z.of_nat (length h) = PAGESIZE) [h0; h1; h2; h3; h4] /\ header_for h4 [(n, [])].
Proof.
  intros Hq Hn. destruct (wr_is_Some off_fileName (strncpy_name name) q) as [h0 E0];
    [by cbn|rewrite length_strncpy_name, Hq; by cbn|].
  assert (Z.of_nat (length h0) = PAGESIZE) as Hl0 by (rewrite (wr_length _ _ _ _ E0); done).
  destruct (hdr_write h0 off_recCnt 0 Hl0) as (h1 & E1 & Hl1 & R1); [unfold hdr_field; auto|].
  destruct (hdr_write h1 off_pageCnt 1 Hl1) as (h2 & E2 & Hl2 & R2); [unfold hdr_field; auto|].
  destruct (hdr_write h2 off_last n Hl2) as (h3 & E3 & Hl3 & R3); [unfold hdr_field; auto|].
  destruct (hdr_write h3 off_first n Hl3) as (h4 & E4 & Hl4 & R4); [unfold hdr_field; auto|].
  exists h0, h1, h2, h3, h4. do 5 (split; [done|]). split; [by repeat constructor|].
  split; [|split; [|split]]; rewrite R4, ?R3, ?R2, ?R1 by (unfold hdr_field; auto).
  - rewrite decide_True, s32_id by (done || lia). done.
  - rewrite decide_False, decide_True, s32_id by (done || lia). done.
  - done.
  - done.
Qed.

(** Nothing of the file is in use. *)
Definition untouched T w f : Prop := forall n, wlog w f n = None /\ wpin w f n = 0 /\ (f, n) ∉ T.

(** The new file is a heap file without records, other files are as they
    were, and all resources are given back. *)
Record created T w name w' : Prop := {
  cr_world : world_ok T w';
  cr_restored : restored w w';
  cr_heap : exists n, heap_ok (named_page w' name) [(n, [])];
  cr_named : forall nm n, nm <> name -> named_page w' nm n = named_page w nm n;
  cr_ptr : nextPtr (w_disk w') <= nextPtr (w_disk w) + 128;
  cr_dir : exists i, u_dir (unix (w_disk w')) = <[name := i]> (u_dir (unix (w_disk w)));
}.

Lemma world_conn_open T w f o : world_ok T w -> files (w_disk w) !! f = Some o -> is_Some (conn (w_disk w) f) /\ 0 < f.
Proof.
  intros Hw Ho. pose proof (wo_obj _ _ Hw f o Ho) as Hoo. destruct (oo_ino _ _ _ Hoo) as (i & Hi & _).
  pose proof (oo_ptr _ _ _ Hoo). split; [|lia]. exists i. unfold conn. by rewrite Ho.
Qed.

(** The end of [createHeapFile]: both pages unpinned, the file flushed and closed. *)
Lemma close_new T0 b T w name f n hp q :
  world_ok T w -> since T0 b T w name f 0 -> n <> hdr_no ->
  (forall g m, wpin w g m = b_pin b g m + (if decide (g = f /\ (m = n \/ m = hdr_no)) then 1 else 0)) ->
  (forall m, (f, m) ∈ T -> m = n \/ m = hdr_no) ->
  wlog w f hdr_no = Some hp -> header_for hp [(n, [])] -> wlog w f n = Some q -> page_entry (wlog w f) n (-1) [] ->
  exists w', (unPinPage f n true ;;; unPinPage f hdr_no true ;;; flushFile f ;;; closeFile f) w = Some (Ok tt, w') /\
    ended_to T0 b w w' /\ heap_ok (named_page w' name) [(n, [])].
Proof.
  intros Hw Hsi Hn Hpin HT Hhp Hh Hq0 Hent. destruct (since_object _ _ _ _ _ _ _ Hsi) as (_ & o & Ho & Hon & Hcnt).
  pose proof Hsi as [_ _ _ _ _ _ [(_ & _ & _ & Hz & _)|(? & _)]]; [|lia].
  destruct (world_conn_open T w f o Hw Ho) as [_ Hf0].
  destruct (unPinPage_W T w f n true Hw) as (w1 & R1 & W1 & F1 & L1 & P1 & M1); [rewrite Hpin, Hz, decide_True by naive_solver; lia|done|].
  destruct (unPinPage_W _ w1 f hdr_no true W1) as (w2 & R2 & W2 & F2 & L2 & P2 & M2).
  { rewrite P1, decide_False, Hpin, Hz, decide_True by naive_solver. lia. } { done. }
  cbn iota in W1, W2. set (T2 := _ ∖ _) in W2.
  assert (forall g m, wpin w2 g m = b_pin b g m) as Hp2.
  { intros g m. rewrite P2. case_decide as Hm.
    { destruct Hm as [-> ->]. rewrite P1, decide_False, Hpin, decide_True by naive_solver. lia. }
    rewrite P1. case_decide as Hm'; [destruct Hm' as [-> ->]|]; rewrite Hpin; [rewrite decide_True by naive_solver|rewrite decide_False by naive_solver]; lia. }
  assert (forall m, wpin w2 f m = 0) as Hp20 by (intros m; by rewrite Hp2).
  destruct (flushFile_W T2 w2 f W2 Hf0 Hp20) as (w3 & R3 & W3 & F3 & L3 & P3 & M3).
  assert (world_frame w w3) as F by (transitivity w1; [done|]; by transitivity w2).
  pose proof (df_files _ _ (wf_disk _ _ F)) as Hfi. assert (files (w_disk w3) !! f = Some o) as Ho3 by (by rewrite Hfi).
  destruct (DB_closeFile_last T2 w3 f o W3 Ho3 ltac:(lia)) as (w4 & R4 & _); [intros m; rewrite <- (Hp20 m); apply P3|].
  assert (forall g m, wlog w3 g m = wlog w g m) as Hlog by (intros; by rewrite L3, L2, L1).
  assert (since T0 b T2 w3 name f 0) as Hsi3.
  { eapply since_step; [exact Hsi|done| |intros g m; right; set_solver]. intros g m Hg. rewrite M3, M2, M1; [done|].
    by rewrite Hp2. }
  assert (ended_to T0 b w3 w4) as Hend.
  { apply (close_last T0 b T2 w3 name f o w4); try done; [intros; by rewrite P3|]. intros m Hin.
    assert ((f, m) ∈ T /\ m <> n /\ m <> hdr_no) as (Hin' & ? & ?) by set_solver. by destruct (HT m Hin'). }
  exists w4. split; [|split].
  - run_with R1. run_with R2. run_with R3. unfold closeFile, status. by rewrite R4.
  - destruct Hend as [E1 E2 E3 E4]. split; [done|done| |by rewrite E4, (df_ptr _ _ (wf_disk _ _ F))]. intros nm m. rewrite E3.
    by apply (named_frame T w w3 (fun _ => True)).
  - assert (heap_ok (wlog w f) [(n, [])]) as Hok.
    { split; [by exists hp| |by split]. apply list.NoDup_cons. split; [|apply list.NoDup_singleton]. intros ?%list_elem_of_singleton. done. }
    eapply heap_ok_ext; [|exact Hok]. intros m _. rewrite (et_named _ _ _ _ Hend), (named_open w3 name f m); [apply Hlog|].
    by eapply since_open.
Qed.

Lemma format_heap_ok T0 b T w name f :
  world_ok T w -> since T0 b T w name f 0 -> untouched T w f -> (forall g m, wpin w g m = b_pin b g m) ->
  exists r w', format_heap f name w = Some (r, w') /\
    match r with
    | Ok _ => exists n w9, ended_to T0 b w9 w' /\ heap_ok (named_page w' name) [(n, [])] /\ world_frame w w9 /\
        forall g m, g <> f -> wlog w9 g m = wlog w g m
    | Err _ => exists T', world_ok T' w'
    end.
Proof.
  intros Hw Hsi Hun Hpw. destruct (since_object _ _ _ _ _ _ _ Hsi) as (_ & o & Ho & _).
  destruct (world_conn_open T w f o Hw Ho) as [Hc _]. unfold format_heap.
  destruct (allocPage_W T w f Hw Hc) as ([[n1 k1]|e] & w1 & R1 & F1 & S1 & H1).
  2: { run_with R1. exists (Err e), w1. split; [done|]. exists T. apply H1. }
  run_with R1. destruct H1 as (W1 & M1 & Hnone & [q1 L1] & P1).
  assert (wlog w1 f n1 = Some q1) as Hq1 by (by rewrite L1, decide_True).
  assert (n1 = hdr_no) as ->.
  { pose proof (first_page_W _ w1 f n1 q1 W1 Hq1) as Hfirst. rewrite L1 in Hfirst. case_decide as Hd; [by destruct Hd|].
    by destruct (Hun 1) as [Hx _]. }
  destruct (wlog_bounds _ w1 f _ q1 W1 Hq1) as (Hlq1 & _ & Hc1).
  assert (exists h0, wr off_fileName (strncpy_name name) q1 = Some h0 /\ Z.of_nat (length h0) = PAGESIZE) as (h0 & E0 & Hl0).
  { destruct (new_header q1 name 0 Hlq1 ltac:(lia)) as (h0 & ? & ? & ? & ? & E0 & _ & _ & _ & _ & Hf & _). exists h0.
    split; [done|]. by inversion Hf. }
  destruct (page_upd_wrote _ w1 f hdr_no k1 q1 (wr off_fileName (strncpy_name name)) h0 W1 M1) as (w2 & R2 & [W2 F2 L2 P2 M2]); try done.
  { rewrite P1, decide_True by done. lia. }
  run_with R2. assert (is_Some (conn (w_disk w2) f)) as Hc2 by (by rewrite (disk_frame_conn _ _ _ (wf_disk _ _ F2))).
  destruct (allocPage_W _ w2 f W2 Hc2) as ([[n2 k2]|e] & w3 & R3 & F3 & S3 & H3).
  2: { run_with R3. exists (Err e), w3. split; [done|]. eexists. apply H3. }
  run_with R3. destruct H3 as (W3 & M3 & Hnone3 & [q3 L3] & P3).
  assert (n2 <> hdr_no) as Hn2 by (intros ->; by rewrite L2, decide_True in Hnone3).
  assert (wlog w3 f n2 = Some q3) as Hq3 by (by rewrite L3, decide_True).
  destruct (wlog_bounds _ w3 f _ q3 W3 Hq3) as (Hlq3 & Hb2 & _).
  destruct (new_page q3 n2 Hlq3 ltac:(lia)) as (p1 & p2 & Ep1 & Ep2 & Hlp1 & Hlp2 & Hok2 & Hc2' & Hnx2 & Hcp2 & _).
  destruct (new_header q1 name n2 Hlq1 ltac:(lia)) as (h0' & h1 & h2 & h3 & h4 & E0' & E1 & E2 & E3 & E4 & Hlens & Hh4).
  assert (h0' = h0) as -> by congruence. do 4 (apply Forall_cons_iff in Hlens as [? Hlens]). apply Forall_cons_iff in Hlens as [Hl4 _].
  assert (0 < wpin w3 f n2) as Hp3 by (rewrite P3, decide_True by done; lia).
  destruct (page_upd_wrote _ w3 f n2 k2 q3 _ p1 W3 M3 Hp3 Hq3 Ep1 Hlp1) as (w4 & R4 & [W4 F4 L4 P4 M4]). run_with R4.
  destruct (page_upd_wrote _ w4 f n2 k2 p1 (setNextPage (-1)) p2 W4) as (w5 & R5 & [W5 F5 L5 P5 M5]); try done.
  { by rewrite M4. } { by rewrite P4. } { by rewrite L4, decide_True. }
  run_with R5.
  assert (wpin w5 f hdr_no = 1) as Hph by (rewrite P5, P4, P3, decide_False, P2, P1, decide_True by naive_solver; done).
  assert (wfrm w5 f hdr_no = Some k1) as Hk1.
  { rewrite M5, M4, S3, M2; [done|]. rewrite P2, P1, decide_True by done. lia. }
  assert (wlog w5 f hdr_no = Some h0) as Hh5.
  { rewrite L5, decide_False, L4, decide_False, L3, decide_False, L2, decide_True by naive_solver. done. }
  destruct (page_upd_wrote _ w5 f hdr_no k1 h0 _ h1 W5 Hk1 ltac:(lia) Hh5 E1) as (w6 & R6 & [W6 F6 L6 P6 M6]); [done|]. run_with R6.
  destruct (page_upd_wrote _ w6 f hdr_no k1 h1 (wr32 off_pageCnt 1) h2 W6) as (w7 & R7 & [W7 F7 L7 P7 M7]); rewrite ?M6, ?P6, ?L6, ?decide_True; try done; [lia|]. run_with R7.
  destruct (page_upd_wrote _ w7 f hdr_no k1 h2 (wr32 off_last n2) h3 W7) as (w8 & R8 & [W8 F8 L8 P8 M8]); rewrite ?M7, ?M6, ?P7, ?P6, ?L7, ?decide_True; try done; [lia|]. run_with R8.
  destruct (page_upd_wrote _ w8 f hdr_no k1 h3 (wr32 off_first n2) h4 W8) as (w9 & R9 & [W9 F9 L9 P9 M9]); rewrite ?M8, ?M7, ?M6, ?P8, ?P7, ?P6, ?L8, ?decide_True; try done; [lia|]. run_with R9.
  assert (world_frame w w9) as F by (do 8 (etransitivity; [eassumption|]); done).
  pose proof (df_files _ _ (wf_disk _ _ F)) as Hfi.
  assert (forall m, wlog w9 f m = if decide (m = hdr_no) then Some h4 else if decide (m = n2) then Some p2 else None) as Hlog.
  { intros m. rewrite L9, L8, L7, L6, L5, L4, L3, L2, L1. destruct (Hun m) as (Hm & _). rewrite Hm. clear. repeat case_decide; naive_solver. }
  assert (forall g m, wpin w9 g m = b_pin b g m + (if decide (g = f /\ (m = n2 \/ m = hdr_no)) then 1 else 0)) as Hpin.
  { intros g m. rewrite P9, P8, P7, P6, P5, P4, P3, P2, P1, <- Hpw. destruct (Hun m) as (_ & Hm & _). clear -Hm. repeat case_decide; naive_solver lia. }
  match type of W9 with world_ok ?X _ => set (T9 := X) in W9 end.
  assert (forall g m, (g, m) ∈ T9 -> (g, m) ∈ T \/ (g = f /\ (m = n2 \/ m = hdr_no))) as HT9.
  { intros g m. subst T9. rewrite !elem_of_union, !elem_of_singleton. clear. naive_solver. }
  assert (since T0 b T9 w9 name f 0) as Hsi9.
  { eapply since_step; [exact Hsi|done| |].
    - intros g m Hg. assert (0 < wpin w g m) as Hg1 by (by rewrite Hpw).
      assert (0 < wpin w2 g m) as Hg2 by (rewrite P2, P1; case_decide; lia).
      rewrite M9, M8, M7, M6, M5, M4, S3, M2, S1 by done. done.
    - intros g m Hin. destruct (HT9 g m Hin) as [?|[-> _]]; auto. }
  destruct (close_new T0 b T9 w9 name f n2 h4 p2 W9 Hsi9 Hn2 Hpin) as (w' & Rc & Hend & Hheap).
  - intros m Hin. destruct (Hun m) as (_ & _ & HnT). destruct (HT9 f m Hin) as [?|[_ ?]]; done.
  - by rewrite Hlog, decide_True by done.
  - done.
  - by rewrite Hlog, decide_False, decide_True by done.
  - exists p2. by rewrite Hlog, decide_False, decide_True by done.
  - exists (Ok tt), w'. split; [exact Rc|]. exists n2, w9. do 3 (split; [done|]).
    intros g k Hg. by rewrite L9, L8, L7, L6, L5, L4, L3, L2, L1, !decide_False by naive_solver.
Qed.

(** The header does not fit below the size limit. *)
Lemma createFile_short T w name :
  world_ok T w -> name <> ""%string -> of_map (w_open w) !! name = None -> u_dir (unix (w_disk w)) !! name = None ->
  Z.of_nat (size (u_fds (unix (w_disk w)))) < u_maxFds (unix (w_disk w)) -> ~ PAGESIZE <= u_fsize (unix (w_disk w)) ->
  exists w', createFile name w = Some (Err UNIXERR, w') /\ world_ok T w'.
Proof.
  intros Hw Hne Hno Hdir Hfds Hs. destruct (DB_createFile_run T w name Hw Hne Hno Hdir Hfds) as (c & Hrun). cbv zeta in Hrun.
  destruct (decide _); [done|]. destruct Hrun as (R & Hw' & _). eexists. split; [|exact Hw'].
  unfold createFile, status. by rewrite R.
Qed.

(** Creating a heap file under a name that is not in use. *)
Lemma createHeapFile_run k j T w name :
  ready k j T w -> 1 <= k -> 2 <= j -> name <> ""%string -> of_map (w_open w) !! name = None ->
  u_dir (unix (w_disk w)) !! name = None ->
  exists r w', createHeapFile name w = Some (r, w') /\
    match r with Ok _ => created T w name w' | Err _ => exists T', world_ok T' w' end.
Proof.
  intros Hrd Hk Hj Hne Hno Hdir. unfold createHeapFile. pose proof (rdy_world _ _ _ _ Hrd) as Hw.
  pose proof (rdy_ptr _ _ _ _ Hrd) as Hptr. pose proof (rdy_fds _ _ _ _ Hrd) as Hfds.
  destruct (DB_openFile_missing T w name Hw Hne Hno Hdir ltac:(lia)) as (w1 & R1 & W1 & Ew1).
  run_with (attempt_run (openFile name) w _ _ R1).
  destruct (decide (PAGESIZE <= u_fsize (unix (w_disk w1)))) as [Hroom|Hroom].
  2: { destruct (createFile_short T w1 name W1 Hne) as (w2 & R2 & W2); [rewrite ?Ew1; cbn; try done; lia..|done|].
       run_with R2. exists (Err UNIXERR), w2. split; [done|by exists T]. }
  destruct (DB_createFile_ok T w1 name W1 Hne) as (w2 & R2 & W2 & Hd2 & Hn2 & Ho2 & Hm2 & Hop2 & Hfi2 & Hp2 & Hfd2 & Hmx2);
    [rewrite ?Ew1; cbn; try done; lia..|done|]. destruct Hd2 as (i & Hd2 & Hfo2).
  assert (createFile name w1 = Some (Ok tt, w2)) as R2' by (unfold createFile, status; by rewrite R2). run_with R2'.
  assert (restored w w2) as Hres.
  { unfold wpin, wfrm. split; unfold wpin, wfrm; rewrite ?Hm2, ?Hop2, ?Hfi2, ?Hfd2, ?Hmx2, ?Ew1; done. }
  assert (ready k 1 T w2) as Hrd2 by (eapply ready_restored; [exact Hrd|done|done|rewrite Hp2, Ew1; cbn; lia]).
  destruct (openFile_closed k 1 T w2 name i Hrd2 Hk ltac:(lia) Hne) as (f & w3 & R3 & W3 & Hmg3 & Hsi & Hp3 & Hn3);
    [by rewrite Hop2, Ew1|by rewrite Hd2, lookup_insert_eq|done|]. run_with R3.
  assert (forall g m, wpin w3 g m = wpin w2 g m) as Hpw by (intros; unfold wpin; by rewrite Hmg3).
  destruct (format_heap_ok T (base_of w2) T w3 name f W3 Hsi) as (r & w' & R & Hr).
  { intros n. split; [|split; [|apply Hsi]].
    - rewrite <- (named_open w3 name f n) by (by eapply since_open). by rewrite Hn3, Hn2.
    - rewrite Hpw. pose proof Hsi as [_ _ _ _ _ _ [(_ & _ & _ & Hz & _)|(? & _)]]; [apply Hz|lia]. }
  { done. }
  exists r, w'. split; [exact R|]. destruct r as [[]|e]; [|done]. destruct Hr as (n & w9 & [E1 E2 E3 E4] & Hheap & Hf9 & Hl9). split.
  - done.
  - transitivity w2; [done|by apply back_restored].
  - by exists n.
  - intros nm m Hnm. rewrite E3. transitivity (named_page w2 nm m); [|rewrite Ho2, Ew1 by done; by destruct w].
    rewrite <- Hn3. apply (named_frame T w3 w9 (fun g => g <> f)); try done.
    intros g Hnf ->. apply Hnm. destruct (since_object _ _ _ _ _ _ _ Hsi) as (_ & o & Ho & <- & _).
    destruct (wo_tab _ _ W3 _ _ Hnf) as (o' & Ho' & <-). congruence.
  - rewrite E4, (df_ptr _ _ (wf_disk _ _ Hf9)). rewrite Hp2, Ew1 in Hp3. cbn in Hp3. lia.
  - exists i. rewrite (bt_dir _ _ E2). cbn. by rewrite Hd2, Ew1.
Qed.

End Create.
