(* ===== verification/HeapSession.v ===== *)
(** * Sessions on heap files

    Whole sessions: opening a file, inserting records into it or scanning it,
    and deleting the object, as clients of heap files do it. *)

From S2P Require Export HeapCreate.

(** ** Clients *)

(** A client's loop [while (scan.scanNext(rid) == OK) ...] with the record
    identifiers it sees; [n] bounds the records. *)
Fixpoint scan_rids (n fuel : nat) : CODE (World * HeapFileScan) (list RID) :=
  match n with
  | O => undef
  | S n =>
      let! r := attempt (HeapFileScan_scanNext fuel) in
      match r with
      | Ok rid => let! rids := scan_rids n fuel in ret (rid :: rids)
      | Err st => if decide (st = FILEEOF) then ret [] else throw st
      end
  end.

(** Open a scan, run it to the end and delete it. *)
Definition scan_file (n fuel : nat) (name : string) (offset length : Z) (type : Datatype) (flt : option block) (op : Operator) :
    CODE World (list RID) :=
  let! (st, s) := HeapFileScan_new name in
  if decide (st <> OK) then throw st
  else
    let! (r, s) := call (HeapFileScan_startScan offset length type flt op) s in
    of_res r ;;;
    let! (r, s) := call (scan_rids n fuel) s in
    let! (_, s) := call HeapFileScan_delete s in
    of_res r.

(** The test a scan applies to a record. *)
Definition selects (offset length : Z) (type : Datatype) (flt : option block) (op : Operator) (r : Record) : option bool :=
  match flt with None => Some true | Some flt => match_attr offset length type flt op r end.

(** The parameters [startScan] accepts. *)
Definition scan_parm_ok (offset length : Z) (type : Datatype) (flt : option block) : Prop :=
  flt = None \/ (0 <= offset /\ 1 <= length /\ (type = INTEGER -> length = 4) /\ (type = FLOAT -> length = 4)).

#[export] Instance scan_parm_ok_dec offset length type flt : Decision (scan_parm_ok offset length type flt).
Proof. unfold scan_parm_ok. apply _. Defined.

Fixpoint insert_all (recs : list Record) : CODE (World * HeapFile) (list RID) :=
  match recs with
  | [] => ret []
  | r :: recs =>
      let! rid := InsertFileScan_insertRecord r in
      let! rids := insert_all recs in
      ret (rid :: rids)
  end.

(** Open a file for insertion, insert records until one fails, delete the
    object. *)
Definition insert_file (name : string) (recs : list Record) : CODE World (list RID) :=
  let! (st, h) := InsertFileScan_new name in
  if decide (st <> OK) then throw st
  else
    let! (r, h) := call (insert_all recs) h in
    let! (_, h) := call InsertFileScan_delete h in
    of_res r.

(** What a finished session leaves: the file [name] holds [l], other files
    are as they were, and everything taken was given back. *)
Record finished (T : gset (Z * Z)) (w : World) (name : string) (l : list hpage) (w' : World) : Prop := {
  fi_world : world_ok T w';
  fi_restored : restored w w';
  fi_heap : heap_at T w' name l;
  fi_other : forall nm n, nm <> name -> named_page w' nm n = named_page w nm n;
  fi_dir : u_dir (unix (w_disk w')) = u_dir (unix (w_disk w));
  fi_ptr : nextPtr (w_disk w') <= nextPtr (w_disk w) + 64;
}.

Section Finished.
Implicit Types (T : gset (Z * Z)) (w : World) (k j : Z) (l : list hpage) (name : string).

Lemma finished_ready k j j' T w name l w' : ready k j T w -> finished T w name l w' -> j' <= j - 1 -> ready k j' T w'.
Proof.
  intros Hrd [F1 F2 F3 F4 F5 F6] Hj. pose proof (rdy_ptr _ _ _ _ Hrd). eapply ready_restored; [done..|lia].
Qed.

(** Other heap files are not affected. *)
Lemma finished_other T w name l w' nm l' : finished T w name l w' -> nm <> name -> heap_at T w nm l' -> heap_at T w' nm l'.
Proof.
  intros [F1 F2 F3 F4 F5 F6] Hne [H1 H2 H3]. split; [done| |by rewrite (re_open _ _ F2)].
  eapply heap_ok_ext; [|exact H2]. intros. by apply F4.
Qed.

(** Several sessions one after the other: [n] of them, on files of [names]. *)
Record changed (n : Z) T w (names : list string) w' : Prop := {
  ch_world : world_ok T w';
  ch_restored : restored w w';
  ch_other : forall nm m, nm ∉ names -> named_page w' nm m = named_page w nm m;
  ch_dir : u_dir (unix (w_disk w')) = u_dir (unix (w_disk w));
  ch_ptr : nextPtr (w_disk w') <= nextPtr (w_disk w) + 64 * n;
}.

Lemma changed_refl T w names : world_ok T w -> changed 0 T w names w.
Proof. intros Hw. split; try done. lia. Qed.

Lemma finished_changed T w name l w' names : finished T w name l w' -> name ∈ names -> changed 1 T w names w'.
Proof. intros [F1 F2 F3 F4 F5 F6] Hin. split; [done|done| |done|lia]. intros nm m Hnm. apply F4. congruence. Qed.

Lemma changed_trans n1 n2 n T w names w1 w2 : changed n1 T w names w1 -> changed n2 T w1 names w2 -> n1 + n2 <= n -> changed n T w names w2.
Proof.
  intros [A1 A2 A3 A4 A5] [B1 B2 B3 B4 B5] Hn. split; [done|by transitivity w1| |congruence|lia]. intros nm m Hnm. by rewrite B3, A3.
Qed.

Lemma changed_names n T w names names' w' : changed n T w names w' -> names ⊆ names' -> changed n T w names' w'.
Proof. intros [A1 A2 A3 A4 A5] Hsub. split; try done. intros nm m Hnm. apply A3. set_solver. Qed.

Lemma changed_ready k j j' n T w names w' : ready k j T w -> changed n T w names w' -> j' <= j - n -> ready k j' T w'.
Proof. intros Hrd [A1 A2 A3 A4 A5] Hj. pose proof (rdy_ptr _ _ _ _ Hrd). eapply ready_restored; [done..|lia]. Qed.

Lemma changed_heap n T w names w' nm l : changed n T w names w' -> nm ∉ names -> heap_at T w nm l -> heap_at T w' nm l.
Proof.
  intros [A1 A2 A3 A4 A5] Hne [H1 H2 H3]. split; [done| |by rewrite (re_open _ _ A2)].
  eapply heap_ok_ext; [|exact H2]. intros. by apply A3.
Qed.

End Finished.

(** A session that has ended. *)
Lemma session_finished O T0 w0 T w name f h cur l w' :
  session (O := O) T0 (base_of w0) T w name f h cur l -> ended_to T0 (base_of w0) w w' -> kept 1 [name] w0 w -> finished T0 w0 name l w'.
Proof.
  intros [[H1 H2 H3 H4 [m H5]] Hop Hok] [E1 E2 E3 E4] [K1 K2].
  split; [done|by apply back_restored| |intros nm n Hnm; rewrite E3; apply K1; by intros ?%list_elem_of_singleton|by apply (bt_dir _ _ E2)|lia].
  split; [done| |].
  - eapply heap_ok_ext; [|exact Hok]. intros n _. rewrite E3. apply named_open. by eapply since_open.
  - intros g n Hg. rewrite (bt_open _ _ E2) in Hg.
    destruct (si_how _ _ _ _ _ _ _ H5) as [(_ & Hno & _)|(_ & Hf & _)]; [congruence|].
    assert (g = f) as -> by congruence. apply (si_clean _ _ _ _ _ _ _ H5).
Qed.

Section Sessions.
Context {O : Clients} {T0 : gset (Z * Z)} {b : Base}.
Local Abbreviation session := (session (O := O) T0 b).
Local Abbreviation positioned := (positioned (O := O)).
Local Abbreviation located := (located (O := O)).
Local Abbreviation opened := (opened (O := O)).
Local Abbreviation step_same := (step_same (O := O)).
Local Abbreviation step_other := (step_other (O := O)).
Implicit Types (T : gset (Z * Z)) (w : World) (f n cur : Z) (h : HeapFile) (l : list hpage) (name : string).

Lemma kept_other T w name f h cur l w' : session T w name f h cur l -> step_other w f w' -> kept 0 [name] w w'.
Proof.
  intros Hse Hso. split; [|rewrite (df_ptr _ _ (wf_disk _ _ (so_frame _ _ _ Hso))); lia]. intros nm n Hne.
  apply (named_frame T w w' (fun g => g <> f)); [apply (se_world Hse)|apply Hso|apply Hso|].
  intros g Hg ->. apply Hne, list_elem_of_singleton. destruct (wo_tab _ _ (se_world Hse) nm f Hg) as (o & Ho & <-).
  destruct (hd_since _ _ _ _ _ _ (se_handle _ _ _ _ _ _ _ _ _ Hse)) as [m Hsi].
  destruct (since_object _ _ _ _ _ _ _ Hsi) as (_ & o' & Ho' & <- & _). congruence.
Qed.

Lemma kept_then_same c names w0 T w T' w' : world_ok T w -> step_same T w T' w' -> kept c names w0 w -> kept c names w0 w'.
Proof. intros Hw Hss Hk. eapply kept_trans; [exact Hk|eapply kept_same; [exact Hw|exact Hss]|lia]. Qed.

Lemma kept_then_other c w0 T w name f h cur l w' : session T w name f h cur l -> step_other w f w' -> kept c [name] w0 w -> kept c [name] w0 w'.
Proof. intros Hse Hso Hk. eapply kept_trans; [exact Hk|eapply kept_other; [exact Hse|exact Hso]|lia]. Qed.

(** ** Scanning *)

Lemma filter_next_match M rest :
  List.filter (fun x => M x.2) rest = match next_match M rest with
                                      | [] => []
                                      | x :: rest' => x :: List.filter (fun x => M x.2) rest'
                                      end.
Proof.
  induction rest as [|[rid r] rest IH]; [done|]. cbn. destruct (M r) eqn:HM; [done|]. exact IH.
Qed.

Lemma next_match_suffix M rest x rest' : next_match M rest = x :: rest' -> exists pre, rest = pre ++ x :: rest'.
Proof.
  induction rest as [|[rid r] rest IH]; [done|]. cbn. destruct (M r); [intros [= <- <-]; by exists []|].
  intros [pre ->]%IH. by exists ((rid, r) :: pre).
Qed.

Lemma positioned_session T w T' w' name f h cur l h' rest np :
  session T w name f h cur l -> step_same T w T' w' -> positioned T' w' f l h' rest np ->
  exists cur', session T' w' name f h' cur' l.
Proof. intros Hse Hss (l1 & cur' & c & l2 & k & rid & _ & Hop & _). exists cur'. by eapply session_same. Qed.

(** A call of [scanNext] within a session. *)
Lemma scanNext_session (fuel np : nat) T w name f s cur l M rest :
  (length rest + np < fuel)%nat -> session T w name f (hfs_base s) cur l ->
  positioned T w f l (hfs_base s) rest np -> predicate s M rest ->
  exists r T' w' s' cur', HeapFileScan_scanNext fuel (w, s) = Some (r, (w', s')) /\
    step_same T w T' w' /\ (exists h', s' = set_base h' s) /\ session T' w' name f (hfs_base s') cur' l /\
    match next_match M rest with
    | [] => r = Err FILEEOF
    | (rid, rec) :: rest' => r = Ok rid /\ predicate s' M rest' /\ (length rest' < length rest)%nat /\
        exists np', located T' w' f l (hfs_base s') rid rec rest' np' /\ (np' <= np)%nat
    end.
Proof.
  intros Hfuel Hse Hpos HM.
  destruct (scanNext_ok fuel np l T w f s M rest Hfuel (se_heap _ _ _ _ _ _ _ _ _ Hse) (se_world Hse) Hpos HM)
    as (r & T1 & w1 & s1 & Hr & Hss & [h1 Hs1] & Hres).
  destruct (next_match M rest) as [|[rid rec] rest'] eqn:Hnm.
  - destruct Hres as (-> & np' & Hp' & _). destruct (positioned_session _ _ _ _ _ _ _ _ _ _ _ _ Hse Hss Hp') as [cur' Hse'].
    exists (Err FILEEOF), T1, w1, s1, cur'. do 2 (split; [done|]). split; [by exists h1|]. done.
  - destruct Hres as (-> & np' & Hp' & Hnp).
    destruct (positioned_session _ _ _ _ _ _ _ _ _ _ _ _ Hse Hss (located_positioned _ _ _ _ _ _ _ _ _ Hp')) as [cur' Hse'].
    destruct (next_match_suffix _ _ _ _ Hnm) as [pre Hpre].
    exists (Ok rid), T1, w1, s1, cur'. do 2 (split; [done|]). split; [by exists h1|]. split; [done|]. split; [done|].
    split; [|split; [rewrite Hpre, length_app; cbn; lia|by exists np']].
    intros rid' r' Hin. subst s1. apply (HM rid'). rewrite Hpre, elem_of_app. right. by right.
Qed.

Lemma scan_rids_ok (n fuel np : nat) T w name f s cur l M rest :
  (length rest < n)%nat -> (length rest + np < fuel)%nat -> session T w name f (hfs_base s) cur l ->
  positioned T w f l (hfs_base s) rest np -> predicate s M rest ->
  exists T' w' s' cur', scan_rids n fuel (w, s) = Some (Ok (List.filter (fun x => M x.2) rest).*1, (w', s')) /\
    step_same T w T' w' /\ session T' w' name f (hfs_base s') cur' l.
Proof.
  revert T w s cur rest np. induction n as [|n IH]; intros T w s cur rest np Hn Hfuel Hse Hpos HM; [lia|]. cbn [scan_rids].
  destruct (scanNext_session fuel np T w name f s cur l M rest Hfuel Hse Hpos HM) as (r & T1 & w1 & s1 & cur1 & Hr & Hss & _ & Hse1 & Hres).
  run_with (attempt_run _ _ _ _ Hr). rewrite filter_next_match.
  destruct (next_match M rest) as [|[rid rec] rest'].
  - subst r. cbn beta iota. rewrite decide_True by done. by exists T1, w1, s1, cur1.
  - destruct Hres as (-> & HM1 & Hlen & np' & Hp'%located_positioned & Hnp).
    destruct (IH T1 w1 s1 cur1 rest' np') as (T' & w' & s' & cur' & Hr' & Hss' & Hse'); [lia|lia|done..|].
    cbn beta iota. run_with Hr'. exists T', w', s', cur'. split; [done|]. split; [by eapply step_same_trans|done].
Qed.

Lemma startScan_ok w s offset length type flt op :
  scan_parm_ok offset length type flt ->
  exists s', HeapFileScan_startScan offset length type flt op (w, s) = Some (Ok tt, (w, s')) /\
    hfs_base s' = hfs_base s /\ forall r, matchRec s' r = selects offset length type flt op r.
Proof.
  intros Hp. unfold HeapFileScan_startScan. destruct flt as [flt|]; [|by eexists].
  destruct Hp as [?|(H1 & H2 & H3 & H4)]; [done|]. rewrite decide_False; [by eexists|].
  unfold sizeof_int, sizeof_float. intros [?|[?|[[HI ?]|[HF ?]]]]; [lia|lia|by apply H3 in HI|by apply H4 in HF].
Qed.

(** ** Inserting *)

(** Records that fit on a page. *)
Definition rec_fits (r : Record) : Prop := r <> [] /\ Z.of_nat (length r) + sizeof_slot <= PAGESIZE - DPFIXED.

(** Several insertions in a row: those that succeeded are in the file. *)
Lemma insert_all_ok recs T w name f h l1 cur c :
  session T w name f h cur (l1 ++ [(cur, c)]) -> Forall rec_fits recs ->
  exists r T' w' h' l1' cur' c' rids, insert_all recs (w, h) = Some (r, (w', h')) /\
    session T' w' name f h' cur' (l1' ++ [(cur', c')]) /\ kept 0 [name] w w' /\
    heap_recs (l1' ++ [(cur', c')]) ≡ₚ zip rids recs ++ heap_recs (l1 ++ [(cur, c)]) /\
    (length rids <= length recs)%nat /\
    match r with Ok rids' => rids' = rids /\ length rids = length recs | Err _ => True end.
Proof.
  revert T w h l1 cur c. induction recs as [|rec recs IH]; intros T w h l1 cur c Hse Hfit; cbn [insert_all].
  { exists (Ok []), T, w, h, l1, cur, c, []. do 2 (split; [done|]). split; [by apply kept_refl|]. done. }
  apply Forall_cons_iff in Hfit as [[Hne Hlen] Hfit].
  destruct (insertRecord_session T w name f h l1 cur c rec Hse Hne Hlen) as ([rid|e] & T1 & w1 & h1 & Hr1 & Hres).
  2: { destruct Hres as [Hse1 Hso1]. run_with Hr1. exists (Err e), T1, w1, h1, l1, cur, c, [].
       split; [done|]. split; [done|]. split; [by eapply (kept_other _ _ _ _ _ _ _ _ Hse)|]. split; [done|]. cbn. split; [lia|done]. }
  destruct Hres as (l1' & cur' & c' & Hse1 & Hso1 & Hp1 & _). run_with Hr1.
  destruct (IH T1 w1 h1 l1' cur' c' Hse1 Hfit) as (r & T2 & w2 & h2 & l2 & cur2 & c2 & rids & Hr2 & Hse2 & Hk2 & Hp2 & Hl2 & Hres2).
  assert (kept 0 [name] w w2) as Hk by (eapply kept_trans; [by eapply (kept_other _ _ _ _ _ _ _ _ Hse)|exact Hk2|lia]).
  assert (heap_recs (l2 ++ [(cur2, c2)]) ≡ₚ zip (rid :: rids) (rec :: recs) ++ heap_recs (l1 ++ [(cur, c)])) as Hp.
  { cbn. rewrite Hp2, Hp1. symmetry. apply Permutation_middle. }
  destruct r as [rids'|e].
  - destruct Hres2 as [-> Hl]. run_with Hr2. exists (Ok (rid :: rids)), T2, w2, h2, l2, cur2, c2, (rid :: rids).
    do 4 (split; [done|]). cbn. split; [lia|]. split; [done|lia].
  - run_with Hr2. exists (Err e), T2, w2, h2, l2, cur2, c2, (rid :: rids).
    do 4 (split; [done|]). cbn. split; [lia|done].
Qed.

End Sessions.

(** ** Whole sessions *)

Section Whole.
Implicit Types (T : gset (Z * Z)) (w : World) (k j : Z) (l : list hpage) (name : string).

Lemma insert_file_run k j T w name l recs :
  ready k j T w -> heap_at T w name l -> 1 <= k -> 1 <= j -> Forall rec_fits recs ->
  exists r w' l' rids, insert_file name recs w = Some (r, w') /\ finished T w name l' w' /\
    heap_recs l' ≡ₚ zip rids recs ++ heap_recs l /\ (length rids <= length recs)%nat /\
    match r with Ok rids' => rids' = rids /\ length rids = length recs | Err _ => True end.
Proof.
  intros Hrd Hat Hk Hj Hfit.
  destruct (InsertFileScan_new_ok k j T w name l Hrd Hat Hk Hj) as (f & h & w1 & T1 & l1 & cur & c & R1 & -> & Hse & Hn1).
  destruct (insert_all_ok recs T1 w1 name f h l1 cur c Hse Hfit) as
    (r & T2 & w2 & h2 & l2 & cur2 & c2 & rids & R2 & Hse2 & Hkept & Hp & Hlen & Hr).
  destruct (InsertFileScan_delete_ok _ _ _ _ _ _ _ _ _ Hse2) as (w3 & h3 & R3 & Hend).
  exists r, w3, (l2 ++ [(cur2, c2)]), rids. split; [|split; [|done]].
  - unfold insert_file. run_with R1. rewrite decide_False by (intros Hx; by apply Hx). run_with (call_run _ h w1 _ _ _ R2).
    run_with (call_run _ h2 w2 _ _ _ R3). done.
  - eapply session_finished; [exact Hse2|exact Hend|]. eapply kept_trans; [by apply (kept_weaken 1 1 [])|exact Hkept|lia].
Qed.

(** A new scan is before the first record. *)
Lemma HeapFileScan_new_ok k j T w name l :
  ready k j T w -> heap_at T w name l -> 1 <= k -> 1 <= j ->
  exists f s w' np, HeapFileScan_new name w = Some (Ok (OK, s), w') /\ (np < length l)%nat /\
    session (O := clients w k) T (base_of w) T w' name f (hfs_base s) (next_no l) l /\
    (forall s', hfs_base s' = hfs_base s -> positioned (O := clients w k) T w' f l (hfs_base s') (heap_recs l) np) /\
    sc_filter s = None /\ kept 1 [] w w'.
Proof.
  intros Hrd Hat Hk Hj.
  destruct (HeapFile_new_ok k j T w name l Hrd Hat Hk Hj) as (f & h & w1 & R1 & Hse & Hrec & _ & _ & Hnp).
  set (s0 := mkHeapFileScan h None None None None None None None).
  assert (l <> []) as Hne.
  { eapply heap_ok_ne; [apply (se_heap _ _ _ _ _ _ _ _ _ Hse)|]. intros m p Hp. by apply (wlog_bounds T w1 f m p (se_world Hse)). }
  destruct l as [|[n0 c0] l0]; [done|]. exists f, s0, w1, (length l0). split; [unfold HeapFileScan_new; run_with R1; done|].
  split; [cbn; lia|]. split; [done|]. split; [|done]. intros s' ->. exists [], n0, c0, l0, 0%nat, NULLRID.
  split; [done|]. split; [apply Hse|]. split; [done|]. split; [done|]. split; [lia|]. by rewrite drop_0.
Qed.

Lemma scan_file_run (n fuel : nat) k j T w name l offset length type flt op M :
  ready k j T w -> heap_at T w name l -> 1 <= k -> 1 <= j -> scan_parm_ok offset length type flt ->
  (forall rid r, (rid, r) ∈ heap_recs l -> selects offset length type flt op r = Some (M r)) ->
  (List.length (heap_recs l) < n)%nat -> (List.length (heap_recs l) + List.length l <= fuel)%nat ->
  exists w', scan_file n fuel name offset length type flt op w =
      Some (Ok (List.filter (fun x => M x.2) (heap_recs l)).*1, w') /\ finished T w name l w'.
Proof.
  intros Hrd Hat Hk Hj Hparm HM Hn Hfuel.
  destruct (HeapFileScan_new_ok k j T w name l Hrd Hat Hk Hj) as (f & s0 & w1 & np & R1 & Hlt & Hse & Hpos & _ & Hnp).
  destruct (startScan_ok w1 s0 offset length type flt op Hparm) as (s1 & R2 & Hbase & Hmatch).
  destruct (scan_rids_ok (O := clients w k) (T0 := T) (b := base_of w) n fuel np T w1 name f s1 (next_no l) l M (heap_recs l)) as (T2 & w2 & s2 & cur2 & R3 & Hss & Hse2);
    [done|lia|by rewrite Hbase|by apply Hpos|by intros rid r Hin; rewrite Hmatch; apply (HM rid)|].
  destruct (HeapFileScan_delete_ok _ _ _ _ _ _ _ _ _ Hse2) as (w3 & s3 & R4 & _ & Hend).
  exists w3. split.
  - unfold scan_file. run_with R1. rewrite decide_False by (intros Hx; by apply Hx). run_with (call_run _ s0 w1 _ _ _ R2). step.
    run_with (call_run _ s1 w1 _ _ _ R3). run_with (call_run _ s2 w2 _ _ _ R4). done.
  - eapply session_finished; [exact Hse2|exact Hend|].
    eapply kept_then_same; [exact (se_world Hse)|exact Hss|]. by apply (kept_weaken 1 1 []).
Qed.

End Whole.
