(* ===== verification/Crew.v ===== *)
(** * Several objects at once

    A scan and an insertion, or the three objects of a join, are open at the
    same time and take turns.  Each object [adds] its pins, its reference to
    the file and its changed pages to what was there before; objects on
    different files commute, so that each of them can be taken for the last
    one that was opened. *)

From S2P Require Export HeapSession.

Record Obj : Set := mkObj { o_name : string; o_file : Z; o_heap : HeapFile; o_cur : Z }.

(** The pages an object has pinned. *)
Definition own (x : Obj) (g m : Z) : Z := if decide ((g, m) ∈ ({[(o_file x, hdr_no); (o_file x, o_cur x)]} : gset (Z * Z))) then 1 else 0.

(** [name] is open as [f] in [b], with [n] references besides that of the
    object; they were there in [b0]. *)
Definition opens (b0 b : Base) (name : string) (f n : Z) : Prop :=
  (n = 0 /\ b_open b0 !! name = None /\ b_files b0 !! f = None /\ (forall m, b_pin b0 f m = 0) /\
     b_open b = <[name := f]> (b_open b0) /\ b_nfd b = S (b_nfd b0) /\ exists fd, b_files b = <[f := mkFile name 1 fd]> (b_files b0)) \/
  (0 < n /\ b_open b0 !! name = Some f /\ b_open b = b_open b0 /\ b_nfd b = b_nfd b0 /\
     exists fd, b_files b0 !! f = Some (mkFile name n fd) /\ b_files b = <[f := mkFile name (n + 1) fd]> (b_files b0)).

(** The object [x] between [b0] and [b], where there was room for [k]
    objects. *)
Record adds (k : Z) (T0 : gset (Z * Z)) (b0 : Base) (T : gset (Z * Z)) (b : Base) (x : Obj) : Prop := {
  ad_name : o_name x <> ""%string;
  ad_live : live_in T0 (b_files b0);
  ad_sub : T0 ⊆ T;
  ad_T : forall g m, (g, m) ∈ T -> g = o_file x \/ (g, m) ∈ T0;
  ad_clean : forall m, (o_file x, m) ∉ T0;
  ad_frm : forall g m, 0 < b_pin b0 g m -> b_frm b g m = b_frm b0 g m;
  ad_fix : b_dir b = b_dir b0 /\ b_max b = b_max b0 /\ b_num b = b_num b0;
  ad_opens : exists n, opens b0 b (o_name x) (o_file x) n;
  ad_hdr : filePtr (o_heap x) = Some (o_file x) /\ headerPageNo (o_heap x) = Some hdr_no /\
    (exists i, headerPage (o_heap x) = PFrame i /\ b_frm b (o_file x) hdr_no = Some i) /\
    (exists d, hdrDirtyFlag (o_heap x) = Some d /\ ((o_file x, hdr_no) ∈ T -> d = true));
  ad_cur : curPageNo (o_heap x) = Some (o_cur x) /\
    (exists i, curPage (o_heap x) = PFrame i /\ b_frm b (o_file x) (o_cur x) = Some i) /\
    (exists d, curDirtyFlag (o_heap x) = Some d /\ ((o_file x, o_cur x) ∈ T -> d = true));
  ad_quiet : quiet T (o_file x) (Some (o_cur x));
  ad_ne : o_cur x <> hdr_no;
  ad_pins : forall g m, b_pin b g m = b_pin b0 g m + own x g m;
  ad_spare : 1 <= k;
  ad_pos : forall g m, 0 <= b_pin b0 g m;
  ad_small : forall g m, b_pin b0 g m + k < 2 ^ 31 - 1;
  ad_room : frames_for (b_pin b0) (2 * k) (b_num b0);
}.

(** Nothing a client can tell apart. *)
Record alike (b b' : Base) : Prop := {
  al_pin : forall g m, b_pin b' g m = b_pin b g m;
  al_frm : forall g m, 0 < b_pin b g m -> b_frm b' g m = b_frm b g m;
  al_open : b_open b' = b_open b;
  al_files : b_files b' = b_files b;
  al_nfd : b_nfd b' = b_nfd b;
  al_max : b_max b' = b_max b;
  al_num : b_num b' = b_num b;
  al_dir : b_dir b' = b_dir b;
}.

(** The others, as an object sees them that was opened in [b]. *)
Abbreviation at_base b k := (mkClients (b_pin b) (k - 1)).

Section Adds.
Implicit Types (T : gset (Z * Z)) (w : World) (b : Base) (x y : Obj) (k : Z) (l : list hpage).

#[global] Instance alike_preorder : PreOrder alike.
Proof.
  split; [by split|]. intros b1 b2 b3 [A1 A2 A3 A4 A5 A6 A7 A8] [B1 B2 B3 B4 B5 B6 B7 B8]. split; try congruence.
  intros g m Hp. rewrite B2, A2; [done|done|by rewrite A1].
Qed.

Lemma back_alike b w : back_to b w <-> alike b (base_of w).
Proof. split; [intros [H1 H2 H3 H4 H5 H6 H7 H8]|intros [H1 H2 H3 H4 H5 H6 H7 H8]]; by split. Qed.

Lemma own_bounds x g m : 0 <= own x g m <= 1.
Proof. unfold own. case_decide; lia. Qed.

Lemma own_file x g m : g <> o_file x -> own x g m = 0.
Proof. intros Hg. unfold own. rewrite decide_False; [done|]. rewrite elem_of_union, !elem_of_singleton. clear -Hg. naive_solver. Qed.

Lemma own_pages x : own x (o_file x) hdr_no = 1 /\ own x (o_file x) (o_cur x) = 1.
Proof. unfold own. rewrite !decide_True by set_solver. done. Qed.

Lemma adds_alike k T0 b0 T b b' x : adds k T0 b0 T b x -> alike b b' -> adds k T0 b0 T b' x.
Proof.
  intros [H1 H2 H3 H4 H5 H6 (H7 & H8 & H9) [n H10] (H11 & H12 & (i & H13 & H14) & H15) (H16 & (j & H17 & H18) & H19) H20 H21 H22 H23 H24 H25 H26]
    [A1 A2 A3 A4 A5 A6 A7 A8].
  assert (forall g m, own x g m = 1 -> b_frm b' g m = b_frm b g m) as Hfrm by (intros g m Hg; apply A2; rewrite H22, Hg; specialize (H24 g m); lia).
  destruct (own_pages x) as [O1 O2]. split; try done.
  - intros g m Hg. rewrite A2, H6; [done|done|]. rewrite H22. pose proof (own_bounds x g m). lia.
  - by rewrite A8, A6, A7.
  - exists n. unfold opens. by rewrite A3, A4, A5.
  - split; [done|]. split; [done|]. split; [|done]. exists i. by rewrite Hfrm.
  - split; [done|]. split; [|done]. exists j. by rewrite Hfrm.
  - intros g m. by rewrite A1.
Qed.

(** Adding an object is a session. *)
Lemma session_adds k T0 b0 T w x l :
  session (O := at_base b0 k) T0 b0 T w (o_name x) (o_file x) (o_heap x) (o_cur x) l ->
  adds k T0 b0 (T ∪ T0) (base_of w) x /\ world_ok (T ∪ T0) w /\ heap_ok (wlog w (o_file x)) l.
Proof.
  intros [[H1 H2 H3 H4 [n [S1 S2 S3 S4 S5 S6 S7]]] [[A1 A2 A3 (d & A4 & A5)] [B1 B2 (d' & B3 & B4)] C1 C2 C3 [D1 D2 D3 D4]] Hok].
  split; [|split; [by eapply world_ok_mono; [|exact H1]; set_solver|done]]. cbn [cl_pins cl_spare] in *.
  assert (forall m, (o_file x, m) ∈ T ∪ T0 -> (o_file x, m) ∈ T) as HT by (intros m [?|?]%elem_of_union; [done|by destruct (S6 m)]).
  split; try done; cbn; try lia.
  - set_solver.
  - intros g m [Hg|Hg]%elem_of_union; [by apply S1|by right].
  - by exists n.
  - split; [done|]. split; [done|]. split; [done|]. exists d. auto.
  - split; [done|]. split; [done|]. exists d'. auto.
  - intros m Hm1 Hm2 Hin. by apply (C1 m Hm1 Hm2), HT.
  - intros g m. specialize (D3 g m). lia.
  - rewrite <- S5. by replace (2 * k) with (2 * (k - 1) + 2) by lia.
Qed.

Lemma adds_session k T0 b0 T w x l :
  adds k T0 b0 T (base_of w) x -> world_ok T w -> heap_ok (wlog w (o_file x)) l ->
  session (O := at_base b0 k) T0 b0 T w (o_name x) (o_file x) (o_heap x) (o_cur x) l.
Proof.
  intros [H1 H2 H3 H4 H5 H6 (H7 & H8 & H9) [n H10] (H11 & H12 & H13 & H15) (H16 & H17 & H19) H20 H21 H22 H23 H24 H25 H26] Hw Hok.
  split; [|split; [by split|by split|done|done|done|]|done].
  - split; try done. exists n. by split.
  - cbn in H9. split; cbn [cl_spare cl_pins]; try done; try lia.
    + intros g m. specialize (H25 g m). lia.
    + rewrite H9. by replace (2 * (k - 1) + 2) with (2 * k) by lia.
Qed.

(** Two pages more. *)
Lemma frames_for_own P k bufs x : frames_for P (2 * k) bufs -> frames_for (fun g m => P g m + own x g m) (2 * (k - 1)) bufs.
Proof.
  intros Hr. set (P1 g m := P g m + (if decide ((g, m) = (o_file x, hdr_no)) then 1 else 0)).
  apply (frames_for_one P1 _ _ _ (o_file x) (o_cur x)); [|apply (frames_for_one P P1 _ _ (o_file x) hdr_no); [|by replace (2 * (k - 1) + 1 + 1) with (2 * k) by lia]].
  - intros g m Hne. subst P1. cbn beta. unfold own. f_equal.
    destruct (decide ((g, m) = (o_file x, hdr_no))) as [->|Hn]; [by rewrite decide_True by set_solver|].
    rewrite decide_False; [done|]. by rewrite elem_of_union, !elem_of_singleton; intros [?|?].
  - intros g m Hne. subst P1. cbn beta. rewrite decide_False by done. lia.
Qed.

(** ** Objects on different files commute *)

Lemma opens_file b0 b name f n : opens b0 b name f n -> exists o, b_files b !! f = Some o /\ fileName o = name.
Proof. intros [(_ & _ & _ & _ & _ & _ & fd & ->)|(_ & _ & _ & _ & fd & _ & ->)]; rewrite lookup_insert_eq; by eexists. Qed.

Lemma opens_ne b0 b1 b2 nx fx n1 ny fy n2 : opens b0 b1 nx fx n1 -> opens b1 b2 ny fy n2 -> nx <> ny -> fx <> fy.
Proof.
  intros (o & Ho & Hn)%opens_file H2 Hne ->.
  destruct H2 as [(_ & _ & Hno & _)|(_ & _ & _ & _ & fd & Hf & _)]; [congruence|]. rewrite Ho in Hf. injection Hf as ->. by apply Hne.
Qed.

Lemma opens_swap b0 b1 b2 nx fx n1 ny fy n2 pin frm mx num dir :
  opens b0 b1 nx fx n1 -> opens b1 b2 ny fy n2 -> nx <> ny -> fx <> fy ->
  (forall m, 0 <= b_pin b0 fy m <= b_pin b1 fy m) -> (forall m, b_pin b0 fx m = 0 -> pin fx m = 0) ->
  exists op fs nfd, let b := mkBase pin frm op fs nfd mx num dir in opens b0 b ny fy n2 /\ opens b b2 nx fx n1.
Proof.
  intros H1 H2 Hne Hf Hp Hpx.
  destruct H1 as [(E1 & E2 & E3 & E4 & E5 & E6 & fd & E7)|(E1 & E2 & E5 & E6 & fd & E3 & E7)],
    H2 as [(F1 & F2 & F3 & F4 & F5 & F6 & fd' & F7)|(F1 & F2 & F5 & F6 & fd' & F3 & F7)];
    rewrite E7 in F3; rewrite E5 in F2; rewrite E5 in F5; rewrite E6 in F6; rewrite E7 in F7; rewrite lookup_insert_ne in F3 by done;
    rewrite ?(lookup_insert_ne (b_open b0)) in F2 by done.
  - exists (<[ny := fy]> (b_open b0)), (<[fy := mkFile ny 1 fd']> (b_files b0)), (S (b_nfd b0)). split; left.
    + split; [done|]. split; [done|]. split; [done|]. split; [intros m; specialize (F4 m); specialize (Hp m); lia|]. split; [done|]. split; [done|]. by exists fd'.
    + cbn. split; [done|]. rewrite !lookup_insert_ne by done. split; [done|]. split; [done|]. split; [intros m; by apply Hpx|].
      split; [rewrite F5; by apply insert_insert_ne|]. split; [done|]. exists fd. rewrite F7. by apply insert_insert_ne.
  - exists (b_open b0), (<[fy := mkFile ny (n2 + 1) fd']> (b_files b0)), (b_nfd b0). split; [right|left].
    + split; [done|]. split; [done|]. split; [done|]. split; [done|]. by exists fd'.
    + cbn. split; [done|]. split; [done|]. rewrite lookup_insert_ne by done. split; [done|]. split; [intros m; by apply Hpx|].
      split; [done|]. split; [done|]. exists fd. rewrite F7. by apply insert_insert_ne.
  - exists (<[ny := fy]> (b_open b0)), (<[fy := mkFile ny 1 fd']> (b_files b0)), (S (b_nfd b0)). split; [left|right].
    + split; [done|]. split; [done|]. split; [done|]. split; [intros m; specialize (F4 m); specialize (Hp m); lia|]. split; [done|]. split; [done|]. by exists fd'.
    + cbn. split; [done|]. rewrite !lookup_insert_ne by done. split; [done|]. split; [done|]. split; [done|]. exists fd. split; [done|].
      rewrite F7. by apply insert_insert_ne.
  - exists (b_open b0), (<[fy := mkFile ny (n2 + 1) fd']> (b_files b0)), (b_nfd b0). split; right.
    + split; [done|]. split; [done|]. split; [done|]. split; [done|]. by exists fd'.
    + cbn. split; [done|]. split; [done|]. split; [done|]. split; [done|]. exists fd. rewrite lookup_insert_ne by done. split; [done|].
      rewrite F7. by apply insert_insert_ne.
Qed.

Lemma adds_file_ne k k' T0 b0 T1 b1 T2 b2 x y :
  adds k T0 b0 T1 b1 x -> adds k' T1 b1 T2 b2 y -> o_name x <> o_name y -> o_file x <> o_file y.
Proof. intros Hx Hy Hne. destruct (ad_opens _ _ _ _ _ _ Hx) as [n Hn], (ad_opens _ _ _ _ _ _ Hy) as [n' Hn']. by eapply opens_ne. Qed.

Lemma adds_swap k T0 b0 T1 b1 T2 b2 x y :
  adds k T0 b0 T1 b1 x -> adds (k - 1) T1 b1 T2 b2 y -> o_name x <> o_name y ->
  exists T1' b1', adds k T0 b0 T1' b1' y /\ adds (k - 1) T1' b1' T2 b2 x.
Proof.
  intros Hx Hy Hne. pose proof (adds_file_ne _ _ _ _ _ _ _ _ _ _ Hx Hy Hne) as Hf.
  destruct Hx as [H1 H2 H3 H4 H5 H6 (H7 & H8 & H9) [n H10] (H11 & H12 & (i & H13 & H14) & (d & H15 & H15')) (H16 & (j & H17 & H18) & (d' & H19 & H19')) H20 H21 H22 H23 H24 H25 H26].
  destruct Hy as [G1 G2 G3 G4 G5 G6 (G7 & G8 & G9) [n' G10] G11 G16 G20 G21 G22 G23 G24 G25 G26].
  set (pin g m := b_pin b0 g m + own y g m). set (T1' := filter (fun z => z.1 <> o_file x) T2).
  assert (forall g m, (g, m) ∈ T1' <-> g <> o_file x /\ (g, m) ∈ T2) as HT1 by (intros g m; unfold T1'; by rewrite elem_of_filter).
  assert (forall g m, (g, m) ∈ T2 -> g = o_file x -> (g, m) ∈ T1) as HTx by (intros g m Hin ->; by destruct (G4 _ _ Hin) as [?|?]).
  assert (forall g m, (g, m) ∈ T2 -> g <> o_file x -> g = o_file y \/ (g, m) ∈ T0) as HTy.
  { intros g m Hin Hg. destruct (G4 _ _ Hin) as [?|Hin']; [by left|]. destruct (H4 _ _ Hin') as [?|?]; [done|by right]. }
  assert (forall g m, b_pin b0 g m <= b_pin b1 g m) as Hle by (intros g m; rewrite H22; pose proof (own_bounds x g m); lia).
  destruct (opens_swap b0 b1 b2 _ _ n _ _ n' pin (b_frm b2) (b_max b0) (b_num b0) (b_dir b0) H10 G10 Hne Hf) as (op & fs & nfd & O1 & O2).
  { intros m. split; [apply H24|apply Hle]. } { intros m Hm. unfold pin. rewrite Hm. by apply own_file. }
  destruct (own_pages x) as [P1 P2].
  assert (forall m, own x (o_file x) m = 1 -> b_frm b2 (o_file x) m = b_frm b1 (o_file x) m) as Hfx.
  { intros m Hm. apply G6. rewrite H22, Hm. specialize (H24 (o_file x) m). lia. }
  set (b := mkBase pin (b_frm b2) op fs nfd (b_max b0) (b_num b0) (b_dir b0)) in *.
  exists T1', b. split.
  - split; try done.
    + intros [g m] Hin. apply HT1. split; [intros ->; by apply (H5 m)|]. by apply G3, H3.
    + intros g m [Hg Hin]%HT1. by apply HTy.
    + intros m Hin. apply (G5 m). by apply H3.
    + intros g m Hg. cbn. rewrite G6, H6; [done|done|]. specialize (Hle g m). lia.
    + by exists n'.
    + destruct G11 as (? & ? & ? & dd & ? & Hdd). split; [done|]. split; [done|]. split; [done|]. exists dd. split; [done|]. intros [_ Hin]%HT1. auto.
    + destruct G16 as (? & ? & dd & ? & Hdd). split; [done|]. split; [done|]. exists dd. split; [done|]. intros [_ Hin]%HT1. auto.
    + intros m Hm1 Hm2 [_ Hin]%HT1. by apply (G20 m).
  - split; try done.
    + intros g m [Hg Hin]%HT1. destruct (opens_file _ _ _ _ _ O1) as (o & Ho & _).
      destruct (decide (g = o_file y)) as [->|Hgy]; [by exists o|]. destruct (HTy g m Hin Hg) as [?|Hin0]; [done|].
      destruct (H2 g m Hin0) as [o' Ho']. exists o'. rewrite <- Ho'.
      destruct O1 as [(_ & _ & _ & _ & _ & _ & fd & ->)|(_ & _ & _ & _ & fd & _ & ->)]; by apply lookup_insert_ne.
    + intros [g m] [_ Hin]%HT1. done.
    + intros g m Hin. destruct (decide (g = o_file x)) as [->|Hg]; [by left|right]. by apply HT1.
    + intros m [Hx _]%HT1. done.
    + cbn. by rewrite G7, G8, G9, H7, H8, H9.
    + by exists n.
    + split; [done|]. split; [done|]. split; [exists i; by rewrite Hfx|]. exists d. split; [done|]. intros Hin. by apply H15', HTx.
    + split; [done|]. split; [exists j; by rewrite Hfx|]. exists d'. split; [done|]. intros Hin. by apply H19', HTx.
    + intros m Hm1 Hm2 Hin. apply (H20 m Hm1 Hm2). by apply HTx.
    + intros g m. rewrite G22, H22. unfold b, pin. cbn. lia.
    + intros g m. cbn. unfold pin. pose proof (own_bounds y g m). specialize (H24 g m). lia.
    + intros g m. cbn. unfold pin. pose proof (own_bounds y g m). specialize (H25 g m). lia.
    + cbn. by apply frames_for_own.
Qed.

End Adds.

(** ** A crew of objects *)

(** The objects in the order in which they were opened, from [b0] to [b]. *)
Fixpoint crew (k : Z) (T0 : gset (Z * Z)) (b0 : Base) (xs : list Obj) (T : gset (Z * Z)) (b : Base) : Prop :=
  match xs with
  | [] => T = T0 /\ alike b0 b
  | x :: xs => exists T1 b1, adds k T0 b0 T1 b1 x /\ crew (k - 1) T1 b1 xs T b
  end.

(** Room for [k] more objects. *)
Record fit (k : Z) (T : gset (Z * Z)) (b : Base) : Prop := {
  ft_live : live_in T (b_files b);
  ft_pins : forall g m, b_pin b g m + k < 2 ^ 31 - 1;
  ft_room : frames_for (b_pin b) (2 * k) (b_num b);
  ft_cnt : forall f o, b_files b !! f = Some o -> openCnt o + k < 2 ^ 31;
  ft_fds : Z.of_nat (b_nfd b) + k <= b_max b;
}.

Section Crew.
Implicit Types (T : gset (Z * Z)) (w : World) (b : Base) (x y : Obj) (k j : Z) (xs ys : list Obj) (name : string).

Lemma adds_alike_l k T0 b0 b0' T b x : adds k T0 b0' T b x -> alike b0 b0' -> adds k T0 b0 T b x.
Proof.
  intros [H1 H2 H3 H4 H5 H6 (H7 & H8 & H9) [n H10] H11 H16 H20 H21 H22 H23 H24 H25 H26] [A1 A2 A3 A4 A5 A6 A7 A8]. split; try done.
  - by rewrite <- A4.
  - intros g m Hg. rewrite H6 by (by rewrite A1). by apply A2.
  - by rewrite H7, H8, H9.
  - exists n. unfold opens in *. rewrite A3, A4, A5 in H10. destruct H10 as [(E1 & E2 & E3 & E4 & E5)|E]; [left|by right].
    split; [done|]. split; [done|]. split; [done|]. split; [|done]. intros m. by rewrite <- A1.
  - intros g m. by rewrite H22, A1.
  - intros g m. by rewrite <- A1.
  - intros g m. by rewrite <- A1.
  - rewrite <- A7. destruct H26 as (l0 & L1 & L2). exists l0. split; [|done]. intros g m. rewrite <- A1. apply L1.
Qed.

Lemma crew_alike k T0 b0 xs T b b' : crew k T0 b0 xs T b -> alike b b' -> crew k T0 b0 xs T b'.
Proof.
  revert k T0 b0. induction xs as [|x xs IH]; intros k T0 b0.
  - intros [-> Ha] Ha'. split; [done|]. by transitivity b.
  - intros (T1 & b1 & Hx & Hc) Ha. exists T1, b1. split; [done|]. by apply IH.
Qed.

(** The order does not matter. *)
Lemma crew_perm k T0 b0 xs ys T b : xs ≡ₚ ys -> NoDup (o_name <$> xs) -> crew k T0 b0 xs T b -> crew k T0 b0 ys T b.
Proof.
  intros Hp. revert k T0 b0. induction Hp as [|x xs ys Hp IH|x y xs|xs ys zs H1 IH1 H2 IH2]; intros k T0 b0 Hnd; [done|..].
  - intros (T1 & b1 & Hx & Hc). exists T1, b1. split; [done|]. apply IH; [|done]. by apply list.NoDup_cons in Hnd as [_ ?].
  - intros (T1 & b1 & Hy & T2 & b2 & Hx & Hc). destruct (adds_swap _ _ _ _ _ _ _ _ _ Hy Hx) as (T1' & b1' & Hx' & Hy').
    { cbn in Hnd. apply list.NoDup_cons in Hnd as [Hnd _]. intros He. apply Hnd. rewrite He. by left. }
    exists T1', b1'. split; [done|]. by exists T2, b2.
  - intros Hc. apply IH2; [by rewrite <- H1|]. by apply IH1.
Qed.

(** The object opened last. *)
Lemma crew_snoc k T0 b0 xs x T b :
  crew k T0 b0 (xs ++ [x]) T b <-> exists T1 b1, crew k T0 b0 xs T1 b1 /\ adds (k - Z.of_nat (length xs)) T1 b1 T b x.
Proof.
  revert k T0 b0. induction xs as [|y xs IH]; intros k T0 b0; cbn [app crew length]; rewrite ?Z.sub_0_r.
  - split.
    + intros (T1 & b1 & Hx & -> & Ha). exists T0, b0. split; [done|]. by eapply adds_alike.
    + intros (T1 & b1 & (-> & Ha) & Hx). exists T, b. split; [by eapply adds_alike_l|done].
  - split.
    + intros (T1 & b1 & Hy & Hc). apply IH in Hc as (T2 & b2 & Hc & Hx). exists T2, b2. split; [by exists T1, b1|].
      by replace (k - Z.of_nat (S (length xs))) with (k - 1 - Z.of_nat (length xs)) by lia.
    + intros (T2 & b2 & (T1 & b1 & Hy & Hc) & Hx). exists T1, b1. split; [done|]. apply IH. exists T2, b2. split; [done|].
      by replace (k - 1 - Z.of_nat (length xs)) with (k - Z.of_nat (S (length xs))) by lia.
Qed.

(** Any object of the crew can be taken for the last one. *)
Lemma crew_pick k T0 b0 xs x T b :
  crew k T0 b0 xs T b -> NoDup (o_name <$> xs) -> x ∈ xs -> exists ys T1 b1, xs ≡ₚ ys ++ [x] /\ crew k T0 b0 ys T1 b1 /\
    adds (k - Z.of_nat (length ys)) T1 b1 T b x.
Proof.
  intros Hc Hnd (ys & zs & ->)%list_elem_of_split. exists (ys ++ zs). assert (ys ++ x :: zs ≡ₚ (ys ++ zs) ++ [x]) as Hp by (by rewrite <- app_assoc, (Permutation_app_comm zs [x])).
  eapply crew_perm in Hc; [|exact Hp|done]. apply crew_snoc in Hc as (T1 & b1 & Hc & Hx). by exists T1, b1.
Qed.

Lemma crew_open k T0 b0 xs x T b :
  crew k T0 b0 xs T b -> NoDup (o_name <$> xs) -> x ∈ xs ->
  b_open b !! o_name x = Some (o_file x) /\ exists o, b_files b !! o_file x = Some o /\ fileName o = o_name x.
Proof.
  intros Hc Hnd Hin. destruct (crew_pick _ _ _ _ _ _ _ Hc Hnd Hin) as (ys & T1 & b1 & _ & _ & Hx).
  destruct (ad_opens _ _ _ _ _ _ Hx) as [n Ho]. split; [|by eapply opens_file].
  destruct Ho as [(_ & _ & _ & _ & -> & _)|(_ & Ho & -> & _)]; [apply lookup_insert_eq|done].
Qed.

Lemma crew_file_ne k T0 b0 xs x y T b :
  crew k T0 b0 xs T b -> NoDup (o_name <$> xs) -> x ∈ xs -> y ∈ xs -> o_name x <> o_name y -> o_file x <> o_file y.
Proof.
  intros Hc Hnd Hx Hy Hne Hf. destruct (crew_open _ _ _ _ _ _ _ Hc Hnd Hx) as (_ & o & Ho & Hn).
  destruct (crew_open _ _ _ _ _ _ _ Hc Hnd Hy) as (_ & o' & Ho' & Hn'). rewrite Hf in Ho. congruence.
Qed.

Lemma crew_other k T0 b0 xs T b name : crew k T0 b0 xs T b -> name ∉ o_name <$> xs -> b_open b !! name = b_open b0 !! name.
Proof.
  revert k T0 b0. induction xs as [|x xs IH]; intros k T0 b0.
  - intros [_ Ha] _. by rewrite (al_open _ _ Ha).
  - intros (T1 & b1 & Hx & Hc) Hn. cbn in Hn. apply not_elem_of_cons in Hn as [Hn1 Hn2]. rewrite (IH _ _ _ Hc Hn2).
    destruct (ad_opens _ _ _ _ _ _ Hx) as [n [(_ & _ & _ & _ & -> & _)|(_ & _ & -> & _)]]; [by apply lookup_insert_ne|done].
Qed.

Lemma crew_T k T0 b0 xs T b g m : crew k T0 b0 xs T b -> (g, m) ∈ T -> (exists x, x ∈ xs /\ g = o_file x) \/ (g, m) ∈ T0.
Proof.
  revert k T0 b0. induction xs as [|x xs IH]; intros k T0 b0.
  - intros [-> _]. by right.
  - intros (T1 & b1 & Hx & Hc) Hin. destruct (IH _ _ _ Hc Hin) as [(y & Hy & ->)|Hin1]; [left; exists y; split; [by right|done]|].
    destruct (ad_T _ _ _ _ _ _ Hx _ _ Hin1) as [->|?]; [left; exists x; split; [by left|done]|by right].
Qed.

(** Every object takes the room of one. *)
Lemma fit_adds k T0 b0 T b x : fit k T0 b0 -> adds k T0 b0 T b x -> fit (k - 1) T b.
Proof.
  intros [F1 F2 F3 F4 F5] Hx. destruct Hx as [H1 H2 H3 H4 H5 H6 (H7 & H8 & H9) [n H10] H11 H16 H20 H21 H22 H23 H24 H25 H26].
  destruct (opens_file _ _ _ _ _ H10) as (o & Ho & _). split.
  - intros g m Hin. destruct (decide (g = o_file x)) as [->|Hg]; [by exists o|]. destruct (H4 g m Hin) as [?|Hin0]; [done|].
    destruct (H2 g m Hin0) as [o' Ho']. exists o'. rewrite <- Ho'.
    destruct H10 as [(_ & _ & _ & _ & _ & _ & fd & ->)|(_ & _ & _ & _ & fd & _ & ->)]; by apply lookup_insert_ne.
  - intros g m. rewrite H22. pose proof (own_bounds x g m). specialize (H25 g m). lia.
  - rewrite H9. destruct (frames_for_own _ _ _ x F3) as (l0 & L1 & L2). exists l0. split; [|done]. intros g m. rewrite H22. apply L1.
  - specialize (H25 0 0). specialize (H24 0 0). destruct H10 as [(_ & _ & _ & _ & _ & _ & fd & ->)|(_ & _ & _ & _ & fd & Hf & ->)];
      intros g o' [[<- <-]|[_ Ho']]%lookup_insert_Some; cbn; try (specialize (F4 _ _ Ho'); lia); [lia|]. specialize (F4 _ _ Hf). cbn in F4. lia.
  - rewrite H8. destruct H10 as [(_ & _ & _ & _ & _ & -> & _)|(_ & _ & _ & -> & _)]; lia.
Qed.

Lemma crew_fit k T0 b0 xs T b : fit k T0 b0 -> crew k T0 b0 xs T b -> fit (k - Z.of_nat (length xs)) T b.
Proof.
  revert k T0 b0. induction xs as [|x xs IH]; intros k T0 b0 Hf.
  - intros [-> [A1 A2 A3 A4 A5 A6 A7 A8]]. cbn. rewrite Z.sub_0_r. destruct Hf as [F1 F2 F3 F4 F5]. split; rewrite ?A4, ?A5, ?A6, ?A7; try done.
    + intros g m. by rewrite A1.
    + destruct F3 as (l0 & L1 & L2). exists l0. split; [|done]. intros g m. rewrite A1. apply L1.
  - intros (T1 & b1 & Hx & Hc). replace (k - Z.of_nat (length (x :: xs))) with (k - 1 - Z.of_nat (length xs)) by (cbn; lia).
    eapply IH; [|exact Hc]. by eapply fit_adds.
Qed.

Lemma ready_fit k j T w : ready k j T w <-> world_ok T w /\ fit k T (base_of w) /\ nextPtr (w_disk w) + 64 * j <= 2 ^ 62.
Proof. split; [intros [R1 R2 R3 R4 R5 R6 R7]; split; [done|]; split; [by split|done]|intros (H1 & [F1 F2 F3 F4 F5] & H2); by split]. Qed.

End Crew.

(** ** The crew in the world *)

Section Aboard.
Context (k : Z) (T0 : gset (Z * Z)) (w0 : World).
Implicit Types (T : gset (Z * Z)) (w : World) (x y : Obj) (l : list hpage) (xs ys : list (Obj * list hpage)) (name : string) (names : list string) (j c : Z).

Definition names_of xs : list string := o_name <$> xs.*1.

(** The objects [xs], each with the chain of its file, are open in [w], where
    nothing else was opened since [w0]; only files of [names] were changed
    and at most [c] objects made. *)
Record aboard (c : Z) names xs T w : Prop := {
  ab_world : world_ok T w;
  ab_crew : crew k T0 (base_of w0) xs.*1 T (base_of w);
  ab_names : NoDup (names_of xs);
  ab_heap : forall x l, (x, l) ∈ xs -> heap_ok (wlog w (o_file x)) l;
  ab_kept : kept c names w0 w;
}.

Lemma aboard_perm c names xs ys T w : xs ≡ₚ ys -> aboard c names xs T w -> aboard c names ys T w.
Proof.
  intros Hp Ha. destruct Ha as [A1 A2 A3 A4 A5]. split; [done| | | |done].
  - eapply crew_perm; [|exact A3|exact A2]. by rewrite Hp.
  - unfold names_of. by rewrite <- Hp.
  - intros x l. rewrite <- Hp. apply A4.
Qed.

Lemma aboard_names c names names' xs T w : aboard c names xs T w -> Forall (fun nm => nm ∈ names') names -> aboard c names' xs T w.
Proof. intros [A1 A2 A3 A4 A5] Hsub. split; [done..|]. by eapply kept_weaken. Qed.

Lemma aboard_nil T w : w = w0 -> T = T0 -> world_ok T w -> aboard 0 [] [] T w.
Proof.
  intros -> -> Hw. split; [done|by split|apply base.NoDup_nil_2| |by apply kept_refl]. by intros x l ?%not_elem_of_nil.
Qed.

(** Every object names its file. *)
Lemma aboard_page c names xs T w x l m : aboard c names xs T w -> (x, l) ∈ xs -> named_page w (o_name x) m = wlog w (o_file x) m.
Proof.
  intros Ha Hin. apply named_open. destruct (crew_open _ _ _ _ x _ _ (ab_crew _ _ _ _ _ Ha) (ab_names _ _ _ _ _ Ha)) as [Ho _]; [|exact Ho].
  by apply (list_elem_of_fmap_2 fst _ (x, l)).
Qed.

Lemma aboard_ready c names xs T w j j' :
  aboard c names xs T w -> ready k j T0 w0 -> j' + c <= j -> ready (k - Z.of_nat (length xs)) j' T w.
Proof.
  intros Ha (_ & Hf & Hp)%ready_fit Hj. apply ready_fit. split; [apply Ha|]. split.
  - rewrite <- (length_fmap fst xs). eapply crew_fit; [exact Hf|apply Ha].
  - pose proof (kp_ptr _ _ _ _ (ab_kept _ _ _ _ _ Ha)). lia.
Qed.

(** A file that is not among them is as it was. *)
Lemma aboard_heap c names xs T w name l :
  aboard c names xs T w -> heap_at T0 w0 name l -> name ∉ names_of xs -> name ∉ names -> heap_at T w name l.
Proof.
  intros Ha [N1 N2 N3] Hx Hn. split; [done| |].
  - eapply heap_ok_ext; [|exact N2]. intros m _. by apply (kp_named _ _ _ _ (ab_kept _ _ _ _ _ Ha)).
  - intros f n Hf Hin. pose proof (ab_crew _ _ _ _ _ Ha) as Hc.
    pose proof (crew_other _ _ _ _ _ _ _ Hc Hx) as Hop. cbn in Hop. rewrite Hf in Hop.
    destruct (crew_T _ _ _ _ _ _ _ _ Hc Hin) as [(x & Hxin & ->)|Hin0]; [|by apply (N3 f n)].
    destruct (crew_open _ _ _ _ _ _ _ Hc (ab_names _ _ _ _ _ Ha) Hxin) as (_ & o & Ho & Hname).
    destruct (wo_tab _ _ (ab_world _ _ _ _ _ Ha) name _ Hf) as (o' & Ho' & Hn'). cbn in Ho. rewrite Ho in Ho'. injection Ho' as <-.
    apply Hx. rewrite <- Hn', Hname. by apply list_elem_of_fmap_2.
Qed.

(** Opening one more. *)
Lemma aboard_push c names xs T w T' w' x l :
  aboard c names xs T w -> o_name x ∉ names_of xs ->
  session (O := clients w (k - Z.of_nat (length xs))) T (base_of w) T' w' (o_name x) (o_file x) (o_heap x) (o_cur x) l ->
  kept 1 [] w w' -> aboard (c + 1) names (xs ++ [(x, l)]) (T' ∪ T) w'.
Proof.
  intros Ha Hn Hse Hk. destruct (session_adds (k - Z.of_nat (length xs)) T (base_of w) T' w' x l Hse) as (Hx & Hw' & Hok).
  assert (crew k T0 (base_of w0) (xs ++ [(x, l)]).*1 (T' ∪ T) (base_of w')) as Hc.
  { rewrite fmap_app. apply crew_snoc. exists T, (base_of w). split; [apply Ha|]. by rewrite length_fmap. }
  assert (NoDup (names_of (xs ++ [(x, l)]))) as Hnd.
  { unfold names_of. rewrite !fmap_app. apply list.NoDup_app. split; [apply Ha|]. split; [|apply list.NoDup_singleton].
    intros nm Hin ->%list_elem_of_singleton. done. }
  split; [done|done|done| |].
  - intros y ly [Hin|[= -> ->]%list_elem_of_singleton]%elem_of_app; [|done]. eapply heap_ok_ext; [|by eapply (ab_heap _ _ _ _ _ Ha)].
    intros m _. rewrite <- (aboard_page _ _ _ _ _ _ _ _ Ha Hin). symmetry. rewrite <- (kp_named _ _ _ _ Hk) by apply not_elem_of_nil. apply named_open.
    eapply (crew_open _ _ _ _ _ _ _ Hc); [exact Hnd|]. rewrite fmap_app. apply elem_of_app. left. by apply (list_elem_of_fmap_2 fst _ (y, ly)).
  - eapply kept_trans; [apply Ha|eapply (kept_weaken 1 1 []); [exact Hk|lia|constructor]|lia].
Qed.

(** The object opened last takes a step, or is deleted. *)
Record on_top (c : Z) names xs x l T w T1 b1 : Prop := {
  tp_session : session (O := at_base b1 (k - Z.of_nat (length xs))) T1 b1 T w (o_name x) (o_file x) (o_heap x) (o_cur x) l;
  tp_step : forall T' w' h' cur' l',
    session (O := at_base b1 (k - Z.of_nat (length xs))) T1 b1 T' w' (o_name x) (o_file x) h' cur' l' ->
    step_other (O := at_base b1 (k - Z.of_nat (length xs))) w (o_file x) w' -> kept 0 names w w' ->
    exists T'', aboard c names (xs ++ [(mkObj (o_name x) (o_file x) h' cur', l')]) T'' w';
  tp_end : forall w', ended_to T1 b1 w w' -> aboard c names xs T1 w' /\ heap_at T1 w' (o_name x) l;
}.

Lemma aboard_top c names xs x l T w : aboard c names (xs ++ [(x, l)]) T w -> exists T1 b1, on_top c names xs x l T w T1 b1.
Proof.
  intros Ha. pose proof (ab_crew _ _ _ _ _ Ha) as Hc. rewrite fmap_app in Hc. apply crew_snoc in Hc as (T1 & b1 & Hc & Hx).
  rewrite length_fmap in Hx. cbn [fst] in Hx. assert ((x, l) ∈ xs ++ [(x, l)]) as Hxin by (apply elem_of_app; right; by left).
  pose proof (ab_names _ _ _ _ _ Ha) as Hnd. unfold names_of in Hnd. rewrite !fmap_app in Hnd.
  apply list.NoDup_app in Hnd as (Hnd & Hdj & _). assert (forall y ly, (y, ly) ∈ xs -> o_name y <> o_name x) as Hne.
  { intros y ly Hin Heq. apply (Hdj (o_name y)); [by apply list_elem_of_fmap_2, (list_elem_of_fmap_2 fst _ (y, ly))|]. rewrite Heq. by left. }
  exists T1, b1. split.
  - eapply adds_session; [exact Hx|apply Ha|]. by apply (ab_heap _ _ _ _ _ Ha).
  - intros T' w' h' cur' l' Hse Hso Hk. set (x' := mkObj (o_name x) (o_file x) h' cur').
    destruct (session_adds (k - Z.of_nat (length xs)) T1 b1 T' w' x' l' Hse) as (Hx' & Hw' & Hok). exists (T' ∪ T1). split; [done| | | |].
    + rewrite fmap_app. apply crew_snoc. exists T1, b1. by rewrite length_fmap.
    + unfold names_of. rewrite !fmap_app. pose proof (ab_names _ _ _ _ _ Ha) as Hnd'. unfold names_of in Hnd'. by rewrite !fmap_app in Hnd'.
    + intros y ly [Hin|[= -> ->]%list_elem_of_singleton]%elem_of_app; [|done].
      assert ((y, ly) ∈ xs ++ [(x, l)]) as Hyin by (apply elem_of_app; by left).
      eapply heap_ok_ext; [|by eapply (ab_heap _ _ _ _ _ Ha)]. intros m _. apply (so_log _ _ _ Hso).
      apply (crew_file_ne _ _ _ _ y x _ _ (ab_crew _ _ _ _ _ Ha) (ab_names _ _ _ _ _ Ha));
        [by apply (list_elem_of_fmap_2 fst _ (y, ly))|by apply (list_elem_of_fmap_2 fst _ (x, l))|by eapply Hne].
    + eapply kept_trans; [apply Ha|exact Hk|lia].
  - intros w' [E1 E2 E3 E4]. pose proof (proj1 (back_alike _ _) E2) as Hal. pose proof (crew_alike _ _ _ _ _ _ _ Hc Hal) as Hc'. split.
    + split; [done|done|done| |].
      * intros y ly Hin. assert ((y, ly) ∈ xs ++ [(x, l)]) as Hyin by (apply elem_of_app; by left).
        eapply heap_ok_ext; [|by eapply (ab_heap _ _ _ _ _ Ha)]. intros m _. rewrite <- (aboard_page _ _ _ _ _ _ _ _ Ha Hyin), <- E3. symmetry.
        apply named_open. apply (crew_open _ _ _ _ _ _ _ Hc' Hnd). by apply (list_elem_of_fmap_2 fst _ (y, ly)).
      * pose proof (ab_kept _ _ _ _ _ Ha) as [K1 K2]. split; [|by rewrite E4]. intros nm m Hnm. rewrite E3. by apply K1.
    + split; [apply Hx| |].
      * eapply heap_ok_ext; [|by eapply (ab_heap _ _ _ _ _ Ha)]. intros m _. rewrite E3. by apply (aboard_page _ _ _ _ _ _ l _ Ha).
      * intros g m Hg. destruct (ad_opens _ _ _ _ _ _ Hx) as [n Ho]. rewrite (bt_open _ _ E2) in Hg.
        destruct Ho as [(_ & Hno & _)|(_ & Hno & _)]; [congruence|]. assert (g = o_file x) as -> by congruence. apply (ad_clean _ _ _ _ _ _ Hx).
Qed.

(** When everybody is gone. *)
Lemma aboard_over c names T w : aboard c names [] T w -> T = T0 /\ world_ok T0 w /\ restored w0 w /\ kept c names w0 w.
Proof. intros [A1 [-> A2] _ _ A5]. split; [done|]. split; [done|]. split; [|done]. apply back_restored. by apply back_alike. Qed.

End Aboard.
