(* ===== verification/HeapFileProps.v ===== *)
(** * Properties of heap files

    Scans are complete and exact, and insertion and scan agree. *)

From S2P Require Export HeapSession.

(** ** A small database with one heap file *)

Definition heap_world0 : World := mkWorld (mkDisk demo_unix ∅ 4096) (BufMgr_new 8) OpenFileHashTbl_new.

Lemma heap_world0_ok : world_ok ∅ heap_world0.
Proof.
  assert (unix_ok demo_unix) as Hu by (split; try done; by vm_compute).
  assert (disk_ok (mkDisk demo_unix ∅ 4096)) as Hd by (by apply disk_ok_intro).
  split; try done.
  - apply OpenFileHashTbl_new_ok.
  - apply BufMgr_new_ok; [done|lia].
Qed.

Definition heap_world : option World :=
  '(r, w) ← createHeapFile "r" heap_world0;
  match r with Ok _ => Some w | Err _ => None end.

(** An empty pool has room for as many pages as it has frames. *)
Lemma room_empty w k : bh_map (hashTable (w_mgr w)) = ∅ -> k <= numBufs (w_mgr w) -> room k w.
Proof.
  intros Hm Hk. exists []. split; [|cbn; lia]. intros g m Hg. unfold wpin, pins, frame_of in Hg.
  by rewrite Hm, lookup_empty in Hg.
Qed.

(** Facts of a concrete state that the sessions need. *)
Definition idle (w : World) : bool :=
  bool_decide (bh_map (hashTable (w_mgr w)) = ∅ /\ files (w_disk w) = ∅ /\ numBufs (w_mgr w) = 8 /\
    Z.of_nat (size (u_fds (unix (w_disk w)))) + 4 <= u_maxFds (unix (w_disk w)) /\ nextPtr (w_disk w) <= 2 ^ 61).

Lemma idle_ready w k : idle w = true -> world_ok ∅ w -> k <= 4 -> ready k 8 ∅ w.
Proof.
  intros (H1 & H2 & H3 & H4 & H5)%bool_decide_eq_true_1 Hw Hk. split; [done|by intros g n ?%not_elem_of_empty|..].
  - intros g m. unfold wpin, pins, frame_of. rewrite H1, lookup_empty. cbn. lia.
  - apply room_empty; [done|lia].
  - intros f o Ho. by rewrite H2 in Ho.
  - lia.
  - lia.
Qed.

(** The chain of a concrete file, page by page. *)
Fixpoint heap_walk (fuel : nat) (pg : Z -> option block) (n : Z) : option (list hpage) :=
  if decide (n = -1) then Some []
  else match fuel with
       | O => None
       | S fuel => p ← pg n; nx ← getNextPage p; l ← heap_walk fuel pg nx; Some ((n, contents p) :: l)
       end.

Definition heap_contents (pg : Z -> option block) : option (list hpage) :=
  if pg (-1) then None else p ← pg hdr_no; n ← rd32 off_first p; heap_walk 16 pg n.

Lemma heap_contents_ok pg l l' : heap_ok pg l -> heap_contents pg = Some l' -> l' = l.
Proof.
  intros [(p & Hp & Hfst & _) _ Hch]. unfold heap_contents. destruct (pg (-1)) eqn:Hneg; [done|]. rewrite Hp. cbn [mbind option_bind]. rewrite Hfst. cbn [mbind option_bind].
  clear Hfst. generalize 16%nat as fuel. intros fuel. revert l l' Hch. induction fuel as [|fuel IH]; intros l l' Hch; cbn [heap_walk].
  - case_decide as Hn; [|done]. intros [= <-]. destruct l as [|[n c] l]; [done|]. destruct Hch as [(q & Hq & _) _]. cbn in Hn. congruence.
  - case_decide as Hn.
    + intros [= <-]. destruct l as [|[n c] l]; [done|]. destruct Hch as [(q & Hq & _) _]. cbn in Hn. congruence.
    + destruct l as [|[n c] l]; [done|]. destruct Hch as [(q & Hq & _ & <- & Hnx & _) Hch]. cbn [next_no]. rewrite Hq. cbn [mbind option_bind].
      rewrite Hnx. cbn [mbind option_bind]. intros (l1 & Hl1 & [= <-])%bind_Some. by rewrite (IH l l1 Hch Hl1).
Qed.

Lemma heap_world_ok : exists w n, heap_world = Some w /\ ready 1 8 ∅ w /\ heap_at ∅ w "r" [(n, [])].
Proof.
  pose proof (idle_ready heap_world0 1 ltac:(by vm_compute) heap_world0_ok ltac:(lia)) as Hrd.
  destruct (createHeapFile_run 1 8 ∅ heap_world0 "r" Hrd) as (r & w & Hr & Hres); [lia|lia|done|by vm_compute..|].
  assert (idle <$> heap_world = Some true) as Hi by (vm_compute; reflexivity).
  unfold heap_world in Hi. rewrite Hr in Hi. cbn [mbind option_bind] in Hi. destruct r as [[]|e]; [|done].
  destruct Hres as [C1 C2 [n C3] _ _ _]. exists w, n. apply (inj Some) in Hi.
  split; [unfold heap_world; by rewrite Hr|]. split; [by apply idle_ready; [..|lia]|]. split; [done|exact C3|].
  intros f m _. apply not_elem_of_empty.
Qed.

(** ** Properties *)

(** C1.  A scan is complete and exact: over a heap file with the records
    [heap_recs l], open, [startScan], [scanNext] until [FILEEOF] and the
    destructor return the identifiers of exactly the records that satisfy the
    predicate, in file order, each once.  It needs two frames of the pool, the
    file may be open already, and afterwards pins, open files, this file and
    all others are as they were. *)
Theorem scan_file_complete (n fuel : nat) T w name l offset length type flt op M :
  ready 1 1 T w -> heap_at T w name l -> scan_parm_ok offset length type flt ->
  (forall rid r, (rid, r) ∈ heap_recs l -> selects offset length type flt op r = Some (M r)) ->
  (List.length (heap_recs l) < n)%nat -> (List.length (heap_recs l) + List.length l <= fuel)%nat ->
  exists w', scan_file n fuel name offset length type flt op w =
      Some (Ok (List.filter (fun x => M x.2) (heap_recs l)).*1, w') /\ world_ok T w' /\ restored w w' /\
    heap_at T w' name l /\ forall nm n, nm <> name -> named_page w' nm n = named_page w nm n.
Proof.
  intros Hrd Hat Hparm HM Hn Hf.
  destruct (scan_file_run n fuel 1 1 T w name l offset length type flt op M Hrd Hat) as (w' & Hr & [F1 F2 F3 F4 _ _]); try done.
  by exists w'.
Qed.

(** Two records in the file of [heap_world]. *)
Definition two_recs : list Record := [[x01; x02; x03]; [x04; x05]].

Lemma two_recs_fit : Forall rec_fits two_recs.
Proof. repeat constructor; by vm_compute. Qed.

Definition heap_world2 : option (list RID * World) :=
  w ← heap_world; '(r, w) ← insert_file "r" two_recs w;
  match r with Ok rids => Some (rids, w) | Err _ => None end.

Lemma heap_world2_ok : exists w l rids, heap_world2 = Some (rids, w) /\ ready 1 7 ∅ w /\
  heap_at ∅ w "r" l /\ heap_recs l ≡ₚ zip rids two_recs /\ length rids = 2%nat.
Proof.
  destruct heap_world_ok as (w & n0 & Hw & Hrd & Hat).
  destruct (insert_file_run 1 8 ∅ w "r" _ two_recs Hrd Hat ltac:(lia) ltac:(lia) two_recs_fit) as (r & w1 & l' & rids & Hr & Hfin & Hp & Hl & Hres).
  assert (heap_world2 <> None) as Hi by (intros H; vm_compute in H; discriminate H).
  unfold heap_world2 in Hi |- *. rewrite Hw in Hi |- *. cbn [mbind option_bind] in Hi |- *. rewrite Hr in Hi |- *.
  cbn [mbind option_bind] in Hi |- *. destruct r as [rids'|e]; [|by destruct Hi]. destruct Hres as [-> Hlen].
  exists w1, l', rids. cbn in Hp. rewrite app_nil_r in Hp.
  split; [done|]. split; [by eapply finished_ready|]. split; [apply Hfin|]. exact (conj Hp Hlen).
Qed.

Lemma two_recs_in l rids (rid : RID) (r : Record) : heap_recs l ≡ₚ zip rids two_recs -> (rid, r) ∈ heap_recs l -> r ∈ two_recs.
Proof. intros Hp Hin. rewrite Hp in Hin. by apply elem_of_zip_r in Hin. Qed.

Definition demo_test (r : Record) : bool := bool_decide (head r = Some x04).

Lemma demo_parm : scan_parm_ok 0 1 STRING (Some [x04; x00]).
Proof. by right. Qed.

Lemma demo_selects (r : Record) : r ∈ two_recs -> selects 0 1 STRING (Some [x04; x00]) EQ r = Some (demo_test r).
Proof. intros [->|[->|?%not_elem_of_nil]%elem_of_cons]%elem_of_cons; [vm_compute; reflexivity..|done]. Qed.

Lemma scan_file_complete_witness :
  exists w rids n fuel out w', heap_world2 = Some (rids, w) /\
    scan_file n fuel "r" 0 1 STRING (Some [x04; x00]) EQ w = Some (Ok out, w').
Proof.
  destruct heap_world2_ok as (w & l & rids & Hw & Hrd & Hat & Hp & Hlen).
  destruct (scan_file_complete (S (length (heap_recs l))) (length (heap_recs l) + length l) ∅ w "r" l 0 1 STRING
    (Some [x04; x00]) EQ demo_test (ready_le 1 1 1 7 _ _ ltac:(lia) ltac:(lia) Hrd) Hat demo_parm
    (fun rid r Hin => demo_selects r (two_recs_in l rids rid r Hp Hin)) (Nat.lt_succ_diag_r _) (Nat.le_refl _)) as (w' & Hr & _).
  eexists w, rids, _, _, _, w'. exact (conj Hw Hr).
Defined.

Lemma recs_at_nodup n j c : NoDup (recs_at n j c).*1.
Proof.
  revert j. induction c as [|[r|] c IH]; intros j; cbn; [apply base.NoDup_nil_2| |apply IH]. apply list.NoDup_cons. split; [|apply IH].
  intros Hin. assert (forall i c, mkRID n (Z.of_nat j) ∈ (recs_at n i c).*1 -> (i <= j)%nat) as Hle.
  { clear. intros i c. revert i. induction c as [|[r|] c IH]; intros i; cbn; [by intros ?%not_elem_of_nil| |].
    - intros [Heq|Hin%IH]%elem_of_cons; [injection Heq; lia|lia].
    - intros Hin%IH. lia. }
  apply Hle in Hin. lia.
Qed.

Lemma heap_rids_nodup l : NoDup l.*1 -> NoDup (heap_recs l).*1.
Proof.
  induction l as [|[n c] l IH]; [intros; apply base.NoDup_nil_2|]. cbn. intros [Hn Hnd]%list.NoDup_cons. rewrite fmap_app.
  apply list.NoDup_app. split; [apply recs_at_nodup|]. split; [|by apply IH]. intros rid H1%recs_at_rid H2%heap_recs_page. congruence.
Qed.

(** C2.  Insertion and scan agree: after records were inserted and the object
    deleted, an unfiltered scan of the reopened file returns the identifiers
    [insertRecord] handed out and those that were there before, all distinct;
    with enough fuel the scan terminates. *)
Theorem insert_scan_roundtrip T w name l recs rids w1 :
  ready 1 2 T w -> heap_at T w name l -> Forall rec_fits recs -> insert_file name recs w = Some (Ok rids, w1) ->
  exists (N : nat) out, (forall n fuel, (N <= n)%nat -> (N <= fuel)%nat ->
      exists w2, scan_file n fuel name 0 0 STRING None EQ w1 = Some (Ok out, w2)) /\
    out ≡ₚ rids ++ (heap_recs l).*1 /\ NoDup out.
Proof.
  intros Hrd Hat Hfit Hins.
  destruct (insert_file_run 1 2 T w name l recs Hrd Hat ltac:(lia) ltac:(lia) Hfit) as (r & w1' & l' & rids' & Hr & Hfin & Hp & _ & Hres).
  rewrite Hins in Hr. injection Hr as <- <-. destruct Hres as [-> Hlen].
  set (N := S (length (heap_recs l') + length l')). pose proof (fi_heap _ _ _ _ _ Hfin) as Hat1.
  assert (ready 1 1 T w1) as Hrd1 by (by eapply finished_ready).
  exists N, (heap_recs l').*1. split; [|split].
  - intros n fuel Hn Hf. destruct (scan_file_run n fuel 1 1 T w1 name l' 0 0 STRING None EQ (fun _ => true) Hrd1 Hat1) as (w2 & Hr2 & _);
      [lia|lia|by left|done|lia|lia|].
    exists w2. rewrite Hr2. do 4 f_equal. apply filter_all. done.
  - rewrite Hp, fmap_app, fst_zip by lia. done.
  - apply heap_rids_nodup. pose proof (ho_nodup _ _ (ha_heap _ _ _ _ Hat1)) as Hnd.
    by apply list.NoDup_cons in Hnd as [_ Hnd].
Qed.

Lemma insert_scan_roundtrip_witness :
  exists w rids w1 N out, heap_world = Some w /\ insert_file "r" two_recs w = Some (Ok rids, w1) /\
    (forall n fuel, (N <= n)%nat -> (N <= fuel)%nat -> exists w2, scan_file n fuel "r" 0 0 STRING None EQ w1 = Some (Ok out, w2)) /\
    length out = 2%nat.
Proof.
  destruct heap_world_ok as (w & n0 & Hw & Hrd & Hat). destruct heap_world2_ok as (w1 & l & rids & Hw2 & _ & _ & _ & Hlen).
  assert (insert_file "r" two_recs w = Some (Ok rids, w1)) as Hins.
  { unfold heap_world2 in Hw2. rewrite Hw in Hw2. cbn [mbind option_bind] in Hw2.
    destruct (insert_file "r" two_recs w) as [[[rids'|e] w']|]; cbn [mbind option_bind] in Hw2; [|discriminate Hw2..].
    injection Hw2 as Hw2 Hw3. rewrite Hw2, Hw3. reflexivity. }
  destruct (insert_scan_roundtrip ∅ w "r" _ two_recs rids w1 (ready_le 1 1 2 8 _ _ ltac:(lia) ltac:(lia) Hrd) Hat two_recs_fit Hins) as (N & out & Hscan & Hp & _).
  exists w, rids, w1, N, out. split; [exact Hw|]. split; [exact Hins|]. split; [exact Hscan|].
  rewrite Hp, length_app, Hlen. reflexivity.
Defined.
