(* ===== verification/CatView.v ===== *)
(** * The tuples of the catalogs

    The names in catalog tuples, the bytes of a tuple, and the predicate with
    which the catalogs look for the tuples of a relation. *)

From S2P Require Export Catalog HeapSession HeapDelete.

Section Strings.
Implicit Types (a b s t : block) (nm relation : string).

(** [cstring] finds the terminator. *)
Lemma cstring_cons x b : cstring (x :: b) = if decide (x = x00) then Some [] else cons x <$> cstring b.
Proof.
  unfold cstring, is_nul. cbn [first_idx length]. destruct (decide (x = x00)) as [Hx|Hx].
  - rewrite bool_decide_eq_true_2 by done. by rewrite decide_True by lia.
  - rewrite bool_decide_eq_false_2 by done. set (k := first_idx _ b). destruct (decide (k < length b)%nat).
    + by rewrite decide_True by lia.
    + by rewrite decide_False by lia.
Qed.

Lemma cstring_Some b s : cstring b = Some s <-> x00 ∉ s /\ exists t, b = s ++ x00 :: t.
Proof.
  revert s. induction b as [|x b IH]; intros s; [split; [done|]; by intros (_ & t & ?%app_cons_not_nil)|].
  rewrite cstring_cons. case_decide as Hx.
  - subst x. split; [intros [= <-]; split; [by intros ?%not_elem_of_nil|by exists b]|].
    intros (Hs & t & Ht). destruct s as [|y s]; [done|]. injection Ht as <- _. set_solver.
  - split.
    + intros (s' & Hs' & ->)%fmap_Some. apply IH in Hs' as (Hn & t & ->). split; [set_solver|]. by exists t.
    + intros (Hs & t & Ht). destruct s as [|y s]; [by injection Ht as -> _|]. injection Ht as -> Ht.
      rewrite (proj2 (IH s)); [done|]. split; [set_solver|by exists t].
Qed.

(** A name without NUL characters, as the parser makes them. *)
Definition no_nul (nm : string) : Prop := x00 ∉ chars nm.

(** A name that fits into a catalog tuple. *)
Definition name_ok (nm : string) : Prop := no_nul nm /\ (String.length nm < 32)%nat.

(** The array of [MAXNAME] characters that holds it. *)
Definition name_field (nm : string) : block := chars nm ++ replicate (32 - String.length nm) x00.

Lemma length_chars nm : length (chars nm) = String.length nm.
Proof. unfold chars, String.list_byte_of_string. rewrite length_map. induction nm as [|x nm IH]; cbn; [done|]. by rewrite IH. Qed.

Lemma chars_inj nm nm' : chars nm = chars nm' -> nm = nm'.
Proof.
  intros H. rewrite <- (String.string_of_list_byte_of_string nm), <- (String.string_of_list_byte_of_string nm').
  unfold chars in H. by rewrite H.
Qed.

Lemma strncmp_names a b t t' :
  x00 ∉ a -> x00 ∉ b ->
  exists d, strncmp (S (length b)) (a ++ x00 :: t) (b ++ x00 :: t') = Some d /\ -256 < d < 256 /\ (d = 0 <-> a = b).
Proof.
  revert a. induction b as [|y b IH]; intros [|x a] Ha Hb; cbn [app strncmp head tail length mbind option_bind].
  - rewrite !decide_True by done. by exists 0.
  - rewrite decide_False by set_solver. pose proof (byteZ_range x). exists (byteZ x - byteZ x00). split; [done|].
    split; [change (byteZ x00) with 0; lia|]. split; [|done]. intros Hd. assert (x = x00) as -> by (apply byteZ_inj; lia). set_solver.
  - rewrite decide_False by set_solver. pose proof (byteZ_range y). exists (byteZ x00 - byteZ y). split; [done|].
    split; [change (byteZ x00) with 0; lia|]. split; [|done]. intros Hd. assert (y = x00) as -> by (apply byteZ_inj; lia). set_solver.
  - case_decide as Hxy.
    + subst y. rewrite decide_False by set_solver. destruct (IH a) as (d & Hd & Hb' & Hiff); [set_solver..|].
      exists d. split; [exact Hd|]. split; [done|]. rewrite Hiff. split; [by intros ->|by intros [= ->]].
    + pose proof (byteZ_range x). pose proof (byteZ_range y). exists (byteZ x - byteZ y). split; [done|]. split; [lia|].
      split; [|by intros [= ->]]. intros Hd. destruct Hxy. apply byteZ_inj. lia.
Qed.

(** ** The name of a tuple *)

Lemma name_field_split nm : name_ok nm -> exists t, name_field nm = chars nm ++ x00 :: t /\ length t = (31 - String.length nm)%nat.
Proof.
  intros [_ Hlen]. exists (replicate (31 - String.length nm) x00). split; [|by rewrite length_replicate].
  unfold name_field. by replace (32 - String.length nm)%nat with (S (31 - String.length nm)) by lia.
Qed.

Lemma length_name_field nm : name_ok nm -> length (name_field nm) = 32%nat.
Proof. intros [_ Hlen]. unfold name_field. rewrite length_app, length_replicate, length_chars. lia. Qed.

Lemma cstring_name_field nm : name_ok nm -> cstring (name_field nm) = Some (chars nm).
Proof. intros Hok. destruct (name_field_split nm Hok) as (t & -> & _). apply cstring_Some. split; [apply Hok|]. by exists t. Qed.

Lemma cstring_c_str nm : no_nul nm -> cstring (c_str nm) = Some (chars nm).
Proof. intros Hn. apply cstring_Some. split; [done|]. by exists []. Qed.

(** [strcpy] into the array of a tuple. *)
Lemma strcpy_name a src nm :
  name_ok nm -> length a = 32%nat -> cstring src = Some (chars nm) ->
  exists a', strcpy a src = Some a' /\ length a' = 32%nat /\ cstring a' = Some (chars nm).
Proof.
  intros [Hn Hlen] Ha Hsrc. pose proof (length_chars nm) as Hc. unfold strcpy. rewrite Hsrc. cbn [mbind option_bind].
  destruct (wr_is_Some 0 (chars nm ++ [x00]) a) as [a' Ha']; [lia|rewrite length_app; cbn; lia|].
  exists a'. split; [done|]. split; [by rewrite (wr_length _ _ _ _ Ha')|]. apply wr_Some in Ha' as [_ ->].
  apply cstring_Some. split; [done|]. cbn. rewrite <- app_assoc. by eexists.
Qed.

(** [strcmp] of terminated strings. *)
Lemma strcmp_ok a b s t : cstring a = Some s -> cstring b = Some t -> exists d, strcmp a b = Some d /\ (d = 0 <-> s = t).
Proof.
  revert b s t. induction a as [|x a IH]; intros [|y b] s t Ha Hb; try done. rewrite cstring_cons in Ha, Hb. cbn [strcmp].
  destruct (decide (x = y)) as [->|Hxy].
  - destruct (decide (y = x00)) as [->|Hy]; [injection Ha as <-; injection Hb as <-; by exists 0|].
    apply fmap_Some in Ha as (s' & Ha & ->), Hb as (t' & Hb & ->). destruct (IH b s' t' Ha Hb) as (d & Hd & Hiff).
    exists d. split; [done|]. rewrite Hiff. split; [by intros ->|by intros [= ->]].
  - exists (byteZ x - byteZ y). split; [done|]. assert (byteZ x <> byteZ y) as Hne by (by intros ?%byteZ_inj). split; [lia|].
    intros ->. destruct (decide (x = x00)) as [->|], (decide (y = x00)) as [->|]; try done.
    + apply fmap_Some in Hb as (t' & _ & ->). by injection Ha.
    + apply fmap_Some in Ha as (s' & _ & ->). by injection Hb.
    + apply fmap_Some in Ha as (s' & _ & ->), Hb as (t' & _ & Heq). by injection Heq as ->.
Qed.

(** [addInfo] clears the rest of the array. *)
Lemma pad_name_ok a nm : name_ok nm -> length a = 32%nat -> cstring a = Some (chars nm) -> pad_name a = Some (name_field nm).
Proof.
  intros [Hn Hlen] Ha Hc. unfold pad_name, strlen. rewrite Hc. cbn [fmap option_fmap option_map mbind option_bind].
  apply cstring_Some in Hc as (_ & t & ->). pose proof (length_chars nm) as Hcl. rewrite length_app in Ha. cbn in Ha.
  unfold zero_from, wr. rewrite length_replicate, length_app, Nat2Z.id. cbn [length].
  rewrite decide_True by lia. rewrite take_app_length, drop_ge by (rewrite length_app; cbn; lia). rewrite app_nil_r.
  unfold name_field. do 3 f_equal. lia.
Qed.

(** The predicate of the scan for the tuples of [relation]. *)
Definition rel_pred (relation : string) (r : Record) : bool :=
  default false (selects 0 (s32 (Z.of_nat (String.length relation) + 1)) STRING (Some (c_str relation)) EQ r).

Lemma rel_pred_ok relation nm (t : block) :
  no_nul relation -> Z.of_nat (String.length relation) + 1 < 2 ^ 31 -> name_ok nm ->
  selects 0 (s32 (Z.of_nat (String.length relation) + 1)) STRING (Some (c_str relation)) EQ (name_field nm ++ t) =
    Some (bool_decide (nm = relation)).
Proof.
  intros Hr Hlen Hnm. rewrite s32_id by lia. cbn [selects]. unfold match_attr. rewrite s32_id by lia.
  pose proof (length_chars relation) as Hcr. pose proof (length_name_field nm Hnm) as Hln. case_decide as Hbig.
  { rewrite bool_decide_eq_false_2; [done|]. intros ->. destruct Hnm. rewrite length_app in Hbig. lia. }
  unfold attr_diff. rewrite drop_0. replace (Z.to_nat (Z.of_nat (String.length relation) + 1)) with (S (length (chars relation))) by lia.
  destruct (name_field_split nm Hnm) as (t' & -> & _). rewrite <- app_assoc. cbn [app].
  destruct (strncmp_names (chars nm) (chars relation) (t' ++ t) []) as (d & Hd & Hb & Hiff); [apply Hnm|done|].
  unfold c_str. rewrite Hd. cbn [fmap option_fmap option_map mbind option_bind]. f_equal. unfold op_holds.
  rewrite flt_of_int_sign by (unfold inS; lia). destruct (d ?= 0) eqn:Hcmp.
  - apply Z.compare_eq in Hcmp. rewrite bool_decide_eq_true_2; [done|]. apply chars_inj. by apply Hiff.
  - rewrite bool_decide_eq_false_2; [done|]. intros ->. rewrite (proj2 Hiff eq_refl) in Hcmp. done.
  - rewrite bool_decide_eq_false_2; [done|]. intros ->. rewrite (proj2 Hiff eq_refl) in Hcmp. done.
Qed.

End Strings.

(** ** The bytes of tuples *)

Section Tuples.
Implicit Types (a b v : block) (nm rel : string).

(** A field of a struct. *)
Lemma rd_field a v b off n : Z.of_nat (length a) = off -> Z.of_nat (length v) = n -> rd off n (a ++ v ++ b) = Some v.
Proof.
  intros <- <-. unfold rd. rewrite !length_app, decide_True by lia. rewrite !Nat2Z.id, drop_app_length, take_app_length. done.
Qed.

Lemma rd_field0 v b n : Z.of_nat (length v) = n -> rd 0 n (v ++ b) = Some v.
Proof. intros Hn. by apply (rd_field [] v b 0 n). Qed.

Lemma rd32_field a z b off : Z.of_nat (length a) = off -> inS 32 z -> rd32 off (a ++ int_bytes z ++ b) = Some z.
Proof.
  intros Ha Hz. unfold rd32. rewrite (rd_field a (int_bytes z) b off 4) by (done || by unfold int_bytes; rewrite length_le_enc).
  cbn [fmap option_fmap option_map]. f_equal. unfold int_bytes.
  etransitivity; [apply (wrapS_le_dec_enc 4); lia|]. by apply wrapS_id.
Qed.

Lemma length_int_bytes z : length (int_bytes z) = 4%nat.
Proof. apply length_le_enc. Qed.

Lemma RelDesc_roundtrip r : length (rd_relName r) = 32%nat -> inS 32 (rd_attrCnt r) -> RelDesc_of (RelDesc_bytes r) = Some r.
Proof.
  intros Hl Hc. unfold RelDesc_of, RelDesc_bytes. rewrite length_app, length_int_bytes, decide_True by (rewrite Hl; done).
  rewrite <- (app_nil_r (int_bytes _)), (rd_field0 (rd_relName r) _ MAXNAME) by (done || by rewrite Hl).
  cbn [mbind option_bind]. rewrite (rd32_field (rd_relName r) _ []) by (done || by rewrite Hl). by destruct r.
Qed.

Lemma AttrDesc_roundtrip d :
  length (ad_relName d) = 32%nat -> length (ad_attrName d) = 32%nat ->
  inS 32 (ad_attrOffset d) -> inS 32 (ad_attrType d) -> inS 32 (ad_attrLen d) -> AttrDesc_of (AttrDesc_bytes d) = Some d.
Proof.
  intros H1 H2 H3 H4 H5. unfold AttrDesc_of, AttrDesc_bytes.
  rewrite !length_app, !length_int_bytes, H1, H2, decide_True by done.
  rewrite (rd_field0 (ad_relName d) _ MAXNAME) by (done || by rewrite H1). cbn [mbind option_bind].
  rewrite (rd_field (ad_relName d) (ad_attrName d)) by (by rewrite ?H1, ?H2). cbn [mbind option_bind].
  rewrite (app_assoc (ad_relName d)), (rd32_field (ad_relName d ++ ad_attrName d) _ _ (2 * MAXNAME)) by (done || by rewrite length_app, H1, H2).
  cbn [mbind option_bind]. rewrite (app_assoc (_ ++ _)), (rd32_field ((_ ++ _) ++ _) _ _ (2 * MAXNAME + 4)) by (done || by rewrite !length_app, length_int_bytes, H1, H2).
  cbn [mbind option_bind]. rewrite (app_assoc ((_ ++ _) ++ _)), <- (app_nil_r (int_bytes (ad_attrLen d))).
  rewrite (rd32_field (((_ ++ _) ++ _) ++ _)) by (done || by rewrite !length_app, !length_int_bytes, H1, H2). by destruct d.
Qed.

(** The tuple of a relation with [c] attributes. *)
Definition rel_tuple (nm : string) (c : Z) : RelDesc := mkRelDesc (name_field nm) c.

(** The tuple of attribute [nm] of relation [rel]. *)
Definition attr_tuple (rel nm : string) (off ty len : Z) : AttrDesc := mkAttrDesc (name_field rel) (name_field nm) off ty len.

End Tuples.
