(* ===== verification/CatRel.v ===== *)
(** * The relation catalog

    [RelCatalog] as a finite map from relation names to numbers of attributes:
    [getInfo] is lookup, [addInfo] insertion, [removeInfo] deletion. *)

From S2P Require Export CatView.

(** ** Scans of a catalog *)

Section CatScan.
Implicit Types (T : gset (Z * Z)) (w : World) (k j : Z) (l : list hpage) (cat relation : string).

(** Every record begins with a name. *)
Definition named_recs (l : list hpage) : Prop :=
  forall rid r, (rid, r) ∈ heap_recs l -> exists nm t, name_ok nm /\ r = name_field nm ++ t.

(** A name one can look for. *)
Record key_ok (relation : string) : Prop := {
  key_ne : relation <> ""%string;
  key_nul : no_nul relation;
  key_len : Z.of_nat (String.length relation) + 1 < 2 ^ 31;
}.

Lemma rel_pred_named relation nm (t : block) : key_ok relation -> name_ok nm -> rel_pred relation (name_field nm ++ t) = bool_decide (nm = relation).
Proof. intros [_ Hn Hl] Hnm. unfold rel_pred. by rewrite rel_pred_ok. Qed.

(** The scan for the tuples of a relation stands before the first record. *)
Lemma scan_for_ok k j T w cat l relation :
  ready k j T w -> heap_at T w cat l -> 1 <= k -> 1 <= j -> key_ok relation -> named_recs l ->
  exists f s w1 np, scan_for cat relation w = Some (Ok s, w1) /\ (np < length l)%nat /\
    session (O := clients w k) T (base_of w) T w1 cat f (hfs_base s) (next_no l) l /\
    positioned (O := clients w k) T w1 f l (hfs_base s) (heap_recs l) np /\
    predicate s (rel_pred relation) (heap_recs l) /\ kept 1 [cat] w w1.
Proof.
  intros Hrd Hat Hk Hj Hkey Hnm.
  destruct (HeapFileScan_new_ok k j T w cat l Hrd Hat Hk Hj) as (f & s0 & w1 & np & R1 & Hlt & Hse & Hpos & _ & Hnp).
  destruct (startScan_ok w1 s0 0 (s32 (Z.of_nat (String.length relation) + 1)) STRING (Some (c_str relation)) EQ) as (s1 & R2 & Hbase & Hmatch).
  { right. rewrite s32_id by (destruct Hkey; lia). repeat split; try done; lia. }
  exists f, s1, w1, np. split.
  { unfold scan_for, new_scan. erewrite bind_Ok; [|run_with R1; by rewrite decide_False by (intros Hx; by apply Hx)]. run_with (call_run _ s0 w1 _ _ _ R2). done. }
  split; [done|]. rewrite Hbase. split; [done|]. split; [by apply Hpos|]. split; [|by apply (kept_weaken 1 1 [])].
  intros rid r Hin. rewrite Hmatch. destruct (Hnm rid r Hin) as (nm & t & Hok & ->). destruct Hkey.
  rewrite rel_pred_ok by done. by rewrite rel_pred_named.
Qed.

End CatScan.

Section CatSession.
Context {O : Clients} {T0 : gset (Z * Z)} {b : Base}.
Implicit Types (T : gset (Z * Z)) (w : World) (l : list hpage).

Lemma getRecord_located T w f l s rid rec rest np :
  heap_ok (wlog w f) l -> located (O := O) T w f l (hfs_base s) rid rec rest np ->
  HeapFileScan_getRecord (w, s) = Some (Ok rec, (w, s)).
Proof.
  intros Hok Hloc. destruct (located_record _ _ _ _ _ _ _ _ _ Hok Hloc) as [Hc Hg]. unfold HeapFileScan_getRecord.
  run_with (member_run (fun s => curRec (hfs_base s)) w s rid Hc).
  pose proof (base_run _ w s _ _ _ Hg) as Hb. replace (set_base (hfs_base s) s) with s in Hb by (by destruct s). by run_with Hb.
Qed.

Lemma finish_scan_run T w name f s cur l :
  session (O := O) T0 b T w name f (hfs_base s) cur l ->
  exists w', finish_scan s w = Some (Ok (Ok tt), w') /\ ended_to T0 b w w'.
Proof.
  intros Hse. destruct (finish_scan_ok _ _ _ _ _ _ _ _ _ Hse) as (w1 & s1 & w' & s' & R1 & R2 & Hend). exists w'. split; [|done].
  unfold finish_scan. run_with (call_run _ s w _ _ _ R1). erewrite bind_Ok; [|unfold delete_scan; run_with (call_run _ s1 w1 _ _ _ R2); done]. done.
Qed.

Lemma next_match_Some M rest x rest' : next_match M rest = x :: rest' -> x ∈ rest /\ M x.2 = true.
Proof.
  induction rest as [|[rid r] rest IH]; [done|]. cbn. destruct (M r) eqn:HM; [intros [= <- <-]; split; [by left|done]|].
  intros [??]%IH. split; [by right|done].
Qed.

Lemma next_match_nil M rest : next_match M rest = [] -> forall x, x ∈ rest -> M x.2 = false.
Proof.
  induction rest as [|[rid r] rest IH]; [intros _ x ?%not_elem_of_nil; done|]. cbn. destruct (M r) eqn:HM; [done|].
  intros Hn x [->|Hin]%elem_of_cons; [done|by apply IH].
Qed.

Lemma delete_scan_run T w name f s cur l :
  session (O := O) T0 b T w name f (hfs_base s) cur l ->
  exists w' s', delete_scan s w = Some (Ok s', w') /\ curPage (hfs_base s') = PNull /\ ended_to T0 b w w'.
Proof.
  intros Hse. destruct (HeapFileScan_delete_ok _ _ _ _ _ _ _ _ _ Hse) as (w' & s' & R & Hn & Hend). exists w', s'. split; [|done].
  unfold delete_scan. by run_with (call_run _ s w _ _ _ R).
Qed.

End CatSession.

Section AddTuple.
Implicit Types (T : gset (Z * Z)) (w : World) (k j : Z) (l : list hpage) (cat : string).

(** The life of an [InsertFileScan] that inserts one record: the record is in
    the file, or an error leaves the file as it was. *)
Lemma insert_one_run k j T w name l (rec : Record) :
  ready k j T w -> heap_at T w name l -> 1 <= k -> 1 <= j -> rec_fits rec ->
  exists h w1 r h2 w2 w3 l', InsertFileScan_new name w = Some (Ok (OK, h), w1) /\
    call (InsertFileScan_insertRecord rec) h w1 = Some (Ok (r, h2), w2) /\ delete_ifs h2 w2 = Some (Ok tt, w3) /\
    finished T w name l' w3 /\ match r with Ok rid => heap_recs l' ≡ₚ (rid, rec) :: heap_recs l | Err _ => l' = l end.
Proof.
  intros Hrd Hat Hk Hj [Hne Hlen].
  destruct (InsertFileScan_new_ok k j T w name l Hrd Hat Hk Hj) as (f & h & w1 & T1 & l1 & cur & c & R1 & -> & Hse & Hn1).
  destruct (insertRecord_session T1 w1 name f h l1 cur c rec Hse Hne Hlen) as (r & T2 & w2 & h2 & R2 & Hres).
  assert (exists cur2 l2, session (O := clients w k) T (base_of w) T2 w2 name f h2 cur2 l2 /\ step_other (O := clients w k) w1 f w2 /\
    match r with Ok rid => heap_recs l2 ≡ₚ (rid, rec) :: heap_recs (l1 ++ [(cur, c)]) | Err _ => l2 = l1 ++ [(cur, c)] end) as (cur2 & l2 & Hse2 & Hso & Hr).
  { destruct r as [rid|e].
    - destruct Hres as (l2 & cur2 & c2 & Hse2 & Hso & Hp & _). by exists cur2, (l2 ++ [(cur2, c2)]).
    - destruct Hres as [Hse2 Hso]. by exists cur, (l1 ++ [(cur, c)]). }
  destruct (InsertFileScan_delete_ok _ _ _ _ _ _ _ _ _ Hse2) as (w3 & h3 & R3 & Hend).
  exists h, w1, r, h2, w2, w3, l2. split; [done|]. split; [exact (call_run _ h w1 _ _ _ R2)|].
  split; [unfold delete_ifs; by run_with (call_run _ h2 w2 _ _ _ R3)|]. split; [|done].
  eapply session_finished; [exact Hse2|exact Hend|]. eapply kept_then_other; [exact Hse|exact Hso|by apply (kept_weaken 1 1 [])].
Qed.

(** A tuple is in the catalog, or an error leaves the catalog as it was. *)
Lemma add_tuple_run k j T w cat l (rec : Record) :
  ready k j T w -> heap_at T w cat l -> 1 <= k -> 1 <= j -> rec_fits rec ->
  exists r w' l', add_tuple cat (Some rec) w = Some (r, w') /\ finished T w cat l' w' /\
    match r with Ok _ => (heap_recs l').*2 ≡ₚ rec :: (heap_recs l).*2 | Err _ => l' = l end.
Proof.
  intros Hrd Hat Hk Hj Hfit.
  destruct (insert_one_run k j T w cat l rec Hrd Hat Hk Hj Hfit) as (h & w1 & r & h2 & w2 & w3 & l' & R1 & R2 & R3 & Hfin & Hr).
  assert (add_tuple cat (Some rec) w = Some (match r with Ok _ => Ok tt | Err e => Err e end, w3)) as R.
  { unfold add_tuple. run_with R1. rewrite decide_False by (intros Hx; by apply Hx). step. run_with R2. run_with R3. by destruct r. }
  eexists _, w3, l'. split; [exact R|]. split; [done|]. destruct r; [by rewrite Hr|done].
Qed.

End AddTuple.

(** ** The relation catalog as a map *)

Section RelCat.
Implicit Types (T : gset (Z * Z)) (w : World) (k j : Z) (l : list hpage) (m : gmap string Z) (relation nm : string).

Record rel_state l m : Prop := {
  rs_recs : (heap_recs l).*2 ≡ₚ (fun x => RelDesc_bytes (rel_tuple x.1 x.2)) <$> map_to_list m;
  rs_ok : forall nm c, m !! nm = Some c -> name_ok nm /\ inS 32 c;
}.

Lemma rel_state_in l m rid r :
  rel_state l m -> (rid, r) ∈ heap_recs l -> exists nm c, m !! nm = Some c /\ r = RelDesc_bytes (rel_tuple nm c).
Proof.
  intros [Hr _] Hin. assert (r ∈ (heap_recs l).*2) as Hin2 by (by apply (list_elem_of_fmap_2 snd _ (rid, r))).
  rewrite Hr in Hin2. apply list_elem_of_fmap in Hin2 as ([nm c] & -> & Hin2). exists nm, c. split; [|done].
  by apply elem_of_map_to_list.
Qed.

Lemma rel_state_has l m nm c :
  rel_state l m -> m !! nm = Some c -> exists rid, (rid, RelDesc_bytes (rel_tuple nm c)) ∈ heap_recs l.
Proof.
  intros [Hr _] Hm. assert (RelDesc_bytes (rel_tuple nm c) ∈ (heap_recs l).*2) as Hin.
  { rewrite Hr. apply (list_elem_of_fmap_2 (fun x => RelDesc_bytes (rel_tuple x.1 x.2)) _ (nm, c)). by apply elem_of_map_to_list. }
  apply list_elem_of_fmap in Hin as ([rid r] & -> & Hin). by exists rid.
Qed.

Lemma rel_state_named l m : rel_state l m -> named_recs l.
Proof.
  intros Hs rid r Hin. destruct (rel_state_in _ _ _ _ Hs Hin) as (nm & c & Hm & ->). exists nm, (int_bytes c).
  split; [by apply (rs_ok _ _ Hs nm c)|done].
Qed.

Lemma rel_pred_tuple l m relation nm c :
  rel_state l m -> key_ok relation -> m !! nm = Some c -> rel_pred relation (RelDesc_bytes (rel_tuple nm c)) = bool_decide (nm = relation).
Proof. intros Hs Hkey Hm. apply rel_pred_named; [done|]. by apply (rs_ok _ _ Hs nm c). Qed.

(** What the scan for [relation] finds. *)
Lemma rel_next_match l m relation :
  rel_state l m -> key_ok relation ->
  match next_match (rel_pred relation) (heap_recs l) with
  | [] => m !! relation = None
  | (rid, r) :: _ => exists c, m !! relation = Some c /\ r = RelDesc_bytes (rel_tuple relation c)
  end.
Proof.
  intros Hs Hkey. destruct (next_match _ _) as [|[rid r] rest] eqn:Hnm.
  - destruct (m !! relation) as [c|] eqn:Hm; [|done]. destruct (rel_state_has _ _ _ _ Hs Hm) as [rid Hin].
    pose proof (next_match_nil _ _ Hnm _ Hin) as Hp. cbn [snd] in Hp. rewrite (rel_pred_tuple l m) in Hp by done.
    by apply bool_decide_eq_false_1 in Hp.
  - apply next_match_Some in Hnm as [Hin Hp]. cbn [snd] in Hp. destruct (rel_state_in _ _ _ _ Hs Hin) as (nm & c & Hm & ->).
    rewrite (rel_pred_tuple l m) in Hp by done. apply bool_decide_eq_true_1 in Hp as ->. by exists c.
Qed.

Lemma RelDesc_of_tuple l m nm c : rel_state l m -> m !! nm = Some c -> RelDesc_of (RelDesc_bytes (rel_tuple nm c)) = Some (rel_tuple nm c).
Proof. intros Hs Hm. destruct (rs_ok _ _ Hs nm c Hm). apply RelDesc_roundtrip; [by apply length_name_field|done]. Qed.

(** [RelCatalog::getInfo] *)
Lemma getInfo_run k j T w l m relation fuel :
  ready k j T w -> heap_at T w RELCATNAME l -> rel_state l m -> 1 <= k -> 1 <= j -> key_ok relation ->
  (length (heap_recs l) + length l <= fuel)%nat ->
  exists w', RelCatalog_getInfo fuel relation w =
      Some (match m !! relation with Some c => Ok (rel_tuple relation c) | None => Err RELNOTFOUND end, w') /\
    finished T w RELCATNAME l w'.
Proof.
  intros Hrd Hat Hs Hk Hj Hkey Hfuel.
  destruct (scan_for_ok k j T w RELCATNAME l relation Hrd Hat Hk Hj Hkey (rel_state_named _ _ Hs)) as (f & s & w1 & np & R1 & Hnp & Hse & Hpos & Hpred & Hkept).
  destruct (scanNext_session fuel np T w1 RELCATNAME f s _ l (rel_pred relation) (heap_recs l) ltac:(lia) Hse Hpos Hpred) as (r & T2 & w2 & s2 & cur2 & R2 & Hss & _ & Hse2 & Hres).
  destruct (finish_scan_run _ _ _ _ _ _ _ Hse2) as (w3 & R3 & Hend).
  assert (finished T w RELCATNAME l w3) as Hfin.
  { eapply session_finished; [exact Hse2|exact Hend|]. eapply kept_then_same; [exact (se_world Hse)|exact Hss|exact Hkept]. }
  exists w3. split; [|done]. unfold RelCatalog_getInfo. rewrite decide_False by apply Hkey. run_with R1.
  run_with (call_run _ s w1 _ _ _ R2). pose proof (rel_next_match l m relation Hs Hkey) as Hnm.
  destruct (next_match (rel_pred relation) (heap_recs l)) as [|[rid rec] rest].
  - rewrite Hnm, Hres. run_with R3. done.
  - destruct Hnm as (c & Hm & ->). destruct Hres as (-> & _ & _ & np' & Hloc & _). rewrite Hm.
    pose proof (getRecord_located _ _ _ _ _ _ _ _ _ (se_heap _ _ _ _ _ _ _ _ _ Hse2) Hloc) as R4.
    run_with (call_run _ s2 w2 _ _ _ R4). step. run_with (defined_run _ _ w2 (RelDesc_of_tuple l m relation c Hs Hm)). run_with R3. done.
Qed.

(** [RelCatalog::addInfo] *)
Lemma addInfo_run k j T w l m (record : RelDesc) nm :
  ready k j T w -> heap_at T w RELCATNAME l -> rel_state l m -> 1 <= k -> 1 <= j ->
  name_ok nm -> length (rd_relName record) = 32%nat -> cstring (rd_relName record) = Some (chars nm) -> inS 32 (rd_attrCnt record) ->
  m !! nm = None ->
  exists r w' l', RelCatalog_addInfo record w = Some (r, w') /\ finished T w RELCATNAME l' w' /\
    match r with Ok _ => rel_state l' (<[nm := rd_attrCnt record]> m) | Err _ => l' = l end.
Proof.
  intros Hrd Hat Hs Hk Hj Hnm Hlen Hc Hcnt Hnew. set (c := rd_attrCnt record) in *.
  destruct (add_tuple_run k j T w RELCATNAME l (RelDesc_bytes (rel_tuple nm c)) Hrd Hat Hk Hj) as (r & w' & l' & R & Hfin & Hr).
  { assert (length (RelDesc_bytes (rel_tuple nm c)) = 36%nat) as Hl36.
    { unfold RelDesc_bytes, rel_tuple. cbn [rd_relName rd_attrCnt]. by rewrite length_app, length_int_bytes, length_name_field. }
    split; [intros Hx; by rewrite Hx in Hl36|]. rewrite Hl36. by cbn. }
  exists r, w', l'. split; [|split; [done|]].
  - unfold RelCatalog_addInfo, pad_RelDesc. rewrite (pad_name_ok _ nm) by done. exact R.
  - destruct r as [[]|e]; [|done]. destruct Hs as [H1 H2]. split.
    + by rewrite Hr, map_to_list_insert, H1 by done.
    + intros nm' c' [[<- <-]|[_ Hm]]%lookup_insert_Some; [done|by apply H2].
Qed.

(** The catalog without the tuple of [relation]. *)
Lemma rel_state_delete l l' m relation c (rid : RID) seen rest :
  rel_state l m -> m !! relation = Some c -> heap_recs l = seen ++ (rid, RelDesc_bytes (rel_tuple relation c)) :: rest ->
  heap_recs l' = seen ++ rest -> rel_state l' (delete relation m).
Proof.
  intros [H1 H2] Hm Hl Hl'. split.
  - rewrite Hl' , fmap_app. apply (inj (cons (RelDesc_bytes (rel_tuple relation c)))).
    rewrite <- (map_to_list_delete m relation c Hm) in H1. rewrite fmap_cons in H1. cbn [fst snd] in H1. rewrite <- H1, Hl, fmap_app, fmap_cons.
    apply Permutation_middle.
  - intros nm c' [_ Hm']%lookup_delete_Some. by apply H2.
Qed.

(** [RelCatalog::removeInfo] up to the point where it has deleted its scan
    object; what the call on the deleted object does depends on [freed]. *)
Lemma removeInfo_run k j T w l m relation fuel :
  ready k j T w -> heap_at T w RELCATNAME l -> rel_state l m -> 1 <= k -> 1 <= j -> key_ok relation ->
  (length (heap_recs l) + length l <= fuel)%nat ->
  exists hfs w' l', finished T w RELCATNAME l' w' /\ rel_state l' (delete relation m) /\ curPage (hfs_base hfs) = PNull /\
    forall freed, RelCatalog_removeInfo freed fuel relation w =
      after_delete freed (match m !! relation with Some _ => Ok tt | None => Err RELNOTFOUND end) hfs w'.
Proof.
  intros Hrd Hat Hs Hk Hj Hkey Hfuel.
  destruct (scan_for_ok k j T w RELCATNAME l relation Hrd Hat Hk Hj Hkey (rel_state_named _ _ Hs)) as (f & s & w1 & np & R1 & Hnp & Hse & Hpos & Hpred & Hkept).
  destruct (scanNext_session fuel np T w1 RELCATNAME f s _ l (rel_pred relation) (heap_recs l) ltac:(lia) Hse Hpos Hpred) as (r & T2 & w2 & s2 & cur2 & R2 & Hss & _ & Hse2 & Hres).
  pose proof (kept_then_same _ _ _ _ _ _ _ (se_world Hse) Hss Hkept) as Hkept2.
  pose proof (rel_next_match l m relation Hs Hkey) as Hnm.
  destruct (next_match (rel_pred relation) (heap_recs l)) as [|[rid rec] rest].
  - subst r. destruct (delete_scan_run _ _ _ _ _ _ _ Hse2) as (w' & hfs & R3 & Hnull & Hend). exists hfs, w', l.
    split; [by eapply session_finished|]. split; [by rewrite delete_id|]. split; [done|]. intros freed. rewrite Hnm.
    unfold RelCatalog_removeInfo. rewrite decide_False by apply Hkey. run_with R1. run_with (call_run _ s w1 _ _ _ R2).
    step. rewrite (decide_True (P := FILEEOF = FILEEOF)) by done. run_with R3. done.
  - destruct Hnm as (c & Hm & ->). destruct Hres as (-> & _ & _ & np' & Hloc & _). rewrite Hm.
    destruct (deleteRecord_session T2 w2 RELCATNAME f s2 cur2 l rid _ _ np' Hse2 Hloc) as (T3 & w3 & s3 & R3 & l3 & cur3 & seen & Hse3 & Hso & _ & _ & _ & Hl & Hl3).
    destruct (delete_scan_run _ _ _ _ _ _ _ Hse3) as (w' & hfs & R4 & Hnull & Hend). exists hfs, w', l3.
    split; [eapply session_finished; [done|done|by eapply (kept_then_other _ _ _ _ _ _ _ _ _ _ Hse2)]|]. split; [by eapply rel_state_delete|]. split; [done|].
    intros freed. unfold RelCatalog_removeInfo. rewrite decide_False by apply Hkey. run_with R1. run_with (call_run _ s w1 _ _ _ R2).
    run_with (call_run _ s2 w2 _ _ _ R3). run_with R4. done.
Qed.

(** The call on the deleted object, when its memory still reads as a scan
    without a current page: nothing happens. *)
Lemma after_delete_null freed r hfs s w :
  freed hfs = Some s -> curPage (hfs_base s) = PNull -> r <> Err NORECORDS -> after_delete freed r hfs w = Some (r, w).
Proof.
  intros Hf Hn Hr. unfold after_delete. run_with (defined_run _ _ w Hf).
  assert (HeapFileScan_endScan (w, s) = Some (Ok tt, (w, set_base (hfs_base s) s))) as R by (by apply (base_run endScan), endScan_null).
  run_with (call_run _ s w _ _ _ R). destruct r as [[]|e]; [done|]. rewrite decide_False by congruence. done.
Qed.

End RelCat.
