(* ===== verification/CatAttr.v ===== *)
(** * The attribute catalog

    [AttrCatalog] as a list of attributes in file order: [getInfo] finds the
    first of that name, [getRelInfo] all of a relation, [addInfo] adds one and
    [removeInfo] removes the first of that name. *)

From S2P Require Export CatRel.

(** An attribute of a relation. *)
Record attr : Set := mkAttr { at_rel : string; at_name : string; at_off : Z; at_type : Z; at_len : Z }.

#[export] Instance attr_eq_dec : EqDecision attr.
Proof. solve_decision. Defined.

Definition tuple_of (a : attr) : AttrDesc := attr_tuple (at_rel a) (at_name a) (at_off a) (at_type a) (at_len a).

Record attr_ok (a : attr) : Prop := {
  ao_rel : name_ok (at_rel a);
  ao_name : name_ok (at_name a);
  ao_off : inS 32 (at_off a);
  ao_type : inS 32 (at_type a);
  ao_len : inS 32 (at_len a);
}.

(** ** The loops over a scan *)

Section Loops.
Context {O : Clients} {T0 : gset (Z * Z)} {b : Base}.
Local Abbreviation session := (session (O := O) T0 b).
Local Abbreviation positioned := (positioned (O := O)).
Local Abbreviation located := (located (O := O)).
Local Abbreviation step_same := (step_same (O := O)).
Implicit Types (T : gset (Z * Z)) (w : World) (f cur : Z) (l : list hpage) (name : string) (A : list attr) (rest : list (RID * Record)).

(** The records are the tuples of [A]. *)
Definition tuples rest A : Prop := rest.*2 = (fun a => AttrDesc_bytes (tuple_of a)) <$> A /\ Forall attr_ok A.

Lemma tuple_decode a : attr_ok a -> AttrDesc_of (AttrDesc_bytes (tuple_of a)) = Some (tuple_of a).
Proof. intros []. apply AttrDesc_roundtrip; try done; by apply length_name_field. Qed.

(** The records the scan comes to next. *)
Lemma tuples_match rest A relation :
  tuples rest A -> key_ok relation ->
  match next_match (rel_pred relation) rest with
  | [] => List.filter (fun a => bool_decide (at_rel a = relation)) A = []
  | (rid, rec) :: rest' => exists A1 a A2, A = A1 ++ a :: A2 /\ attr_ok a /\ at_rel a = relation /\
      (forall a', a' ∈ A1 -> at_rel a' <> relation) /\ rec = AttrDesc_bytes (tuple_of a) /\ tuples rest' A2
  end.
Proof.
  intros [Hr Hok] Hkey. revert A Hr Hok. induction rest as [|[rid rec] rest IH]; intros [|a A] Hr Hok; try done.
  rewrite !fmap_cons in Hr. injection Hr as -> Hr. apply Forall_cons_iff in Hok as [Ha Hok]. cbn [next_match].
  assert (rel_pred relation (AttrDesc_bytes (tuple_of a)) = bool_decide (at_rel a = relation)) as ->.
  { apply rel_pred_named; [done|apply Ha]. }
  specialize (IH A Hr Hok). destruct (bool_decide (at_rel a = relation)) eqn:Hb.
  - apply bool_decide_eq_true_1 in Hb. exists [], a, A. do 3 (split; [done|]). split; [by intros a' ?%not_elem_of_nil|]. done.
  - cbn [List.filter]. rewrite Hb. destruct (next_match (rel_pred relation) rest) as [|[rid' rec'] rest']; [done|].
    destruct IH as (A1 & a' & A2 & -> & H1 & H2 & H3 & H4). exists (a :: A1), a', A2. do 3 (split; [done|]).
    split; [|done]. apply bool_decide_eq_false_1 in Hb. intros x [->|Hin]%elem_of_cons; [done|by apply H3].
Qed.

Lemma filter_no_attr relation A1 : (forall a', a' ∈ A1 -> at_rel a' <> relation) -> List.filter (fun a => bool_decide (at_rel a = relation)) A1 = [].
Proof.
  induction A1 as [|a A1 IH]; [done|]. intros H. cbn. rewrite bool_decide_eq_false_2 by (apply H; by left).
  apply IH. intros. apply H. by right.
Qed.

Lemma collect_attrs_run (n fuel np : nat) T w name f s cur l relation rest A :
  (length rest < n)%nat -> (length rest + np < fuel)%nat -> session T w name f (hfs_base s) cur l ->
  positioned T w f l (hfs_base s) rest np -> predicate s (rel_pred relation) rest -> key_ok relation -> tuples rest A ->
  exists T' w' s' cur', collect_attrs n fuel s w =
      Some (Ok (tuple_of <$> List.filter (fun a => bool_decide (at_rel a = relation)) A, FILEEOF, s'), w') /\
    step_same T w T' w' /\ session T' w' name f (hfs_base s') cur' l.
Proof.
  intros Hn Hfuel Hse Hpos HM Hkey HA. revert T w s cur rest np A Hn Hfuel Hse Hpos HM HA.
  induction n as [|n IH]; intros T w s cur rest np A Hn Hfuel Hse Hpos HM HA; [lia|]. cbn [collect_attrs].
  destruct (scanNext_session fuel np T w name f s cur l _ rest Hfuel Hse Hpos HM) as (r & T1 & w1 & s1 & cur1 & Hr & Hss & _ & Hse1 & Hres).
  run_with (call_run _ s w _ _ _ Hr). pose proof (tuples_match rest A relation HA Hkey) as Hm.
  destruct (next_match _ rest) as [|[rid rec] rest'].
  - subst r. rewrite Hm. by exists T1, w1, s1, cur1.
  - destruct Hres as (-> & HM1 & Hlen & np' & Hloc & Hnp). destruct Hm as (A1 & a & A2 & -> & Ha & Hrel & Hno & -> & HA2).
    pose proof (getRecord_located _ _ _ _ _ _ _ _ _ (se_heap _ _ _ _ _ _ _ _ _ Hse1) Hloc) as Hg.
    destruct (IH T1 w1 s1 cur1 rest' np' A2) as (T' & w' & s' & cur' & Hr' & Hss' & Hse'); [lia|lia|done|by eapply located_positioned|done..|].
    exists T', w', s', cur'. split; [|split; [by eapply step_same_trans|done]].
    run_with (call_run _ s1 w1 _ _ _ Hg). step. run_with (defined_run _ _ w1 (tuple_decode a Ha)). run_with Hr'.
    rewrite filter_app, (filter_no_attr relation A1 Hno). cbn. by rewrite bool_decide_eq_true_2.
Qed.

(** The first attribute of that name. *)
Definition is_attr (relation attrName : string) (a : attr) : bool := bool_decide (at_rel a = relation /\ at_name a = attrName).

Lemma find_attr_run (n fuel np : nat) T w name f s cur l relation attrName rest A :
  (length rest < n)%nat -> (length rest + np < fuel)%nat -> session T w name f (hfs_base s) cur l ->
  positioned T w f l (hfs_base s) rest np -> predicate s (rel_pred relation) rest -> key_ok relation -> tuples rest A ->
  exists r T' w' s' cur', find_attr n fuel attrName s w = Some (Ok (r, s'), w') /\
    step_same T w T' w' /\ session T' w' name f (hfs_base s') cur' l /\
    match r with
    | Err st => st = FILEEOF /\ forall a, a ∈ A -> is_attr relation attrName a = false
    | Ok d => exists A1 a A2 rid rest' np', A = A1 ++ a :: A2 /\ is_attr relation attrName a = true /\
        (forall a', a' ∈ A1 -> is_attr relation attrName a' = false) /\ d = tuple_of a /\
        located T' w' f l (hfs_base s') rid (AttrDesc_bytes d) rest' np' /\ tuples rest' A2
    end.
Proof.
  intros Hn Hfuel Hse Hpos HM Hkey HA. revert T w s cur rest np A Hn Hfuel Hse Hpos HM HA.
  induction n as [|n IH]; intros T w s cur rest np A Hn Hfuel Hse Hpos HM HA; [lia|]. cbn [find_attr].
  destruct (scanNext_session fuel np T w name f s cur l _ rest Hfuel Hse Hpos HM) as (r & T1 & w1 & s1 & cur1 & Hr & Hss & _ & Hse1 & Hres).
  run_with (call_run _ s w _ _ _ Hr). pose proof (tuples_match rest A relation HA Hkey) as Hm.
  destruct (next_match _ rest) as [|[rid rec] rest'].
  - subst r. exists (Err FILEEOF), T1, w1, s1, cur1. do 3 (split; [done|]). split; [done|]. intros a Ha. apply bool_decide_eq_false_2.
    intros [Hrel _]. apply (not_elem_of_nil a). rewrite <- Hm. apply list_elem_of_In, filter_In. split; [by apply list_elem_of_In|].
    by apply bool_decide_eq_true_2.
  - destruct Hres as (-> & HM1 & Hlen & np' & Hloc & Hnp). destruct Hm as (A1 & a & A2 & -> & Ha & Hrel & Hno & -> & HA2).
    pose proof (getRecord_located _ _ _ _ _ _ _ _ _ (se_heap _ _ _ _ _ _ _ _ _ Hse1) Hloc) as Hg.
    run_with (call_run _ s1 w1 _ _ _ Hg). step. run_with (defined_run _ _ w1 (tuple_decode a Ha)).
    run_with (defined_run _ _ w1 (cstring_name_field _ (ao_name _ Ha))).
    assert (forall a', a' ∈ A1 -> is_attr relation attrName a' = false) as Hno'.
    { intros a' Ha'. apply bool_decide_eq_false_2. intros [? _]. by apply (Hno a'). }
    case_decide as Hnm.
    + apply chars_inj in Hnm. exists (Ok (tuple_of a)), T1, w1, s1, cur1. do 3 (split; [done|]).
      exists A1, a, A2, rid, rest', np'. split; [done|]. split; [by apply bool_decide_eq_true_2|]. done.
    + destruct (IH T1 w1 s1 cur1 rest' np' A2) as (r & T' & w' & s' & cur' & Hr' & Hss' & Hse' & Hres); [lia|lia|done|by eapply located_positioned|done..|].
      exists r, T', w', s', cur'. split; [done|]. split; [by eapply step_same_trans|]. split; [done|].
      assert (forall a', a' ∈ A1 ++ [a] -> is_attr relation attrName a' = false) as Hno2.
      { intros a' [Ha'|Ha']%elem_of_app; [by apply Hno'|]. apply list_elem_of_singleton in Ha' as ->. apply bool_decide_eq_false_2. intros [_ Heq]. apply Hnm. by rewrite Heq. }
      destruct r as [d|st].
      * destruct Hres as (B1 & a2 & B2 & rid' & rest2 & np2 & -> & H1 & H2 & H3). exists (A1 ++ [a] ++ B1), a2, B2, rid', rest2, np2.
        split; [by rewrite <- !app_assoc|]. split; [done|]. split; [|done]. intros a'. rewrite app_assoc.
        intros [?|?]%elem_of_app; [by apply Hno2|by apply H2].
      * destruct Hres as [-> H1]. split; [done|]. intros a'. rewrite (cons_middle a A1 A2), app_assoc.
        intros [?|?]%elem_of_app; [by apply Hno2|by apply H1].
Qed.

End Loops.

(** ** The operations *)

Section AttrCat.
Implicit Types (T : gset (Z * Z)) (w : World) (k j : Z) (l : list hpage) (A : list attr) (relation attrName : string).

Definition attr_state l A : Prop := tuples (heap_recs l) A.

Lemma attr_state_named l A : attr_state l A -> named_recs l.
Proof.
  intros [Hr Hok] rid r Hin. assert (r ∈ (heap_recs l).*2) as Hin2 by (by apply (list_elem_of_fmap_2 snd _ (rid, r))).
  rewrite Hr in Hin2. apply list_elem_of_fmap in Hin2 as (a & -> & Ha). rewrite list.Forall_forall in Hok.
  eexists (at_rel a), _. split; [apply (Hok a Ha)|reflexivity].
Qed.

Lemma find_split (P : attr -> bool) A1 a A2 : (forall a', a' ∈ A1 -> P a' = false) -> P a = true -> List.find P (A1 ++ a :: A2) = Some a.
Proof.
  intros H1 Ha. induction A1 as [|b A1 IH]; cbn; [by rewrite Ha|]. rewrite H1 by (by left). apply IH. intros. apply H1. by right.
Qed.

Lemma find_none_elem (P : attr -> bool) A : (forall a', a' ∈ A -> P a' = false) -> List.find P A = None.
Proof. induction A as [|b A IH]; intros H; cbn; [done|]. rewrite H by (by left). apply IH. intros. apply H. by right. Qed.

(** [AttrCatalog::getInfo] *)
Lemma attr_getInfo_run k j T w l A relation attrName (n fuel : nat) :
  ready k j T w -> heap_at T w ATTRCATNAME l -> attr_state l A -> 1 <= k -> 1 <= j -> key_ok relation -> attrName <> ""%string ->
  (length (heap_recs l) < n)%nat -> (length (heap_recs l) + length l <= fuel)%nat ->
  exists w', AttrCatalog_getInfo n fuel relation attrName w =
      Some (match List.find (is_attr relation attrName) A with Some a => Ok (tuple_of a) | None => Err ATTRNOTFOUND end, w') /\
    finished T w ATTRCATNAME l w'.
Proof.
  intros Hrd Hat Hs Hk Hj Hkey Hne Hn Hfuel.
  destruct (scan_for_ok k j T w ATTRCATNAME l relation Hrd Hat Hk Hj Hkey (attr_state_named _ _ Hs)) as (f & s & w1 & np & R1 & Hnp & Hse & Hpos & Hpred & Hkept).
  destruct (find_attr_run n fuel np T w1 ATTRCATNAME f s _ l relation attrName (heap_recs l) A Hn ltac:(lia) Hse Hpos Hpred Hkey Hs) as
    (r & T2 & w2 & s2 & cur2 & R2 & Hss & Hse2 & Hres).
  destruct (finish_scan_run _ _ _ _ _ _ _ Hse2) as (w3 & R3 & Hend). exists w3. split.
  - unfold AttrCatalog_getInfo. rewrite decide_False by (destruct Hkey; by intros [?|?]). run_with R1. run_with R2. run_with R3.
    destruct r as [d|st].
    + destruct Hres as (A1 & a & A2 & rid & rest' & np' & -> & H1 & H2 & -> & _). by rewrite find_split.
    + destruct Hres as [-> H1]. by rewrite find_none_elem.
  - eapply session_finished; [exact Hse2|exact Hend|]. eapply kept_then_same; [exact (se_world Hse)|exact Hss|exact Hkept].
Qed.

(** [AttrCatalog::getRelInfo] *)
Lemma getRelInfo_run k j T w l A relation (n fuel : nat) :
  ready k j T w -> heap_at T w ATTRCATNAME l -> attr_state l A -> 1 <= k -> 1 <= j -> key_ok relation ->
  (length (heap_recs l) < n)%nat -> (length (heap_recs l) + length l <= fuel)%nat ->
  exists w', AttrCatalog_getRelInfo n fuel relation w =
      Some (match List.filter (fun a => bool_decide (at_rel a = relation)) A with [] => Err RELNOTFOUND | attrs => Ok (tuple_of <$> attrs) end, w') /\
    finished T w ATTRCATNAME l w'.
Proof.
  intros Hrd Hat Hs Hk Hj Hkey Hn Hfuel.
  destruct (scan_for_ok k j T w ATTRCATNAME l relation Hrd Hat Hk Hj Hkey (attr_state_named _ _ Hs)) as (f & s & w1 & np & R1 & Hnp & Hse & Hpos & Hpred & Hkept).
  destruct (collect_attrs_run n fuel np T w1 ATTRCATNAME f s _ l relation (heap_recs l) A Hn ltac:(lia) Hse Hpos Hpred Hkey Hs) as
    (T2 & w2 & s2 & cur2 & R2 & Hss & Hse2).
  destruct (finish_scan_run _ _ _ _ _ _ _ Hse2) as (w3 & R3 & Hend). exists w3. split.
  - unfold AttrCatalog_getRelInfo. rewrite decide_False by apply Hkey. run_with R1. run_with R2. run_with R3.
    by destruct (List.filter _ A).
  - eapply session_finished; [exact Hse2|exact Hend|]. eapply kept_then_same; [exact (se_world Hse)|exact Hss|exact Hkept].
Qed.

(** [AttrCatalog::addInfo] *)
Lemma attr_addInfo_run k j T w l A (d : AttrDesc) a :
  ready k j T w -> heap_at T w ATTRCATNAME l -> attr_state l A -> 1 <= k -> 1 <= j -> attr_ok a ->
  pad_AttrDesc d = Some (tuple_of a) ->
  exists r w' l' A', AttrCatalog_addInfo d w = Some (r, w') /\ finished T w ATTRCATNAME l' w' /\ attr_state l' A' /\
    match r with Ok _ => A' ≡ₚ a :: A | Err _ => A' = A end.
Proof.
  intros Hrd Hat Hs Hk Hj Ha Hpad.
  destruct (add_tuple_run k j T w ATTRCATNAME l (AttrDesc_bytes (tuple_of a)) Hrd Hat Hk Hj) as (r & w' & l' & R & Hfin & Hr).
  { assert (length (AttrDesc_bytes (tuple_of a)) = 76%nat) as Hl.
    { unfold AttrDesc_bytes, tuple_of, attr_tuple. cbn [ad_relName ad_attrName ad_attrOffset ad_attrType ad_attrLen].
      rewrite !length_app, !length_int_bytes, !length_name_field by apply Ha. done. }
    split; [intros Hx; by rewrite Hx in Hl|]. rewrite Hl. by cbn. }
  assert (AttrCatalog_addInfo d w = Some (r, w')) as R' by (unfold AttrCatalog_addInfo; by rewrite Hpad).
  destruct r as [[]|e]; [|subst l'; exists (Err e), w', l, A; exact (conj R' (conj Hfin (conj Hs eq_refl)))].
  destruct Hs as [H1 H2]. rewrite H1 in Hr.
  destruct (Permutation_map_inv (fun a => AttrDesc_bytes (tuple_of a)) (a :: A) Hr) as (A' & HA' & Hp).
  exists (Ok tt), w', l', A'. split; [done|]. split; [done|]. split; [split; [done|]|done]. rewrite <- Hp. by constructor.
Qed.

(** [AttrCatalog::removeInfo] *)
Lemma attr_removeInfo_run k j T w l A relation attrName (n fuel : nat) :
  ready k j T w -> heap_at T w ATTRCATNAME l -> attr_state l A -> 1 <= k -> 1 <= j -> key_ok relation -> attrName <> ""%string ->
  (length (heap_recs l) < n)%nat -> (length (heap_recs l) + length l <= fuel)%nat ->
  exists r w' l' A', AttrCatalog_removeInfo n fuel relation attrName w = Some (r, w') /\ finished T w ATTRCATNAME l' w' /\
    attr_state l' A' /\ length l' = length l /\
    match r with
    | Ok _ => exists A1 a A2, A = A1 ++ a :: A2 /\ is_attr relation attrName a = true /\
        (forall a', a' ∈ A1 -> is_attr relation attrName a' = false) /\ A' = A1 ++ A2
    | Err st => st = RELNOTFOUND /\ A' = A /\ forall a, a ∈ A -> is_attr relation attrName a = false
    end.
Proof.
  intros Hrd Hat Hs Hk Hj Hkey Hne Hn Hfuel.
  destruct (scan_for_ok k j T w ATTRCATNAME l relation Hrd Hat Hk Hj Hkey (attr_state_named _ _ Hs)) as (f & s & w1 & np & R1 & Hnp & Hse & Hpos & Hpred & Hkept).
  destruct (find_attr_run n fuel np T w1 ATTRCATNAME f s _ l relation attrName (heap_recs l) A Hn ltac:(lia) Hse Hpos Hpred Hkey Hs) as
    (r & T2 & w2 & s2 & cur2 & R2 & Hss & Hse2 & Hres).
  pose proof (kept_then_same _ _ _ _ _ _ _ (se_world Hse) Hss Hkept) as Hkept2.
  unfold AttrCatalog_removeInfo. rewrite decide_False by (destruct Hkey; by intros [?|?]). run_with R1. run_with R2. destruct r as [d|st].
  - destruct Hres as (A1 & a & A2 & rid & rest' & np' & HA & H1 & H2 & -> & Hloc & HA2).
    destruct (deleteRecord_session T2 w2 ATTRCATNAME f s2 cur2 l rid _ _ np' Hse2 Hloc) as (T3 & w3 & s3 & R3 & l3 & cur3 & seen & Hse3 & Hso & _ & Hlen & _ & Hl & Hl3).
    destruct (finish_scan_run _ _ _ _ _ _ _ Hse3) as (w4 & R4 & Hend). exists (Ok tt), w4, l3, (A1 ++ A2). split.
    { run_with (call_run _ s2 w2 _ _ _ R3). run_with R4. done. }
    split. { eapply session_finished; [exact Hse3|exact Hend|]. by eapply (kept_then_other _ _ _ _ _ _ _ _ _ _ Hse2). }
    split; [|split; [done|by exists A1, a, A2]]. destruct Hs as [Hs1 Hs2], HA2 as [HA2 _]. rewrite HA in Hs1, Hs2.
    rewrite Hl, !fmap_app, !fmap_cons in Hs1. split.
    + apply app_inj_2 in Hs1 as [Hs1 _]; [|cbn [length]; by rewrite HA2]. by rewrite Hl3, !fmap_app, Hs1, HA2.
    + apply Forall_app in Hs2 as [? Hs2]. apply Forall_cons_iff in Hs2 as [_ ?]. by apply Forall_app.
  - destruct Hres as [-> H1]. destruct (finish_scan_run _ _ _ _ _ _ _ Hse2) as (w4 & R4 & Hend). exists (Err RELNOTFOUND), w4, l, A.
    split. { step. rewrite (decide_True (P := FILEEOF = FILEEOF)) by done. run_with R4. done. }
    split; [by eapply session_finished|]. done.
Qed.

End AttrCat.
