(* ===== verification/CatCreate.v ===== *)
(** * Creating and destroying relations

    [RelCatalog::createRel]: its guards, and the entries and the heap file it
    makes.  [RelCatalog::destroyRel] undoes them. *)

From S2P Require Export CatAttr.

(** ** The checks of [createRel] *)

Section Checks.
Implicit Types (w : World) (attrs : list attrInfo) (nms : list string) (i k : nat).

(** The names in the attribute list, each terminated within its array. *)
Definition named_attrs attrs nms : Prop := Forall2 (fun a nm => cstring (ai_attrName a) = Some (chars nm)) attrs nms.

Definition sum_len attrs : Z := foldr Z.add 0 (ai_attrLen <$> attrs).

Lemma dup_in_run attrs nms (name : block) nm :
  named_attrs attrs nms -> cstring name = Some (chars nm) -> dup_in name attrs = Some (bool_decide (nm ∈ nms)).
Proof.
  intros Hn Hc. induction Hn as [|a nm' attrs nms Ha Hn IH]; cbn [dup_in]; [done|].
  destruct (strcmp_ok _ _ _ _ Hc Ha) as (d & -> & Hd). cbn [mbind option_bind]. destruct (decide (d = 0)) as [H0|H0].
  - rewrite bool_decide_eq_true_2; [done|]. apply elem_of_cons. left. apply chars_inj. by apply Hd.
  - rewrite IH. f_equal. apply bool_decide_ext. rewrite elem_of_cons. split; [auto|]. intros [->|?]; [|done].
    destruct H0. by apply Hd.
Qed.

Lemma check_attrs_run attrs nms k i tw w :
  named_attrs attrs nms -> (i + k <= length attrs)%nat -> NoDup (take i nms) ->
  check_attrs attrs k i (u32 tw) w =
    Some (if decide (NoDup (take (i + k) nms)) then Ok (u32 (tw + sum_len (take k (drop i attrs)))) else Err DUPLATTR, w).
Proof.
  intros Hn. revert i tw. induction k as [|k IH]; intros i tw Hk Hnd; cbn [check_attrs].
  { rewrite Nat.add_0_r, decide_True by done. cbn. by rewrite Z.add_0_r. }
  destruct (lookup_lt_is_Some_2 attrs i ltac:(lia)) as [a Ha]. destruct (Forall2_lookup_l _ _ _ _ _ Hn Ha) as (nm & Hnm & Hc).
  run_with (defined_run _ _ w Ha).
  pose proof (dup_in_run (take i attrs) (take i nms) (ai_attrName a) nm (Forall2_take _ _ _ i Hn) Hc) as Hdup.
  run_with (defined_run _ _ w Hdup). rewrite (drop_S _ _ _ Ha). cbn [take].
  destruct (bool_decide (nm ∈ take i nms)) eqn:Hb.
  - apply bool_decide_eq_true_1 in Hb. rewrite decide_False; [done|]. intros Hx.
    assert (NoDup (take (S i) nms)) as Hx'.
    { eapply sublist_NoDup; [exact Hx|]. replace (take (S i) nms) with (take (S i) (take (i + S k) nms)) by (rewrite take_take; f_equal; lia). apply sublist_take. }
    rewrite (take_S_r _ _ _ Hnm) in Hx'. apply list.NoDup_app in Hx' as (_ & Hd & _). apply (Hd nm Hb). by left.
  - apply bool_decide_eq_false_1 in Hb.
    assert (u32 (u32 tw + ai_attrLen a) = u32 (tw + ai_attrLen a)) as -> by (unfold wrapU; apply Z.add_mod_idemp_l; lia).
    rewrite IH; [|lia|].
    + replace (S i + k)%nat with (i + S k)%nat by lia. unfold sum_len. rewrite fmap_cons. cbn [foldr].
      case_decide; [|done]. do 3 f_equal. apply f_equal. lia.
    + rewrite (take_S_r _ _ _ Hnm). apply list.NoDup_app. split; [done|]. split; [|apply list.NoDup_singleton].
      by intros x Hx ->%list_elem_of_singleton.
Qed.

End Checks.

(** ** The entries [createRel] makes *)

Section Entries.
Implicit Types (T : gset (Z * Z)) (w : World) (k j off : Z) (l lr la : list hpage) (A : list attr) (attrs : list attrInfo) (nms : list string) (rel : string).

(** The attributes of [rel], the first one at offset [off]. *)
Fixpoint attrs_at rel attrs nms off : list attr :=
  match attrs, nms with
  | a :: attrs, nm :: nms => mkAttr rel nm off (ai_attrType a) (ai_attrLen a) :: attrs_at rel attrs nms (s32 (off + ai_attrLen a))
  | _, _ => []
  end.

(** Type and length are [int]s. *)
Definition int_attrs attrs : Prop := Forall (fun a => inS 32 (ai_attrType a) /\ inS 32 (ai_attrLen a)) attrs.

(** The variable [ad] holds the name of the relation. *)
Definition ad_holds rel (ad : AttrDesc) : Prop :=
  length (ad_relName ad) = 32%nat /\ cstring (ad_relName ad) = Some (chars rel) /\ length (ad_attrName ad) = 32%nat.

Lemma pad_AttrDesc_ok rel nm d :
  name_ok rel -> name_ok nm -> ad_holds rel d -> cstring (ad_attrName d) = Some (chars nm) ->
  pad_AttrDesc d = Some (tuple_of (mkAttr rel nm (ad_attrOffset d) (ad_attrType d) (ad_attrLen d))).
Proof.
  intros Hrel Hnm (H1 & H2 & H3) Hc. unfold pad_AttrDesc. rewrite (pad_name_ok (ad_relName d) rel) by done. cbn [mbind option_bind].
  by rewrite (pad_name_ok _ nm).
Qed.

(** The name at [i] does not fit into the array of the tuple. *)
Definition too_long nms (i : nat) : Prop := exists nm, nms !! i = Some nm /\ MAXNAME <= Z.of_nat (String.length nm).

(** The names up to [i] fit: the loop adds the first [d] attributes, and it
    ends with all of them added, with a failed insertion, or at a name that is
    too long. *)
Lemma add_attrs_run k j T w la A attrs nms rel ad off (i : nat) :
  ready k j T w -> heap_at T w ATTRCATNAME la -> attr_state la A -> 1 <= k -> Z.of_nat (length attrs) <= j ->
  named_attrs attrs nms -> Forall name_ok (take i nms) -> i = length nms \/ too_long nms i -> int_attrs attrs -> name_ok rel -> ad_holds rel ad -> inS 32 off ->
  exists r w' la' A' d, add_attrs attrs ad off w = Some (r, w') /\ changed (Z.of_nat (length attrs)) T w [ATTRCATNAME] w' /\
    heap_at T w' ATTRCATNAME la' /\ attr_state la' A' /\ (d <= i)%nat /\ A' ≡ₚ attrs_at rel (take d attrs) (take d nms) off ++ A /\
    match r with Ok _ => d = length nms | Err e => d = i -> e = NAMETOOLONG end.
Proof.
  intros Hrd Hat Hs Hk Hj Hn Hok Hi Hint Hrel Had Hoff. revert w la A ad off j i Hrd Hat Hs Hj Hok Hi Hint Had Hoff.
  induction Hn as [|a nm attrs nms Ha Hn IH]; intros w la A ad off j i Hrd Hat Hs Hj Hok Hi Hint Had Hoff; cbn [add_attrs].
  { exists (Ok tt), w, la, A, 0%nat. split; [done|]. split; [apply changed_refl, (rdy_world _ _ _ _ Hrd)|]. do 2 (split; [done|]). split; [lia|done]. }
  assert (strlen (ai_attrName a) = Some (Z.of_nat (String.length nm))) as Hsl by (unfold strlen; rewrite Ha; cbn; by rewrite length_chars).
  run_with (defined_run _ _ w Hsl). destruct i as [|i].
  { destruct Hi as [Hi|(x & [= <-] & Hx)]; [done|]. rewrite decide_True by done. exists (Err NAMETOOLONG), w, la, A, 0%nat. split; [done|].
    split; [eapply changed_trans; [apply changed_refl, (rdy_world _ _ _ _ Hrd)|apply changed_refl, (rdy_world _ _ _ _ Hrd)|lia]|]. done. }
  cbn [take] in Hok. apply Forall_cons_iff in Hok as [Hnm Hok]. apply Forall_cons_iff in Hint as [[Hty Hlen] Hint]. cbn [length] in Hj.
  rewrite decide_False by (destruct Hnm; unfold MAXNAME; lia).
  destruct Had as (D1 & D2 & D3). destruct (strcpy_name (ad_attrName ad) (ai_attrName a) nm Hnm D3 Ha) as (name & Hcpy & Hln & Hcn).
  run_with (defined_run _ _ w Hcpy). set (ad1 := mkAttrDesc (ad_relName ad) name off (ai_attrType a) (ai_attrLen a)).
  assert (ad_holds rel ad1) as Had1 by done. set (new := mkAttr rel nm off (ai_attrType a) (ai_attrLen a)).
  assert (pad_AttrDesc ad1 = Some (tuple_of new)) as Hpad by (by apply (pad_AttrDesc_ok rel nm ad1)).
  assert (attr_ok new) as Hnew by done.
  destruct (attr_addInfo_run k j T w la A ad1 new Hrd Hat Hs Hk ltac:(lia) Hnew Hpad) as (r & w1 & la1 & A1 & R1 & Hfin & Hs1 & Hr1).
  pose proof (finished_changed _ _ _ _ _ [ATTRCATNAME] Hfin ltac:(by left)) as Hch1. destruct r as [[]|e].
  2: { run_with R1. subst A1. exists (Err e), w1, la1, A, 0%nat. split; [done|]. split; [|split; [apply Hfin|done || (split; [done|]; split; [lia|done])]].
    eapply changed_trans; [exact Hch1|apply changed_refl, Hfin|]. cbn [length]. lia. }
  run_with R1. run_with (defined_run _ _ w1 Hpad).
  destruct (IH w1 la1 A1 (tuple_of new) (s32 (off + ai_attrLen a)) (j - 1) i) as (r & w2 & la2 & A2 & d & R2 & Hch2 & Hat2 & Hs2 & Hd & HA2 & Hr2).
  { by eapply changed_ready. } { apply Hfin. } { done. } { lia. } { done. } { destruct Hi as [Hi|Hi]; [left; cbn in Hi; lia|by right]. } { done. }
  { split; [by apply length_name_field|]. split; [by apply cstring_name_field|by apply length_name_field]. }
  { by apply wrapS_range. }
  exists r, w2, la2, A2, (S d). split; [exact R2|]. split; [eapply changed_trans; [exact Hch1|exact Hch2|cbn [length]; lia]|].
  do 2 (split; [done|]). split; [lia|]. split; [|destruct r; [cbn; lia|intros [= Heq]; by apply Hr2]].
  rewrite HA2, Hr1. cbn [take attrs_at app]. symmetry. apply Permutation_middle.
Qed.

End Entries.

(** ** [RelCatalog::createRel] *)

(** The two catalogs: the relations with their numbers of attributes, and the
    attributes. *)
Record catalogs (T : gset (Z * Z)) (w : World) (lr la : list hpage) (m : gmap string Z) (A : list attr) : Prop := {
  ca_rel : heap_at T w RELCATNAME lr;
  ca_rels : rel_state lr m;
  ca_attr : heap_at T w ATTRCATNAME la;
  ca_attrs : attr_state la A;
}.

Definition cat_names : list string := [RELCATNAME; ATTRCATNAME].

Lemma attr_in_cats : [ATTRCATNAME] ⊆ cat_names.
Proof. intros x Hx. by right. Qed.

Lemma not_in_cats nm : nm <> RELCATNAME -> nm <> ATTRCATNAME -> nm ∉ cat_names.
Proof. intros H1 H2. apply not_elem_of_cons. split; [done|]. apply not_elem_of_cons. split; [done|apply not_elem_of_nil]. Qed.

(** The local variables of [createRel] and its parameters. *)
Record create_args (rd0 : RelDesc) (ad0 : AttrDesc) (rel : string) (cnt : Z) (attrs : list attrInfo) (nms : list string) : Prop := {
  ga_rd : length (rd_relName rd0) = 32%nat;
  ga_ad : length (ad_relName ad0) = 32%nat /\ length (ad_attrName ad0) = 32%nat;
  ga_name : rel <> ""%string /\ name_ok rel;
  ga_cnt : 1 <= cnt < 2 ^ 31 /\ cnt <= Z.of_nat (length attrs);
  ga_names : named_attrs attrs nms;
  ga_ints : int_attrs attrs;
}.

Section Create.
Implicit Types (T : gset (Z * Z)) (w : World) (k j : Z) (lr la : list hpage) (m : gmap string Z) (A : list attr) (rel : string).

Lemma name_key rel : rel <> ""%string -> name_ok rel -> key_ok rel.
Proof. intros Hne [Hn Hl]. split; [done|done|lia]. Qed.

(** A file in use is not missing. *)
Lemma heap_at_named T w name l rel :
  heap_at T w name l -> of_map (w_open w) !! rel = None -> u_dir (unix (w_disk w)) !! rel = None -> name <> rel.
Proof.
  intros [_ Hok _] Hno Hdir ->. destruct (ho_hdr _ _ Hok) as (p & Hp & _). unfold named_page in Hp. rewrite Hno in Hp.
  unfold stored_page in Hp. by rewrite Hdir in Hp.
Qed.

Variables (rd0 : RelDesc) (ad0 : AttrDesc) (fuel : nat).
Local Abbreviation createRel := (RelCatalog_createRel rd0 ad0 fuel).

(** Up to the test of the width of the tuples. *)
Lemma createRel_checks k j T w lr la m A rel cnt attrs nms :
  ready k j T w -> 1 <= k -> 1 <= j -> catalogs T w lr la m A -> create_args rd0 ad0 rel cnt attrs nms ->
  (length (heap_recs lr) + length lr <= fuel)%nat ->
  let body := let n := Z.to_nat cnt in
    if decide (NoDup (take n nms)) then
      if decide (u32 (sum_len (take n attrs)) > PAGESIZE) then throw ATTRTOOLONG
      else
        let! name := defined (strcpy (rd_relName rd0) (c_str rel)) in
        RelCatalog_addInfo (mkRelDesc name cnt) ;;;
        let! name := defined (strcpy (ad_relName ad0) (c_str rel)) in
        add_attrs (take n attrs) (mkAttrDesc name (ad_attrName ad0) (ad_attrOffset ad0) (ad_attrType ad0) (ad_attrLen ad0)) 0 ;;;
        createHeapFile rel
    else throw DUPLATTR in
  exists w1, finished T w RELCATNAME lr w1 /\
    createRel rel cnt attrs w = match m !! rel with Some _ => Some (Err RELEXISTS, w1) | None => body w1 end.
Proof.
  intros Hrd Hk Hj [C1 C2 C3 C4] [G1 G2 [G3 G3'] [G4 G4'] G5 G6] Hfuel body.
  destruct (getInfo_run k j T w lr m rel fuel Hrd C1 C2 Hk Hj (name_key rel G3 G3') Hfuel) as (w1 & R1 & Hfin).
  exists w1. split; [done|]. unfold RelCatalog_createRel. destruct G3' as [Hn Hlen].
  rewrite decide_False by (intros [?|?]; [done|lia]). rewrite decide_False by (unfold MAXNAME; lia).
  run_with (attempt_run _ _ _ _ R1). destruct (m !! rel) as [c|]; [done|]. rewrite decide_False by (intros Hx; by apply Hx).
  destruct attrs as [|a attrs]; [cbn in G4'; lia|]. run_with (defined_run ((a :: attrs) !! 0%nat) a w1 eq_refl).
  destruct nms as [|nm nms]; [by inversion G5|].
  assert (check_attrs (a :: attrs) (Z.to_nat (cnt - 1)) 1 (u32 (ai_attrLen a)) w1 =
    Some (if decide (NoDup (take (Z.to_nat cnt) (nm :: nms))) then Ok (u32 (sum_len (take (Z.to_nat cnt) (a :: attrs)))) else Err DUPLATTR, w1)) as Hchk.
  { rewrite (check_attrs_run (a :: attrs) (nm :: nms)) by first [done|cbn [length take] in *; first [lia|apply list.NoDup_singleton]].
    replace (1 + Z.to_nat (cnt - 1))%nat with (Z.to_nat cnt) by lia.
    by replace (Z.to_nat cnt) with (S (Z.to_nat (cnt - 1))) by lia. }
  subst body. cbn beta zeta. destruct (decide (NoDup _)); run_with Hchk; done.
Qed.

(** The relation is in the catalogs and has an empty file. *)
Record registered T w rel (cnt : Z) (attrs : list attrInfo) (nms : list string) m A w' : Prop := {
  rg_world : world_ok T w';
  rg_restored : restored w w';
  rg_cat : exists lr la A', catalogs T w' lr la (<[rel := cnt]> m) A' /\
             A' ≡ₚ attrs_at rel (take (Z.to_nat cnt) attrs) (take (Z.to_nat cnt) nms) 0 ++ A;
  rg_file : exists n, heap_at T w' rel [(n, [])];
  rg_other : forall nm n, nm <> rel -> nm <> RELCATNAME -> nm <> ATTRCATNAME -> named_page w' nm n = named_page w nm n;
}.

(** Up to the creation of the file, when the names up to [i] fit. *)
Lemma createRel_entries k j T w lr la m A rel cnt attrs nms (i : nat) :
  let n := Z.to_nat cnt in
  ready k j T w -> 1 <= k -> cnt + 2 <= j -> catalogs T w lr la m A -> create_args rd0 ad0 rel cnt attrs nms ->
  (length (heap_recs lr) + length lr <= fuel)%nat -> m !! rel = None ->
  NoDup (take n nms) -> u32 (sum_len (take n attrs)) <= PAGESIZE ->
  Forall name_ok (take i (take n nms)) -> i = n \/ too_long (take n nms) i ->
  exists r w' lr' la' m' A', changed (2 + cnt) T w cat_names w' /\ catalogs T w' lr' la' m' A' /\
    createRel rel cnt attrs w = match r with Ok _ => createHeapFile rel w' | Err e => Some (Err e, w') end /\
    ((m' = m /\ A' = A /\ r <> Ok tt) \/
     (m' = <[rel := cnt]> m /\ exists d, (d <= i)%nat /\ A' ≡ₚ attrs_at rel (take d (take n attrs)) (take d (take n nms)) 0 ++ A /\
        match r with Ok _ => d = n | Err e => d = i -> e = NAMETOOLONG end)).
Proof.
  intros n Hrd Hk Hj Hca Hga Hfuel Hm Hnd Hwd Hok Hi.
  destruct (createRel_checks k j T w lr la m A rel cnt attrs nms Hrd Hk) as (w1 & Hfin1 & R1); [destruct Hga as [_ _ _ [? _] _ _]; lia|done..|].
  cbn zeta in R1. fold n in R1. rewrite Hm, decide_True, decide_False in R1 by (done || lia). rewrite R1. clear R1.
  destruct Hca as [C1 C2 C3 C4], Hga as [G1 [G2 G2'] [G3 G3'] [G4 G4'] G5 G6]. pose proof G3' as [Hnul Hlen].
  destruct (strcpy_name (rd_relName rd0) (c_str rel) rel G3' G1 (cstring_c_str rel Hnul)) as (b1 & S1 & S1' & S1'').
  destruct (strcpy_name (ad_relName ad0) (c_str rel) rel G3' G2 (cstring_c_str rel Hnul)) as (b2 & S2 & S2' & S2'').
  pose proof (finished_changed _ _ _ _ _ cat_names Hfin1 ltac:(by left)) as Hch1.
  pose proof (changed_ready k j (j - 1) 1 _ _ _ _ Hrd Hch1 ltac:(lia)) as Hrd1.
  assert (inS 32 cnt) as Hcnt by (unfold inS; lia).
  destruct (addInfo_run k (j - 1) T w1 lr m (mkRelDesc b1 cnt) rel Hrd1 (fi_heap _ _ _ _ _ Hfin1) C2 Hk ltac:(lia) G3' S1' S1'' Hcnt Hm) as
    (r & w2 & lr2 & R2 & Hfin2 & Hr2).
  pose proof (finished_changed _ _ _ _ _ cat_names Hfin2 ltac:(by left)) as Hch2.
  pose proof (changed_ready k _ (j - 2) 1 _ _ _ _ Hrd1 Hch2 ltac:(lia)) as Hrd2.
  assert (heap_at T w2 ATTRCATNAME la) as C3'.
  { apply (finished_other _ _ _ _ _ _ _ Hfin2); [done|]. by apply (finished_other _ _ _ _ _ _ _ Hfin1). }
  destruct r as [[]|e].
  2: { exists (Err e), w2, lr2, la, m, A. split; [eapply changed_trans; [exact Hch1|exact Hch2|lia]|].
    split; [subst lr2; split; [apply Hfin2|done..]|]. split; [run_with (defined_run _ _ w1 S1); run_with R2; done|by left]. }
  set (ad := mkAttrDesc b2 (ad_attrName ad0) (ad_attrOffset ad0) (ad_attrType ad0) (ad_attrLen ad0)).
  assert (length (take n nms) = n) as Hln by (rewrite length_take, <- (list.Forall2_length _ _ _ G5); lia).
  destruct (add_attrs_run k (j - 2) T w2 la A (take n attrs) (take n nms) rel ad 0 i Hrd2 C3' C4 Hk) as (r & w3 & la3 & A3 & d & R3 & Hch3 & Hat3 & Hs3 & Hd & HA3 & Hr3).
  { rewrite length_take. lia. } { by apply Forall2_take. } { done. } { by rewrite Hln. } { by apply Forall_take. } { done. } { done. } { done. }
  pose proof (changed_names _ _ _ _ cat_names _ Hch3 attr_in_cats) as Hch3'.
  exists r, w3, lr2, la3, (<[rel := cnt]> m), A3. split.
  { eapply changed_trans; [eapply changed_trans; [exact Hch1|exact Hch2|reflexivity]|exact Hch3'|]. rewrite length_take. lia. }
  split; [|split].
  - split; [|done..]. apply (changed_heap _ _ _ _ _ _ _ Hch3); [by apply not_elem_of_cons; split; [|apply not_elem_of_nil]|apply Hfin2].
  - run_with (defined_run _ _ w1 S1). run_with R2. run_with (defined_run _ _ w2 S2). fold ad. destruct r as [[]|e]; run_with R3; done.
  - right. split; [done|]. exists d. split; [done|]. split; [done|]. by rewrite <- Hln.
Qed.

Lemma createRel_run k j T w lr la m A rel cnt attrs nms :
  ready k j T w -> 1 <= k -> cnt + 4 <= j -> catalogs T w lr la m A -> create_args rd0 ad0 rel cnt attrs nms ->
  (length (heap_recs lr) + length lr <= fuel)%nat -> m !! rel = None ->
  NoDup (take (Z.to_nat cnt) nms) -> Forall name_ok (take (Z.to_nat cnt) nms) -> u32 (sum_len (take (Z.to_nat cnt) attrs)) <= PAGESIZE ->
  of_map (w_open w) !! rel = None -> u_dir (unix (w_disk w)) !! rel = None ->
  exists r w', createRel rel cnt attrs w = Some (r, w') /\
    match r with Ok _ => registered T w rel cnt attrs nms m A w' | Err _ => exists T', world_ok T' w' end.
Proof.
  intros Hrd Hk Hj Hca Hga Hfuel Hm Hnd Hok Hwd Hno Hdir. set (n := Z.to_nat cnt) in *.
  destruct (createRel_entries k j T w lr la m A rel cnt attrs nms n Hrd Hk ltac:(lia) Hca Hga Hfuel Hm Hnd Hwd) as
    (r & w3 & lr2 & la3 & m' & A3 & Hch & Hca3 & R3 & Hr3); [by apply Forall_take|by left|].
  rewrite R3. clear R3. destruct r as [[]|e]; [|exists (Err e), w3; split; [done|]; exists T; apply Hch].
  destruct Hr3 as [(_ & _ & ?)|(-> & d & _ & HA3 & ->)]; [done|]. fold n in HA3. rewrite !take_take, Nat.min_id in HA3.
  pose proof (heap_at_named _ _ _ _ _ (ca_rel _ _ _ _ _ _ Hca) Hno Hdir) as Hn1. pose proof (heap_at_named _ _ _ _ _ (ca_attr _ _ _ _ _ _ Hca) Hno Hdir) as Hn2.
  pose proof (changed_ready k j 2 _ _ _ _ _ Hrd Hch ltac:(lia)) as Hrd3.
  destruct (createHeapFile_run k 2 T w3 rel Hrd3 Hk ltac:(lia) (proj1 (ga_name _ _ _ _ _ _ Hga))) as (r & w4 & R4 & Hr4).
  { by rewrite (re_open _ _ (ch_restored _ _ _ _ _ Hch)). } { by rewrite (ch_dir _ _ _ _ _ Hch). }
  exists r, w4. split; [exact R4|]. destruct r as [[]|e]; [|done]. destruct Hr4 as [D1 D2 [n4 D3] D4 D5 D6].
  assert (forall nm l, nm <> rel -> heap_at T w3 nm l -> heap_at T w4 nm l) as Hkeep.
  { intros nm l Hne [H1 H2 H3]. split; [done| |by rewrite (re_open _ _ D2)]. eapply heap_ok_ext; [|exact H2]. intros. by apply D4. }
  split.
  - done.
  - transitivity w3; [apply Hch|done].
  - exists lr2, la3, A3. split; [|done]. destruct Hca3 as [E1 E2 E3 E4]. split; [|done| |done]; by apply Hkeep.
  - pose proof (proj1 (ga_name _ _ _ _ _ _ Hga)). exists n4. split; [done|done|]. intros g x Hg. rewrite (re_open _ _ D2), (re_open _ _ (ch_restored _ _ _ _ _ Hch)) in Hg. congruence.
  - intros nm x H1 H2 H3. rewrite D4, (ch_other _ _ _ _ _ Hch); [done| |done]. by apply not_in_cats.
Qed.

End Create.
