(* ===== verification/Foreign.v ===== *)
(** * Files of other programs

    A bulk load reads a Unix file through a descriptor of its own while the
    engine opens, reads, writes and closes its files.  None of that touches
    the descriptor or the bytes behind it: a frame for the code of heap files
    and catalogs, by the structure of the code alone. *)

From S2P Require Export CatAttr.

(** The descriptor [fd] is the only one of inode [i], which holds [c] and has
    no name but [nm]; no [File] object uses it. *)
Record reading (nm : string) (fd i : Z) (c : block) (d : Disk) : Prop := {
  rg_fd : u_fds (unix d) !! fd = Some i;
  rg_only : forall fd', u_fds (unix d) !! fd' = Some i -> fd' = fd;
  rg_data : u_data (unix d) !! i = Some c;
  rg_old : 0 <= fd < u_nextFd (unix d);
  rg_files : forall f o, files d !! f = Some o -> unixFile o <> fd /\ fileName o <> nm;
  rg_dir : forall nm', u_dir (unix d) !! nm' = Some i -> nm' = nm;
}.

(** What [d] reads, [d'] reads. *)
Definition apart (nm : string) (d d' : Disk) : Prop := forall fd i c, reading nm fd i c d -> reading nm fd i c d'.
Definition wapart (nm : string) (w w' : World) : Prop := apart nm (w_disk w) (w_disk w').
Definition oapart {O} (nm : string) (x y : World * O) : Prop := wapart nm x.1 y.1.

#[export] Instance apart_preorder nm : PreOrder (apart nm).
Proof. split; [by intros d fd i c|intros d1 d2 d3 H1 H2 fd i c H; by apply H2, H1]. Qed.
#[export] Instance wapart_preorder nm : PreOrder (wapart nm).
Proof. split; [intros w; unfold wapart; reflexivity|intros w1 w2 w3 H1 H2; unfold wapart in *; by transitivity (w_disk w2)]. Qed.
#[export] Instance oapart_preorder {O} nm : PreOrder (@oapart O nm).
Proof. split; [intros x; unfold oapart; reflexivity|intros x y z H1 H2; unfold oapart in *; by transitivity y.1]. Qed.

(** ** The files *)

Section Files.
Context (nm : string).
Implicit Types (d : Disk) (w : World) (f fd i : Z) (c : block) (name : string).

Lemma reading_conn fd i c d f : reading nm fd i c d -> conn d f <> Some i.
Proof.
  intros H Hc. destruct (conn_open _ _ _ Hc) as (o & Ho & Hfd). destruct (rg_files _ _ _ _ _ H f o Ho) as [Hne _]. apply Hne.
  by apply (rg_only _ _ _ _ _ H).
Qed.

Lemma frame_apart d d' : disk_frame d d' -> apart nm d d'.
Proof.
  intros Hf fd i c H. pose proof (fun f => reading_conn fd i c d f H) as Hc. destruct H as [H1 H2 H3 H4 H5 H6].
  split; rewrite ?(df_fds _ _ Hf), ?(df_files _ _ Hf), ?(df_fd _ _ Hf), ?(df_dir _ _ Hf); try done. by rewrite (df_data _ _ Hf).
Qed.

(** An object that keeps away from the descriptor. *)
Lemma set_file_apart f o d :
  (forall fd i c, reading nm fd i c d -> unixFile o <> fd /\ fileName o <> nm) -> apart nm d (set_file f o d).
Proof.
  intros Ho fd i c H. pose proof (Ho _ _ _ H) as Ho'. destruct H as [H1 H2 H3 H4 H5 H6]. split; try done. cbn.
  intros g og [[_ <-]|[_ Hg]]%lookup_insert_Some; [done|by eapply H5].
Qed.

Lemma free_file_apart f d : apart nm d (free_file f d).
Proof. intros fd i c [H1 H2 H3 H4 H5 H6]. split; try done. cbn. intros g o [_ Ho]%lookup_delete_Some. by eapply H5. Qed.

Lemma File_open_apart f d st d' : File_open f d = Some (st, d') -> apart nm d d'.
Proof.
  unfold File_open. intros (o & Ho & H)%bind_Some. case_decide.
  - unfold unix_open in H. destruct (u_dir (unix d) !! fileName o) as [j|] eqn:Hj.
    2: { injection H as _ <-. intros fd i c Hr. apply (set_file_apart f _ (set_unix (unix d) d)); [|by destruct d].
         intros fd' i' c' [_ _ _ G4 G5 _]. cbn in *. split; [lia|]. by apply (G5 f o). }
    case_decide; [injection H as _ <-; intros fd i c Hr; apply (set_file_apart f _ (set_unix (unix d) d)); [|by destruct d];
      intros fd' i' c' [_ _ _ G4 G5 _]; cbn in *; split; [lia|]; by apply (G5 f o)|].
    cbn in H. injection H as _ <-. intros fd i c [G1 G2 G3 G4 G5 G6].
    assert (j <> i) as Hji by (intros ->; destruct (G5 f o Ho) as [_ Hn]; by apply Hn, G6).
    split; cbn; try done; [| |lia|].
    + rewrite lookup_insert_ne by lia. done.
    + intros fd' [[_ ?]|[_ Hi]]%lookup_insert_Some; [done|by apply G2].
    + intros g og [[_ <-]|[_ Hg]]%lookup_insert_Some; [|by eapply G5]. cbn. split; [lia|]. by apply (G5 f o).
  - injection H as _ <-. apply set_file_apart. intros fd i c Hr. cbn. by apply (rg_files _ _ _ _ _ Hr f).
Qed.

Lemma flushFile_apart f d b r d' b' : BufMgr_flushFile f (d, b) = Some (r, (d', b')) -> apart nm d d'.
Proof. intros H. by eapply frame_apart, flushFile_frame. Qed.

(** Closing another descriptor. *)
Lemma unix_close_apart g o d : files d !! g = Some o -> apart nm d (set_unix (unix_close (unixFile o) (unix d)).2 d).
Proof.
  intros Ho fd i c Hr. pose proof (proj1 (rg_files _ _ _ _ _ Hr g o Ho)) as Hne. unfold unix_close.
  destruct (u_fds (unix d) !! unixFile o); [|by destruct d]. destruct Hr as [H1 H2 H3 H4 H5 H6]. split; cbn; try done.
  - by rewrite lookup_delete_ne.
  - intros fd' [_ Hi]%lookup_delete_Some. by apply H2.
Qed.

Lemma File_close_apart f w st w' : File_close f w = Some (st, w') -> wapart nm w w'.
Proof.
  unfold File_close. intros (o & Ho & H)%bind_Some. case_decide; [by injection H as _ <-|].
  set (o1 := mkFile (fileName o) (openCnt o - 1) (unixFile o)) in *. cbn [w_disk w_mgr w_open set_disk] in H.
  assert (apart nm (w_disk w) (set_file f o1 (w_disk w))) as A1 by (apply set_file_apart; intros fd i c Hr; exact (rg_files _ _ _ _ _ Hr f o Ho)).
  case_decide; [|by injection H as _ <-]. apply bind_Some in H as ([r [d b]] & Hfl & H).
  assert (files d !! f = Some o1) as Ho1 by (rewrite (df_files _ _ (flushFile_frame _ _ _ _ _ _ Hfl)); apply lookup_insert_eq).
  unfold wapart. transitivity (set_file f o1 (w_disk w)); [exact A1|]. transitivity d; [by eapply flushFile_apart|].
  pose proof (unix_close_apart f o1 d Ho1) as A2. destruct (unix_close (unixFile o1) (unix d)) as [[e|] u]; by injection H as _ <-.
Qed.

Lemma File_delete_apart f w w' : File_delete f w = Some w' -> wapart nm w w'.
Proof.
  unfold File_delete. intros (o & Ho & H)%bind_Some. case_decide; [injection H as <-; apply free_file_apart|].
  apply bind_Some in H as ([st w1] & Hc & [= <-]). unfold wapart. cbn [w_disk set_disk]. transitivity (w_disk w1); [|apply free_file_apart].
  etransitivity; [|exact (File_close_apart _ _ _ _ Hc)].
  apply set_file_apart. intros fd i c Hr. exact (rg_files _ _ _ _ _ Hr f o Ho).
Qed.

End Files.

(** ** The code of the storage layer *)

Section Code.
Context (nm : string).
Local Abbreviation wkeeps := (keeps (wapart nm)).

Lemma keeps_openFile name : name <> nm -> wkeeps (openFile name).
Proof.
  intros Hne w r w'. unfold openFile, DB_openFile. case_decide; [by intros [= _ <-]|]. intros (x & _ & Hx)%bind_Some. destruct x as [f|e].
  - apply bind_Some in Hx as ([st d] & Ho & [= _ <-]). by eapply File_open_apart.
  - unfold File_new in Hx. apply bind_Some in Hx as ([st d] & Ho & Hx).
    assert (apart nm (w_disk w) d) as A.
    { etransitivity; [|by eapply File_open_apart]. intros fd i c [H1 H2 H3 H4 H5 H6]. split; try done. cbn.
      intros g o [[_ <-]|[_ Hg]]%lookup_insert_Some; [|by eapply H5]. cbn. split; [lia|done]. }
    case_decide.
    + apply bind_Some in Hx as (w1 & Hd & [= _ <-]). pose proof (File_delete_apart nm _ _ _ Hd) as A'. unfold wapart in *. by etransitivity.
    + apply bind_Some in Hx as ([st' t] & _ & [= _ <-]). exact A.
Qed.

Lemma keeps_closeFile f : wkeeps (closeFile f).
Proof.
  intros w r w'. unfold closeFile, status. intros ([st w1] & H & [= _ <-])%bind_Some. unfold DB_closeFile in H.
  case_decide; [by injection H as _ <-|]. apply bind_Some in H as ([st1 w2] & Hc & (o & _ & H)%bind_Some).
  transitivity w2; [exact (File_close_apart nm _ _ _ _ Hc)|]. case_decide; [|by injection H as _ <-].
  apply bind_Some in H as ([st2 t] & _ & H). case_decide; [injection H as _ <-; exact (reflexivity (R := apart nm) (w_disk w2))|].
  apply bind_Some in H as (w3 & Hd & [= _ <-]). exact (File_delete_apart nm _ _ _ Hd).
Qed.

(** The buffer manager writes pages of the files it was given. *)
Lemma keeps_on_pool {A} (m : CODE (Disk * BufMgr) A) :
  keeps (fun x y : Disk * BufMgr => disk_frame x.1 y.1) m -> wkeeps (on_pool m).
Proof. intros Hm w r w' ([r1 [d b]] & H & [= _ <-])%bind_Some. exact (frame_apart nm _ _ (Hm _ _ _ H)). Qed.

#[local] Instance pool_frame_preorder : PreOrder (fun x y : Disk * BufMgr => disk_frame x.1 y.1).
Proof. split; [intros x; reflexivity|intros x y z; apply (transitivity (R := disk_frame))]. Qed.

Ltac pool_frame := apply keeps_on_pool; first
  [ apply keeps_readPage | apply keeps_unPinPage | apply keeps_allocPage | apply keeps_client_write ];
  intros; cbn; first [reflexivity | by eapply writePage_frame | by eapply allocatePage_frame | by eapply disposePage_frame | apply _].

Lemma keeps_wreadPage f n : wkeeps (readPage f n).
Proof. unfold readPage. pool_frame. Qed.
Lemma keeps_wunPinPage f n b : wkeeps (unPinPage f n b).
Proof. unfold unPinPage. pool_frame. Qed.
Lemma keeps_wallocPage f : wkeeps (allocPage f).
Proof. unfold allocPage. pool_frame. Qed.
Lemma keeps_store p q : wkeeps (store p q).
Proof. destruct p; [by intros w r w'..|]. cbn. pool_frame. Qed.
Lemma keeps_load p : wkeeps (load p).
Proof.
  destruct p; [by intros w r w'..|]. cbn. apply keeps_on_pool. intros [d b] r [d' b']. unfold client_read, get_mgr.
  destruct (zget _ _); [|done]. by intros [= _ <- _].
Qed.
Lemma keeps_getFirstPage f : wkeeps (getFirstPage f).
Proof.
  intros w r w'. unfold getFirstPage, zoom. destruct (File_getFirstPage f (w_disk w)) as [[r1 d]|] eqn:H; [|done]. intros [= _ <-].
  apply frame_apart. assert (keeps disk_frame (File_getFirstPage f)) as Hk by (unfold File_getFirstPage; keeps_disk). by eapply Hk.
Qed.

End Code.

(** ** The code of heap files *)

Lemma keeps_attempt {E S A} (R : S -> S -> Prop) (m : ST E S A) : keeps R m -> keeps R (attempt m).
Proof. intros Hm x r y. unfold attempt. destruct (m x) as [[r1 z]|] eqn:H; [|done]. intros [= _ <-]. by eapply Hm. Qed.

Lemma keeps_undef {E S A} (R : S -> S -> Prop) : keeps R (undef : ST E S A).
Proof. by intros x r y. Qed.

Section Plumbing.
Context {O : Type} (nm : string).
Local Abbreviation okeeps := (keeps (oapart (O := O) nm)).

Lemma keeps_io {A} (m : CODE World A) : keeps (wapart nm) m -> okeeps (io m).
Proof.
  intros Hm [w o] r [w' o']. unfold io, zoom. cbn. destruct (m w) as [[r1 w1]|] eqn:H; [|done]. intros [= _ <- _]. exact (Hm _ _ _ H).
Qed.

Lemma keeps_member {A} (g : O -> option A) : okeeps (member g).
Proof. intros [w o] r [w' o']. cbn. destruct (g o); [|done]. intros [= _ <- _]. exact (reflexivity (R := wapart nm) w). Qed.

Lemma keeps_assign (g : O -> O) : okeeps (assign g).
Proof. intros [w o] r [w' o'] [= _ <- _]. exact (reflexivity (R := wapart nm) w). Qed.

Lemma keeps_call {A} (m : CODE (World * O) A) o : okeeps m -> keeps (wapart nm) (call m o).
Proof. intros Hm w r w' ([r1 [w1 o1]] & H & [= _ <-])%bind_Some. exact (Hm _ _ _ H). Qed.

End Plumbing.

Lemma keeps_base {A} nm (m : CODE (World * HeapFile) A) : keeps (oapart nm) m -> keeps (oapart nm) (base m).
Proof.
  intros Hm [w s] r [w' s']. unfold base, zoom. destruct (m (w, hfs_base s)) as [[r1 [w1 h1]]|] eqn:H; [|done].
  intros [= _ <- _]. exact (Hm _ _ _ H).
Qed.

Create HintDb foreign.
#[export] Hint Resolve keeps_ret keeps_throw keeps_of_res keeps_defined keeps_undef keeps_openFile keeps_closeFile keeps_wreadPage keeps_wunPinPage
  keeps_wallocPage keeps_store keeps_load keeps_getFirstPage keeps_member keeps_assign : foreign.
#[export] Hint Extern 0 (PreOrder _) => apply _ : foreign.
#[export] Hint Extern 1 (keeps _ (io _)) => apply keeps_io : foreign.

Ltac foreign := repeat first
  [ solve [eauto with foreign] | apply keeps_bind; [apply _| |intros] | apply keeps_attempt | apply keeps_io | apply keeps_base | apply keeps_call
  | progress intros | case_match ].

Section HeapCode.
Context (nm : string).
Local Abbreviation wkeeps := (keeps (wapart nm)).
Local Abbreviation hkeeps := (keeps (oapart (O := HeapFile) nm)).
Local Abbreviation skeeps := (keeps (oapart (O := HeapFileScan) nm)).

Lemma keeps_page_get {A} p (g : block -> option A) : wkeeps (page_get p g).
Proof. unfold page_get. foreign. Qed.
Lemma keeps_page_set {A} p (g : block -> option (A * block)) : wkeeps (page_set p g).
Proof. unfold page_set. foreign. Qed.
Hint Resolve keeps_page_get keeps_page_set : foreign.

Lemma keeps_cur_get {A} (g : block -> option A) : hkeeps (cur_get g).
Proof. unfold cur_get. foreign. Qed.
Lemma keeps_cur_set {A} (g : block -> option (A * block)) : hkeeps (cur_set g).
Proof. unfold cur_set. foreign. Qed.
Lemma keeps_hdr_get off : hkeeps (hdr_get off).
Proof. unfold hdr_get. foreign. Qed.
Lemma keeps_hdr_set off z : hkeeps (hdr_set off z).
Proof. unfold hdr_set, page_upd. foreign. Qed.
Lemma keeps_unpin_cur : hkeeps unpin_cur.
Proof. unfold unpin_cur. foreign. Qed.
Lemma keeps_read_cur n : hkeeps (read_cur n).
Proof. unfold read_cur. foreign. Qed.
Hint Resolve keeps_cur_get keeps_cur_set keeps_hdr_get keeps_hdr_set keeps_unpin_cur keeps_read_cur : foreign.

Lemma keeps_HeapFile_new name : name <> nm -> wkeeps (HeapFile_new name).
Proof. intros Hne. unfold HeapFile_new. foreign. Qed.
Lemma keeps_HeapFile_delete : hkeeps HeapFile_delete.
Proof. unfold HeapFile_delete, release_hdr. foreign. Qed.
Lemma keeps_endScan : hkeeps endScan.
Proof. unfold endScan. foreign. Qed.
Hint Resolve keeps_HeapFile_new keeps_HeapFile_delete keeps_endScan : foreign.

Lemma keeps_HeapFileScan_delete : skeeps HeapFileScan_delete.
Proof. unfold HeapFileScan_delete, HeapFileScan_endScan. foreign. Qed.
Lemma keeps_startScan o l t f op : skeeps (HeapFileScan_startScan o l t f op).
Proof. unfold HeapFileScan_startScan. foreign. Qed.

Lemma keeps_next_page (fuel : nat) : hkeeps (next_page fuel).
Proof. induction fuel as [|fuel IH]; cbn [next_page]; foreign. Qed.
Hint Resolve keeps_next_page : foreign.
Lemma keeps_advance (fuel : nat) : hkeeps (advance fuel).
Proof. unfold advance. foreign. Qed.
Lemma keeps_test_cur : skeeps test_cur.
Proof. unfold test_cur. foreign. Qed.
Hint Resolve keeps_advance keeps_test_cur : foreign.
Lemma keeps_scan_loop (fuel : nat) : skeeps (scan_loop fuel).
Proof. induction fuel as [|fuel IH]; cbn [scan_loop]; foreign. Qed.
Hint Resolve keeps_scan_loop : foreign.
Lemma keeps_scanNext (fuel : nat) : skeeps (HeapFileScan_scanNext fuel).
Proof. unfold HeapFileScan_scanNext, scan_first. foreign. Qed.
Lemma keeps_getRecord : skeeps HeapFileScan_getRecord.
Proof. unfold HeapFileScan_getRecord. foreign. Qed.

Lemma keeps_InsertFileScan_new name : name <> nm -> wkeeps (InsertFileScan_new name).
Proof. intros Hne. unfold InsertFileScan_new. foreign. Qed.
Lemma keeps_InsertFileScan_delete : hkeeps InsertFileScan_delete.
Proof. unfold InsertFileScan_delete. foreign. Qed.
Lemma keeps_insertRecord rec : hkeeps (InsertFileScan_insertRecord rec).
Proof. unfold InsertFileScan_insertRecord, link_page, count_insert, page_upd. foreign. Qed.

End HeapCode.

#[export] Hint Resolve keeps_HeapFileScan_delete keeps_startScan keeps_scanNext keeps_getRecord keeps_endScan keeps_HeapFile_new : foreign.

(** ** The code of the catalogs *)

Section CatCode.
Context (nm : string).
Local Abbreviation wkeeps := (keeps (wapart nm)).

Lemma keeps_delete_scan s : wkeeps (delete_scan s).
Proof. unfold delete_scan. foreign. Qed.
Hint Resolve keeps_delete_scan : foreign.
Lemma keeps_scan_for cat relation : cat <> nm -> wkeeps (scan_for cat relation).
Proof. intros Hne. unfold scan_for, new_scan, HeapFileScan_new. foreign. Qed.
Lemma keeps_finish_scan s : wkeeps (finish_scan s).
Proof. unfold finish_scan, HeapFileScan_endScan. foreign. Qed.
Hint Resolve keeps_scan_for keeps_finish_scan : foreign.

Lemma keeps_getInfo (fuel : nat) relation : RELCATNAME <> nm -> wkeeps (RelCatalog_getInfo fuel relation).
Proof. intros Hne. unfold RelCatalog_getInfo. foreign. Qed.

Lemma keeps_collect_attrs (n fuel : nat) s : wkeeps (collect_attrs n fuel s).
Proof. revert s. induction n as [|n IH]; intros s; cbn [collect_attrs]; foreign. Qed.
Hint Resolve keeps_collect_attrs : foreign.
Lemma keeps_getRelInfo (n fuel : nat) relation : ATTRCATNAME <> nm -> wkeeps (AttrCatalog_getRelInfo n fuel relation).
Proof. intros Hne. unfold AttrCatalog_getRelInfo. foreign. Qed.

End CatCode.
