(* ===== verification/CatDestroy.v ===== *)
(** * Destroying relations

    [RelCatalog::destroyRel] takes all entries of a relation out of the two
    catalogs and removes its file. *)

From S2P Require Export CatCreate.

Section Destroy.
Implicit Types (T : gset (Z * Z)) (w : World) (k j : Z) (lr la : list hpage) (m : gmap string Z) (A B : list attr) (rel : string).

Definition of_rel rel (a : attr) : bool := bool_decide (at_rel a = rel).

(** The attributes of the other relations. *)
Definition without rel A : list attr := List.filter (fun a => negb (of_rel rel a)) A.

(** The first attribute of [rel] is the first one of its name. *)
Lemma first_of_rel rel A a B :
  List.filter (of_rel rel) A = a :: B ->
  exists A1 A2, A = A1 ++ a :: A2 /\ at_rel a = rel /\ (forall a', a' ∈ A1 -> at_rel a' <> rel) /\ List.filter (of_rel rel) A2 = B.
Proof.
  induction A as [|b A IH]; cbn [List.filter]; [done|]. destruct (of_rel rel b) eqn:Hb.
  - intros [= -> <-]. apply bool_decide_eq_true_1 in Hb. exists [], A. do 2 (split; [done|]). split; [by intros a' ?%not_elem_of_nil|done].
  - intros (A1 & A2 & -> & H1 & H2 & H3)%IH. apply bool_decide_eq_false_1 in Hb. exists (b :: A1), A2. do 2 (split; [done|]).
    split; [|done]. intros a' [->|?]%elem_of_cons; [done|by apply H2].
Qed.

(** The split at the first element with [P] is unique. *)
Lemma first_unique (P : attr -> bool) A1 a A2 B1 b B2 :
  A1 ++ a :: A2 = B1 ++ b :: B2 -> (forall x, x ∈ A1 -> P x = false) -> P a = true -> (forall x, x ∈ B1 -> P x = false) -> P b = true ->
  A1 = B1 /\ a = b /\ A2 = B2.
Proof.
  revert B1. induction A1 as [|x A1 IH]; intros [|y B1] Heq HA Ha HB Hb; cbn in Heq.
  - by injection Heq.
  - injection Heq as -> _. rewrite HB in Ha by (by left). done.
  - injection Heq as -> _. rewrite HA in Hb by (by left). done.
  - injection Heq as -> Heq. destruct (IH B1 Heq) as (-> & -> & ->); [|done| |done|done]; intros; [apply HA|apply HB]; by right.
Qed.

Lemma filter_of_rel_none rel A : (forall a', a' ∈ A -> at_rel a' <> rel) -> List.filter (of_rel rel) A = [] /\ without rel A = A.
Proof.
  induction A as [|a A IH]; [done|]. intros H. destruct IH as [IH1 IH2]; [intros; apply H; by right|].
  assert (of_rel rel a = false) as Ha by (apply bool_decide_eq_false_2, H; by left).
  unfold without in *. cbn [List.filter]. rewrite Ha. cbn [negb]. by rewrite IH1, IH2.
Qed.

(** The loop of [dropRelation]. *)
Lemma remove_attrs_run (n fuel : nat) k j T w la A B rel :
  ready k j T w -> heap_at T w ATTRCATNAME la -> attr_state la A -> 1 <= k -> Z.of_nat (length B) <= j -> key_ok rel ->
  (length (heap_recs la) < n)%nat -> (length (heap_recs la) + length la <= fuel)%nat ->
  List.filter (of_rel rel) A = B -> (forall a, a ∈ B -> at_name a <> ""%string) ->
  exists w' la', remove_attrs n fuel rel (tuple_of <$> B) w = Some (Ok tt, w') /\
    changed (Z.of_nat (length B)) T w [ATTRCATNAME] w' /\ heap_at T w' ATTRCATNAME la' /\ attr_state la' (without rel A).
Proof.
  intros Hrd Hat Hs Hk Hj Hkey Hn Hfuel HB Hne. revert w la A j Hrd Hat Hs Hj Hn Hfuel HB.
  induction B as [|a B IH]; intros w la A j Hrd Hat Hs Hj Hn Hfuel HB; cbn [fmap list_fmap remove_attrs].
  { exists w, la. split; [done|]. split; [apply changed_refl, (rdy_world _ _ _ _ Hrd)|]. split; [done|].
    destruct (filter_of_rel_none rel A) as [_ ->]; [|done]. intros a Ha Hrel. apply (not_elem_of_nil a). rewrite <- HB.
    apply list_elem_of_In, filter_In. split; [by apply list_elem_of_In|by apply bool_decide_eq_true_2]. }
  cbn [length] in Hj. destruct (first_of_rel rel A a B HB) as (A1 & A2 & HA & Hrel & HA1 & HA2).
  assert (attr_ok a) as Ha by (destruct Hs as [_ Hok]; rewrite HA in Hok; apply Forall_app in Hok as [_ Hok]; by inversion Hok).
  run_with (defined_run _ _ w (cstring_name_field (at_name a) (ao_name a Ha))).
  assert (String.string_of_list_byte (chars (at_name a)) = at_name a) as -> by apply String.string_of_list_byte_of_string.
  destruct (attr_removeInfo_run k j T w la A rel (at_name a) n fuel Hrd Hat Hs Hk ltac:(lia) Hkey) as (r & w1 & la1 & A' & R1 & Hfin & Hs1 & Hlen & Hr);
    [apply Hne; by left|done|done|].
  assert (is_attr rel (at_name a) a = true) as Hisa by (by apply bool_decide_eq_true_2).
  destruct r as [[]|e].
  2: { destruct Hr as (_ & _ & Hno). rewrite (Hno a) in Hisa; [done|]. rewrite HA, elem_of_app. right. by left. }
  destruct Hr as (B1 & b & B2 & HB' & Hb & HB1 & HA').
  assert (forall x, x ∈ A1 -> is_attr rel (at_name a) x = false) as HA1'.
  { intros x Hx. apply bool_decide_eq_false_2. intros [Hxr _]. by apply (HA1 x Hx). }
  destruct (first_unique (is_attr rel (at_name a)) A1 a A2 B1 b B2) as (<- & <- & <-); try done; [by rewrite <- HA, <- HB'|].
  run_with R1. pose proof (finished_changed _ _ _ _ _ [ATTRCATNAME] Hfin ltac:(by left)) as Hch.
  assert (length (heap_recs la1) <= length (heap_recs la))%nat as Hshort.
  { destruct Hs as [Hs _], Hs1 as [Hs1 _]. apply (f_equal length) in Hs, Hs1. rewrite !length_fmap in Hs, Hs1. subst A A'.
    rewrite length_app in Hs, Hs1. cbn in Hs. lia. }
  destruct (filter_of_rel_none rel A1 HA1) as [HF1 HW1].
  destruct (IH ltac:(intros; apply Hne; by right) w1 la1 A' (j - 1)) as (w2 & la2 & R2 & Hch2 & Hat2 & Hs2).
  { by eapply changed_ready. } { apply Hfin. } { done. } { lia. } { lia. } { lia. }
  { subst A'. by rewrite filter_app, HF1. }
  exists w2, la2. split; [exact R2|]. split; [eapply changed_trans; [exact Hch|exact Hch2|cbn [length]; lia]|]. split; [done|].
  subst A A'. unfold without in *. rewrite filter_app in *. cbn [List.filter]. rewrite (bool_decide_eq_true_2 _ Hrel : of_rel rel a = true). exact Hs2.
Qed.

(** [destroyRel] of a relation that exists and is not open: up to the call on
    the deleted scan object of [removeInfo], and the removal of the file after
    it. *)
Lemma destroyRel_run (n fuel : nat) k j T w lr la m A rel c :
  ready k j T w -> catalogs T w lr la m A -> 1 <= k -> Z.of_nat (length (List.filter (of_rel rel) A)) + 2 <= j -> key_ok rel ->
  rel <> RELCATNAME -> rel <> ATTRCATNAME -> m !! rel = Some c -> List.filter (of_rel rel) A <> [] ->
  (forall a, a ∈ List.filter (of_rel rel) A -> at_name a <> ""%string) ->
  (length (heap_recs la) < n)%nat -> (length (heap_recs la) + length la <= fuel)%nat -> (length (heap_recs lr) + length lr <= fuel)%nat ->
  of_map (w_open w) !! rel = None -> is_Some (u_dir (unix (w_disk w)) !! rel) ->
  exists hfs w1 w2 lr' la', curPage (hfs_base hfs) = PNull /\
    (forall freed, RelCatalog_destroyRel freed n fuel rel w = (after_delete freed (Ok tt) hfs ;;; destroyHeapFile rel) w1) /\
    (exists i, changed i T w cat_names w1) /\ catalogs T w1 lr' la' (delete rel m) (without rel A) /\
    destroyHeapFile rel w1 = Some (Ok tt, w2) /\ world_ok T w2 /\
    catalogs T w2 lr' la' (delete rel m) (without rel A) /\ u_dir (unix (w_disk w2)) !! rel = None /\
    forall nm i, nm <> rel -> named_page w2 nm i = named_page w1 nm i.
Proof.
  intros Hrd [C1 C2 C3 C4] Hk Hj Hkey Hn1 Hn2 Hm HB Hne Hn Hf1 Hf2 Hno Hdir.
  destruct (getRelInfo_run k j T w la A rel n fuel Hrd C3 C4 Hk ltac:(lia) Hkey Hn Hf1) as (w1 & R1 & Hfin1).
  fold (of_rel rel) in R1. set (B := List.filter (of_rel rel) A) in *.
  pose proof (finished_changed _ _ _ _ _ cat_names Hfin1 ltac:(by right; left)) as Hch1.
  pose proof (changed_ready k j (j - 1) 1 _ _ _ _ Hrd Hch1 ltac:(lia)) as Hrd1.
  destruct (remove_attrs_run n fuel k (j - 1) T w1 la A B rel Hrd1 (fi_heap _ _ _ _ _ Hfin1) C4 Hk ltac:(lia) Hkey Hn Hf1 eq_refl Hne) as
    (w2 & la2 & R2 & Hch2 & Hat2 & Hs2).
  pose proof (changed_ready k (j - 1) 1 _ _ _ _ _ Hrd1 Hch2 ltac:(lia)) as Hrd2.
  assert (RELCATNAME ∉ [ATTRCATNAME]) as Hnin by (apply not_elem_of_cons; split; [done|apply not_elem_of_nil]).
  assert (heap_at T w2 RELCATNAME lr) as C1'.
  { apply (changed_heap _ _ _ _ _ _ _ Hch2 Hnin). by apply (finished_other _ _ _ _ _ _ _ Hfin1). }
  destruct (removeInfo_run k 1 T w2 lr m rel fuel Hrd2 C1' C2 Hk ltac:(lia) Hkey Hf2) as (hfs & w3 & lr3 & Hfin3 & Hs3 & Hnull & R3).
  rewrite Hm in R3. pose proof (finished_changed _ _ _ _ _ cat_names Hfin3 ltac:(by left)) as Hch3.
  assert (exists i, changed i T w cat_names w3) as [i Hch].
  { eexists. eapply changed_trans; [exact Hch1| |reflexivity]. eapply changed_trans; [|exact Hch3|reflexivity].
    eapply changed_names; [exact Hch2|apply attr_in_cats]. }
  destruct (DB_destroyFile_ok T w3 rel (ch_world _ _ _ _ _ Hch) (key_ne _ Hkey)) as (w4 & R4 & W4 & Hd4 & _ & [Ho4 _] & Hn4).
  { by rewrite (re_open _ _ (ch_restored _ _ _ _ _ Hch)). } { by rewrite (ch_dir _ _ _ _ _ Hch). }
  assert (forall nm l, nm <> rel -> heap_at T w3 nm l -> heap_at T w4 nm l) as Hkeep.
  { intros nm l Hnm [H1 H2 H3]. split; [done| |by rewrite Ho4]. eapply heap_ok_ext; [|exact H2]. intros. by apply Hn4. }
  assert (catalogs T w3 lr3 la2 (delete rel m) (without rel A)) as Hca3.
  { split; [apply Hfin3|done|by apply (finished_other _ _ _ _ _ _ _ Hfin3)|done]. }
  exists hfs, w3, w4, lr3, la2. split; [done|]. split; [|split; [by exists i|]].
  - intros freed. unfold RelCatalog_destroyRel, AttrCatalog_dropRelation. rewrite decide_False by (intros [?|[?|?]]; by destruct Hkey).
    rewrite decide_False by apply Hkey. rewrite bind_assoc. destruct B as [|b B]; [done|]. run_with R1. run_with R2.
    unfold bind at 1. rewrite R3. done.
  - split; [done|]. split; [unfold destroyHeapFile, destroyFile, status; by rewrite R4|]. split; [done|]. split; [|done].
    destruct Hca3 as [D1 D2 D3 D4]. split; [|done| |done]; by apply Hkeep.
Qed.

End Destroy.
