(* ===== verification/Boot.v ===== *)
(** * Starting and ending a process

    dbcreate, the start of minirel and [UT_Quit] on a whole directory: the two
    catalogs are opened in a new process and closed at its end, and what the
    files hold is what the next process sees. *)

From S2P Require Export Program Crew CatCreate.

(** The process after [bufMgr = new BufMgr(100)]. *)
Definition boot (u : Unix) (ptr : Z) : World := mkWorld (mkDisk u ∅ ptr) (BufMgr_new 100) OpenFileHashTbl_new.

(** ** A new process *)

Section Process.
Implicit Types (u : Unix) (w : World) (k j ptr : Z) (name : string).

Lemma new_pool_run u ptr : new_pool 100 (process u ptr) = Some (Ok tt, boot u ptr).
Proof. done. Qed.

Lemma boot_pins u ptr g m : wpin (boot u ptr) g m = 0.
Proof. unfold wpin, pins, frame_of. cbn [w_mgr boot hashTable BufMgr_new]. rewrite (proj2 (BufHashTbl_new_ok (htsize 100) ltac:(by vm_compute))). by rewrite lookup_empty. Qed.

Lemma boot_ready k j u ptr :
  unix_ok u -> 0 <= k <= 50 -> Z.of_nat (size (u_fds u)) + k <= u_maxFds u -> 0 < ptr -> 0 <= j -> ptr + 64 * j <= 2 ^ 62 -> ready k j ∅ (boot u ptr).
Proof.
  intros Hu Hk Hfd Hptr Hj Hp. assert (disk_ok (mkDisk u ∅ ptr)) as Hd by (by apply disk_ok_intro).
  assert (world_ok ∅ (boot u ptr)) as Hw.
  { destruct OpenFileHashTbl_new_ok as [T1 T2]. split; [done|exact T1|by intros f o Hf| |cbn; lia|by apply BufMgr_new_ok].
    intros name f Hf. cbn [w_open boot] in Hf. by rewrite T2, lookup_empty in Hf. }
  split; [done|by intros g n ?%not_elem_of_empty| | |by intros f o|done|done].
  - intros g m. rewrite boot_pins. lia.
  - exists []. split; [|cbn; lia]. intros g m. rewrite boot_pins. lia.
Qed.

(** A file of which no process has a page. *)
Lemma boot_page u ptr name n : named_page (boot u ptr) name n = named_page (process u ptr) name n.
Proof. unfold named_page. cbn [w_open boot process]. by rewrite (proj2 OpenFileHashTbl_new_ok), lookup_empty. Qed.

(** When no file is open, the next process sees what this one sees. *)
Lemma process_page w ptr name n : of_map (w_open w) = ∅ -> named_page (process (unix (w_disk w)) ptr) name n = named_page w name n.
Proof. intros Hw. unfold named_page. cbn [w_open process]. by rewrite Hw, (proj2 OpenFileHashTbl_new_ok), !lookup_empty. Qed.

(** The pool has nothing to write when no file is open. *)
Lemma flush_idle (n : nat) s b i :
  (forall i d, zget (bufTable b) i = Some d -> bd_valid d = false) -> 0 <= i -> i + Z.of_nat n <= Z.of_nat (length (bufTable b)) ->
  flush_all_from (H := Disk_store) n i (s, b) = Some (Ok tt, (s, b)).
Proof.
  intros Hv. revert i. induction n as [|n IH]; intros i Hi Hn; [done|]. cbn [flush_all_from].
  destruct (zget_is_Some (bufTable b) i) as [d Hd]; [lia|]. erewrite (bind_Ok _ _ _ d) by (unfold get_mgr; by rewrite Hd).
  rewrite (Hv _ _ Hd). cbn [andb]. erewrite bind_Ok by reflexivity. apply IH; lia.
Qed.

End Process.

(** ** Opening and closing the catalogs *)

Definition with_dir (dir : gmap string Z) (b : Base) : Base :=
  mkBase (b_pin b) (b_frm b) (b_open b) (b_files b) (b_nfd b) (b_max b) (b_num b) dir.

Section Catalogs.
Implicit Types (u : Unix) (w : World) (k j ptr : Z) (name : string) (x : Obj) (xs : list Obj) (b : Base) (l lr la : list hpage) (T : gset (Z * Z)).

Lemma delete_pool_idle T w : world_ok T w -> files (w_disk w) = ∅ -> delete_pool w = Some (Ok tt, w).
Proof.
  intros Hw Hf. pose proof (wo_pool _ _ Hw) as Hi. destruct (pi_clock _ _ _ _ Hi) as (Hn & Hl & _).
  unfold delete_pool, on_pool, BufMgr_delete. erewrite bind_Ok by reflexivity. rewrite flush_idle; [by destruct w| |lia|lia].
  intros i d Hd. pose proof (pi_frame _ _ _ _ Hi i d Hd ltac:(done)) as Hfi. unfold frame_inv in Hfi. destruct (bd_valid d); [|done].
  destruct Hfi as (_ & _ & q & Hq & _). cbn in Hq. unfold disk_page, content, conn in Hq. by rewrite Hf, lookup_empty in Hq.
Qed.

(** The objects do not depend on the directory. *)
Lemma adds_dir k T0 b0 T b x dir : adds k T0 b0 T b x -> adds k T0 (with_dir dir b0) T (with_dir dir b) x.
Proof. intros [H1 H2 H3 H4 H5 H6 (_ & H8 & H9) H10 H11 H16 H20 H21 H22 H23 H24 H25 H26]. by split. Qed.

Lemma crew_dir k T0 b0 xs T b dir : crew k T0 b0 xs T b -> crew k T0 (with_dir dir b0) xs T (with_dir dir b).
Proof.
  revert k T0 b0. induction xs as [|x xs IH]; intros k T0 b0; cbn [crew].
  - intros [-> [A1 A2 A3 A4 A5 A6 A7 A8]]. split; [done|]. by split.
  - intros (T1 & b1 & Hx & Hc). exists T1, (with_dir dir b1). split; [by apply adds_dir|by apply IH].
Qed.

(** What happens between two states that hold the same objects. *)
Lemma crew_restored k b0 xs T w w' :
  crew k T b0 xs T (base_of w) -> restored w w' -> crew k T (with_dir (u_dir (unix (w_disk w'))) b0) xs T (base_of w').
Proof.
  intros Hc [R1 R2 R3 R4 R5 R6 R7]. apply (crew_dir _ _ _ _ _ _ (u_dir (unix (w_disk w')))) in Hc. eapply crew_alike; [exact Hc|]. by split.
Qed.

(** The object opened last is deleted. *)
Lemma crew_delete k b0 xs x w l :
  crew k ∅ b0 (xs ++ [x]) ∅ (base_of w) -> world_ok ∅ w -> heap_ok (wlog w (o_file x)) l ->
  exists w' h', call HeapFile_delete (o_heap x) w = Some (Ok (Ok tt, h'), w') /\ crew k ∅ b0 xs ∅ (base_of w') /\ world_ok ∅ w' /\
    (forall nm m, named_page w' nm m = named_page w nm m).
Proof.
  intros (T1 & b1 & Hc & Hx)%crew_snoc Hw Hok. assert (T1 = ∅) as -> by (pose proof (ad_sub _ _ _ _ _ _ Hx); set_solver).
  pose proof (adds_session _ _ _ _ _ _ _ Hx Hw Hok) as Hse. destruct (HeapFile_delete_ok _ _ _ _ _ _ _ _ _ Hse) as (w' & h' & R & [E1 E2 E3 E4]).
  exists w', h'. split; [exact (call_run _ _ _ _ _ _ R)|]. split; [|done]. eapply crew_alike; [exact Hc|]. by apply back_alike.
Qed.

Lemma crew_heap k T0 b0 xs x T w l :
  crew k T0 b0 xs T (base_of w) -> NoDup (o_name <$> xs) -> x ∈ xs -> heap_at T w (o_name x) l -> heap_ok (wlog w (o_file x)) l.
Proof.
  intros Hc Hnd Hin [_ Hok _]. destruct (crew_open _ _ _ _ _ _ _ Hc Hnd Hin) as [Ho _]. eapply heap_ok_ext; [|exact Hok].
  intros m _. symmetry. by apply named_open.
Qed.

(** The objects [relCat] and [attrCat], opened in [b0]. *)
Record cats_open k b0 (relCat attrCat : HeapFile) w : Prop := {
  co_world : world_ok ∅ w;
  co_crew : exists fr fa cr ca, crew k ∅ b0 [mkObj RELCATNAME fr relCat cr; mkObj ATTRCATNAME fa attrCat ca] ∅ (base_of w);
}.

Lemma cats_nodup fr fa relCat attrCat cr ca : NoDup (o_name <$> [mkObj RELCATNAME fr relCat cr; mkObj ATTRCATNAME fa attrCat ca]).
Proof. cbn. apply (bool_decide_unpack _). by vm_compute. Qed.

Lemma close_cats_run k b0 relCat attrCat w lr la :
  cats_open k b0 relCat attrCat w -> heap_at ∅ w RELCATNAME lr -> heap_at ∅ w ATTRCATNAME la -> b_files b0 = ∅ -> b_open b0 = ∅ ->
  exists w', close_all relCat attrCat w = Some (Ok tt, w') /\ world_ok ∅ w' /\ alike b0 (base_of w') /\ (forall nm m, named_page w' nm m = named_page w nm m).
Proof.
  intros [Hw (fr & fa & cr & ca & Hc)] Hr Ha Hf0 Ho0. set (xr := mkObj RELCATNAME fr relCat cr) in *. set (xa := mkObj ATTRCATNAME fa attrCat ca) in *.
  pose proof (cats_nodup fr fa relCat attrCat cr ca) as Hnd. fold xr xa in Hnd.
  pose proof (crew_heap _ _ _ _ xr _ _ lr Hc Hnd ltac:(by left) Hr) as Hor. pose proof (crew_heap _ _ _ _ xa _ _ la Hc Hnd ltac:(by right; left) Ha) as Hoa.
  apply (crew_perm _ _ _ _ [xa; xr]) in Hc; [|by constructor|done].
  destruct (crew_delete k b0 [xa] xr w lr Hc Hw Hor) as (w1 & h1 & R1 & Hc1 & Hw1 & N1).
  assert (heap_at ∅ w1 ATTRCATNAME la) as Ha1.
  { destruct Ha as [A1 A2 A3]. split; [done| |by intros ? ? _ ?%not_elem_of_empty]. eapply heap_ok_ext; [|exact A2]. intros m _. apply N1. }
  pose proof (crew_heap _ _ _ _ xa _ _ la Hc1 ltac:(cbn; apply list.NoDup_singleton) ltac:(by left) Ha1) as Hoa1.
  destruct (crew_delete k b0 [] xa w1 la Hc1 Hw1 Hoa1) as (w2 & h2 & R2 & [_ Hal] & Hw2 & N2).
  exists w2. split; [|split; [done|]; split; [done|]; intros; by rewrite N2, N1].
  unfold close_all, RelCatalog_delete, AttrCatalog_delete. change relCat with (o_heap xr). change attrCat with (o_heap xa).
  erewrite (bind_Ok _ _ _ _ w1) by (run_with R1; reflexivity). erewrite (bind_Ok _ _ _ _ w2) by (run_with R2; reflexivity).
  eapply delete_pool_idle; [exact Hw2|]. change (b_files (base_of w2) = ∅). by rewrite (al_files _ _ Hal).
Qed.

End Catalogs.

Section Open.
Implicit Types (u : Unix) (w : World) (k j ptr : Z) (name : string) (l lr la : list hpage) (m : gmap string Z) (A : list attr).

Lemma heap_at_same w w' name l : heap_at ∅ w name l -> (forall n, named_page w' name n = named_page w name n) -> heap_at ∅ w' name l.
Proof. intros [H1 H2 _] Hn. split; [done| |by intros ? ? _ ?%not_elem_of_empty]. eapply heap_ok_ext; [|exact H2]. intros n _. apply Hn. Qed.

(** One more object without changed pages. *)
Lemma aboard_new k j w0 c xs w name l :
  aboard k ∅ w0 c [] xs ∅ w -> ready k j ∅ w0 -> heap_at ∅ w name l -> name ∉ names_of xs -> Z.of_nat (length xs) + 1 <= k -> c + 1 <= j ->
  exists f h cur w', HeapFile_new name w = Some (Ok (OK, h), w') /\ aboard k ∅ w0 (c + 1) [] (xs ++ [(mkObj name f h cur, l)]) ∅ w' /\ kept 1 [] w w'.
Proof.
  intros Ha Hrd Hat Hn Hk Hj. pose proof (aboard_ready _ _ _ _ _ _ _ _ _ (j - c) Ha Hrd ltac:(lia)) as Hrd1.
  destruct (HeapFile_new_ok _ _ ∅ w name l Hrd1 Hat ltac:(lia) ltac:(lia)) as (f & h & w' & R & Hse & _ & _ & _ & Hkp).
  exists f, h, (next_no l), w'. split; [done|]. split; [|done]. rewrite <- (union_idemp_L (∅ : gset (Z * Z))) at 2.
  by eapply (aboard_push k ∅ w0 c [] xs ∅ w ∅ w' (mkObj name f h (next_no l)) l).
Qed.

Lemma open_cats_run k j w lr la :
  ready k j ∅ w -> heap_at ∅ w RELCATNAME lr -> heap_at ∅ w ATTRCATNAME la -> 2 <= k -> 2 <= j ->
  exists relCat attrCat w', open_catalogs w = Some (Ok (relCat, attrCat), w') /\ cats_open k (base_of w) relCat attrCat w' /\
    ready (k - 2) (j - 2) ∅ w' /\ kept 2 [] w w'.
Proof.
  intros Hrd Hr Ha Hk Hj.
  destruct (aboard_new k j w 0 [] w RELCATNAME lr) as (fr & relCat & cr & w1 & R1 & B1 & K1); try done.
  { apply aboard_nil; [done..|apply Hrd]. } { apply not_elem_of_nil. } { cbn. lia. } { lia. }
  destruct (aboard_new k j w 1 [(mkObj RELCATNAME fr relCat cr, lr)] w1 ATTRCATNAME la) as (fa & attrCat & ca & w2 & R2 & B2 & K2); try done.
  { eapply heap_at_same; [exact Ha|]. intros n. apply (kp_named _ _ _ _ K1), not_elem_of_nil. }
  { cbn. by intros [=]%list_elem_of_singleton. }
  exists relCat, attrCat, w2. split; [unfold open_catalogs, RelCatalog_new, AttrCatalog_new; run_with R1; rewrite decide_False by (intros Hx; by apply Hx); run_with R2; by rewrite decide_False by (intros Hx; by apply Hx)|]. split.
  - split; [apply B2|]. exists fr, fa, cr, ca. exact (ab_crew _ _ _ _ _ _ _ _ B2).
  - split; [|eapply kept_trans; [exact K1|exact K2|lia]]. exact (aboard_ready _ _ _ _ _ _ _ _ _ (j - 2) B2 Hrd ltac:(lia)).
Qed.

(** The start of minirel on a directory with both catalogs. *)
Lemma minirel_start_run k j u ptr lr la m A :
  unix_ok u -> 2 <= k <= 50 -> Z.of_nat (size (u_fds u)) + k <= u_maxFds u -> 0 < ptr -> 2 <= j -> ptr + 64 * j <= 2 ^ 62 ->
  catalogs ∅ (process u ptr) lr la m A ->
  exists relCat attrCat w, minirel_start (process u ptr) = Some (Ok (relCat, attrCat), w) /\ cats_open k (base_of (boot u ptr)) relCat attrCat w /\
    ready (k - 2) (j - 2) ∅ w /\ catalogs ∅ w lr la m A /\ (forall nm n, named_page w nm n = named_page (process u ptr) nm n).
Proof.
  intros Hu Hk Hfd Hptr Hj Hp [C1 C2 C3 C4]. pose proof (boot_ready k j u ptr Hu ltac:(lia) Hfd Hptr ltac:(lia) Hp) as Hrd.
  destruct (open_cats_run k j (boot u ptr) lr la Hrd) as (relCat & attrCat & w & R & Ho & Hrd' & [K _]); [| |lia|lia|].
  { eapply heap_at_same; [exact C1|]. intros n. apply boot_page. } { eapply heap_at_same; [exact C3|]. intros n. apply boot_page. }
  assert (forall nm n, named_page w nm n = named_page (process u ptr) nm n) as Hn by (intros; rewrite K by apply not_elem_of_nil; apply boot_page).
  exists relCat, attrCat, w. split; [unfold minirel_start; run_with (new_pool_run u ptr); exact R|]. do 2 (split; [done|]). split; [|done].
  split; [by eapply heap_at_same|done|by eapply heap_at_same|done].
Qed.

(** [UT_Quit] in a state that holds just the two catalogs open, and the next
    process. *)
Lemma quit_run k u ptr relCat attrCat w w1 lr la m A ptr' :
  cats_open k (base_of (boot u ptr)) relCat attrCat w -> restored w w1 -> world_ok ∅ w1 -> catalogs ∅ w1 lr la m A ->
  exists w', UT_Quit relCat attrCat w1 = Some (Ok tt, w') /\ let u' := unix (w_disk w') in unix_ok u' /\
    size (u_fds u') = size (u_fds u) /\ u_maxFds u' = u_maxFds u /\ catalogs ∅ (process u' ptr') lr la m A /\
    (forall nm n, named_page (process u' ptr') nm n = named_page w1 nm n).
Proof.
  intros [_ (fr & fa & cr & ca & Hc)] Hres Hw1 [C1 C2 C3 C4]. set (b0 := with_dir (u_dir (unix (w_disk w1))) (base_of (boot u ptr))).
  destruct (close_cats_run k b0 relCat attrCat w1 lr la) as (w' & R & Hw' & [L1 L2 L3 L4 L5 L6 L7 L8] & N); try done.
  { split; [done|]. exists fr, fa, cr, ca. by eapply crew_restored. }
  assert (forall nm n, named_page (process (unix (w_disk w')) ptr') nm n = named_page w1 nm n) as Hn.
  { intros nm n. rewrite process_page; [apply N|]. transitivity (b_open b0); [exact L3|apply OpenFileHashTbl_new_ok]. }
  exists w'. split; [exact R|]. split; [apply Hw'|]. split; [exact L5|]. split; [exact L6|]. split; [|done].
  split; [by eapply heap_at_same|done|by eapply heap_at_same|done].
Qed.

End Open.

(** ** dbcreate *)

(** The code ends in a state with [P], or in an error with [E]. *)
Definition ends {A} (E : World -> Prop) (c : CODE World A) (w : World) (P : A -> World -> Prop) : Prop :=
  exists r w', c w = Some (r, w') /\ match r with Ok a => P a w' | Err _ => E w' end.

Lemma ends_bind {A B} E (c : CODE World A) (k : A -> CODE World B) w P Q :
  ends E c w P -> (forall a w', P a w' -> ends E (k a) w' Q) -> ends E (let! a := c in k a) w Q.
Proof.
  intros ([a|e] & w1 & R & H) Hk.
  - destruct (Hk a w1 H) as (r & w2 & R2 & H2). exists r, w2. split; [|done]. by rewrite (bind_Ok _ _ _ _ _ R).
  - exists (Err e), w1. split; [|done]. by rewrite (bind_Err _ _ _ _ _ R).
Qed.

Lemma ends_defined {A B} E (x : option A) (k : A -> CODE World B) w a Q : x = Some a -> ends E (k a) w Q -> ends E (let! a := defined x in k a) w Q.
Proof. intros Hx (r & w' & R & H). exists r, w'. split; [|done]. by rewrite (bind_Ok _ _ _ _ _ (defined_run _ _ w Hx)). Qed.

Definition some_ok (w : World) : Prop := exists T, world_ok T w.

Definition name_okb (nm : string) : bool := bool_decide (x00 ∉ chars nm) && Nat.ltb (String.length nm) 32.

Lemma name_okb_ok nm : name_okb nm = true -> name_ok nm.
Proof. intros [H1%bool_decide_eq_true_1 H2%Nat.ltb_lt]%andb_true_iff. by split. Qed.

Section Create.
Context (k : Z) (w0 : World) (b0 : Base) (relCat attrCat : HeapFile).
Hypothesis Hk : 3 <= k.
Implicit Types (w : World) (j : Z) (m : gmap string Z) (A : list attr) (nm rel : string).

(** The catalogs are open and hold [m] and [A]; [j] more objects can be made. *)
Record booting j m A w : Prop := {
  bo_open : cats_open k b0 relCat attrCat w;
  bo_ready : ready (k - 2) j ∅ w;
  bo_cats : exists lr la A', catalogs ∅ w lr la m A' /\ A' ≡ₚ A;
  bo_other : forall nm n, nm ∉ cat_names -> named_page w nm n = named_page w0 nm n;
}.

Lemma cats_finished w name l w' : cats_open k b0 relCat attrCat w -> finished ∅ w name l w' -> cats_open k b0 relCat attrCat w'.
Proof.
  intros [_ (fr & fa & cr & ca & Hc)] [F1 [R1 R2 R3 R4 R5 R6 R7] F3 F4 F5 F6]. split; [done|]. exists fr, fa, cr, ca.
  eapply crew_alike; [exact Hc|]. by split.
Qed.

(** One tuple more in a catalog. *)
Lemma booting_step j m A w name l w' lr la m' A1 A' :
  booting j m A w -> finished ∅ w name l w' -> name ∈ cat_names -> catalogs ∅ w' lr la m' A1 -> A1 ≡ₚ A' -> booting (j - 1) m' A' w'.
Proof.
  intros [B1 B2 _ B4] Hf Hin Hc HA. split; [by eapply cats_finished|eapply finished_ready; [exact B2|exact Hf|lia]|by exists lr, la, A1|].
  intros nm n Hnm. rewrite (fi_other _ _ _ _ _ Hf); [by apply B4|]. by intros ->.
Qed.

Lemma stage_rel j m A w (rd : RelDesc) nm :
  booting j m A w -> 1 <= j -> name_ok nm -> length (rd_relName rd) = 32%nat -> cstring (rd_relName rd) = Some (chars nm) -> inS 32 (rd_attrCnt rd) ->
  m !! nm = None -> ends some_ok (RelCatalog_addInfo rd) w (fun _ => booting (j - 1) (<[nm := rd_attrCnt rd]> m) A).
Proof.
  intros Hb Hj Hnm Hl Hc Hi Hm. pose proof Hb as [_ Hrd (lr & la & A' & [C1 C2 C3 C4] & HA) _].
  destruct (addInfo_run (k - 2) j ∅ w lr m rd nm Hrd C1 C2 ltac:(lia) Hj Hnm Hl Hc Hi Hm) as (r & w' & l' & R & Hf & Hr).
  exists r, w'. split; [done|]. destruct r as [[]|e]; [|exists ∅; apply Hf].
  eapply (booting_step j m A w _ _ w' l' la _ A' A Hb Hf); [by left| |done]. split; [apply Hf|done| |done]. by eapply finished_other.
Qed.

Lemma stage_attr j m A w ad rel nm off ty len :
  booting j m A w -> 1 <= j -> name_ok rel -> name_ok nm -> ad_holds rel ad -> inS 32 off -> inS 32 ty -> inS 32 len ->
  let a := mkAttr rel nm off ty len in
  ends some_ok (describe nm off ty len ad) w (fun ad' w' => ad' = tuple_of a /\ booting (j - 1) m (a :: A) w').
Proof.
  intros Hb Hj Hrel Hnm (D1 & D2 & D3) I1 I2 I3 a. pose proof Hb as [_ Hrd (lr & la & A' & [C1 C2 C3 C4] & HA) _]. unfold describe.
  destruct (strcpy_name (ad_attrName ad) (str nm) nm Hnm D3 (cstring_c_str nm (proj1 Hnm))) as (n & Hcp & Hn & Hcn).
  eapply ends_defined; [unfold set_attr; rewrite Hcp; reflexivity|]. set (ad1 := mkAttrDesc (ad_relName ad) n off ty len).
  assert (pad_AttrDesc ad1 = Some (tuple_of a)) as Hpad by (by apply (pad_AttrDesc_ok rel nm ad1)).
  destruct (attr_addInfo_run (k - 2) j ∅ w la A' ad1 a Hrd C3 C4 ltac:(lia) Hj ltac:(by split) Hpad) as (r & w' & la' & A1 & R & Hf & Hs & Hr).
  eapply (ends_bind _ _ _ _ (fun _ => booting (j - 1) m (a :: A))).
  - exists r, w'. split; [done|]. destruct r as [[]|e]; [|exists ∅; apply Hf].
    eapply (booting_step j m A w _ _ w' lr la' m A1 _ Hb Hf); [by right; left| |by rewrite Hr, HA]. split; [|done|apply Hf|done]. by eapply finished_other.
  - intros _ w1 Hb1. exists (Ok (tuple_of a)), w1. split; [|done]. by rewrite Hpad.
Qed.

Lemma tuple_holds a : name_ok (at_rel a) -> name_ok (at_name a) -> ad_holds (at_rel a) (tuple_of a).
Proof. intros Hr Hn. split; [by apply length_name_field|]. split; [by apply cstring_name_field|by apply length_name_field]. Qed.

End Create.

(** What the catalogs say of themselves. *)
Definition self_rels : gmap string Z := {[RELCATNAME := 2; ATTRCATNAME := 5]}.
Definition self_attrs : list attr := [
  mkAttr RELCATNAME "relName" 0 0 32; mkAttr RELCATNAME "attrCnt" 32 1 4;
  mkAttr ATTRCATNAME "relName" 0 0 32; mkAttr ATTRCATNAME "attrName" 32 0 32; mkAttr ATTRCATNAME "attrOffset" 64 1 4;
  mkAttr ATTRCATNAME "attrType" 68 1 4; mkAttr ATTRCATNAME "attrLen" 72 1 4 ].

Section Dbcreate.
Context (rd0 : RelDesc) (ad0 : AttrDesc).
Hypothesis Hrd0 : length (rd_relName rd0) = 32%nat.
Hypothesis Had0 : length (ad_relName ad0) = 32%nat /\ length (ad_attrName ad0) = 32%nat.
Implicit Types (w : World) (j : Z).

(** One call of [describe] for the attribute [a], and the rest. *)
Lemma stage_describe {B} k w0 b0 relCat attrCat j m A w ad a (c : AttrDesc -> CODE World B) Q :
  3 <= k -> booting k w0 b0 relCat attrCat j m A w -> 1 <= j -> name_okb (at_rel a) && name_okb (at_name a) = true ->
  inS 32 (at_off a) /\ inS 32 (at_type a) /\ inS 32 (at_len a) -> ad_holds (at_rel a) ad ->
  (forall w', booting k w0 b0 relCat attrCat (j - 1) m (a :: A) w' -> ad_holds (at_rel a) (tuple_of a) -> ends some_ok (c (tuple_of a)) w' Q) ->
  ends some_ok (let! ad := describe (at_name a) (at_off a) (at_type a) (at_len a) ad in c ad) w Q.
Proof.
  intros Hk Hb Hj [Hr%name_okb_ok Hn%name_okb_ok]%andb_true_iff (I1 & I2 & I3) Had Hc. destruct a as [rel nm off ty len].
  eapply ends_bind; [exact (stage_attr k w0 b0 relCat attrCat Hk j m A w ad rel nm off ty len Hb Hj Hr Hn Had I1 I2 I3)|]. intros ad' w' [-> Hb']. apply Hc; [done|]. by apply (tuple_holds (mkAttr rel nm off ty len)).
Qed.

Lemma set_rel_holds rel ad : name_ok rel -> length (ad_relName ad) = 32%nat -> length (ad_attrName ad) = 32%nat ->
  exists ad', set_rel rel ad = Some ad' /\ ad_holds rel ad'.
Proof.
  intros Hrel Hl1 Hl2. destruct (strcpy_name (ad_relName ad) (str rel) rel Hrel Hl1 (cstring_c_str rel (proj1 Hrel))) as (n & Hn & Hl & Hc).
  unfold set_rel. rewrite Hn. eexists. by split.
Qed.

(** The nine calls of [addInfo] one after the other. *)
Lemma describe_catalogs_run k w0 b0 relCat attrCat j w :
  3 <= k -> booting k w0 b0 relCat attrCat j ∅ [] w -> 9 <= j ->
  ends some_ok (describe_catalogs rd0 ad0) w (fun _ => booting k w0 b0 relCat attrCat (j - 9) self_rels (reverse self_attrs)).
Proof.
  intros Hk Hb Hj. assert (name_ok RELCATNAME /\ name_ok ATTRCATNAME) as [Nr Na] by (split; apply name_okb_ok; by vm_compute).
  unfold describe_catalogs.
  destruct (strcpy_name (rd_relName rd0) (str RELCATNAME) RELCATNAME Nr Hrd0 (cstring_c_str _ (proj1 Nr))) as (n1 & C1 & L1 & S1).
  eapply ends_defined; [exact C1|].
  eapply ends_bind; [eapply (stage_rel k w0 b0 relCat attrCat Hk j ∅ [] w (mkRelDesc n1 2) RELCATNAME Hb ltac:(lia) Nr L1 S1); done|].
  intros [] w1 B1. cbn [rd_attrCnt] in B1. eapply ends_defined; [unfold pad_RelDesc; cbn [rd_relName]; rewrite (pad_name_ok n1 RELCATNAME) by done; reflexivity|].
  destruct (set_rel_holds RELCATNAME ad0 Nr (proj1 Had0) (proj2 Had0)) as (ad1 & C2 & H1). eapply ends_defined; [exact C2|].
  refine (stage_describe k w0 b0 relCat attrCat _ _ _ w1 ad1 (mkAttr RELCATNAME "relName" 0 0 32) _ _ Hk B1 ltac:(lia) eq_refl ltac:(done) H1 _). intros w2 B2 H2.
  refine (stage_describe k w0 b0 relCat attrCat _ _ _ w2 _ (mkAttr RELCATNAME "attrCnt" 32 1 4) _ _ Hk B2 ltac:(lia) eq_refl ltac:(done) H2 _). intros w3 B3 H3.
  destruct (strcpy_name (name_field RELCATNAME) (str ATTRCATNAME) ATTRCATNAME Na (length_name_field _ Nr) (cstring_c_str _ (proj1 Na))) as (n2 & C3 & L3 & S3).
  eapply ends_defined; [exact C3|].
  eapply ends_bind; [eapply (stage_rel k w0 b0 relCat attrCat Hk _ _ _ w3 (mkRelDesc n2 5) ATTRCATNAME B3 ltac:(lia) Na L3 S3); done|].
  intros [] w4 B4. cbn [rd_attrCnt] in B4. destruct H3 as (Q1 & _ & Q3).
  destruct (set_rel_holds ATTRCATNAME _ Na Q1 Q3) as (ad2 & C4 & H4). eapply ends_defined; [exact C4|].
  refine (stage_describe k w0 b0 relCat attrCat _ _ _ w4 ad2 (mkAttr ATTRCATNAME "relName" 0 0 32) _ _ Hk B4 ltac:(lia) eq_refl ltac:(done) H4 _). intros w5 B5 H5.
  refine (stage_describe k w0 b0 relCat attrCat _ _ _ w5 _ (mkAttr ATTRCATNAME "attrName" 32 0 32) _ _ Hk B5 ltac:(lia) eq_refl ltac:(done) H5 _). intros w6 B6 H6.
  refine (stage_describe k w0 b0 relCat attrCat _ _ _ w6 _ (mkAttr ATTRCATNAME "attrOffset" 64 1 4) _ _ Hk B6 ltac:(lia) eq_refl ltac:(done) H6 _). intros w7 B7 H7.
  refine (stage_describe k w0 b0 relCat attrCat _ _ _ w7 _ (mkAttr ATTRCATNAME "attrType" 68 1 4) _ _ Hk B7 ltac:(lia) eq_refl ltac:(done) H7 _). intros w8 B8 H8.
  refine (stage_describe k w0 b0 relCat attrCat _ _ _ w8 _ (mkAttr ATTRCATNAME "attrLen" 72 1 4) _ _ Hk B8 ltac:(lia) eq_refl ltac:(done) H8 _). intros w9 B9 _.
  exists (Ok tt), w9. split; [done|]. replace (j - 9) with (j - 1 - 1 - 1 - 1 - 1 - 1 - 1 - 1 - 1) by lia.
  replace self_rels with (<[ATTRCATNAME:=5]> (<[RELCATNAME:=2]> (∅ : gmap string Z))) by (by vm_compute). exact B9.
Qed.

(** A new heap file beside the others. *)
Lemma stage_heap {B} k j w name (c : CODE World B) Q :
  ready k j ∅ w -> 1 <= k -> 2 <= j -> name <> ""%string -> of_map (w_open w) !! name = None -> u_dir (unix (w_disk w)) !! name = None ->
  (forall w', ready k (j - 2) ∅ w' -> created ∅ w name w' -> ends some_ok c w' Q) -> ends some_ok (createHeapFile name ;;; c) w Q.
Proof.
  intros Hrd Hk Hj Hne Hno Hdir Hc. destruct (createHeapFile_run k j ∅ w name Hrd Hk Hj Hne Hno Hdir) as (r & w' & R & Hr).
  eapply (ends_bind _ _ _ _ (fun _ => created ∅ w name)); [exists r, w'; split; [exact R|by destruct r]|].
  intros _ w1 Hcr. apply Hc; [|done]. destruct Hcr as [K1 K2 K3 K4 K5 K6]. pose proof (rdy_ptr _ _ _ _ Hrd). eapply ready_restored; [done..|lia].
Qed.

Lemma new_heap_at w name w' : name <> ""%string -> created ∅ w name w' -> exists n, heap_at ∅ w' name [(n, [])].
Proof. intros Hne [_ _ [n Hok] _ _ _]. exists n. split; [done|done|by intros ? ? _ ?%not_elem_of_empty]. Qed.

(** The state that dbcreate leaves for the next process. *)
Record database (u : Unix) (u' : Unix) : Prop := {
  db_unix : unix_ok u';
  db_fds : size (u_fds u') = size (u_fds u) /\ u_maxFds u' = u_maxFds u;
  db_cats : forall ptr, exists lr la A, catalogs ∅ (process u' ptr) lr la self_rels A /\ A ≡ₚ self_attrs;
  db_other : forall ptr nm n, nm ∉ cat_names -> named_page (process u' ptr) nm n = named_page (process u ptr) nm n;
}.

Lemma process_ptr u ptr ptr' nm n : named_page (process u ptr) nm n = named_page (process u ptr') nm n.
Proof. unfold named_page. cbn [w_open process]. by rewrite (proj2 OpenFileHashTbl_new_ok), !lookup_empty. Qed.

(** The end of dbcreate. *)
Lemma dbcreate_close k u ptr b0 relCat attrCat j w :
  booting k (boot u ptr) b0 relCat attrCat j self_rels (reverse self_attrs) w -> b_files b0 = ∅ -> b_open b0 = ∅ -> b_nfd b0 = size (u_fds u) ->
  b_max b0 = u_maxFds u -> ends some_ok (close_all relCat attrCat) w (fun _ w' => database u (unix (w_disk w'))).
Proof.
  intros [B1 B2 (lr & la & A & [C1 C2 C3 C4] & HA) B4] Hf Ho Hn Hm.
  destruct (close_cats_run k b0 relCat attrCat w lr la B1 C1 C3 Hf Ho) as (w' & R & Hw' & [L1 L2 L3 L4 L5 L6 L7 L8] & N).
  exists (Ok tt), w'. split; [done|]. assert (of_map (w_open w') = ∅) as Hno by (rewrite <- Ho; exact L3).
  split; [apply Hw'|split; [by rewrite <- Hn|by rewrite <- Hm]| |].
  - intros p. exists lr, la, A. split; [|by rewrite HA, reverse_Permutation].
    split; [|done| |done]; (eapply heap_at_same; [done|]; intros n; by rewrite process_page, N).
  - intros p nm n Hnm. rewrite process_page, N, B4, boot_page by done. apply process_ptr.
Qed.

Lemma dbcreate_run k u ptr :
  unix_ok u -> u_dir u !! RELCATNAME = None -> u_dir u !! ATTRCATNAME = None -> 3 <= k <= 50 ->
  Z.of_nat (size (u_fds u)) + k <= u_maxFds u -> 0 < ptr -> ptr + 64 * 16 <= 2 ^ 62 ->
  ends some_ok (dbcreate_main rd0 ad0) (process u ptr) (fun _ w => database u (unix (w_disk w))).
Proof.
  intros Hu Hr Ha Hk Hfd Hp1 Hp2. unfold dbcreate_main. pose proof (boot_ready k 16 u ptr Hu ltac:(lia) Hfd Hp1 ltac:(lia) Hp2) as Hrd.
  eapply (ends_bind _ _ _ _ (fun _ w => w = boot u ptr)); [by exists (Ok tt), (boot u ptr)|]. intros _ w ->.
  assert (of_map (w_open (boot u ptr)) = ∅) as Ho by apply OpenFileHashTbl_new_ok.
  apply (stage_heap k 16); [done|lia|lia|done|by rewrite Ho|done|]. intros w1 Hrd1 Hc1. pose proof (cr_restored _ _ _ _ Hc1) as Re1.
  destruct (new_heap_at (boot u ptr) RELCATNAME w1 ltac:(done) Hc1) as [n1 H1].
  apply (stage_heap k 14); [done|lia|lia|done|by rewrite (re_open _ _ Re1), Ho| |].
  { destruct (cr_dir _ _ _ _ Hc1) as [i ->]. by rewrite lookup_insert_ne. }
  intros w2 Hrd2 Hc2. destruct (new_heap_at w1 ATTRCATNAME w2 ltac:(done) Hc2) as [n2 H2].
  assert (restored (boot u ptr) w2) as [_ _ E3 E4 E5 E6 _] by (transitivity w1; [done|apply Hc2]).
  assert (heap_at ∅ w2 RELCATNAME [(n1, [])]) as H1' by (eapply heap_at_same; [exact H1|]; intros n; by apply (cr_named _ _ _ _ Hc2)).
  destruct (open_cats_run k 12 w2 _ _ Hrd2 H1' H2 ltac:(lia) ltac:(lia)) as (relCat & attrCat & w3 & R3 & Ho3 & Hrd3 & [K3 _]).
  eapply (ends_bind _ _ _ _ (fun x w => x = (relCat, attrCat) /\ w = w3)); [by exists (Ok (relCat, attrCat)), w3|]. intros _ _ [-> ->].
  eapply ends_bind; [apply (describe_catalogs_run k (boot u ptr) (base_of w2) relCat attrCat 10 w3); [lia| |lia]|].
  - split; [done|done| |].
    + exists [(n1, [])], [(n2, [])], []. split; [|done]. split; [by eapply heap_at_same; [|intros; apply K3, not_elem_of_nil]| | |by split].
      * split; [by rewrite map_to_list_empty|by intros nm c Hx]. 
      * by eapply heap_at_same; [|intros; apply K3, not_elem_of_nil].
    + intros nm n Hnm. rewrite K3 by apply not_elem_of_nil. unfold cat_names in Hnm. rewrite !not_elem_of_cons in Hnm.
      by rewrite (cr_named _ _ _ _ Hc2), (cr_named _ _ _ _ Hc1) by apply Hnm.
  - intros [] w4 B4. eapply dbcreate_close; [exact B4|exact E4|rewrite <- Ho; exact E3|exact E5|exact E6].
Qed.

End Dbcreate.
