(* ===== verification/CatProps.v ===== *)
(** * Properties of the catalogs *)

From S2P Require Export CatDestroy HeapFileProps.

(** ** A small database *)

Section Demo.
Implicit Types (w : World).

Definition cat_world0 : option World :=
  '(r, w) ← createHeapFile RELCATNAME heap_world0;
  '(r', w) ← createHeapFile ATTRCATNAME w;
  match r, r' with Ok _, Ok _ => Some w | _, _ => None end.

(** The new catalogs are empty. *)
Lemma empty_catalogs T w n n' :
  heap_at T w RELCATNAME [(n, [])] -> heap_at T w ATTRCATNAME [(n', [])] -> catalogs T w [(n, [])] [(n', [])] ∅ [].
Proof.
  intros H1 H2. split; [done| |done|done]. split; [by rewrite map_to_list_empty|]. intros nm c Hc. by rewrite lookup_empty in Hc.
Qed.

Lemma created_heap w name w' : created ∅ w name w' -> name <> ""%string -> exists n, heap_at ∅ w' name [(n, [])].
Proof. intros [C1 C2 [n C3] C4 C5 C6] Hne. exists n. split; [done|done|]. intros f i _. apply not_elem_of_empty. Qed.

Lemma cat_world0_ok : exists w lr la, cat_world0 = Some w /\ ready 1 8 ∅ w /\ catalogs ∅ w lr la ∅ [] /\
  (length (heap_recs lr) + length lr <= 1)%nat /\ of_map (w_open w) !! "t"%string = None /\ u_dir (unix (w_disk w)) !! "t"%string = None.
Proof.
  pose proof (idle_ready heap_world0 1 ltac:(by vm_compute) heap_world0_ok ltac:(lia)) as Hrd.
  destruct (createHeapFile_run 1 8 ∅ heap_world0 RELCATNAME Hrd) as (r & w1 & R1 & H1); [lia|lia|done|by vm_compute..|].
  assert ((fun w => (idle w, bool_decide (of_map (w_open w) !! "t"%string = None /\ u_dir (unix (w_disk w)) !! "t"%string = None))) <$> cat_world0 =
    Some (true, true)) as Hi by (vm_compute; reflexivity).
  assert ((fun x => (idle x.2, bool_decide (of_map (w_open x.2) !! ATTRCATNAME = None /\ u_dir (unix (w_disk x.2)) !! ATTRCATNAME = None))) <$>
    createHeapFile RELCATNAME heap_world0 = Some (true, true)) as Hi1 by (vm_compute; reflexivity).
  unfold cat_world0 in Hi |- *. rewrite R1 in Hi, Hi1 |- *. cbn [fmap option_fmap option_map snd] in Hi1. injection Hi1 as Hi1 Hx1.
  apply bool_decide_eq_true_1 in Hx1 as [Hx1 Hx2]. cbn [mbind option_bind] in Hi |- *. destruct r as [[]|e].
  2: { exfalso. destruct (createHeapFile ATTRCATNAME w1) as [[r' w']|]; discriminate Hi. }
  destruct (createHeapFile_run 1 8 ∅ w1 ATTRCATNAME (idle_ready w1 1 Hi1 (cr_world _ _ _ _ H1) ltac:(lia))) as (r & w2 & R2 & H2); [lia|lia|done|done|done|].
  rewrite R2 in Hi |- *. cbn [mbind option_bind] in Hi |- *. destruct r as [[]|e]; [|discriminate Hi].
  cbn [fmap option_fmap option_map] in Hi. injection Hi as Hi Hx. apply bool_decide_eq_true_1 in Hx as [Hx3 Hx4].
  destruct (created_heap _ _ _ H1 ltac:(done)) as [n Hn]. destruct (created_heap _ _ _ H2 ltac:(done)) as [n' Hn'].
  exists w2, [(n, [])], [(n', [])]. split; [done|]. split; [apply idle_ready; [done|apply H2|lia]|].
  split; [|exact (conj (le_n 1) (conj Hx3 Hx4))]. apply empty_catalogs; [|done]. destruct Hn as [N1 N2 N3]. split; [done| |intros; apply not_elem_of_empty].
  eapply heap_ok_ext; [|exact N2]. intros m _. by apply (cr_named _ _ _ _ H2).
Qed.

(** The relation [t] with an integer [a] and a string [b] of five characters. *)
Definition demo_info (nm : string) (ty len : Z) : attrInfo := mkAttrInfo (name_field "t") (name_field nm) ty len None.
Definition demo_attrs : list attrInfo := [demo_info "a" 1 4; demo_info "b" 0 5].
Definition demo_rd : RelDesc := mkRelDesc (replicate 32 x00) 0.
Definition demo_ad : AttrDesc := mkAttrDesc (replicate 32 x00) (replicate 32 x00) 0 0 0.

Lemma demo_name_ok nm : nm ∈ ["t"; "a"; "b"]%string -> name_ok nm.
Proof.
  intros Hin. assert (forall x, x ∈ ["t"; "a"; "b"]%string -> bool_decide (x00 ∉ chars x) = true /\ (String.length x < 32)%nat) as H.
  { intros x [->|[->|[->|?%not_elem_of_nil]%elem_of_cons]%elem_of_cons]%elem_of_cons; [by vm_compute; split; [|lia]..|done]. }
  destruct (H nm Hin) as [H1 H2]. split; [by apply bool_decide_eq_true_1 in H1|done].
Qed.

Lemma demo_key : key_ok "t".
Proof. apply name_key; [done|]. apply demo_name_ok. by left. Qed.

Lemma demo_args : create_args demo_rd demo_ad "t" 2 demo_attrs ["a"; "b"]%string.
Proof.
  assert (forall nm, nm ∈ ["t"; "a"; "b"]%string -> cstring (name_field nm) = Some (chars nm)) as Hc by (intros; by apply cstring_name_field, demo_name_ok).
  split; [done|done|split; [done|apply demo_name_ok; by left]|cbn; lia| |].
  - constructor; [|constructor; [|constructor]]; apply Hc; by repeat constructor.
  - by repeat constructor.
Qed.

Lemma demo_nodup : NoDup ["a"; "b"]%string.
Proof. by apply (bool_decide_unpack (NoDup ["a"; "b"]%string)). Qed.

Definition demo_A : list attr := [mkAttr "t" "a" 0 1 4; mkAttr "t" "b" 4 0 5].

(** The order of the tuples in a catalog whose file is computed. *)
Lemma fmap_same {A B} (f : A -> B) (L X Y : list A) :
  (forall a b, a ∈ L -> b ∈ L -> f a = f b -> a = b) -> X ⊆ L -> Y ⊆ L -> f <$> X = f <$> Y -> X = Y.
Proof.
  intros Hf. revert Y. induction X as [|x X IH]; intros [|y Y] HX HY Heq; try discriminate Heq; [done|]. cbn in Heq. injection Heq as Hxy Heq.
  f_equal; [apply Hf; [apply HX; left|apply HY; left|done]|]. apply IH; [intros a Ha; apply HX; by right|intros a Ha; apply HY; by right|done].
Qed.

Lemma demo_order w la A L l' :
  (forall a b, a ∈ L -> b ∈ L -> AttrDesc_bytes (tuple_of a) = AttrDesc_bytes (tuple_of b) -> a = b) ->
  heap_at ∅ w ATTRCATNAME la -> attr_state la A -> A ≡ₚ L -> heap_contents (named_page w ATTRCATNAME) = Some l' ->
  (heap_recs l').*2 = (fun a => AttrDesc_bytes (tuple_of a)) <$> L -> A = L.
Proof.
  intros Hinj [_ Hok _] [Hs _] Hp Hl. rewrite (heap_contents_ok _ _ _ Hok Hl), Hs. apply (fmap_same _ L); [done| |done]. intros a. by rewrite Hp.
Qed.

(** Different attributes have different bytes. *)
Definition tells_apart (L : list attr) : bool :=
  forallb (fun a => forallb (fun b => bool_decide (AttrDesc_bytes (tuple_of a) = AttrDesc_bytes (tuple_of b) -> a = b)) L) L.

Lemma tells_apart_inj L : tells_apart L = true -> forall a b, a ∈ L -> b ∈ L -> AttrDesc_bytes (tuple_of a) = AttrDesc_bytes (tuple_of b) -> a = b.
Proof.
  unfold tells_apart. rewrite forallb_forall. intros H a b Ha Hb. apply list_elem_of_In in Ha, Hb. specialize (H a Ha).
  rewrite forallb_forall in H. specialize (H b Hb). by apply bool_decide_eq_true_1 in H.
Qed.

Definition cat_world1 : option World :=
  w ← cat_world0;
  '(r, w) ← RelCatalog_createRel demo_rd demo_ad 1 "t" 2 demo_attrs w;
  match r with Ok _ => Some w | _ => None end.

Lemma cat_world1_ok : exists w lr la A, cat_world1 = Some w /\ ready 4 8 ∅ w /\ (exists n, heap_at ∅ w "t" [(n, [])]) /\ catalogs ∅ w lr la {["t" := 2]} A /\
  A = demo_A /\
  of_map (w_open w) !! "t"%string = None /\ is_Some (u_dir (unix (w_disk w)) !! "t"%string).
Proof.
  destruct cat_world0_ok as (w0 & lr & la & Hw0 & Hrd & Hca & Hf & Hno & Hdir).
  destruct (createRel_run demo_rd demo_ad 1 1 8 ∅ w0 lr la ∅ [] "t" 2 demo_attrs ["a"; "b"]%string Hrd) as (r & w & R & Hr);
    [lia|lia|done|exact demo_args|done|done|exact demo_nodup|repeat constructor; apply demo_name_ok; by repeat constructor|by vm_compute|done|done|].
  assert ((fun w => (idle w, bool_decide (of_map (w_open w) !! "t"%string = None /\ is_Some (u_dir (unix (w_disk w)) !! "t"%string)))) <$> cat_world1 =
    Some (true, true)) as Hi by (vm_compute; reflexivity).
  assert ((fun w => (fun l => (heap_recs l).*2) <$> heap_contents (named_page w ATTRCATNAME)) <$> cat_world1 =
    Some (Some ((fun a => AttrDesc_bytes (tuple_of a)) <$> demo_A))) as Hl by (vm_compute; reflexivity).
  unfold cat_world1 in Hi, Hl |- *. rewrite Hw0 in Hi, Hl |- *. cbn [mbind option_bind] in Hi, Hl |- *. rewrite R in Hi, Hl |- *.
  cbn [mbind option_bind] in Hi, Hl |- *. destruct r as [[]|e]; [|discriminate Hi]. destruct Hr as [G1 G2 (lr1 & la1 & A1 & G3 & HA) G4 G5].
  cbn [fmap option_fmap option_map] in Hi. injection Hi as Hi Hx. apply bool_decide_eq_true_1 in Hx as [Hx1 Hx2].
  change (Some ((fun l => (heap_recs l).*2) <$> heap_contents (named_page w ATTRCATNAME)) = Some (Some ((fun a => AttrDesc_bytes (tuple_of a)) <$> demo_A))) in Hl.
  apply (inj Some), fmap_Some in Hl as (l' & Hl & Hb). pose proof (demo_order w la1 A1 demo_A l' (tells_apart_inj demo_A ltac:(vm_compute; reflexivity)) (ca_attr _ _ _ _ _ _ G3) (ca_attrs _ _ _ _ _ _ G3) HA Hl (eq_sym Hb)) as HA'.
  exists w, lr1, la1, A1. exact (conj eq_refl (conj (idle_ready w 4 Hi G1 ltac:(lia)) (conj G4 (conj G3 (conj HA' (conj Hx1 Hx2)))))).
Qed.

End Demo.

(** ** Properties *)

(** C5.  [createRel] of a new relation with distinct attribute names that
    fits on a page either fails or puts the relation with its number of
    attributes into relcat, one tuple per attribute with consecutive offsets
    into attrcat, and makes an empty heap file of that name; the entries of
    other relations and all other files stay, and pins, open files and
    descriptors are as before. *)
Theorem createRel_registers rd0 ad0 fuel T w lr la m A rel cnt attrs nms :
  ready 1 (cnt + 4) T w -> catalogs T w lr la m A -> create_args rd0 ad0 rel cnt attrs nms ->
  (length (heap_recs lr) + length lr <= fuel)%nat -> m !! rel = None ->
  NoDup (take (Z.to_nat cnt) nms) -> Forall name_ok (take (Z.to_nat cnt) nms) -> u32 (sum_len (take (Z.to_nat cnt) attrs)) <= PAGESIZE ->
  of_map (w_open w) !! rel = None -> u_dir (unix (w_disk w)) !! rel = None ->
  exists r w', RelCatalog_createRel rd0 ad0 fuel rel cnt attrs w = Some (r, w') /\
    match r with
    | Ok _ => restored w w' /\
        (exists lr' la' A', catalogs T w' lr' la' (<[rel := cnt]> m) A' /\
           A' ≡ₚ attrs_at rel (take (Z.to_nat cnt) attrs) (take (Z.to_nat cnt) nms) 0 ++ A) /\
        (exists n, heap_at T w' rel [(n, [])]) /\
        (forall nm n, nm <> rel -> nm <> RELCATNAME -> nm <> ATTRCATNAME -> named_page w' nm n = named_page w nm n)
    | Err _ => exists T', world_ok T' w'
    end.
Proof.
  intros Hrd Hca Hga Hf Hm Hnd Hok Hwd Hno Hdir.
  destruct (createRel_run rd0 ad0 fuel 1 (cnt + 4) T w lr la m A rel cnt attrs nms Hrd) as (r & w' & R & Hr); try done.
  exists r, w'. split; [done|]. destruct r as [[]|e]; [|done]. by destruct Hr.
Qed.

Lemma createRel_registers_witness :
  exists w r w', cat_world0 = Some w /\ RelCatalog_createRel demo_rd demo_ad 1 "t" 2 demo_attrs w = Some (r, w').
Proof.
  destruct cat_world0_ok as (w & lr & la & Hw & Hrd & Hca & Hf & Hno & Hdir).
  destruct (createRel_registers demo_rd demo_ad 1 ∅ w lr la ∅ [] "t" 2 demo_attrs ["a"; "b"]%string
    (ready_le 1 1 (2 + 4) 8 _ _ ltac:(lia) ltac:(lia) Hrd) Hca demo_args Hf (lookup_empty _) demo_nodup
    (Forall_cons_2 _ _ _ (demo_name_ok "a" ltac:(by repeat constructor)) (Forall_cons_2 _ _ _ (demo_name_ok "b" ltac:(by repeat constructor)) (Forall_nil_2 _)))
    ltac:(by vm_compute) Hno Hdir) as (r & w' & R & _).
  exists w, r, w'. exact (conj Hw R).
Defined.




Lemma demo_of_rel : List.filter (of_rel "t") demo_A = demo_A.
Proof. reflexivity. Qed.


(** C23.  The relation catalog is a finite map from names to numbers of
    attributes: [getInfo] looks up and returns [RELNOTFOUND] for a name that
    is not there, and [addInfo] of a new name inserts or fails and leaves the
    map as it was; each keeps the bytes of all other files and gives back what
    it took.  [removeInfo], whatever freed memory holds ([freed]), comes to the
    call of [endScan] on the scan object it has just deleted, which C++ leaves
    undefined; by then the name is deleted from the map, all other files are as
    before and everything is given back.  It then returns [OK], or
    [RELNOTFOUND] for a name that was not there, when the freed memory still
    has no current page, as the object had when it was deleted. *)
Theorem relcat_refines_map fuel T w l m nm :
  ready 1 1 T w -> heap_at T w RELCATNAME l -> rel_state l m -> key_ok nm ->
  (length (heap_recs l) + length l <= fuel)%nat ->
  (exists w', RelCatalog_getInfo fuel nm w = Some (match m !! nm with Some c => Ok (rel_tuple nm c) | None => Err RELNOTFOUND end, w') /\
     finished T w RELCATNAME l w') /\
  (exists hfs w' l', let r := match m !! nm with Some _ => Ok tt | None => Err RELNOTFOUND end in
     finished T w RELCATNAME l' w' /\ rel_state l' (delete nm m) /\ curPage (hfs_base hfs) = PNull /\
     (forall freed, RelCatalog_removeInfo freed fuel nm w = after_delete freed r hfs w') /\
     forall freed s, freed hfs = Some s -> curPage (hfs_base s) = PNull -> RelCatalog_removeInfo freed fuel nm w = Some (r, w')) /\
  (forall record, name_ok nm -> length (rd_relName record) = 32%nat -> cstring (rd_relName record) = Some (chars nm) ->
     inS 32 (rd_attrCnt record) -> m !! nm = None ->
     exists r w' l', RelCatalog_addInfo record w = Some (r, w') /\ finished T w RELCATNAME l' w' /\
       match r with Ok _ => rel_state l' (<[nm := rd_attrCnt record]> m) | Err _ => l' = l end).
Proof.
  intros Hrd Hat Hs Hkey Hf. split; [|split].
  - by apply (getInfo_run 1 1).
  - destruct (removeInfo_run 1 1 T w l m nm fuel) as (hfs & w' & l' & Hfin & Hs' & Hnull & R); try done.
    exists hfs, w', l'. do 4 (split; [done|]). intros freed s Hfr Hn. rewrite R. eapply after_delete_null; [done|done|]. by destruct (m !! nm).
  - intros record Hnm H1 H2 H3 H4. by apply (addInfo_run 1 1 T w l m record nm).
Qed.

Lemma relcat_refines_map_witness :
  exists w fuel w', cat_world1 = Some w /\ RelCatalog_getInfo fuel "t" w = Some (Ok (rel_tuple "t" 2), w').
Proof.
  destruct cat_world1_ok as (w & lr & la & A & Hw & Hrd & _ & [C1 C2 _ _] & _).
  destruct (relcat_refines_map _ ∅ w lr _ "t" (ready_le 1 4 1 8 _ _ ltac:(lia) ltac:(lia) Hrd) C1 C2
    demo_key (le_n _)) as ((w' & R & _) & _).
  rewrite lookup_singleton_eq in R. eexists w, _, w'. exact (conj Hw R).
Defined.

(** C35.  The attribute catalog answers completely and in file order:
    [getRelInfo] returns exactly the tuples of the relation, or
    [RELNOTFOUND] when there are none, and [getInfo] the first one with that
    name, or [ATTRNOTFOUND]. *)
Theorem attrcat_lookup_complete (n fuel : nat) T w l A rel attrName :
  ready 1 1 T w -> heap_at T w ATTRCATNAME l -> attr_state l A -> key_ok rel ->
  (length (heap_recs l) < n)%nat -> (length (heap_recs l) + length l <= fuel)%nat ->
  (exists w', AttrCatalog_getRelInfo n fuel rel w =
     Some (match List.filter (of_rel rel) A with [] => Err RELNOTFOUND | attrs => Ok (tuple_of <$> attrs) end, w') /\
     finished T w ATTRCATNAME l w') /\
  (attrName <> ""%string -> exists w', AttrCatalog_getInfo n fuel rel attrName w =
     Some (match List.find (is_attr rel attrName) A with Some a => Ok (tuple_of a) | None => Err ATTRNOTFOUND end, w') /\
     finished T w ATTRCATNAME l w').
Proof.
  intros Hrd Hat Hs Hkey Hn Hf. split; [by apply (getRelInfo_run 1 1)|]. intros Hne. by apply (attr_getInfo_run 1 1).
Qed.

Lemma attrcat_lookup_complete_witness :
  exists w n fuel attrs w', cat_world1 = Some w /\ AttrCatalog_getRelInfo n fuel "t" w = Some (Ok attrs, w') /\ length attrs = 2%nat.
Proof.
  destruct cat_world1_ok as (w & lr & la & A & Hw & Hrd & _ & [_ _ C3 C4] & -> & _).
  destruct (attrcat_lookup_complete _ _ ∅ w la demo_A "t" "a" (ready_le 1 4 1 8 _ _ ltac:(lia) ltac:(lia) Hrd) C3 C4
    demo_key (Nat.lt_succ_diag_r _) (le_n _)) as ((w' & R & _) & _).
  eexists w, _, _, (tuple_of <$> demo_A), w'. split; [exact Hw|]. split; [exact R|reflexivity].
Defined.
