(* ===== verification/BootProps.v ===== *)
(** * Properties of the programs

    dbcreate makes a database that minirel can open, and what a session leaves
    at [UT_Quit] is what the next one finds. *)

From S2P Require Export Boot CatProps.

(** ** dbcreate *)

(** C14.  dbcreate in a directory that has no catalogs either ends with code 1
    and the message of an error, or with code 0, and then minirel starts on
    what it left: both catalogs are open and describe just themselves, every
    other file is as it was, and the parser runs on a state that the queries
    accept. *)
Theorem dbcreate_boots mkdir chdir parse argv0 argv1 dbname rest rd0 ad0 (k : Z) u (ptr ptr' j : Z) :
  length (rd_relName rd0) = 32%nat -> length (ad_relName ad0) = 32%nat /\ length (ad_attrName ad0) = 32%nat -> mkdir dbname = true -> chdir dbname = true ->
  unix_ok u -> u_dir u !! RELCATNAME = None -> u_dir u !! ATTRCATNAME = None -> 3 <= k <= 50 -> Z.of_nat (size (u_fds u)) + k <= u_maxFds u ->
  0 < ptr -> ptr + 64 * 16 <= 2 ^ 62 -> 0 < ptr' -> 2 <= j -> ptr' + 64 * j <= 2 ^ 62 ->
  exists code msg out w, dbcreate mkdir chdir argv0 (dbname :: rest) rd0 ad0 (process u ptr) = Some (code, msg, out, w) /\
    ((code = 1 /\ exists st, msg = Some (engine st)) \/
     (code = 0 /\ msg = None /\ exists relCat attrCat w' lr la A,
        minirel chdir parse argv1 [dbname] (process (unix (w_disk w)) ptr') = (w ← parse NLJoin relCat attrCat w'; Some (0, None, welcome NLJoin, w)) /\
        ready (k - 2) (j - 2) ∅ w' /\ catalogs ∅ w' lr la self_rels A /\ A ≡ₚ self_attrs /\
        forall nm n, nm ∉ cat_names -> named_page w' nm n = named_page (process u ptr) nm n)).
Proof.
  intros Hrd Had Hmk Hch Hu Hr Ha Hk Hfd Hp1 Hp2 Hp3 Hj Hp4.
  destruct (dbcreate_run rd0 ad0 Hrd Had k u ptr Hu Hr Ha Hk Hfd Hp1 Hp2) as (r & w & R & Hw).
  unfold dbcreate. rewrite Hmk, Hch. cbn [negb]. rewrite R. cbn [mbind option_bind]. destruct r as [[]|st].
  2: { do 4 eexists. split; [done|]. left. split; [done|by exists st]. }
  destruct Hw as [D1 [D2 D3] D4 D5]. destruct (D4 ptr') as (lr & la & A & HC & HA).
  destruct (minirel_start_run k j (unix (w_disk w)) ptr' lr la self_rels A D1 ltac:(lia) ltac:(by rewrite D2, D3) Hp3 Hj Hp4 HC) as
    (relCat & attrCat & w' & R' & _ & Hrd' & HC' & Hn).
  do 4 eexists. split; [done|]. right. do 2 (split; [done|]). exists relCat, attrCat, w', lr, la, A. split.
  - unfold minirel. rewrite Hch. cbn [negb]. rewrite R'. done.
  - do 3 (split; [done|]). intros nm n Hnm. rewrite Hn, D5 by done. apply process_ptr.
Qed.

Definition demo_dbcreate := dbcreate (fun _ => true) (fun _ => true) "dbcreate" ["db"%string] demo_rd demo_ad (process demo_unix 4096).

Lemma demo_unix_ok : unix_ok demo_unix.
Proof. split; try done; by vm_compute. Qed.

Lemma dbcreate_boots_witness :
  exists out w w' lr la A, demo_dbcreate = Some (0, None, out, w) /\ ready 10 98 ∅ w' /\ catalogs ∅ w' lr la self_rels A /\ A ≡ₚ self_attrs.
Proof.
  destruct (dbcreate_boots (fun _ => true) (fun _ => true) (fun _ _ _ w => Some w) "dbcreate" "minirel" "db" [] demo_rd demo_ad 12 demo_unix 4096 4096 100)
    as (code & msg & out & w & R & H); [done|done|done|done|exact demo_unix_ok|done|done|lia|done|lia|lia|lia|lia|lia|].
  assert ((fun '(code, _, _, _) => code) <$> demo_dbcreate = Some 0) as Hc by (vm_compute; reflexivity).
  unfold demo_dbcreate in Hc. rewrite R in Hc. apply (inj Some) in Hc as ->.
  destruct H as [[E _]|(_ & -> & relCat & attrCat & w' & lr & la & A & _ & H1 & H2 & H3 & _)]; [discriminate E|].
  exists out, w, w', lr, la, A. exact (conj R (conj H1 (conj H2 H3))).
Defined.

(** ** Quitting and starting again *)

(** C15.  minirel starts on any directory with the two catalogs.  When the
    session that follows leaves well-formed catalogs and files and has given
    back its pins and descriptors (no scan is left open, as after a load that
    failed), [UT_Quit] ends it without an error, and the next minirel starts
    and finds the same catalogs and every page of every file as the session
    saw it last. *)
Theorem quit_restart_persists (k j j' : Z) u (ptr ptr' : Z) lr0 la0 m0 A0 :
  unix_ok u -> 2 <= k <= 50 -> Z.of_nat (size (u_fds u)) + k <= u_maxFds u -> 0 < ptr -> 2 <= j -> ptr + 64 * j <= 2 ^ 62 ->
  0 < ptr' -> 2 <= j' -> ptr' + 64 * j' <= 2 ^ 62 -> catalogs ∅ (process u ptr) lr0 la0 m0 A0 ->
  exists relCat attrCat w, minirel_start (process u ptr) = Some (Ok (relCat, attrCat), w) /\ ready (k - 2) (j - 2) ∅ w /\ catalogs ∅ w lr0 la0 m0 A0 /\
    (forall nm n, named_page w nm n = named_page (process u ptr) nm n) /\
    forall w1 lr la m A, restored w w1 -> world_ok ∅ w1 -> catalogs ∅ w1 lr la m A ->
      exists w2 relCat' attrCat' w3, UT_Quit relCat attrCat w1 = Some (Ok tt, w2) /\
        minirel_start (process (unix (w_disk w2)) ptr') = Some (Ok (relCat', attrCat'), w3) /\ ready (k - 2) (j' - 2) ∅ w3 /\ catalogs ∅ w3 lr la m A /\
        forall nm n, named_page w3 nm n = named_page w1 nm n.
Proof.
  intros Hu Hk Hfd Hp1 Hj Hp2 Hp3 Hj' Hp4 HC.
  destruct (minirel_start_run k j u ptr lr0 la0 m0 A0 Hu Hk Hfd Hp1 Hj Hp2 HC) as (relCat & attrCat & w & R & Ho & Hrd & HC1 & Hn).
  exists relCat, attrCat, w. do 4 (split; [done|]). intros w1 lr la m A Hres Hw1 HC2.
  destruct (quit_run k u ptr relCat attrCat w w1 lr la m A ptr' Ho Hres Hw1 HC2) as (w2 & R2 & Hu2 & F1 & F2 & HC3 & Hn2).
  destruct (minirel_start_run k j' (unix (w_disk w2)) ptr' lr la m A Hu2 Hk ltac:(by rewrite F1, F2) Hp3 Hj' Hp4 HC3) as (relCat' & attrCat' & w3 & R3 & _ & Hrd3 & HC4 & Hn3).
  exists w2, relCat', attrCat', w3. do 4 (split; [done|]). intros nm n. by rewrite Hn3, Hn2.
Qed.

(** A session on the new database that does nothing. *)
Lemma quit_restart_persists_witness :
  exists u w2 w3 lr la A relCat attrCat relCat' attrCat' w, minirel_start (process u 4096) = Some (Ok (relCat, attrCat), w) /\
    UT_Quit relCat attrCat w = Some (Ok tt, w2) /\ minirel_start (process (unix (w_disk w2)) 8192) = Some (Ok (relCat', attrCat'), w3) /\
    catalogs ∅ w3 lr la self_rels A /\ A ≡ₚ self_attrs.
Proof.
  destruct (dbcreate_run demo_rd demo_ad ltac:(done) ltac:(done) 12 demo_unix 4096 demo_unix_ok ltac:(done) ltac:(done) ltac:(lia) ltac:(done) ltac:(lia) ltac:(lia))
    as (r & w0 & R0 & H0).
  assert ((fun '(r, _) => match r with Ok _ => true | Err _ => false end) <$> dbcreate_main demo_rd demo_ad (process demo_unix 4096) = Some true) as Hc by (vm_compute; reflexivity).
  rewrite R0 in Hc. apply (inj Some) in Hc. destruct r as [[]|st]; [|discriminate Hc].
  destruct H0 as [D1 [D2 D3] D4 D5]. destruct (D4 4096) as (lr & la & A & HC & HA).
  destruct (quit_restart_persists 12 100 100 (unix (w_disk w0)) 4096 8192 lr la self_rels A) as (relCat & attrCat & w & R & Hrd & HC1 & _ & H);
    [exact D1|lia|rewrite D2, D3; by vm_compute|lia|lia|lia|lia|lia|lia|exact HC|].
  destruct (H w lr la self_rels A) as (w2 & relCat' & attrCat' & w3 & R2 & R3 & _ & HC3 & _); [reflexivity|apply Hrd|exact HC1|].
  exists (unix (w_disk w0)), w2, w3, lr, la, A, relCat, attrCat, relCat', attrCat', w. exact (conj R (conj R2 (conj R3 (conj HC3 HA)))).
Defined.
