(* ===== verification/QueryDelete.v ===== *)
(** * Deleting the tuples of a relation

    Work on other files while an object is open, and [QU_Delete]. *)

From S2P Require Export Query CatDestroy.

(** ** Nested sessions *)

Section Nested.
Implicit Types (T : gset (Z * Z)) (w : World) (f cur k j : Z) (h : HeapFile) (l : list hpage) (name : string).

(** Beside an open object there is room for one object less. *)
Lemma session_ready k j T0 w0 T w name f h cur l names :
  ready k j T0 w0 -> 1 <= k -> 1 <= j -> session (O := clients w0 k) T0 (base_of w0) T w name f h cur l -> kept 1 names w0 w ->
  ready (k - 1) (j - 1) T w.
Proof.
  intros [R1 R2 R3 R4 R5 R6 R7] Hk Hj [[H1 H2 H3 H4 [n H5]] Hop Hok] [_ K2].
  pose proof (opened_room _ _ _ _ _ Hop) as Hroom. cbn [cl_spare clients] in Hroom. destruct Hop as [_ _ _ _ Hpin _].
  split; [done|by eapply since_live| | | | |lia].
  - intros g m. rewrite Hpin. cbn [cl_pins clients]. specialize (R3 g m). case_decide; lia.
  - done.
  - intros g o Ho. destruct (si_how _ _ _ _ _ _ _ H5) as [(_ & _ & _ & _ & _ & _ & fd & Hfi)|(Hn & _ & _ & _ & fd & Hf0 & Hfi)]; cbn in Hfi; rewrite Hfi in Ho.
    + apply lookup_insert_Some in Ho as [[<- <-]|[_ Ho]]; [cbn|specialize (R5 g o Ho); lia]. specialize (R3 0 0). pose proof (wpin_nonneg T0 w0 0 0 R1). lia.
    + apply lookup_insert_Some in Ho as [[<- <-]|[_ Ho]]; [|specialize (R5 g o Ho); lia]. cbn in Hf0. specialize (R5 f _ Hf0). cbn in *. lia.
  - rewrite (si_max _ _ _ _ _ _ _ H5). destruct (si_how _ _ _ _ _ _ _ H5) as [(_ & _ & _ & _ & _ & -> & _)|(_ & _ & _ & -> & _)]; cbn; lia.
Qed.

(** An open object does not notice sessions on other files that have ended. *)
Lemma session_restored O T0 b T w name f h cur l w' :
  session (O := O) T0 b T w name f h cur l -> world_ok T w' -> restored w w' -> u_dir (unix (w_disk w')) = u_dir (unix (w_disk w)) ->
  (forall m, named_page w' name m = named_page w name m) -> session (O := O) T0 b T w' name f h cur l.
Proof.
  intros [[H1 H2 H3 H4 [n H5]] Hop Hok] Hw' [E1 E2 E3 E4 E5 E6 E7] Hdir Hnm. pose proof (since_open _ _ _ _ _ _ _ H5) as Hopen.
  destruct Hop as [[A1 A2 (i & A3 & A3') A4] [B1 (i' & B2 & B2') B3] C1 C2 C3 [D1 D2 D3 D4]].
  assert (forall g m, (g, m) ∈ ({[(f, hdr_no); (f, cur)]} : gset (Z * Z)) -> 0 < wpin w g m) as Hpos.
  { intros g m Hin. rewrite C3, decide_True by done. specialize (D2 g m). lia. }
  assert (0 < wpin w f hdr_no /\ 0 < wpin w f cur) as [Hp1 Hp2] by (split; apply Hpos; apply elem_of_pages; auto).
  split; [split; [done..|]| |].
  - exists n. destruct H5 as [S1 S2 S3 S4 S5 S6 S7]. split; rewrite ?Hdir, ?E6, ?E7, ?E3, ?E4, ?E5; try done.
    intros g m Hg. rewrite E2; [by apply S2|]. rewrite C3. rewrite <- H4 in Hg. case_decide; lia.
  - split; [split; try done; exists i; by rewrite E2|split; try done; exists i'; by rewrite E2|done|done| |].
    + intros g m. by rewrite E1.
    + split; [done..|]. by rewrite E7.
  - eapply heap_ok_ext; [|exact Hok]. intros m _.
    rewrite <- (named_open w' name f m) by (by rewrite E3). rewrite Hnm. by apply named_open.
Qed.

End Nested.

(** ** The loop of [QU_Delete] *)

Section Loop.
Context {O : Clients} {T0 : gset (Z * Z)} {b : Base}.
Local Abbreviation session := (session (O := O) T0 b).
Local Abbreviation positioned := (positioned (O := O)).
Implicit Types (T : gset (Z * Z)) (w : World) (f cur : Z) (l : list hpage) (name : string) (M : Record -> bool) (rest seen : list (RID * Record)).

Lemma next_match_split M rest rid rec rest' :
  next_match M rest = (rid, rec) :: rest' ->
  exists pre, rest = pre ++ (rid, rec) :: rest' /\ (forall x, x ∈ pre -> M x.2 = false) /\ M rec = true.
Proof.
  induction rest as [|[rid0 r0] rest IH]; [done|]. cbn. destruct (M r0) eqn:HM.
  - intros [= -> -> ->]. exists []. split; [done|]. split; [by intros x ?%not_elem_of_nil|done].
  - intros (pre & -> & H1 & H2)%IH. exists ((rid0, r0) :: pre). split; [done|]. split; [|done].
    intros x [->|Hx]%elem_of_cons; [done|by apply H1].
Qed.

(** The records that stay. *)
Definition survivors M (rs : list (RID * Record)) : list (RID * Record) := List.filter (fun x => negb (M x.2)) rs.

Lemma survivors_all M rs : (forall x, x ∈ rs -> M x.2 = false) -> survivors M rs = rs.
Proof.
  induction rs as [|x rs IH]; [done|]. intros H. unfold survivors. cbn. rewrite H by (by left). cbn. f_equal. apply IH.
  intros. apply H. by right.
Qed.

Lemma delete_loop_run (n fuel np : nat) T w name f s cur l M seen rest :
  (length rest < n)%nat -> (length rest + np < fuel)%nat -> session T w name f (hfs_base s) cur l ->
  positioned T w f l (hfs_base s) rest np -> predicate s M rest -> heap_recs l = seen ++ rest ->
  exists T' w' s' cur' l', delete_loop n fuel s w = Some (Ok s', w') /\ session T' w' name f (hfs_base s') cur' l' /\
    kept 0 [name] w w' /\ heap_recs l' = seen ++ survivors M rest /\ length l' = length l.
Proof.
  revert T w s cur l seen rest np. induction n as [|n IH]; intros T w s cur l seen rest np Hn Hfuel Hse Hpos HM Hl; [lia|]. cbn [delete_loop].
  destruct (scanNext_session fuel np T w name f s cur l M rest Hfuel Hse Hpos HM) as (r & T1 & w1 & s1 & cur1 & Hr & Hss & _ & Hse1 & Hres).
  run_with (call_run _ s w _ _ _ Hr). pose proof (kept_same _ _ _ _ [name] (se_world Hse) Hss) as Hk1.
  destruct (next_match M rest) as [|[rid rec] rest'] eqn:Hnm.
  - subst r. cbn beta iota. rewrite decide_True by done. exists T1, w1, s1, cur1, l. do 3 (split; [done|]). split; [|done].
    rewrite survivors_all; [done|]. by apply next_match_nil.
  - destruct Hres as (-> & HM1 & Hlen & np' & Hloc & Hnp).
    destruct (deleteRecord_session T1 w1 name f s1 cur1 l rid rec rest' np' Hse1 Hloc) as
      (T2 & w2 & s2 & R2 & l2 & cur2 & seen2 & Hse2 & Hso & Hpos2 & Hlen2 & [h2 ->] & Hl2 & Hl2').
    run_with (call_run _ s1 w1 _ _ _ R2). destruct (next_match_split _ _ _ _ _ Hnm) as (pre & -> & Hpre & HMr).
    assert (seen2 = seen ++ pre) as ->.
    { rewrite Hl, app_assoc in Hl2. apply app_inj_2 in Hl2 as [-> _]; done. }
    destruct (IH T2 w2 (set_base h2 s1) cur2 l2 (seen ++ pre) rest' np') as (T' & w' & s' & cur' & l' & R' & Hse' & Hk' & Hl' & Hlen');
      [lia|lia|done|done|exact HM1|done|].
    exists T', w', s', cur', l'. split; [exact R'|]. split; [done|]. split; [|split; [|congruence]].
    + eapply kept_trans; [eapply kept_trans; [exact Hk1|eapply kept_other; [exact Hse1|exact Hso]|reflexivity]|exact Hk'|lia].
    + rewrite Hl'. unfold survivors. rewrite filter_app. cbn [List.filter snd]. rewrite HMr. cbn [negb]. fold (survivors M pre).
      rewrite (survivors_all M pre Hpre). by rewrite app_assoc.
Qed.

Lemma positioned_restored T w w' name f h cur l rest np :
  session T w name f h cur l -> session T w' name f h cur l -> positioned T w f l h rest np -> positioned T w' f l h rest np.
Proof.
  intros Hse Hse' (l1 & cur' & c & l2 & k & rid & H1 & H2 & H3).
  assert (cur' = cur) as ->.
  { pose proof (hc_no _ _ _ _ _ (op_cur _ _ _ _ _ H2)). pose proof (hc_no _ _ _ _ _ (op_cur _ _ _ _ _ (se_opened _ _ _ _ _ _ _ _ _ Hse))). congruence. }
  exists l1, cur, c, l2, k, rid. split; [done|]. split; [apply Hse'|done].
Qed.

End Loop.

(** ** [QU_Delete] *)

Section Delete.
Implicit Types (T : gset (Z * Z)) (w : World) (l la : list hpage) (A : list attr) (M : Record -> bool) (rel attrName : string).

(** The tuples that satisfy the condition are gone, the others are as they
    were. *)
Definition deleted_from T w rel l M w' : Prop :=
  exists l', world_ok T w' /\ restored w w' /\ heap_at T w' rel l' /\ heap_recs l' = survivors M (heap_recs l) /\
    forall nm m, nm <> rel -> nm <> ATTRCATNAME -> named_page w' nm m = named_page w nm m.

(** From the moment the scan is started. *)
Lemma delete_rest_run (n fuel np : nat) k T w T1 w1 rel f s cur l M names c :
  session (O := clients w k) T (base_of w) T1 w1 rel f (hfs_base s) cur l ->
  positioned (O := clients w k) T1 w1 f l (hfs_base s) (heap_recs l) np -> predicate s M (heap_recs l) -> kept c names w w1 ->
  (length (heap_recs l) < n)%nat -> (length (heap_recs l) + np < fuel)%nat -> rel ∈ names ->
  (forall nm, nm ∈ names -> nm = rel \/ nm = ATTRCATNAME) ->
  exists w', (let! hfs := delete_loop n fuel s in delete_scan hfs ;;; ret tt) w1 = Some (Ok tt, w') /\ deleted_from T w rel l M w' /\
    forall nm m, nm <> rel -> named_page w' nm m = named_page w1 nm m.
Proof.
  intros Hse Hpos HM Hk Hn Hf Hin Hnames.
  destruct (delete_loop_run n fuel np T1 w1 rel f s cur l M [] (heap_recs l) Hn Hf Hse Hpos HM eq_refl) as
    (T2 & w2 & s2 & cur2 & l2 & R2 & Hse2 & Hk2 & Hl2 & _).
  destruct (delete_scan_run _ _ _ _ _ _ _ Hse2) as (w3 & s3 & R3 & _ & Hend). exists w3. split; [by run_with R2; run_with R3|].
  assert (forall nm m, nm <> rel -> named_page w3 nm m = named_page w1 nm m) as Hoth.
  { intros nm m Hnm. rewrite (et_named _ _ _ _ Hend). apply (kp_named _ _ _ _ Hk2). by intros ?%list_elem_of_singleton. }
  split; [|done].
  destruct Hend as [E1 E2 E3 E4]. exists l2. split; [done|]. split; [by apply back_restored|]. pose proof Hse2 as [[H1 H2 H3 H4 [i H5]] _ Hok].
  split; [split; [done| |]|split; [done|]].
  - eapply heap_ok_ext; [|exact Hok]. intros m _. rewrite E3. apply named_open. by eapply since_open.
  - intros g m Hg. rewrite (bt_open _ _ E2) in Hg.
    destruct (si_how _ _ _ _ _ _ _ H5) as [(_ & Hno & _)|(_ & Hf0 & _)]; [congruence|].
    assert (g = f) as -> by congruence. apply (si_clean _ _ _ _ _ _ _ H5).
  - intros nm m N1 N2. rewrite Hoth, (kp_named _ _ _ _ Hk); [done| |done].
    intros Hnm. by destruct (Hnames nm Hnm).
Qed.

(** The test a new scan applies once [startScan] was called, whatever it
    returned: parameters it refuses leave the scan without a filter. *)
Definition scan_test (offset length : Z) (type : Datatype) (flt : option block) (op : Operator) (r : Record) : option bool :=
  if decide (scan_parm_ok offset length type flt) then selects offset length type flt op r else Some true.

Lemma startScan_any w s offset length type flt op :
  sc_filter s = None ->
  exists r s', HeapFileScan_startScan offset length type flt op (w, s) = Some (r, (w, s')) /\
    hfs_base s' = hfs_base s /\ forall rec, matchRec s' rec = scan_test offset length type flt op rec.
Proof.
  intros Hs. unfold scan_test. destruct (decide (scan_parm_ok offset length type flt)) as [Hp|Hp].
  - destruct (startScan_ok w s offset length type flt op Hp) as (s' & R & Hb & Hm). by exists (Ok tt), s'.
  - destruct flt as [flt|]; [|destruct Hp; by left]. exists (Err BADSCANPARM), s. split; [|split; [done|intros; unfold matchRec; by rewrite Hs]].
    unfold HeapFileScan_startScan. rewrite decide_True; [done|]. unfold sizeof_int, sizeof_float.
    destruct (decide (offset < 0)), (decide (length < 1)), (decide (type = INTEGER /\ length <> 4)), (decide (type = FLOAT /\ length <> 4)); auto.
    destruct Hp. right. split; [lia|]. split; [lia|]. split; intros ?; lia || (destruct (decide (length = 4)); naive_solver).
Qed.

(** The condition of [QU_Delete], as the code tests it. *)
Lemma QU_Delete_run (n fuel : nat) T w rel l la A attrName a op type value flt M :
  ready 2 2 T w -> heap_at T w rel l -> heap_at T w ATTRCATNAME la -> attr_state la A -> key_ok rel ->
  rel <> RELCATNAME -> rel <> ATTRCATNAME -> attrName <> ""%string -> List.find (is_attr rel attrName) A = Some a ->
  filter_bytes type value = Some flt ->
  (forall rid r, (rid, r) ∈ heap_recs l -> scan_test (at_off a) (at_len a) type (Some flt) op r = Some (M r)) ->
  (length (heap_recs l) < n)%nat -> (length (heap_recs l) + length l <= fuel)%nat ->
  (length (heap_recs la) < n)%nat -> (length (heap_recs la) + length la <= fuel)%nat ->
  exists w', QU_Delete n fuel rel attrName op type value w = Some (Ok tt, w') /\ deleted_from T w rel l M w' /\
    heap_at T w' ATTRCATNAME la.
Proof.
  intros Hrd Hat Hata Hs Hkey Hn1 Hn2 Hne Hfind Hflt HM Hnl Hfl Hna Hfa.
  destruct (HeapFileScan_new_ok 2 2 T w rel l Hrd Hat ltac:(lia) ltac:(lia)) as (f & s0 & w1 & np & R1 & Hlt & Hse & Hpos & Hnf & Hk1).
  pose proof (session_ready 2 2 T w T w1 rel f _ _ l _ Hrd ltac:(lia) ltac:(lia) Hse Hk1) as Hrd1. cbn in Hrd1.
  assert (heap_at T w1 ATTRCATNAME la) as Hata1.
  { destruct Hata as [N1 N2 N3]. split; [done| |].
    - eapply heap_ok_ext; [|exact N2]. intros m _. apply (kp_named _ _ _ _ Hk1). apply not_elem_of_nil.
    - intros g m Hg. destruct (hd_since _ _ _ _ _ _ (se_handle _ _ _ _ _ _ _ _ _ Hse)) as [i Hsi].
      destruct (si_how _ _ _ _ _ _ _ Hsi) as [(_ & _ & _ & _ & Ho & _)|(_ & _ & Ho & _)]; rewrite Ho in Hg.
      + rewrite lookup_insert_ne in Hg by done. by apply N3.
      + by apply N3. }
  destruct (attr_getInfo_run 1 1 T w1 la A rel attrName n fuel Hrd1 Hata1 Hs ltac:(lia) ltac:(lia) Hkey Hne Hna Hfa) as (w2 & R2 & Hfin).
  rewrite Hfind in R2. destruct Hfin as [F1 F2 F3 F4 F5 F6].
  assert (session (O := clients w 2) T (base_of w) T w2 rel f (hfs_base s0) (next_no l) l) as Hse2.
  { eapply session_restored; [exact Hse|done|done|done|]. intros m. by apply F4. }
  destruct (startScan_any w2 s0 (at_off a) (at_len a) type (Some flt) op Hnf) as (r3 & s1 & R3 & Hbase & Hmatch).
  assert (kept 2 [rel; ATTRCATNAME] w w2) as Hk2.
  { split; [|pose proof (kp_ptr _ _ _ _ Hk1); lia]. intros nm m Hnm. rewrite F4 by set_solver. apply (kp_named _ _ _ _ Hk1). apply not_elem_of_nil. }
  destruct (delete_rest_run n fuel np 2 T w T w2 rel f s1 (next_no l) l M [rel; ATTRCATNAME] 2) as (w' & R4 & Hd & Hoth); [by rewrite Hbase| | |done|done|lia|by left| |].
  { rewrite Hbase. eapply positioned_restored; [exact Hse|exact Hse2|]. by apply Hpos. }
  { intros rid r Hin. rewrite Hmatch. by apply (HM rid). }
  { intros nm [->|[->|?%not_elem_of_nil]%elem_of_cons]%elem_of_cons; auto. done. }
  assert (heap_at T w' ATTRCATNAME la) as Hata'.
  { destruct Hd as (l' & _ & Hre & _). destruct F3 as [N1 N2 _], Hata as [_ _ N3]. split; [done| |by rewrite (re_open _ _ Hre)].
    eapply heap_ok_ext; [|exact N2]. intros m _. by apply Hoth. }
  exists w'. split; [|done]. unfold QU_Delete. rewrite decide_False by (intros [?|[?|?]]; by destruct Hkey).
  assert (new_scan rel w = Some (Ok s0, w1)) as R1' by (unfold new_scan; run_with R1; by rewrite decide_False by (intros Hx; by apply Hx)).
  run_with R1'. rewrite (decide_False (P := attrName = ""%string)) by done. rewrite bind_assoc. run_with (defined_run _ _ w1 Hflt).
  rewrite bind_assoc. run_with R2. cbn [ad_attrOffset ad_attrLen tuple_of attr_tuple]. run_with (call_run _ s0 w2 _ _ _ R3). exact R4.
Qed.

(** Without a condition every tuple is deleted. *)
Lemma QU_Delete_all_run (n fuel : nat) T w rel l op type value :
  ready 1 1 T w -> heap_at T w rel l -> rel <> ""%string -> rel <> RELCATNAME -> rel <> ATTRCATNAME ->
  (length (heap_recs l) < n)%nat -> (length (heap_recs l) + length l <= fuel)%nat ->
  exists w', QU_Delete n fuel rel "" op type value w = Some (Ok tt, w') /\ deleted_from T w rel l (fun _ => true) w'.
Proof.
  intros Hrd Hat Hn0 Hn1 Hn2 Hnl Hfl.
  destruct (HeapFileScan_new_ok 1 1 T w rel l Hrd Hat ltac:(lia) ltac:(lia)) as (f & s0 & w1 & np & R1 & Hlt & Hse & Hpos & Hnf & Hk1).
  destruct (startScan_ok w1 s0 0 0 type None op ltac:(by left)) as (s1 & R3 & Hbase & Hmatch).
  destruct (delete_rest_run n fuel np 1 T w T w1 rel f s1 (next_no l) l (fun _ => true) [rel] 1) as (w' & R4 & Hd & _);
    [by rewrite Hbase|by apply Hpos|by intros rid r _; rewrite Hmatch|by apply (kept_weaken 1 1 [])|done|lia|by left| |].
  { intros nm ->%list_elem_of_singleton. by left. }
  exists w'. split; [|done]. unfold QU_Delete. rewrite decide_False by (by intros [?|[?|?]]).
  assert (new_scan rel w = Some (Ok s0, w1)) as R1' by (unfold new_scan; run_with R1; by rewrite decide_False by (intros Hx; by apply Hx)).
  run_with R1'. run_with (call_run _ s0 w1 _ _ _ R3). exact R4.
Qed.

End Delete.
