(* ===== verification/QueryInsert.v ===== *)
(** * Inserting a tuple

    The tuple [QU_Insert] builds from a list of values, and where it is
    stored. *)

From S2P Require Export Query CatDestroy.

(** ** The record buffer *)

Section Fill.
Implicit Types (a : AttrDesc) (values : list attrInfo) (out dn tl bytes : block) (off : Z) (tp : option block) (nm : string).

(** The bytes of one value: the first [attrLen] bytes of the string, the
    [int] or the [float]. *)
Definition given_bytes a (v : attrInfo) : option block :=
  src ← value_bytes (ad_attrType a) (ai_attrValue v) None;
  src ← src;
  rd 0 (ad_attrLen a) src.

Lemma value_bytes_any type v tp src : value_bytes type v None = Some (Some src) -> value_bytes type v tp = Some (Some src).
Proof. unfold value_bytes. by repeat case_decide. Qed.

(** Values of other attributes are skipped. *)
Lemma fill_attr_skip a nm values nms st :
  cstring (ad_attrName a) = Some (chars nm) -> named_attrs values nms -> nm ∉ nms -> fill_attr a values st = Some st.
Proof.
  intros Hc Hn. induction Hn as [|v nm' values nms Hv Hn IH]; intros Hnin; [done|]. cbn [fill_attr].
  destruct (strcmp_ok _ _ _ _ Hc Hv) as (d & -> & Hd). cbn [mbind option_bind].
  rewrite decide_False; [apply IH; set_solver|]. intros ->. apply Hnin. rewrite (chars_inj nm nm'); [by left|]. by apply Hd.
Qed.

Lemma fill_attr_app a v1 v2 st : fill_attr a (v1 ++ v2) st = fill_attr a v1 st ≫= fill_attr a v2.
Proof.
  revert st. induction v1 as [|v v1 IH]; intros [[out off] tp]; [done|]. cbn [fill_attr app].
  destruct (strcmp _ _) as [d|]; [|done]. cbn [mbind option_bind]. case_decide; [|apply IH].
  destruct (value_bytes _ _ _) as [src|]; [|done]. cbn [mbind option_bind]. destruct src as [src|]; [|done]. cbn [mbind option_bind].
  destruct (rd _ _ _) as [bytes|]; [|done]. cbn [mbind option_bind]. destruct (wr _ _ _) as [out'|]; [|done]. apply IH.
Qed.

(** The value for [a] among [values], whose names are [nms], has the bytes
    [bytes]. *)
Definition gives values (nms : list string) a bytes : Prop :=
  exists nm i v, cstring (ad_attrName a) = Some (chars nm) /\ nms !! i = Some nm /\ values !! i = Some v /\ given_bytes a v = Some bytes.

Lemma fill_attr_one a values nms bytes out off tp out' :
  named_attrs values nms -> NoDup nms -> gives values nms a bytes -> wr off bytes out = Some out' ->
  exists tp', fill_attr a values (out, off, tp) = Some (out', s32 (off + ad_attrLen a), tp').
Proof.
  intros Hn Hnd (nm & i & v & Hc & Hi & Hv & Hval) Hwr. destruct (Forall2_lookup_l _ _ _ _ _ Hn Hv) as (nm' & Hi' & Hcv).
  rewrite Hi in Hi'. injection Hi' as <-. rewrite <- (take_drop_middle values i v Hv). rewrite <- (take_drop_middle nms i nm Hi) in Hnd.
  apply list.NoDup_app in Hnd as (_ & Hx1 & Hnd). apply list.NoDup_cons in Hnd as [Hx2 _].
  rewrite fill_attr_app, (fill_attr_skip a nm _ (take i nms)); [|done|by apply Forall2_take|].
  2: { intros Hin. apply (Hx1 nm Hin). by left. }
  cbn [mbind option_bind fill_attr]. destruct (strcmp_ok _ _ _ _ Hc Hcv) as (d & -> & Hd). cbn [mbind option_bind].
  rewrite decide_True by (by apply Hd). unfold given_bytes in Hval. apply bind_Some in Hval as (src & Hsrc & Hval). apply bind_Some in Hval as (b & -> & Hrd).
  rewrite (value_bytes_any _ _ tp _ Hsrc). cbn [mbind option_bind]. rewrite Hrd. cbn [mbind option_bind]. rewrite Hwr. cbn [mbind option_bind].
  exists (Some b). apply (fill_attr_skip a nm _ (drop (S i) nms)); [done|by apply Forall2_drop|done].
Qed.

Lemma value_of_length a v bytes : given_bytes a v = Some bytes -> Z.of_nat (length bytes) = ad_attrLen a.
Proof.
  unfold given_bytes. intros (src & _ & (b & _ & Hrd)%bind_Some)%bind_Some. pose proof (rd_length _ _ _ _ Hrd). apply rd_Some in Hrd as [? _]. lia.
Qed.

(** A buffer that is filled from the left. *)
Lemma wr_next dn tl bytes : (length bytes <= length tl)%nat -> wr (Z.of_nat (length dn)) bytes (dn ++ tl) = Some (dn ++ bytes ++ drop (length bytes) tl).
Proof. intros Hlen. apply wr_Some. split; [rewrite length_app; lia|]. by rewrite Nat2Z.id, take_app_length, drop_app_add. Qed.

Lemma fill_record_ok attrs values nms row dn tl tp :
  named_attrs values nms -> NoDup nms -> Forall2 (gives values nms) attrs row ->
  length (concat row) = length tl -> Z.of_nat (length (dn ++ tl)) < 2 ^ 31 ->
  exists off tp', fill_record attrs values (dn ++ tl, Z.of_nat (length dn), tp) = Some (dn ++ concat row, off, tp').
Proof.
  intros Hn Hnd Hg. revert dn tl tp. induction Hg as [|a bytes attrs row Ha Hg IH]; intros dn tl tp Hlen Hmax; cbn [fill_record concat].
  { destruct tl; [|done]. rewrite app_nil_r. by eexists _, _. }
  cbn [concat] in Hlen. rewrite length_app in Hlen, Hmax. pose proof Ha as (nm & i & v & _ & _ & _ & Hval%value_of_length).
  destruct (fill_attr_one a values nms bytes (dn ++ tl) (Z.of_nat (length dn)) tp (dn ++ bytes ++ drop (length bytes) tl) Hn Hnd Ha) as [tp1 ->].
  { apply wr_next. lia. }
  cbn [mbind option_bind]. rewrite s32_id by (unfold inS; lia). rewrite <- Hval.
  replace (Z.of_nat (length dn) + Z.of_nat (length bytes)) with (Z.of_nat (length (dn ++ bytes))) by (rewrite length_app; lia).
  rewrite (app_assoc dn bytes (drop (length bytes) tl)), (app_assoc dn bytes (concat row)). apply IH; rewrite ?length_app, length_drop; lia.
Qed.

(** The length of the buffer. *)
Lemma total_len_row values nms attrs row :
  Forall2 (gives values nms) attrs row -> Z.of_nat (length (concat row)) < 2 ^ 31 -> total_len attrs = Z.of_nat (length (concat row)).
Proof.
  intros Hg. unfold total_len. assert (forall t, 0 <= t -> t + Z.of_nat (length (concat row)) < 2 ^ 31 ->
    foldl (fun t a => s32 (t + ad_attrLen a)) t attrs = t + Z.of_nat (length (concat row))) as H; [|intros; rewrite H; lia].
  induction Hg as [|a bytes attrs row (nm & i & v & _ & _ & _ & Hval%value_of_length) Hg IH]; intros t Ht Hmax; cbn [foldl concat] in *; [cbn; lia|].
  rewrite length_app in *. rewrite s32_id by (unfold inS; lia). rewrite IH; lia.
Qed.

End Fill.

(** ** [QU_Insert] *)

Section Insert.
Implicit Types (T : gset (Z * Z)) (w : World) (l lr la : list hpage) (m : gmap string Z) (A B : list attr) (rel : string) (row : list block).

(** The attributes lie one after the other. *)
Fixpoint laid_out (off : Z) B : Prop :=
  match B with [] => True | a :: B => at_off a = off /\ laid_out (off + at_len a) B end.

(** The fields of a tuple, read back. *)
Lemma row_fields B row (dn : block) :
  laid_out (Z.of_nat (length dn)) B -> Forall2 (fun a bytes => Z.of_nat (length bytes) = at_len a) B row ->
  Forall2 (fun a bytes => rd (at_off a) (at_len a) (dn ++ concat row) = Some bytes) B row.
Proof.
  intros Hl Hrow. revert dn Hl. induction Hrow as [|a bytes B row Ha Hrow IH]; intros dn Hl; constructor; destruct Hl as [Hoff Hl].
  - cbn [concat]. by apply rd_field.
  - cbn [concat]. rewrite app_assoc. apply IH. rewrite length_app, Nat2Z.inj_add, Ha. done.
Qed.

Lemma gives_len values nms B row :
  Forall2 (gives values nms) (tuple_of <$> B) row -> Forall2 (fun a bytes => Z.of_nat (length bytes) = at_len a) B row.
Proof.
  rewrite Forall2_fmap_l. apply Forall2_impl. intros a bytes (nm & i & v & _ & _ & _ & Hval). by apply value_of_length in Hval.
Qed.

Lemma first_n_all {X} (xs : list X) : first_n (Z.of_nat (length xs)) xs = Some xs.
Proof. unfold first_n. rewrite decide_True by done. by rewrite Nat2Z.id, take_ge. Qed.

Lemma name_string_field rel : name_ok rel -> name_string (name_field rel) = Some rel.
Proof.
  intros Hn. unfold name_string. rewrite cstring_name_field by done. cbn [fmap option_fmap option_map].
  f_equal. apply String.string_of_list_byte_of_string.
Qed.

(** The tuple is the only thing that changed. *)
Record stored T w lr la m A rel l (row : block) (r : result unit) w' : Prop := {
  so_world : world_ok T w';
  so_restored : restored w w';
  so_cat : catalogs T w' lr la m A;
  so_file : exists l', heap_at T w' rel l' /\ match r with Ok _ => exists rid, heap_recs l' ≡ₚ (rid, row) :: heap_recs l | Err _ => l' = l end;
  so_other : forall nm n, nm <> rel -> nm <> RELCATNAME -> nm <> ATTRCATNAME -> named_page w' nm n = named_page w nm n;
}.

Lemma QU_Insert_run stack (n fuel : nat) T w lr la m A rel l values nms row :
  let B := List.filter (of_rel rel) A in
  ready 1 3 T w -> catalogs T w lr la m A -> heap_at T w rel l -> key_ok rel -> rel <> RELCATNAME -> rel <> ATTRCATNAME ->
  is_Some (m !! rel) -> B <> [] -> length values = length B -> named_attrs values nms -> NoDup nms ->
  Forall2 (gives values nms) (tuple_of <$> B) row -> rec_fits (concat row) ->
  (length (heap_recs lr) + length lr <= fuel)%nat -> (length (heap_recs la) < n)%nat -> (length (heap_recs la) + length la <= fuel)%nat ->
  exists r w', QU_Insert stack n fuel rel (Z.of_nat (length B)) values w = Some (r, w') /\ stored T w lr la m A rel l (concat row) r w'.
Proof.
  intros B Hrd [C1 C2 C3 C4] Hat Hkey Hn1 Hn2 [c Hm] HB Hlen Hnv Hnd Hg Hfit Hf1 Hn Hf2.
  destruct (getInfo_run 1 3 T w lr m rel fuel Hrd C1 C2 ltac:(lia) ltac:(lia) Hkey Hf1) as (w1 & R1 & Hfin1). rewrite Hm in R1.
  pose proof (finished_ready _ _ 2 _ _ _ _ _ Hrd Hfin1 ltac:(lia)) as Hrd1.
  assert (heap_at T w1 ATTRCATNAME la) as C3' by (by apply (finished_other _ _ _ _ _ _ _ Hfin1)).
  destruct (getRelInfo_run 1 2 T w1 la A rel n fuel Hrd1 C3' C4 ltac:(lia) ltac:(lia) Hkey Hn Hf2) as (w2 & R2 & Hfin2).
  pose proof (finished_ready _ _ 1 _ _ _ _ _ Hrd1 Hfin2 ltac:(lia)) as Hrd2.
  assert (heap_at T w2 rel l) as Hat2.
  { apply (finished_other _ _ _ _ _ _ _ Hfin2); [done|]. by apply (finished_other _ _ _ _ _ _ _ Hfin1). }
  destruct (insert_one_run 1 1 T w2 rel l (concat row) Hrd2 Hat2 ltac:(lia) ltac:(lia) Hfit) as (h & w3 & r & h2 & w4 & w5 & l' & R3 & R4 & R5 & Hfin3 & Hr).
  assert (Z.of_nat (length (concat row)) < 2 ^ 31) as Hmax by (destruct Hfit as [_ Hfit]; unfold PAGESIZE, DPFIXED, sizeof_slot, sizeof_short, sizeof_int in Hfit; lia).
  set (out := stack <$> seq 0 (length (concat row))). assert (length out = length (concat row)) as Hol by (by unfold out; rewrite list.length_fmap, length_seq).
  destruct (fill_record_ok (tuple_of <$> B) values nms row [] out None Hnv Hnd Hg) as (off & tp & Hfill); [by rewrite Hol|by cbn [app]; rewrite Hol|].
  exists (match r with Ok _ => Ok tt | Err e => Err e end), w5. split.
  - unfold QU_Insert. run_with R1. run_with (defined_run (name_string (rd_relName (rel_tuple rel c))) _ w1 (name_string_field rel (proj1 (rs_ok _ _ C2 rel c Hm)))).
    assert (AttrCatalog_getRelInfo n fuel rel w1 = Some (Ok (tuple_of <$> B), w2)) as R2' by (rewrite R2; change (List.filter _ A) with B; clear -HB; by destruct B).
    run_with R2'. rewrite <- (length_fmap tuple_of B). run_with (defined_run _ _ w2 (first_n_all (tuple_of <$> B))).
    rewrite length_fmap, <- Hlen. run_with (defined_run _ _ w2 (first_n_all values)). rewrite (total_len_row _ _ _ _ Hg Hmax).
    assert (fresh_array stack (Z.of_nat (length (concat row))) = Some out) as Hout by (unfold fresh_array; rewrite decide_True by lia; by rewrite Nat2Z.id).
    run_with (defined_run _ _ w2 Hout). run_with (defined_run _ _ w2 Hfill). run_with R3. run_with R4. run_with R5. by destruct r.
  - pose proof (finished_changed _ _ _ _ _ [rel; RELCATNAME; ATTRCATNAME] Hfin1 ltac:(by right; left)) as Hch1.
    pose proof (finished_changed _ _ _ _ _ [rel; RELCATNAME; ATTRCATNAME] Hfin2 ltac:(by right; right; left)) as Hch2.
    pose proof (finished_changed _ _ _ _ _ [rel; RELCATNAME; ATTRCATNAME] Hfin3 ltac:(by left)) as Hch3.
    pose proof (changed_trans _ _ _ _ _ _ _ _ (changed_trans _ _ _ _ _ _ _ _ Hch1 Hch2 (Z.le_refl _)) Hch3 (Z.le_refl _)) as [H1 H2 H3 _ _].
    split; [done|done| | |].
    + split; [|done| |done]; apply (finished_other _ _ _ _ _ _ _ Hfin3); try done; [|by apply Hfin2].
      apply (finished_other _ _ _ _ _ _ _ Hfin2); [done|apply Hfin1].
    + exists l'. split; [apply Hfin3|]. destruct r as [rid|e]; [by exists rid|done].
    + intros nm i N1 N2 N3. apply H3. by rewrite !not_elem_of_cons; repeat split; [..|apply not_elem_of_nil].
Qed.

End Insert.
