(* ===== verification/QueryScan.v ===== *)
(** * Scans and insertions of a crew

    [scanNext], [getRecord] and [insertRecord] while other objects are open,
    and opening and deleting objects. *)

From S2P Require Export Crew Query CatCreate.

(** ** Where a scan stands *)

Section Position.
Implicit Types (l : list hpage) (h : HeapFile) (rest : list (RID * Record)) (np : nat).

(** [positioned] and [located] without the state of the world. *)
Definition stands l h rest np : Prop :=
  exists l1 cur c l2 k rid, l = l1 ++ (cur, c) :: l2 /\ curPageNo h = Some cur /\
    curRec h = Some rid /\ slotNo rid = Z.of_nat k - 1 /\ Z.of_nat k < 2 ^ 31 /\
    rest = recs_at cur k (drop k c) ++ heap_recs l2 /\ np = length l2.

Definition stands_at l h (rid : RID) (rec : Record) rest np : Prop :=
  exists l1 cur c l2 j, l = l1 ++ (cur, c) :: l2 /\ curPageNo h = Some cur /\ curRec h = Some rid /\
    rid = mkRID cur (Z.of_nat j) /\ c !! j = Some (Some rec) /\ (j < 1024)%nat /\
    rest = recs_at cur (S j) (drop (S j) c) ++ heap_recs l2 /\ np = length l2.

Lemma stands_at_stands l h rid rec rest np : stands_at l h rid rec rest np -> stands l h rest np.
Proof.
  intros (l1 & cur & c & l2 & j & H1 & H2 & H3 & H4 & H5 & H6 & H7 & H8). exists l1, cur, c, l2, (S j), rid.
  do 3 (split; [done|]). rewrite H4. cbn [slotNo]. split; [lia|]. split; [lia|]. done.
Qed.

Lemma positioned_stands O T w f l h rest np : positioned (O := O) T w f l h rest np -> stands l h rest np.
Proof.
  intros (l1 & cur & c & l2 & k & rid & H1 & H2 & H3). exists l1, cur, c, l2, k, rid. split; [done|]. split; [|done].
  apply (op_cur _ _ _ _ _ H2).
Qed.

Lemma located_stands O T w f l h rid rec rest np : located (O := O) T w f l h rid rec rest np -> stands_at l h rid rec rest np.
Proof.
  intros (l1 & cur & c & l2 & j & H1 & H2 & H3). exists l1, cur, c, l2, j. split; [done|]. split; [|done].
  apply (op_cur _ _ _ _ _ H2).
Qed.

Lemma stands_positioned O T0 b T w name f h cur l rest np :
  session (O := O) T0 b T w name f h cur l -> stands l h rest np -> positioned (O := O) T w f l h rest np.
Proof.
  intros Hse (l1 & cur' & c & l2 & k & rid & H1 & H2 & H3). pose proof (se_opened _ _ _ _ _ _ _ _ _ Hse) as Hop.
  assert (cur' = cur) as -> by (pose proof (hc_no _ _ _ _ _ (op_cur _ _ _ _ _ Hop)); congruence).
  exists l1, cur, c, l2, k, rid. by split; [|split].
Qed.

Lemma stands_at_located O T0 b T w name f h cur l rid rec rest np :
  session (O := O) T0 b T w name f h cur l -> stands_at l h rid rec rest np -> located (O := O) T w f l h rid rec rest np.
Proof.
  intros Hse (l1 & cur' & c & l2 & j & H1 & H2 & H3). pose proof (se_opened _ _ _ _ _ _ _ _ _ Hse) as Hop.
  assert (cur' = cur) as -> by (pose proof (hc_no _ _ _ _ _ (op_cur _ _ _ _ _ Hop)); congruence).
  exists l1, cur, c, l2, j. by split; [|split].
Qed.

(** An object for insertions has the last page of its file. *)
Definition at_last (cur : Z) l : Prop := exists l1 c, l = l1 ++ [(cur, c)].

End Position.

(** ** Operations *)

Section Ops.
Context (k : Z) (T0 : gset (Z * Z)) (w0 : World).
Local Abbreviation aboard := (aboard k T0 w0).
Implicit Types (T : gset (Z * Z)) (w : World) (x y : Obj) (l : list hpage) (xs : list (Obj * list hpage)) (name : string) (names : list string) (j c : Z)
  (M : Record -> bool) (rest : list (RID * Record)).

(** The object of a scan. *)
Definition scan_obj name (f : Z) (s : HeapFileScan) (cur : Z) : Obj := mkObj name f (hfs_base s) cur.

Lemma crew_open_scan c names xs T w name l j :
  aboard c names xs T w -> ready k j T0 w0 -> c + 1 <= j -> Z.of_nat (length xs) < k ->
  heap_at T0 w0 name l -> name ∉ names_of xs -> name ∉ names ->
  exists f s cur T' w' np, HeapFileScan_new name w = Some (Ok (OK, s), w') /\
    aboard (c + 1) names (xs ++ [(scan_obj name f s cur, l)]) T' w' /\ (np < length l)%nat /\
    (forall s', hfs_base s' = hfs_base s -> stands l (hfs_base s') (heap_recs l) np) /\ sc_filter s = None.
Proof.
  intros Ha Hrd Hj Hk Hat Hn1 Hn2. pose proof (aboard_ready _ _ _ _ _ _ _ _ j (j - c) Ha Hrd ltac:(lia)) as Hrd1.
  pose proof (aboard_heap _ _ _ _ _ _ _ _ _ _ Ha Hat Hn1 Hn2) as Hat1.
  destruct (HeapFileScan_new_ok _ _ T w name l Hrd1 Hat1 ltac:(lia) ltac:(lia)) as (f & s & w1 & np & R1 & Hlt & Hse & Hpos & Hnf & Hk1).
  pose proof (aboard_push _ _ _ _ _ _ _ _ T w1 (scan_obj name f s (next_no l)) l Ha Hn1 Hse Hk1) as Ha1.
  exists f, s, (next_no l), (T ∪ T), w1, np. split; [done|]. split; [done|]. split; [done|]. split; [|done].
  intros s' Hs'. eapply positioned_stands. by apply Hpos.
Qed.

Lemma crew_open_insert c names xs T w name l j :
  aboard c names xs T w -> ready k j T0 w0 -> c + 1 <= j -> Z.of_nat (length xs) < k ->
  heap_at T0 w0 name l -> name ∉ names_of xs -> name ∉ names ->
  exists f h cur T' w', InsertFileScan_new name w = Some (Ok (OK, h), w') /\
    aboard (c + 1) names (xs ++ [(mkObj name f h cur, l)]) T' w' /\ at_last cur l.
Proof.
  intros Ha Hrd Hj Hk Hat Hn1 Hn2. pose proof (aboard_ready _ _ _ _ _ _ _ _ j (j - c) Ha Hrd ltac:(lia)) as Hrd1.
  pose proof (aboard_heap _ _ _ _ _ _ _ _ _ _ Ha Hat Hn1 Hn2) as Hat1.
  destruct (InsertFileScan_new_ok _ _ T w name l Hrd1 Hat1 ltac:(lia) ltac:(lia)) as (f & h & w1 & T1 & l1 & cur & cc & R1 & -> & Hse & Hk1).
  pose proof (aboard_push _ _ _ _ _ _ _ _ T1 w1 (mkObj name f h cur) _ Ha Hn1 Hse Hk1) as Ha1.
  exists f, h, cur, (T1 ∪ T), w1. split; [done|]. split; [done|]. by exists l1, cc.
Qed.

(** Reading the record at which the scan of the object opened last stands. *)
Lemma crew_getRecord c names xs name f s cur l T w rid rec rest (np : nat) :
  aboard c names (xs ++ [(scan_obj name f s cur, l)]) T w -> stands_at l (hfs_base s) rid rec rest np ->
  call HeapFileScan_getRecord s w = Some (Ok (Ok rec, s), w).
Proof.
  intros Ha Hst. destruct (aboard_top _ _ _ _ _ _ _ _ _ _ Ha) as (T1 & b1 & [Hse _ _]). cbn [scan_obj o_name o_file o_heap o_cur] in *.
  apply call_run. eapply getRecord_located; [apply (se_heap _ _ _ _ _ _ _ _ _ Hse)|by eapply stands_at_located].
Qed.

(** Its scan: the other members of the object stay. *)
Lemma crew_scanNext_at (fuel np : nat) c names xs name f s cur l T w M rest :
  aboard c names (xs ++ [(scan_obj name f s cur, l)]) T w -> stands l (hfs_base s) rest np -> predicate s M rest -> (length rest + np < fuel)%nat ->
  exists r T' w' h' cur', let s' := set_base h' s in call (HeapFileScan_scanNext fuel) s w = Some (Ok (r, s'), w') /\
    aboard c names (xs ++ [(scan_obj name f s' cur', l)]) T' w' /\
    exists np', (np' <= np)%nat /\
    match next_match M rest with
    | [] => r = Err FILEEOF /\ stands l h' [] np'
    | (rid, rec) :: rest' => r = Ok rid /\ stands_at l h' rid rec rest' np'
    end.
Proof.
  intros Ha Hst HM Hfuel. destruct (aboard_top _ _ _ _ _ _ _ _ _ _ Ha) as (T1 & b1 & [Hse Hstep _]). cbn [scan_obj o_name o_file o_heap o_cur] in *.
  destruct (scanNext_ok fuel np l T w f s M rest Hfuel (se_heap _ _ _ _ _ _ _ _ _ Hse) (se_world Hse) (stands_positioned _ _ _ _ _ _ _ _ _ _ _ _ Hse Hst) HM)
    as (r & T2 & w2 & s2 & R2 & Hss & [h2 ->] & Hres). cbn [hfs_base set_base] in Hres.
  assert (exists rest' np', positioned (O := at_base b1 (k - Z.of_nat (length xs))) T2 w2 f l h2 rest' np') as (rest' & np' & Hpos).
  { destruct (next_match M rest) as [|[rid rec] rest']; destruct Hres as (_ & np' & Hp & _); [by eauto|]. apply located_positioned in Hp. eauto. }
  destruct (positioned_session _ _ _ _ _ _ _ _ _ _ _ _ Hse Hss Hpos) as [cur2 Hse2].
  destruct (Hstep _ _ _ _ _ Hse2) as [T3 Ha3]; [by eapply same_other|by eapply kept_same; [apply Ha|exact Hss]|].
  exists r, T3, w2, h2, cur2. split; [exact (call_run _ s w _ _ _ R2)|]. split; [done|].
  destruct (next_match M rest) as [|[rid rec] rest1]; destruct Hres as (-> & np1 & Hp & Hnp); exists np1; (split; [done|]); (split; [done|]).
  - by eapply positioned_stands.
  - by eapply located_stands.
Qed.

Lemma crew_scanNext (fuel np : nat) c names xs name f s cur l T w M rest :
  aboard c names (xs ++ [(scan_obj name f s cur, l)]) T w -> stands l (hfs_base s) rest np -> predicate s M rest -> (length rest + np < fuel)%nat ->
  exists r T' w' s' cur', call (HeapFileScan_scanNext fuel) s w = Some (Ok (r, s'), w') /\
    aboard c names (xs ++ [(scan_obj name f s' cur', l)]) T' w' /\
    match next_match M rest with
    | [] => r = Err FILEEOF
    | (rid, rec) :: rest' => r = Ok rid /\ predicate s' M rest' /\ (length rest' < length rest)%nat /\
        call HeapFileScan_getRecord s' w' = Some (Ok (Ok rec, s'), w') /\ exists np', stands l (hfs_base s') rest' np' /\ (np' <= np)%nat
    end.
Proof.
  intros Ha Hst HM Hfuel. destruct (crew_scanNext_at fuel np c names xs name f s cur l T w M rest Ha Hst HM Hfuel) as (r & T' & w' & h' & cur' & R & Ha' & np' & Hnp & Hres).
  exists r, T', w', (set_base h' s), cur'. split; [done|]. split; [done|]. destruct (next_match M rest) as [|[rid rec] rest'] eqn:Hnm; [apply Hres|].
  destruct Hres as [-> Hat]. destruct (next_match_suffix _ _ _ _ Hnm) as [pre Hpre]. split; [done|].
  split; [intros rid' r' Hin; apply (HM rid'); rewrite Hpre, elem_of_app; right; by right|]. split; [rewrite Hpre, length_app; cbn; lia|].
  split; [by eapply crew_getRecord|]. exists np'. split; [by eapply stands_at_stands|done].
Qed.

(** The position of the mark. *)
Definition at_mark (s : HeapFileScan) : HeapFile :=
  let h := hfs_base s in
  mkHeapFile (filePtr h) (headerPage h) (headerPageNo h) (hdrDirtyFlag h) (curPage h) (markedPageNo s) (curDirtyFlag h) (markedRec s).

(** Going back to it. *)
Lemma crew_resetScan c names xs name f s cur l T w rest (np : nat) :
  aboard c names (xs ++ [(scan_obj name f s cur, l)]) T w -> stands l (at_mark s) rest np ->
  exists T' w' h' cur', let s' := set_base h' s in call HeapFileScan_resetScan s w = Some (Ok (Ok tt, s'), w') /\
    aboard c names (xs ++ [(scan_obj name f s' cur', l)]) T' w' /\ curPageNo h' = markedPageNo s /\ curRec h' = markedRec s.
Proof.
  intros Ha (l1 & m & cs & l2 & j & rid & Hl & Hm & Hr & _). cbn [at_mark curPageNo curRec] in Hm, Hr.
  destruct (aboard_top _ _ _ _ _ _ _ _ _ _ Ha) as (T1 & b1 & [Hse Hstep _]). cbn [scan_obj o_name o_file o_heap o_cur] in *.
  pose proof (se_opened _ _ _ _ _ _ _ _ _ Hse) as Hop. destruct (op_cur _ _ _ _ _ Hop) as [Hn (i & Hi & _) _ _].
  enough (exists T2 w2 h2 cur2, HeapFileScan_resetScan (w, s) = Some (Ok tt, (w2, set_base h2 s)) /\ step_same (O := at_base b1 (k - Z.of_nat (length xs))) T w T2 w2 /\
    session (O := at_base b1 (k - Z.of_nat (length xs))) T1 b1 T2 w2 name f h2 cur2 l /\ curPageNo h2 = Some m /\ curRec h2 = Some rid) as (T2 & w2 & h2 & cur2 & R & Hss & Hse2 & H1 & H2).
  { destruct (Hstep _ _ _ _ _ Hse2) as [T3 Ha3]; [by eapply same_other|by eapply kept_same; [apply Ha|exact Hss]|].
    exists T3, w2, h2, cur2. split; [exact (call_run _ s w _ _ _ R)|]. split; [done|]. by rewrite H1, H2, Hm, Hr. }
  unfold HeapFileScan_resetScan. run_with (member_run markedPageNo w s m Hm). run_with (member_run (fun s => curPageNo (hfs_base s)) w s cur Hn).
  run_with (member_run markedRec w s rid Hr). case_decide as Hne.
  - destruct (cur_entry _ _ _ _ _ _ (se_heap _ _ _ _ _ _ _ _ _ Hse) Hl) as (Hm0 & p & Hp & _).
    destruct (unpin_cur_ok T w f (hfs_base s) cur (se_world Hse) Hop) as (T2 & w2 & R1 & Hss1 & Hpk).
    set (h2 := set_curRec rid (set_curPageNo m (hfs_base s))). assert (parked (O := at_base b1 (k - Z.of_nat (length xs))) T2 w2 f h2) as Hpk2 by (by eapply parked_ext; [|exact Hpk]).
    destruct (read_cur_ok T2 w2 f h2 m p (ss_world _ _ _ _ Hss1) Hpk2 Hm0) as (i2 & w3 & R2 & Hss2 & _ & Ho3); [by rewrite (ss_log _ _ _ _ Hss1)|].
    pose proof (step_same_trans _ _ _ _ _ _ Hss1 Hss2) as Hss. exists T2, w3, (set_curDirtyFlag false (set_curPage (PFrame i2) h2)), m.
    split; [apply base_run; run_with (member_run (fun h => notnull (curPage h)) w (hfs_base s) true ltac:(cbn beta; by rewrite Hi)); run_with R1; do 2 run_assign; run_with R2; done|].
    split; [done|]. split; [|done]. eapply session_same; [done|done|]. by eapply Ho3.
  - assert (m = cur) as -> by (destruct (decide (m = cur)); [done|by destruct Hne]). exists T, w, (set_curRec rid (hfs_base s)), cur.
    split; [by apply base_run|]. split; [apply step_same_refl; apply (se_world Hse)|]. split; [|done].
    eapply session_same; [done|apply step_same_refl; apply (se_world Hse)|]. by apply opened_rec.
Qed.

(** An insertion with the object opened last. *)
Lemma crew_insert c names xs name f h cur l T w rec :
  aboard c names (xs ++ [(mkObj name f h cur, l)]) T w -> at_last cur l -> name ∈ names -> rec_fits rec ->
  exists r T' w' h' cur' l', call (InsertFileScan_insertRecord rec) h w = Some (Ok (r, h'), w') /\
    aboard c names (xs ++ [(mkObj name f h' cur', l')]) T' w' /\ at_last cur' l' /\
    match r with Ok rid => heap_recs l' ≡ₚ (rid, rec) :: heap_recs l | Err _ => l' = l end.
Proof.
  intros Ha (l1 & cc & ->) Hin [Hne Hlen]. destruct (aboard_top _ _ _ _ _ _ _ _ _ _ Ha) as (T1 & b1 & [Hse Hstep _]). cbn [o_name o_file o_heap o_cur] in *.
  destruct (insertRecord_session T w name f h l1 cur cc rec Hse Hne Hlen) as (r & T2 & w2 & h2 & R2 & Hres).
  assert (exists cur2 l2, session (O := at_base b1 (k - Z.of_nat (length xs))) T1 b1 T2 w2 name f h2 cur2 l2 /\
    step_other (O := at_base b1 (k - Z.of_nat (length xs))) w f w2 /\ at_last cur2 l2 /\
    match r with Ok rid => heap_recs l2 ≡ₚ (rid, rec) :: heap_recs (l1 ++ [(cur, cc)]) | Err _ => l2 = l1 ++ [(cur, cc)] end) as (cur2 & l2 & Hse2 & Hso & Hal & Hr).
  { destruct r as [rid|e].
    - destruct Hres as (l2 & cur2 & c2 & Hse2 & Hso & Hp & _). exists cur2, (l2 ++ [(cur2, c2)]). split; [done|]. split; [done|]. split; [by exists l2, c2|done].
    - destruct Hres as [Hse2 Hso]. exists cur, (l1 ++ [(cur, cc)]). split; [done|]. split; [done|]. split; [by exists l1, cc|done]. }
  destruct (Hstep _ _ _ _ _ Hse2 Hso) as [T3 Ha3].
  { eapply kept_weaken; [eapply (kept_other _ _ _ _ _ _ _ _ Hse Hso)|lia|]. by constructor; [|constructor]. }
  exists r, T3, w2, h2, cur2, l2. split; [exact (call_run _ h w _ _ _ R2)|]. done.
Qed.

(** Deleting the object opened last. *)
Lemma crew_delete_scan c names xs name f s cur l T w :
  aboard c names (xs ++ [(scan_obj name f s cur, l)]) T w ->
  exists T' w', end_scope s w = Some (Ok tt, w') /\ aboard c names xs T' w' /\ heap_at T' w' name l.
Proof.
  intros Ha. destruct (aboard_top _ _ _ _ _ _ _ _ _ _ Ha) as (T1 & b1 & [Hse _ Hend]). cbn [scan_obj o_name o_file o_heap o_cur] in *.
  destruct (delete_scan_run _ _ _ _ _ _ _ Hse) as (w' & s' & R & _ & He). destruct (Hend w' He) as [Ha' Hat']. exists T1, w'. split; [|done].
  unfold end_scope. by run_with R.
Qed.

Lemma crew_delete_insert c names xs name f h cur l T w :
  aboard c names (xs ++ [(mkObj name f h cur, l)]) T w ->
  exists T' w', delete_ifs h w = Some (Ok tt, w') /\ aboard c names xs T' w' /\ heap_at T' w' name l.
Proof.
  intros Ha. destruct (aboard_top _ _ _ _ _ _ _ _ _ _ Ha) as (T1 & b1 & [Hse _ Hend]). cbn [o_name o_file o_heap o_cur] in *.
  destruct (InsertFileScan_delete_ok _ _ _ _ _ _ _ _ _ Hse) as (w' & h' & R & He). destruct (Hend w' He) as [Ha' Hat']. exists T1, w'. split; [|done].
  unfold delete_ifs. by run_with (call_run _ h w _ _ _ R).
Qed.

End Ops.
