(* ===== verification/QuerySelect.v ===== *)
(** * Selections *)

From S2P Require Export QueryScan QueryInsert QueryDelete.

(** ** Projections *)

Section Project.
Implicit Types (ds : list AttrDesc) (rec : Record) (row : list block) (dn tl : block).

(** The fields [ds] of a tuple. *)
Definition fields ds rec row : Prop := Forall2 (fun d bytes => rd (ad_attrOffset d) (ad_attrLen d) rec = Some bytes) ds row.

Definition sum_lens ds : Z := foldr Z.add 0 (ad_attrLen <$> ds).

Lemma sum_lens_nonneg ds : Forall (fun d => 0 <= ad_attrLen d) ds -> 0 <= sum_lens ds.
Proof. unfold sum_lens. induction 1; cbn; lia. Qed.

Lemma fields_len ds rec row : fields ds rec row -> Z.of_nat (length (concat row)) = sum_lens ds.
Proof.
  induction 1 as [|d bytes ds row Hd Hrow IH]; [done|]. cbn. rewrite length_app. pose proof (rd_length _ _ _ _ Hd). apply rd_Some in Hd as [Hd _].
  unfold sum_lens in IH. lia.
Qed.

Lemma project_ok ds rec row dn tl :
  fields ds rec row -> length (concat row) = length tl -> Z.of_nat (length (dn ++ tl)) < 2 ^ 31 ->
  project (Some <$> ds) rec (Z.of_nat (length dn)) (dn ++ tl) = Some (dn ++ concat row).
Proof.
  intros Hrow. revert dn tl. induction Hrow as [|d bytes ds row Hd Hrow IH]; intros dn tl Hlen Hmax; cbn [project fmap list_fmap concat].
  { destruct tl; [done|by cbn in Hlen]. }
  cbn [concat] in Hlen. rewrite length_app in Hlen, Hmax. cbn [mbind option_bind]. rewrite Hd. cbn [mbind option_bind].
  rewrite wr_next by lia. cbn [mbind option_bind]. pose proof (rd_length _ _ _ _ Hd) as Hl. apply rd_Some in Hd as [Hd _].
  rewrite s32_id by (unfold inS; lia). replace (Z.of_nat (length dn) + ad_attrLen d) with (Z.of_nat (length (dn ++ bytes))) by (rewrite length_app; lia).
  rewrite (app_assoc dn bytes (drop (length bytes) tl)), (app_assoc dn bytes (concat row)). apply IH; rewrite ?length_app, length_drop; lia.
Qed.

End Project.

(** ** The loop *)

Section Loop.
Context (k : Z) (T0 : gset (Z * Z)) (w0 : World).
Local Abbreviation aboard := (aboard k T0 w0).
Implicit Types (T : gset (Z * Z)) (w : World) (l lr : list hpage) (names : list string) (M : Record -> bool) (rest : list (RID * Record)).

(** The result of the selection. *)
Definition selected M (P : Record -> Record) rest : list Record := (fun x => P x.2) <$> List.filter (fun x => M x.2) rest.

(** All of [new] was added to [old], or after an error a part of it. *)
Definition added {A} (r : result A) (new old res : list Record) : Prop :=
  match r with Ok _ => res ≡ₚ new ++ old | Err _ => exists i, res ≡ₚ take i new ++ old end.

Lemma selected_next M P rest :
  selected M P rest = match next_match M rest with [] => [] | (_, rec) :: rest' => P rec :: selected M P rest' end.
Proof.
  induction rest as [|[rid r] rest IH]; [done|]. unfold selected in *. cbn. destruct (M r) eqn:HM; cbn; [done|exact IH].
Qed.

Lemma select_loop_run (n fuel np : nat) c names R fr ins cr lr S fs s cs l T w M P ds (out : block) rest :
  (length rest < n)%nat -> (length rest + np < fuel)%nat ->
  aboard c names [(mkObj R fr ins cr, lr); (scan_obj S fs s cs, l)] T w -> R ∈ names -> at_last cr lr ->
  stands l (hfs_base s) rest np -> predicate s M rest ->
  (forall rid r, (rid, r) ∈ rest -> M r = true -> exists row, fields ds r row /\ P r = concat row /\ rec_fits (concat row)) ->
  Z.of_nat (length out) = sum_lens ds -> sum_lens ds < 2 ^ 31 ->
  exists r T' w' ins' cr' lr' s' cs', select_loop n fuel (Some <$> ds) out ins s w = Some (Ok (r, ins', s'), w') /\
    aboard c names [(mkObj R fr ins' cr', lr'); (scan_obj S fs s' cs', l)] T' w' /\
    added r (selected M P rest) (heap_recs lr).*2 (heap_recs lr').*2.
Proof.
  revert ins cr lr s cs T w out rest np. induction n as [|n IH]; intros ins cr lr s cs T w out rest np Hn Hfuel Ha HR Hal Hst HM HP Hout Hmax; [lia|].
  cbn [select_loop].
  destruct (crew_scanNext k T0 w0 fuel np c names [(mkObj R fr ins cr, lr)] S fs s cs l T w M rest Ha Hst HM Hfuel) as
    (r & T1 & w1 & s1 & cs1 & R1 & Ha1 & Hres).
  run_with R1. rewrite selected_next. destruct (next_match M rest) as [|[rid rec] rest'] eqn:Hnm.
  { subst r. exists (Ok tt), T1, w1, ins, cr, lr, s1, cs1. split; [done|]. split; [exact Ha1|]. cbn [added app]. reflexivity. }
  destruct Hres as (-> & HM1 & Hlen & Hget & np' & Hst1 & Hnp). run_with Hget.
  destruct (next_match_split _ _ _ _ _ Hnm) as (pre & Hrest & _ & HMr).
  destruct (HP rid rec) as (row & Hrow & HPr & Hfit); [rewrite Hrest; apply elem_of_app; right; by left|done|].
  pose proof (fields_len _ _ _ Hrow) as Hrl.
  pose proof (project_ok ds rec row [] out Hrow ltac:(lia) ltac:(cbn [app]; lia)) as Hpr. cbn [length app] in Hpr.
  run_with (defined_run _ _ w1 Hpr). assert (forall A B : Obj * list hpage, [A; B] ≡ₚ [B; A]) as Hsw by (intros; apply Permutation_swap).
  destruct (crew_insert k T0 w0 c names [(scan_obj S fs s1 cs1, l)] R fr ins cr lr T1 w1 (concat row)
    (aboard_perm _ _ _ _ _ _ _ _ _ (Hsw _ _) Ha1) Hal HR Hfit) as (r & T2 & w2 & ins2 & cr2 & lr2 & R2 & Ha2 & Hal2 & Hr).
  run_with R2. apply (aboard_perm _ _ _ _ _ _ _ _ _ (Hsw _ _)) in Ha2. destruct r as [rid'|e].
  - destruct (IH ins2 cr2 lr2 s1 cs1 T2 w2 (concat row) rest' np' ltac:(lia) ltac:(lia) Ha2 HR Hal2 Hst1 HM1) as
      (r' & T3 & w3 & ins3 & cr3 & lr3 & s3 & cs3 & R3 & Ha3 & Hadd); [|lia|done|].
    { intros rid2 r2 Hin. apply (HP rid2 r2). rewrite Hrest. apply elem_of_app. right. by right. }
    exists r', T3, w3, ins3, cr3, lr3, s3, cs3. split; [exact R3|]. split; [done|]. rewrite HPr.
    assert ((heap_recs lr2).*2 ≡ₚ concat row :: (heap_recs lr).*2) as Hlr2 by (by rewrite Hr).
    destruct r' as [[]|e]; cbn [added] in Hadd |- *.
    + rewrite Hadd, Hlr2. symmetry. apply Permutation_middle.
    + destruct Hadd as [i Hadd]. exists (1 + i)%nat. cbn [take app Nat.add]. rewrite Hadd, Hlr2. symmetry. apply Permutation_middle.
  - subst lr2. exists (Err e), T2, w2, ins2, cr2, lr, s1, cs1. split; [done|]. split; [done|]. by exists O.
Qed.

End Loop.

(** ** [ScanSelect] *)

Section ScanSelect.
Implicit Types (T : gset (Z * Z)) (w : World) (l lr : list hpage) (M : Record -> bool) (P : Record -> Record) (rel : string) (ds : list AttrDesc).

(** Everything is closed again, and only the file [name] changed, which now
    has the chain [l]. *)
Record left_in T w name l w' : Prop := {
  li_world : world_ok T w';
  li_restored : restored w w';
  li_heap : heap_at T w' name l;
  li_other : forall nm m, nm <> name -> named_page w' nm m = named_page w nm m;
}.

(** The scan type [ScanSelect] derives from the descriptor. *)
Definition scan_type (a : AttrDesc) : Datatype :=
  if decide (ad_attrType a = 0) then STRING else if decide (ad_attrType a = 1) then INTEGER else FLOAT.

(** The filter it passes. *)
Definition scan_filter (a : AttrDesc) (filter : option block) : option (option block) :=
  match filter with None => Some None | Some _ => Some <$> filter_bytes (scan_type a) filter end.

Lemma heap_at_kept T w w' name l :
  heap_at T w name l -> restored w w' -> (forall m, named_page w' name m = named_page w name m) -> heap_at T w' name l.
Proof. intros [H1 H2 H3] Hre Hnm. split; [done|by eapply heap_ok_ext; [|exact H2]|by rewrite (re_open _ _ Hre)]. Qed.

Lemma name_not_in (a b : string) : a <> b -> a ∉ [b].
Proof. by intros Hne ?%list_elem_of_singleton. Qed.

Lemma with_insert_run {X} name (body : HeapFile -> CODE World (result X * HeapFile)) w h w1 r h2 w2 w3 :
  InsertFileScan_new name w = Some (Ok (OK, h), w1) -> body h w1 = Some (Ok (r, h2), w2) -> delete_ifs h2 w2 = Some (Ok tt, w3) ->
  with_insert name body w = Some (r, w3).
Proof.
  intros R1 R2 R3. unfold with_insert. run_with R1. rewrite decide_False by (intros Hx; by apply Hx). run_with R2. run_with R3. by destruct r.
Qed.

Lemma ScanSelect_run stack (n fuel : nat) T w res rel lr l ds a op filter flt M P reclen :
  ready 2 2 T w -> heap_at T w res lr -> heap_at T w rel l -> rel <> res -> name_ok rel ->
  ad_relName <$> head ds = Some (name_field rel) -> scan_filter a filter = Some flt ->
  scan_parm_ok (ad_attrOffset a) (ad_attrLen a) (scan_type a) flt ->
  (forall rid r, (rid, r) ∈ heap_recs l -> selects (ad_attrOffset a) (ad_attrLen a) (scan_type a) flt op r = Some (M r)) ->
  (forall rid r, (rid, r) ∈ heap_recs l -> M r = true -> exists row, fields ds r row /\ P r = concat row /\ rec_fits (concat row)) ->
  reclen = sum_lens ds -> 0 <= reclen < 2 ^ 31 ->
  (length (heap_recs l) < n)%nat -> (length (heap_recs l) + length l <= fuel)%nat ->
  exists r w' lr', ScanSelect stack n fuel res (Some <$> ds) (Some a) op filter reclen w = Some (r, w') /\
    left_in T w res lr' w' /\ added r (selected M P (heap_recs l)) (heap_recs lr).*2 (heap_recs lr').*2.
Proof.
  intros Hrd Hatr Hat Hne Hname Hd0 Hflt Hparm HM HP Hlen Hmax Hn Hf.
  pose proof (aboard_nil 2 T w T w eq_refl eq_refl (rdy_world _ _ _ _ Hrd)) as Ha0.
  destruct (crew_open_insert 2 T w 0 [] [] T w res lr 2 Ha0 Hrd ltac:(lia) ltac:(cbn; lia) Hatr ltac:(apply not_elem_of_nil) ltac:(apply not_elem_of_nil)) as
    (fr & h & cr & T1 & w1 & R1 & Ha1 & Hal).
  apply (aboard_names _ _ _ _ _ [res]) in Ha1; [|constructor]. cbn [app] in Ha1.
  destruct (crew_open_scan 2 T w (0 + 1) [res] _ T1 w1 rel l 2 Ha1 Hrd ltac:(lia) ltac:(cbn; lia) Hat ltac:(by apply name_not_in) ltac:(by apply name_not_in)) as
    (fs & s & cs & T2 & w2 & np & R2 & Ha2 & Hnp & Hst & Hnf). cbn [app] in Ha2.
  destruct (startScan_ok w2 s (ad_attrOffset a) (ad_attrLen a) (scan_type a) flt op Hparm) as (s1 & R3 & Hb & Hm).
  set (out := stack <$> seq 0 (Z.to_nat reclen)).
  assert (Z.of_nat (length out) = sum_lens ds) as Hout by (unfold out; rewrite list.length_fmap, length_seq; lia).
  destruct (select_loop_run 2 T w n fuel np (0 + 1 + 1) [res] res fr h cr lr rel fs s1 cs l T2 w2 M P ds out (heap_recs l)) as
    (r & T3 & w3 & h3 & cr3 & lr3 & s3 & cs3 & R4 & Ha3 & Hadd); [done|lia|by unfold scan_obj; rewrite Hb|by left|done|by apply Hst| |done|done|lia|].
  { intros rid rec Hin. rewrite Hm. by apply (HM rid). }
  destruct (crew_delete_scan 2 T w (0 + 1 + 1) [res] [(mkObj res fr h3 cr3, lr3)] rel fs s3 cs3 l T3 w3 Ha3) as (T4 & w4 & R5 & Ha4 & _).
  destruct (crew_delete_insert 2 T w (0 + 1 + 1) [res] [] res fr h3 cr3 lr3 T4 w4 Ha4) as (T5 & w5 & R6 & Ha5 & Hat5).
  destruct (aboard_over _ _ _ _ _ _ _ Ha5) as (-> & Hw5 & Hre5 & Hk5). exists r, w5, lr3. split; [|split; [|done]].
  - unfold ScanSelect. refine (with_insert_run _ _ _ _ _ _ _ _ _ R1 _ R6).
    destruct ds as [|d ds]; [done|]. cbn [head fmap option_fmap option_map] in Hd0. injection Hd0 as Hd0.
    assert (name_string (ad_relName d) = Some rel) as Hns by (rewrite Hd0; by apply name_string_field).
    assert (mjoin ((Some <$> (d :: ds)) !! 0%nat : option (option AttrDesc)) = Some d) as Hp0 by done.
    run_with (defined_run _ _ w1 Hp0). run_with (defined_run _ _ w1 Hns). run_with R2.
    rewrite decide_False by (intros Hx; by apply Hx). run_with (defined_run (Some a) a w2 eq_refl). fold (scan_type a).
    assert ((match filter return CODE World (option block) with None => ret None | Some _ => let! b := defined (filter_bytes (scan_type a) filter) in ret (Some b) end) w2 =
      Some (Ok flt, w2)) as Rf.
    { unfold scan_filter in Hflt. destruct filter as [v|]; [|by injection Hflt as <-]. apply fmap_Some in Hflt as (b & Hb' & ->). by run_with (defined_run _ _ w2 Hb'). }
    run_with Rf. run_with (call_run _ s w2 _ _ _ R3). 
    assert (fresh_array stack reclen = Some out) as Hfa by (unfold fresh_array; by rewrite decide_True by lia).
    run_with (defined_run _ _ w2 Hfa). run_with R4. run_with R5. done.
  - split; [done|done|done|]. intros nm m Hnm. apply (kp_named _ _ _ _ Hk5). by apply name_not_in.
Qed.

End ScanSelect.

(** ** The attributes of the projection list *)

Section MatchAttrs.
Implicit Types (b : attr) (B : list attr) (pn : list attrInfo) (pnms : list string) (nm : string) (projs : list (option AttrDesc)) (len : Z).

(** The attribute of a given name. *)
Definition choose B nm : option attr := List.find (fun b => bool_decide (at_name b = nm)) B.

Definition upd b nm (d : option AttrDesc) : option AttrDesc := if decide (at_name b = nm) then Some (tuple_of b) else d.

(** How much of the record length [b] accounts for. *)
Fixpoint share b pnms : Z :=
  match pnms with [] => 0 | nm :: pnms => (if decide (at_name b = nm) then at_len b else 0) + share b pnms end.

Lemma share_nonneg b pnms : 0 <= at_len b -> 0 <= share b pnms.
Proof. intros Hb. induction pnms as [|nm pnms IH]; cbn; [lia|]. case_decide; lia. Qed.

Lemma strcmp_tuple b (v : attrInfo) nm :
  attr_ok b -> cstring (ai_attrName v) = Some (chars nm) ->
  exists d, strcmp (ad_attrName (tuple_of b)) (ai_attrName v) = Some d /\ (d = 0 <-> at_name b = nm).
Proof.
  intros Hb Hv. assert (cstring (ad_attrName (tuple_of b)) = Some (chars (at_name b))) as Hc by (apply cstring_name_field; apply Hb).
  destruct (strcmp_ok _ _ _ _ Hc Hv) as (d & Hd & Hiff). exists d. split; [done|]. rewrite Hiff. split; [apply chars_inj|by intros ->].
Qed.

Lemma match_projs_ok b pn pnms projs len :
  named_attrs pn pnms -> length projs = length pn -> attr_ok b -> 0 <= at_len b -> 0 <= len -> len + share b pnms < 2 ^ 31 ->
  match_projs (tuple_of b) pn projs len = Some (zip_with (upd b) pnms projs, len + share b pnms).
Proof.
  intros Hn. revert projs len. induction Hn as [|v nm pn pnms Hv Hn IH]; intros [|d projs] len Hl Hb Hlen Hl0 Hmax; try done; cbn [match_projs zip_with share].
  { by rewrite Z.add_0_r. }
  cbn [share] in Hmax. pose proof (share_nonneg b pnms Hlen) as Hs. destruct (strcmp_tuple b v nm Hb Hv) as (c & -> & Hc). cbn [mbind option_bind].
  unfold upd at 1. destruct (decide (c = 0)) as [H0|H0], (decide (at_name b = nm)) as [He|He]; [|by destruct He; apply Hc|by destruct H0; apply Hc|].
  - cbn [ad_attrLen tuple_of attr_tuple]. rewrite s32_id by (unfold inS; lia).
    rewrite IH by (done || cbn in Hl; lia). cbn [mbind option_bind]. do 2 f_equal. lia.
  - rewrite IH by (done || cbn in Hl; lia). cbn [mbind option_bind]. do 2 f_equal.
Qed.

(** The attribute of the condition. *)
Definition pick (cond : option string) b (idx : option AttrDesc) : option AttrDesc :=
  match cond with None => idx | Some nm => if decide (at_name b = nm) then Some (tuple_of b) else idx end.

Definition cond_named (attr : option attrInfo) (cond : option string) : Prop :=
  match attr, cond with
  | None, None => True
  | Some v, Some nm => cstring (ai_attrName v) = Some (chars nm)
  | _, _ => False
  end.

Definition shares B pnms : Z := foldr (fun b t => share b pnms + t) 0 B.

Lemma shares_nonneg B pnms : Forall (fun b => 0 <= at_len b) B -> 0 <= shares B pnms.
Proof. induction 1 as [|b B Hb HB IH]; [done|]. unfold shares in *. cbn [foldr]. pose proof (share_nonneg b pnms Hb). lia. Qed.

Lemma match_attrs_ok B pn pnms attr cond projs len idx :
  named_attrs pn pnms -> length projs = length pn -> Forall attr_ok B -> Forall (fun b => 0 <= at_len b) B -> cond_named attr cond ->
  0 <= len -> len + shares B pnms < 2 ^ 31 ->
  match_attrs (tuple_of <$> B) pn attr (projs, len, idx) =
    Some (foldl (fun p b => zip_with (upd b) pnms p) projs B, len + shares B pnms, foldl (fun i b => pick cond b i) idx B).
Proof.
  intros Hn. revert projs len idx. induction B as [|b B IH]; intros projs len idx Hl Hok Hlens Hc Hl0 Hmax; cbn [match_attrs fmap list_fmap foldl shares foldr].
  { by rewrite Z.add_0_r. }
  apply Forall_cons_iff in Hok as [Hb Hok], Hlens as [Hbl Hlens]. cbn [shares foldr] in Hmax. fold (shares B pnms) in *.
  pose proof (shares_nonneg B pnms Hlens) as Hs. pose proof (share_nonneg b pnms Hbl).
  rewrite (match_projs_ok b pn pnms) by (done || lia). cbn [mbind option_bind].
  assert ((idx ← match attr with
            | None => Some idx
            | Some v => c ← strcmp (ad_attrName (tuple_of b)) (ai_attrName v); Some (if decide (c = 0) then Some (tuple_of b) else idx)
            end; match_attrs (tuple_of <$> B) pn attr (zip_with (upd b) pnms projs, len + share b pnms, idx)) =
    match_attrs (tuple_of <$> B) pn attr (zip_with (upd b) pnms projs, len + share b pnms, pick cond b idx)) as ->.
  { unfold cond_named in Hc. destruct attr as [v|], cond as [nm|]; try done. destruct (strcmp_tuple b v nm Hb Hc) as (c & -> & Hcc). cbn [mbind option_bind].
    unfold pick. destruct (decide (c = 0)) as [H0|H0]; [by rewrite decide_True by (by apply Hcc)|]. rewrite decide_False; [done|]. by intros ?%Hcc. }
  rewrite IH; [do 3 f_equal; lia| |done|done|done|lia|lia]. rewrite length_zip_with. apply Forall2_length in Hn. lia.
Qed.

(** Distinct names: every projection finds its attribute. *)
Lemma choose_none B nm : nm ∉ at_name <$> B -> choose B nm = None.
Proof.
  induction B as [|b B IH]; [done|]. cbn. intros [H1 H2]%not_elem_of_cons. rewrite bool_decide_eq_false_2 by congruence. by apply IH.
Qed.

Lemma foldl_upd B nm d :
  NoDup (at_name <$> B) -> foldl (fun d b => upd b nm d) d B = match choose B nm with Some b => Some (tuple_of b) | None => d end.
Proof.
  revert d. induction B as [|b B IH]; intros d Hnd; [done|]. cbn [foldl fmap list_fmap] in *. apply list.NoDup_cons in Hnd as [Hb Hnd].
  rewrite IH by done. unfold upd. cbn [choose List.find]. case_decide as He.
  - subst nm. rewrite choose_none by done. unfold choose. cbn [List.find]. by rewrite bool_decide_eq_true_2.
  - unfold choose. cbn [List.find]. by rewrite bool_decide_eq_false_2.
Qed.

Lemma foldl_zip B pnms projs :
  length projs = length pnms ->
  foldl (fun p b => zip_with (upd b) pnms p) projs B = zip_with (fun nm d => foldl (fun d b => upd b nm d) d B) pnms projs.
Proof.
  revert projs. induction B as [|b B IH]; intros projs Hl; cbn [foldl].
  - revert projs Hl. induction pnms as [|nm pnms IHp]; intros [|d projs] Hl; try done. cbn. f_equal. apply IHp. by injection Hl.
  - rewrite IH by (rewrite length_zip_with; lia). clear IH. revert projs Hl.
    induction pnms as [|nm pnms IHp]; intros [|d projs] Hl; try done. cbn. f_equal. apply IHp. by injection Hl.
Qed.

Definition chosen B pnms (bs : list attr) : Prop := Forall2 (fun nm b => choose B nm = Some b) pnms bs.

Lemma chosen_projs B pnms bs :
  NoDup (at_name <$> B) -> chosen B pnms bs ->
  foldl (fun p b => zip_with (upd b) pnms p) (replicate (length pnms) None) B = Some <$> (tuple_of <$> bs).
Proof.
  intros Hnd Hc. rewrite foldl_zip by apply length_replicate. induction Hc as [|nm b pnms bs Hb Hc IH]; [done|]. cbn [length replicate zip_with fmap list_fmap].
  rewrite foldl_upd, Hb by done. f_equal. exact IH.
Qed.

Lemma shares_cons B nm pnms : shares B (nm :: pnms) = shares B [nm] + shares B pnms.
Proof. induction B as [|b B IH]; [done|]. unfold shares in *. cbn [foldr share] in *. lia. Qed.

Lemma shares_one B nm : NoDup (at_name <$> B) -> shares B [nm] = match choose B nm with Some b => at_len b | None => 0 end.
Proof.
  induction B as [|b B IH]; [done|]. cbn [fmap list_fmap]. intros [Hb Hnd]%list.NoDup_cons. specialize (IH Hnd). unfold shares in IH |- *. cbn [foldr share] in IH |- *.
  rewrite IH. unfold choose. cbn [List.find]. fold (choose B nm). case_decide as He.
  - subst nm. rewrite choose_none by done. rewrite bool_decide_eq_true_2 by done. lia.
  - rewrite bool_decide_eq_false_2 by done. lia.
Qed.

Lemma chosen_len B pnms bs : NoDup (at_name <$> B) -> chosen B pnms bs -> shares B pnms = sum_lens (tuple_of <$> bs).
Proof.
  intros Hnd Hc. induction Hc as [|nm b pnms bs Hb Hc IH].
  - clear Hnd. induction B as [|b B IH]; [done|]. unfold shares in *. cbn [foldr share]. exact IH.
  - rewrite shares_cons, shares_one, Hb, IH by done. done.
Qed.

End MatchAttrs.

(** ** [QU_Select] *)

Section Select.
Implicit Types (T : gset (Z * Z)) (w : World) (l lr la : list hpage) (A : list attr) (M : Record -> bool) (P : Record -> Record) (rel : string).

(** Without a condition the scan is unfiltered. *)
Definition sel_attr (B bs : list attr) (cond : option string) : option attr := match cond with None => head bs | Some nm => choose B nm end.
Definition sel_op (cond : option string) (op : Operator) : Operator := match cond with None => EQ | Some _ => op end.
Definition sel_value (cond : option string) (value : option block) : option block := match cond with None => None | Some _ => value end.

(** A query over the relation [rel]: the projection list [pn] selects the
    attributes [bs], the condition is on the attribute [a]. *)
Record select_args A rel (projCnt : Z) (pn : list attrInfo) (cattr : option attrInfo) (value : option block)
    (pnms : list string) (cond : option string) (bs : list attr) (a : attr) (flt : option block) : Prop := {
  sl_cnt : projCnt = Z.of_nat (length pn);
  sl_names : named_attrs pn pnms;
  sl_rel : exists p, head pn = Some p /\ cstring (ai_relName p) = Some (chars rel);
  sl_cond : cond_named cattr cond;
  sl_type : forall v, cattr = Some v -> 0 <= ai_attrType v <= 2;
  sl_nodup : NoDup (at_name <$> List.filter (of_rel rel) A);
  sl_lens : Forall (fun b => 0 <= at_len b) (List.filter (of_rel rel) A);
  sl_chosen : chosen (List.filter (of_rel rel) A) pnms bs;
  sl_attr : sel_attr (List.filter (of_rel rel) A) bs cond = Some a;
  sl_filter : scan_filter (tuple_of a) (sel_value cond value) = Some flt;
  sl_width : sum_lens (tuple_of <$> bs) < 2 ^ 31;
}.

Lemma choose_in B nm b : choose B nm = Some b -> b ∈ B.
Proof. intros Hf. unfold choose in Hf. apply find_some in Hf as [Hin _]. by apply list_elem_of_In. Qed.

(** What the first loop of [QU_Select] finds. *)
Lemma select_matched A rel projCnt pn cattr value pnms cond bs a flt :
  Forall attr_ok A -> select_args A rel projCnt pn cattr value pnms cond bs a flt ->
  let B := List.filter (of_rel rel) A in let ds := tuple_of <$> bs in
  a ∈ B /\ name_ok rel /\ 0 <= sum_lens ds /\ ad_relName <$> head ds = Some (name_field rel) /\
  match_attrs (tuple_of <$> B) pn cattr (replicate (length pn) None, 0, None) =
    Some (Some <$> ds, sum_lens ds, foldl (fun i b => pick cond b i) None B).
Proof.
  intros Hok [S1 S2 (p0 & S3 & S3') S4 S5 S6 S7 S8 S9 S10 S11] B ds. rewrite list.Forall_forall in Hok. pose proof (chosen_len B pnms bs S6 S8) as Hl.
  assert (forall b, b ∈ B -> b ∈ A /\ at_rel b = rel) as HinB.
  { intros b Hb. apply list_elem_of_In, filter_In in Hb as [Hb He]. apply list_elem_of_In in Hb. by apply bool_decide_eq_true_1 in He. }
  assert (a ∈ B) as HaB.
  { unfold sel_attr in S9. destruct cond as [nm|]; [by eapply choose_in|]. destruct S8 as [|nm b pnms bs Hch _]; [done|]. injection S9 as <-. by eapply choose_in. }
  split; [done|]. split; [destruct (HinB a HaB) as [HaA <-]; apply (Hok a HaA)|].
  split; [unfold ds; rewrite <- Hl; by apply shares_nonneg|]. split.
  - destruct pn as [|p pn]; [done|]. inversion S2 as [|? nm0 ? pnms0 Hv Hn0]; subst. inversion S8 as [|? b0 ? bs0 Hb0 Hc0]; subst. cbn. f_equal.
    destruct (HinB b0) as [_ ->]; [by eapply choose_in|done].
  - assert (Forall attr_ok B) as HokB by (apply list.Forall_forall; intros b Hb; apply Hok, (HinB b Hb)).
    rewrite (match_attrs_ok B pn pnms cattr cond) by (done || rewrite ?length_replicate, ?Hl; done || lia).
    unfold ds. rewrite Hl, <- (chosen_projs B pnms bs S6 S8). apply Forall2_length in S2. by rewrite S2.
Qed.

Lemma QU_Select_run stack (n fuel : nat) T w res rel lr l la A projCnt pn cattr op value pnms cond bs a flt M P :
  ready 2 3 T w -> heap_at T w res lr -> heap_at T w rel l -> heap_at T w ATTRCATNAME la -> attr_state la A -> key_ok rel ->
  rel <> res -> res <> ATTRCATNAME -> rel <> ATTRCATNAME -> select_args A rel projCnt pn cattr value pnms cond bs a flt ->
  scan_parm_ok (at_off a) (at_len a) (scan_type (tuple_of a)) flt ->
  (forall rid r, (rid, r) ∈ heap_recs l -> selects (at_off a) (at_len a) (scan_type (tuple_of a)) flt (sel_op cond op) r = Some (M r)) ->
  (forall rid r, (rid, r) ∈ heap_recs l -> M r = true -> exists row, fields (tuple_of <$> bs) r row /\ P r = concat row /\ rec_fits (concat row)) ->
  (length (heap_recs l) < n)%nat -> (length (heap_recs l) + length l <= fuel)%nat ->
  (length (heap_recs la) < n)%nat -> (length (heap_recs la) + length la <= fuel)%nat ->
  exists r w' lr', QU_Select stack n fuel res projCnt pn cattr op value w = Some (r, w') /\
    world_ok T w' /\ restored w w' /\ heap_at T w' res lr' /\ heap_at T w' ATTRCATNAME la /\
    (forall nm m, nm <> res -> nm <> ATTRCATNAME -> named_page w' nm m = named_page w nm m) /\
    added r (selected M P (heap_recs l)) (heap_recs lr).*2 (heap_recs lr').*2.
Proof.
  intros Hrd Hatr Hat Hata Hs Hkey Hne Hn1 Hn2 Hargs Hparm HM HP Hn Hf Hna Hfa.
  destruct (select_matched _ _ _ _ _ _ _ _ _ _ _ (proj2 Hs) Hargs) as (HaB & Hname & Hl0 & Hhd & Hma).
  destruct Hargs as [S1 S2 (p0 & S3 & S3') S4 S5 S6 S7 S8 S9 S10 S11]. set (B := List.filter (of_rel rel) A) in *.
  destruct (getRelInfo_run 2 3 T w la A rel n fuel Hrd Hata Hs ltac:(lia) ltac:(lia) Hkey Hna Hfa) as (w1 & R1 & Hfin).
  assert (AttrCatalog_getRelInfo n fuel rel w = Some (Ok (tuple_of <$> B), w1)) as R1'.
  { rewrite R1. change (List.filter _ A) with B. clear -HaB. destruct B; [by apply not_elem_of_nil in HaB|done]. }
  pose proof (finished_ready _ _ 2 _ _ _ _ _ Hrd Hfin ltac:(lia)) as Hrd1.
  destruct (ScanSelect_run stack n fuel T w1 res rel lr l (tuple_of <$> bs) (tuple_of a) (sel_op cond op) (sel_value cond value) flt M P (sum_lens (tuple_of <$> bs))) as
    (r & w' & lr' & R2 & Hli & Hadd); try done.
  { by apply (finished_other _ _ _ _ _ _ _ Hfin). } { by apply (finished_other _ _ _ _ _ _ _ Hfin). }
  exists r, w', lr'. split; [|destruct Hli as [L1 L2 L3 L4], Hfin as [F1 F2 F3 F4 F5 F6]; split; [done|]; split; [by transitivity w1|]; split; [done|]; split; [|split; [|done]]].
  - unfold QU_Select. destruct pn as [|p pn]; [done|]. cbn [head] in S3. injection S3 as ->.
    assert (match cattr with Some a => bool_decide (ai_attrType a < 0 \/ ai_attrType a > 2) | None => false end = false) as ->.
    { destruct cattr as [v|]; [|done]. apply bool_decide_eq_false_2. specialize (S5 v eq_refl). lia. }
    run_with (defined_run ((p0 :: pn) !! 0%nat) p0 w eq_refl).
    assert (name_string (ai_relName p0) = Some rel) as Hns by (unfold name_string; rewrite S3'; cbn; f_equal; apply String.string_of_list_byte_of_string).
    run_with (defined_run _ _ w Hns). run_with R1'. rewrite S1. run_with (defined_run _ _ w1 (first_n_all (p0 :: pn))). run_with (defined_run _ _ w1 Hma).
    unfold cond_named in S4. destruct cattr as [v|], cond as [nm|]; try done.
    + assert (foldl (fun i b => pick (Some nm) b i) None B = Some (tuple_of a)) as ->.
      { change (foldl (fun d b => upd b nm d) None B = Some (tuple_of a)). rewrite foldl_upd by done. unfold sel_attr in S9. by rewrite S9. }
      run_with (defined_run (Some (tuple_of a)) _ w1 eq_refl). exact R2.
    + assert (mjoin ((Some <$> (tuple_of <$> bs)) !! 0%nat : option (option AttrDesc)) = Some (tuple_of a)) as -> by (cbn in S9; destruct bs; [done|]; by injection S9 as ->).
      exact R2.
  - eapply heap_at_kept; [exact F3|exact L2|]. intros m. by apply L4.
  - intros nm m N1 N2. rewrite L4, F4 by done. done.
Qed.

End Select.
