(* ===== verification/QueryJoin.v ===== *)
(** * Joins

    The nested loops join, with three objects open at a time. *)

From S2P Require Export QuerySelect.

(** ** The joined tuple *)

Section Record.
Implicit Types (b : attr) (bs : list attr) (row : list block) (dn tl : block) (rel : string).

(** The fields of a joined tuple: those of the relation [rel] come from the
    outer tuple, the others from the inner one. *)
Definition pair_fields rel bs (r1 r2 : Record) row : Prop :=
  Forall2 (fun b bytes => rd (at_off b) (at_len b) (if decide (at_rel b = rel) then r1 else r2) = Some bytes) bs row.

Lemma pair_fields_len rel bs r1 r2 row : pair_fields rel bs r1 r2 row -> Z.of_nat (length (concat row)) = sum_lens (tuple_of <$> bs).
Proof.
  induction 1 as [|b bytes bs row Hb Hrow IH]; [done|]. cbn [concat]. rewrite length_app. pose proof (rd_length _ _ _ _ Hb). apply rd_Some in Hb as [Hb _].
  unfold sum_lens in *. cbn. cbn in IH. lia.
Qed.

Lemma join_record_ok rel bs r1 r2 row dn tl :
  pair_fields rel bs r1 r2 row -> name_ok rel -> Forall attr_ok bs -> length (concat row) = length tl -> Z.of_nat (length (dn ++ tl)) < 2 ^ 31 ->
  join_record (tuple_of <$> bs) (name_field rel) r1 r2 (Z.of_nat (length dn)) (dn ++ tl) = Some (dn ++ concat row).
Proof.
  intros Hrow Hrel. revert dn tl. induction Hrow as [|b bytes bs row Hb Hrow IH]; intros dn tl Hok Hlen Hmax; cbn [join_record fmap list_fmap concat].
  { destruct tl; [done|by cbn in Hlen]. }
  apply Forall_cons_iff in Hok as [Hbok Hok]. cbn [concat] in Hlen. rewrite length_app in Hlen, Hmax.
  destruct (strcmp_ok (name_field (at_rel b)) (name_field rel) _ _ (cstring_name_field _ (ao_rel _ Hbok)) (cstring_name_field _ Hrel)) as (c & Hc & Hiff).
  cbn [ad_relName ad_attrOffset ad_attrLen tuple_of attr_tuple]. rewrite Hc. cbn [mbind option_bind].
  assert ((if decide (c = 0) then r1 else r2) = if decide (at_rel b = rel) then r1 else r2) as ->.
  { destruct (decide (c = 0)) as [H0|H0], (decide (at_rel b = rel)) as [He|He]; try done.
    - destruct He. apply chars_inj. by apply Hiff.
    - destruct H0. apply Hiff. by rewrite He. }
  rewrite Hb. cbn [mbind option_bind]. rewrite wr_next by lia. cbn [mbind option_bind].
  pose proof (rd_length _ _ _ _ Hb) as Hl. apply rd_Some in Hb as [Hb _].
  rewrite s32_id by (unfold inS; lia). replace (Z.of_nat (length dn) + at_len b) with (Z.of_nat (length (dn ++ bytes))) by (rewrite length_app; lia).
  rewrite (app_assoc dn bytes (drop (length bytes) tl)), (app_assoc dn bytes (concat row)). apply IH; rewrite ?length_app, ?length_drop; lia || done.
Qed.

End Record.

(** ** The loops *)

Section Loops.
Context (k : Z) (T0 : gset (Z * Z)) (w0 : World).
Local Abbreviation aboard := (aboard k T0 w0).
Context (res rel1 rel2 : string) (bs : list attr) (P : Record -> Record -> Record).
Hypotheses (Hrel1 : name_ok rel1) (Hbs : Forall attr_ok bs) (Hmax : sum_lens (tuple_of <$> bs) < 2 ^ 31).
Implicit Types (T : gset (Z * Z)) (w : World) (l lr : list hpage) (M : Record -> bool) (rest : list (RID * Record)) (old new : list Record) (xs : list (Obj * list hpage)).

(** The join stands at a tuple it cannot insert, after it has inserted those
    before it. *)
Definition blocked new old : Prop :=
  exists pre rec post c xs fr h cr lr T w e h' w', new = pre ++ rec :: post /\ aboard c [res] (xs ++ [(mkObj res fr h cr, lr)]) T w /\
    (heap_recs lr).*2 ≡ₚ pre ++ old /\ call (InsertFileScan_insertRecord rec) h w = Some (Ok (Err e, h'), w').

Lemma blocked_after pre new tl old old' : blocked new old' -> old' ≡ₚ pre ++ old -> blocked (pre ++ new ++ tl) old.
Proof.
  intros (pre' & rec & post & c & xs & fr & h & cr & lr & T & w & e & h' & w' & -> & Ha & Hp & Hr) Hold.
  exists (pre ++ pre'), rec, (post ++ tl), c, xs, fr, h, cr, lr, T, w, e, h', w'. split; [by rewrite <- !app_assoc|]. split; [done|]. split; [|done].
  by rewrite Hp, Hold, !app_assoc, (Permutation_app_comm pre).
Qed.

(** The inner loop, for the outer tuple [r1]. *)
Lemma inner_loop_run (n fuel np : nat) c fr ins cr lr f1 s1 c1 l1 f2 s c2 l2 T w M (out : block) (r1 : Record) rest :
  (length rest < n)%nat -> (length rest + np < fuel)%nat ->
  aboard c [res] [(mkObj res fr ins cr, lr); (scan_obj rel1 f1 s1 c1, l1); (scan_obj rel2 f2 s c2, l2)] T w -> at_last cr lr ->
  stands l2 (hfs_base s) rest np -> predicate s M rest ->
  (forall rid r, (rid, r) ∈ rest -> M r = true -> exists row, pair_fields rel1 bs r1 r row /\ P r1 r = concat row /\ rec_fits (concat row)) ->
  Z.of_nat (length out) = sum_lens (tuple_of <$> bs) ->
  (exists T' w' out' ins' cr' lr' s' c2', inner_loop n fuel (tuple_of <$> bs) (name_field rel1) r1 out ins s w = Some (Ok (out', ins', s'), w') /\
     aboard c [res] [(mkObj res fr ins' cr', lr'); (scan_obj rel1 f1 s1 c1, l1); (scan_obj rel2 f2 s' c2', l2)] T' w' /\ at_last cr' lr' /\
     Z.of_nat (length out') = sum_lens (tuple_of <$> bs) /\ (heap_recs lr').*2 ≡ₚ selected M (P r1) rest ++ (heap_recs lr).*2) \/
  (inner_loop n fuel (tuple_of <$> bs) (name_field rel1) r1 out ins s w = None /\ blocked (selected M (P r1) rest) (heap_recs lr).*2).
Proof.
  revert ins cr lr s c2 T w out rest np. induction n as [|n IH]; intros ins cr lr s c2 T w out rest np Hn Hfuel Ha Hal Hst HM HP Hout; [lia|].
  cbn [inner_loop].
  destruct (crew_scanNext k T0 w0 fuel np c [res] [(mkObj res fr ins cr, lr); (scan_obj rel1 f1 s1 c1, l1)] rel2 f2 s c2 l2 T w M rest Ha Hst HM Hfuel) as
    (r & T1 & w1 & s2 & c3 & R1 & Ha1 & Hres).
  run_with R1. rewrite selected_next. destruct (next_match M rest) as [|[rid rec] rest'] eqn:Hnm.
  { subst r. left. exists T1, w1, out, ins, cr, lr, s2, c3. do 4 (split; [done|]). cbn [app]. reflexivity. }
  destruct Hres as (-> & HM1 & Hlen & Hget & np' & Hst1 & Hnp). run_with Hget. run_with (defined_run (Some rec) rec w1 eq_refl).
  destruct (next_match_split _ _ _ _ _ Hnm) as (pre & Hrest & _ & HMr).
  destruct (HP rid rec) as (row & Hrow & HPr & Hfit); [rewrite Hrest; apply elem_of_app; right; by left|done|].
  pose proof (pair_fields_len _ _ _ _ _ Hrow) as Hrl.
  pose proof (join_record_ok rel1 bs r1 rec row [] out Hrow Hrel1 Hbs ltac:(lia) ltac:(cbn [app]; lia)) as Hpr. cbn [length app] in Hpr.
  run_with (defined_run _ _ w1 Hpr). assert (forall A B C : Obj * list hpage, [A; B; C] ≡ₚ [B; C; A]) as Hrot by (intros; by rewrite (Permutation_swap B A), (Permutation_swap C A)).
  apply (aboard_perm _ _ _ _ _ _ _ _ _ (Hrot _ _ _)) in Ha1.
  destruct (crew_insert k T0 w0 c [res] [(scan_obj rel1 f1 s1 c1, l1); (scan_obj rel2 f2 s2 c3, l2)] res fr ins cr lr T1 w1 (concat row) Ha1 Hal ltac:(by left) Hfit) as
    (r & T2 & w2 & ins2 & cr2 & lr2 & R2 & Ha2 & Hal2 & Hr).
  run_with R2. rewrite HPr. destruct r as [rid'|e].
  2: { right. split; [done|]. exists [], (concat row), (selected M (P r1) rest'), c, [(scan_obj rel1 f1 s1 c1, l1); (scan_obj rel2 f2 s2 c3, l2)], fr, ins, cr, lr, T1, w1, e, ins2, w2.
       split; [done|]. split; [exact Ha1|]. split; [cbn [app]; reflexivity|exact R2]. }
  apply (aboard_perm _ _ _ _ _ _ _ _ _ (symmetry (Hrot _ _ _))) in Ha2.
  assert ((heap_recs lr2).*2 ≡ₚ [concat row] ++ (heap_recs lr).*2) as Hlr2 by (by rewrite Hr).
  destruct (IH ins2 cr2 lr2 s2 c3 T2 w2 (concat row) rest' np' ltac:(lia) ltac:(lia) Ha2 Hal2 Hst1 HM1) as
    [(T3 & w3 & out3 & ins3 & cr3 & lr3 & s3 & c4 & R3 & Ha3 & Hal3 & Hout3 & Hadd)|[R3 Hbl]]; [|lia| |].
  - intros rid2 r2 Hin. apply (HP rid2 r2). rewrite Hrest. apply elem_of_app. right. by right.
  - left. exists T3, w3, out3, ins3, cr3, lr3, s3, c4. split; [exact R3|]. do 3 (split; [done|]). rewrite Hadd, Hlr2. cbn [app]. symmetry. apply Permutation_middle.
  - right. split; [exact R3|]. change (concat row :: selected M (P r1) rest') with ([concat row] ++ selected M (P r1) rest').
    rewrite <- (app_nil_r (selected M (P r1) rest')). by eapply blocked_after.
Qed.

(** The outer loop: [J] is the join condition. *)
Context (a1 a2 : attr) (t : Datatype) (op : Operator) (J : Record -> Record -> bool) (l1 l2 : list hpage) (j : Z).
Hypotheses (Ha1 : at_rel a1 = rel1) (Ha2 : at_rel a2 = rel2) (Hrel2 : name_ok rel2) (Ht : Datatype_of_int (at_type a2) = Some t).
Hypotheses (Hk : 3 <= k) (Hrd : ready k j T0 w0) (Hat2 : heap_at T0 w0 rel2 l2) (Hn1 : rel2 <> res) (Hn2 : rel2 <> rel1).
Hypothesis Hparm : forall flt, scan_parm_ok (at_off a2) (at_len a2) t (Some flt).
Hypothesis HJ : forall x y, x ∈ heap_recs l1 -> y ∈ heap_recs l2 ->
  selects (at_off a2) (at_len a2) t (Some (drop (Z.to_nat (at_off a1)) x.2)) op y.2 = Some (J x.2 y.2).
Hypothesis HP : forall x y, x ∈ heap_recs l1 -> y ∈ heap_recs l2 -> J x.2 y.2 = true ->
  exists row, pair_fields rel1 bs x.2 y.2 row /\ P x.2 y.2 = concat row /\ rec_fits (concat row).

(** The tuples of the join, in the order of the loops. *)
Definition joined rest : list Record := rest ≫= fun x => selected (J x.2) (P x.2) (heap_recs l2).

Lemma outer_loop_run (n m fuel np : nat) c fr ins cr lr f1 s1 c1 T w (out : block) rest :
  (length rest < n)%nat -> (length rest + np < fuel)%nat -> (length (heap_recs l2) < m)%nat -> (length (heap_recs l2) + length l2 <= fuel)%nat ->
  c + Z.of_nat (length rest) <= j -> (forall x, x ∈ rest -> x ∈ heap_recs l1) ->
  aboard c [res] [(mkObj res fr ins cr, lr); (scan_obj rel1 f1 s1 c1, l1)] T w -> at_last cr lr ->
  stands l1 (hfs_base s1) rest np -> predicate s1 (fun _ => true) rest -> Z.of_nat (length out) = sum_lens (tuple_of <$> bs) ->
  (exists c' T' w' ins' cr' lr' s1' c1', outer_loop n m fuel (tuple_of <$> bs) (tuple_of a1) (tuple_of a2) op out ins s1 w = Some (Ok (Ok tt, ins', s1'), w') /\
     aboard c' [res] [(mkObj res fr ins' cr', lr'); (scan_obj rel1 f1 s1' c1', l1)] T' w' /\ (heap_recs lr').*2 ≡ₚ joined rest ++ (heap_recs lr).*2) \/
  (outer_loop n m fuel (tuple_of <$> bs) (tuple_of a1) (tuple_of a2) op out ins s1 w = None /\ blocked (joined rest) (heap_recs lr).*2).
Proof.
  revert c ins cr lr s1 c1 T w out rest np. induction n as [|n IH]; intros c ins cr lr s1 c1 T w out rest np Hn Hf Hm Hf2 Hc Hin Ha Hal Hst HM Hout; [lia|].
  cbn [outer_loop].
  destruct (crew_scanNext k T0 w0 fuel np c [res] [(mkObj res fr ins cr, lr)] rel1 f1 s1 c1 l1 T w _ rest Ha Hst HM Hf) as (r & T1 & w1 & s2 & c2 & R1 & Hb1 & Hres).
  run_with R1. destruct rest as [|[rid r1] rest]; cbn [next_match] in Hres.
  { subst r. left. exists c, T1, w1, ins, cr, lr, s2, c2. do 2 (split; [done|]). cbn. reflexivity. }
  destruct Hres as (-> & HM1 & Hlen & Hget & np1 & Hst1 & Hnp1). run_with Hget. run_with (defined_run (Some r1) r1 w1 eq_refl).
  assert (name_string (ad_relName (tuple_of a2)) = Some rel2) as Hns by (cbn; rewrite Ha2; by apply name_string_field).
  run_with (defined_run _ _ w1 Hns). cbn [length] in Hc, Hn, Hf. assert ((rid, r1) ∈ heap_recs l1) as Hr1 by (apply Hin; by left).
  destruct (crew_open_scan k T0 w0 c [res] _ T1 w1 rel2 l2 j Hb1 Hrd ltac:(lia) ltac:(cbn; lia) Hat2) as (f2 & si & ci & T2 & w2 & np2 & R2 & Hb2 & Hnp2 & Hst2 & _).
  { cbn. by rewrite !not_elem_of_cons; repeat split; [..|apply not_elem_of_nil]. } { by apply name_not_in. }
  run_with R2. rewrite decide_False by (intros Hx; by apply Hx). cbn [app] in Hb2.
  set (flt := drop (Z.to_nat (at_off a1)) r1).
  destruct (startScan_ok w2 si (at_off a2) (at_len a2) t (Some flt) op (Hparm flt)) as (si1 & R3 & Hbase & Hm1).
  assert (call (start_scan (ad_attrOffset (tuple_of a2)) (ad_attrLen (tuple_of a2)) (Datatype_of_int (ad_attrType (tuple_of a2)))
    (Some (drop (Z.to_nat (ad_attrOffset (tuple_of a1))) r1)) op) si w2 = Some (Ok (Ok tt, si1), w2)) as R3'.
  { apply call_run. cbn [ad_attrOffset ad_attrLen ad_attrType tuple_of attr_tuple]. unfold start_scan. by rewrite Ht. }
  run_with R3'. assert (joined ((rid, r1) :: rest) = selected (J r1) (P r1) (heap_recs l2) ++ joined rest) as Hjo by done.
  assert (ad_relName (tuple_of a1) = name_field rel1) as -> by (cbn; by rewrite Ha1).
  destruct (inner_loop_run m fuel np2 (c + 1) fr ins cr lr f1 s2 c2 l1 f2 si1 ci l2 T2 w2 (J r1) out r1 (heap_recs l2)) as
    [(T3 & w3 & out3 & ins3 & cr3 & lr3 & si3 & ci3 & R4 & Hb3 & Hal3 & Hout3 & Hadd)|[R4 Hbl]];
    [done|lia|by unfold scan_obj in *; rewrite Hbase|done|by apply Hst2| | |done| |].
  { intros rid2 r2 Hin2. rewrite Hm1. by apply (HJ (rid, r1) (rid2, r2)). }
  { intros rid2 r2 Hin2. by apply (HP (rid, r1) (rid2, r2)). }
  2: { right. split; [unfold bind; by rewrite R4|]. rewrite Hjo. by apply (blocked_after [] _ (joined rest) _ _ Hbl). }
  run_with R4. destruct (crew_delete_scan k T0 w0 (c + 1) [res] [(mkObj res fr ins3 cr3, lr3); (scan_obj rel1 f1 s2 c2, l1)] rel2 f2 si3 ci3 l2 T3 w3 Hb3) as (T4 & w4 & R5 & Hb4 & _).
  run_with R5.
  destruct (IH (c + 1) ins3 cr3 lr3 s2 c2 T4 w4 out3 rest np1) as [(c' & T5 & w5 & ins5 & cr5 & lr5 & s5 & c5 & R6 & Hb5 & Hadd5)|[R6 Hbl]];
    [lia|lia|done|done|lia|by intros x Hx; apply Hin; right|done|done|done|done|done| |].
  - left. exists c', T5, w5, ins5, cr5, lr5, s5, c5. split; [exact R6|]. split; [done|]. rewrite Hjo, Hadd5, Hadd, !app_assoc, (Permutation_app_comm (joined rest)). done.
  - right. split; [exact R6|]. rewrite Hjo, <- (app_nil_r (joined rest)). by eapply blocked_after.
Qed.

End Loops.

(** ** The descriptors *)

Section Lookup.
Implicit Types (T : gset (Z * Z)) (w : World) (la : list hpage) (A : list attr) (p : attrInfo).

(** The argument [p] names the attribute [b] of the catalog. *)
Definition refers A p (b : attr) : Prop :=
  exists rel nm, cstring (ai_relName p) = Some (chars rel) /\ cstring (ai_attrName p) = Some (chars nm) /\
    key_ok rel /\ nm <> ""%string /\ List.find (is_attr rel nm) A = Some b.

Lemma name_string_chars (a : block) nm : cstring a = Some (chars nm) -> name_string a = Some nm.
Proof. intros Hc. unfold name_string. rewrite Hc. cbn. f_equal. apply String.string_of_list_byte_of_string. Qed.

Lemma lookup_attr_run k j T w la A p b (n fuel : nat) :
  ready k j T w -> 1 <= k -> 1 <= j -> heap_at T w ATTRCATNAME la -> attr_state la A -> refers A p b ->
  (length (heap_recs la) < n)%nat -> (length (heap_recs la) + length la <= fuel)%nat ->
  exists w', lookup_attr n fuel p w = Some (Ok (tuple_of b), w') /\ finished T w ATTRCATNAME la w'.
Proof.
  intros Hrd Hk Hj Hat Hs (rel & nm & H1 & H2 & H3 & H4 & H5) Hn Hf.
  destruct (attr_getInfo_run k j T w la A rel nm n fuel Hrd Hat Hs Hk Hj H3 H4 Hn Hf) as (w' & R & Hfin). rewrite H5 in R.
  exists w'. split; [|done]. unfold lookup_attr. run_with (defined_run _ _ w (name_string_chars _ _ H1)).
  run_with (defined_run _ _ w (name_string_chars _ _ H2)). exact R.
Qed.

Lemma lookup_attrs_run k j T w la A ps bs (n fuel : nat) :
  ready k j T w -> 1 <= k -> Z.of_nat (length ps) <= j -> heap_at T w ATTRCATNAME la -> attr_state la A -> Forall2 (refers A) ps bs ->
  (length (heap_recs la) < n)%nat -> (length (heap_recs la) + length la <= fuel)%nat ->
  exists w', lookup_attrs n fuel ps w = Some (Ok (tuple_of <$> bs), w') /\ changed (Z.of_nat (length ps)) T w [ATTRCATNAME] w' /\ heap_at T w' ATTRCATNAME la.
Proof.
  intros Hrd Hk Hj Hat Hs Hps Hn Hf. revert j w Hrd Hj Hat. induction Hps as [|p b ps bs Hp Hps IH]; intros j w Hrd Hj Hat; cbn [lookup_attrs length] in *.
  { exists w. split; [done|]. split; [|done]. apply changed_refl, Hrd. }
  destruct (lookup_attr_run k j T w la A p b n fuel Hrd Hk ltac:(lia) Hat Hs Hp Hn Hf) as (w1 & R1 & Hfin).
  pose proof (finished_ready _ _ (j - 1) _ _ _ _ _ Hrd Hfin ltac:(lia)) as Hrd1.
  destruct (IH (j - 1) w1 Hrd1 ltac:(lia) (fi_heap _ _ _ _ _ Hfin)) as (w2 & R2 & Hch & Hat2). exists w2.
  split; [|split; [eapply changed_trans; [by eapply (finished_changed _ _ _ _ _ [ATTRCATNAME] Hfin); left|exact Hch|lia]|done]].
  destruct Hp as (rel & nm & H1 & H2 & H3 & H4 & H5). unfold lookup_attr in R1.
  rewrite (bind_Ok _ _ _ _ _ (defined_run _ _ w (name_string_chars _ _ H1))) in R1. rewrite (bind_Ok _ _ _ _ _ (defined_run _ _ w (name_string_chars _ _ H2))) in R1.
  run_with (defined_run _ _ w (name_string_chars _ _ H1)). run_with (defined_run _ _ w (name_string_chars _ _ H2)). run_with R1. run_with R2. done.
Qed.

End Lookup.

(** ** [QU_NL_Join] *)

Section Join.
Implicit Types (T : gset (Z * Z)) (w : World) (l lr la : list hpage) (A : list attr).

(** A join of two relations into a third. *)
Record join_args A (projCnt : Z) (pn : list attrInfo) (attr1 attr2 : attrInfo) (res : string) (bs : list attr) (a1 a2 : attr) (t : Datatype) : Prop := {
  ja_same : same_type attr1 attr2 = true;
  ja_cnt : projCnt = Z.of_nat (length pn);
  ja_projs : Forall2 (refers A) pn bs;
  ja_attr1 : refers A attr1 a1;
  ja_attr2 : refers A attr2 a2;
  ja_type : Datatype_of_int (at_type a2) = Some t;
  ja_ne : at_rel a1 <> at_rel a2;
  ja_res : res <> at_rel a1 /\ res <> at_rel a2 /\ res <> ATTRCATNAME;
  ja_cat : at_rel a1 <> ATTRCATNAME /\ at_rel a2 <> ATTRCATNAME;
  ja_parm : forall flt, scan_parm_ok (at_off a2) (at_len a2) t (Some flt);
  ja_width : sum_lens (tuple_of <$> bs) < 2 ^ 31 /\ Forall (fun b => 0 <= at_len b) bs;
}.

Lemma refers_ok A p b : Forall attr_ok A -> refers A p b -> attr_ok b.
Proof. rewrite list.Forall_forall. intros Hok (rel & nm & _ & _ & _ & _ & Hf). apply find_some in Hf as [Hin _]. apply Hok. by apply list_elem_of_In. Qed.

Lemma total_len_sum ds : Forall (fun d => 0 <= ad_attrLen d) ds -> sum_lens ds < 2 ^ 31 -> total_len ds = sum_lens ds.
Proof.
  intros Hd. unfold total_len. assert (forall z, 0 <= z -> z + sum_lens ds < 2 ^ 31 ->
    foldl (fun z a => s32 (z + ad_attrLen a)) z ds = z + sum_lens ds) as H; [|intros; rewrite H; lia].
  unfold sum_lens. induction Hd as [|d ds Hd1 Hd IH]; intros z Hz Hmax; cbn in *; [lia|].
  pose proof (sum_lens_nonneg _ Hd) as Hpos. unfold sum_lens in Hpos.
  rewrite s32_id by (unfold inS; cbn; lia). rewrite IH; lia.
Qed.

(** [QU_NL_Join] once the descriptors are known. *)
Definition join_body (stack : nat -> byte) (n fuel : nat) (res : string) (attrs : list AttrDesc) (d1 d2 : AttrDesc) (op : Operator) : CODE World unit :=
  with_insert res (fun resultRel =>
    let! outputData := defined (fresh_array stack (total_len attrs)) in
    let! outer := defined (name_string (ad_relName d1)) in
    let! (st, outerScan) := HeapFileScan_new outer in
    if decide (st <> OK) then end_scope outerScan ;;; ret (Err st, resultRel)
    else
      let! (r, outerScan) := call (HeapFileScan_startScan 0 0 STRING None EQ) outerScan in
      match r with
      | Err st => end_scope outerScan ;;; ret (Err st, resultRel)
      | Ok _ =>
          let! (r, resultRel, outerScan) := outer_loop n n fuel attrs d1 d2 (flip_op op) outputData resultRel outerScan in
          end_scope outerScan ;;;
          ret (r, resultRel)
      end).

Lemma with_insert_none {X} name (body : HeapFile -> CODE World (result X * HeapFile)) w h w1 :
  InsertFileScan_new name w = Some (Ok (OK, h), w1) -> body h w1 = None -> with_insert name body w = None.
Proof. intros R1 R2. unfold with_insert. run_with R1. rewrite decide_False by (intros Hx; by apply Hx). unfold bind. by rewrite R2. Qed.

Section Body.
Context (res : string) (bs : list attr) (a1 a2 : attr) (t : Datatype) (op : Operator) (J : Record -> Record -> bool) (P : Record -> Record -> Record).
Context (T : gset (Z * Z)) (w : World) (lr l1 l2 : list hpage).
Hypotheses (Hok1 : attr_ok a1) (Hok2 : attr_ok a2) (Hbs : Forall attr_ok bs).
Hypotheses (Ht : Datatype_of_int (at_type a2) = Some t) (Hne : at_rel a1 <> at_rel a2) (Hr1 : res <> at_rel a1) (Hr2 : res <> at_rel a2).
Hypothesis Hparm : forall flt, scan_parm_ok (at_off a2) (at_len a2) t (Some flt).
Hypotheses (Hwd : sum_lens (tuple_of <$> bs) < 2 ^ 31) (Hlens : Forall (fun b => 0 <= at_len b) bs).
Hypothesis Hrd : ready 3 (Z.of_nat (length (heap_recs l1)) + 2) T w.
Hypotheses (Hatr : heap_at T w res lr) (Hat1 : heap_at T w (at_rel a1) l1) (Hat2 : heap_at T w (at_rel a2) l2).
Hypothesis HJ : forall x y, x ∈ heap_recs l1 -> y ∈ heap_recs l2 ->
  selects (at_off a2) (at_len a2) t (Some (drop (Z.to_nat (at_off a1)) x.2)) (flip_op op) y.2 = Some (J x.2 y.2).
Hypothesis HP : forall x y, x ∈ heap_recs l1 -> y ∈ heap_recs l2 -> J x.2 y.2 = true ->
  exists row, pair_fields (at_rel a1) bs x.2 y.2 row /\ P x.2 y.2 = concat row /\ rec_fits (concat row).

Lemma join_body_run stack (n fuel : nat) :
  let new := joined P J l2 (heap_recs l1) in
  (length (heap_recs l1) < n)%nat -> (length (heap_recs l1) + length l1 <= fuel)%nat -> (length (heap_recs l2) < n)%nat -> (length (heap_recs l2) + length l2 <= fuel)%nat ->
  (exists w' lr', join_body stack n fuel res (tuple_of <$> bs) (tuple_of a1) (tuple_of a2) op w = Some (Ok tt, w') /\
     left_in T w res lr' w' /\ (heap_recs lr').*2 ≡ₚ new ++ (heap_recs lr).*2) \/
  (join_body stack n fuel res (tuple_of <$> bs) (tuple_of a1) (tuple_of a2) op w = None /\ blocked 3 T w res new (heap_recs lr).*2).
Proof using Type*.
  intros new Hn1 Hf1 Hn2 Hf2. set (j := Z.of_nat (length (heap_recs l1)) + 2) in *.
  pose proof (aboard_nil 3 T w T w eq_refl eq_refl (rdy_world _ _ _ _ Hrd)) as Ha0.
  destruct (crew_open_insert 3 T w 0 [] [] T w res lr j Ha0 Hrd ltac:(lia) ltac:(cbn; lia) Hatr ltac:(apply not_elem_of_nil) ltac:(apply not_elem_of_nil)) as
    (fr & h & cr & T2 & w2 & R2 & Ha2 & Hal).
  apply (aboard_names _ _ _ _ _ [res]) in Ha2; [|constructor]. cbn [app] in Ha2.
  destruct (crew_open_scan 3 T w (0 + 1) [res] _ T2 w2 (at_rel a1) l1 j Ha2 Hrd ltac:(lia) ltac:(cbn; lia) Hat1 ltac:(by apply name_not_in) ltac:(by apply name_not_in)) as
    (f1 & s1 & c1 & T3 & w3 & np & R3 & Ha3 & Hnp & Hst & Hnf). cbn [app] in Ha3.
  destruct (startScan_ok w3 s1 0 0 STRING None EQ ltac:(by left)) as (s2 & R4 & Hb & Hm).
  set (len := sum_lens (tuple_of <$> bs)) in *. set (out := stack <$> seq 0 (Z.to_nat len)).
  assert (Forall (fun d => 0 <= ad_attrLen d) (tuple_of <$> bs)) as Hlens' by (by apply Forall_fmap).
  pose proof (total_len_sum _ Hlens' Hwd) as Htl. pose proof (sum_lens_nonneg _ Hlens') as Hl0. fold len in Htl, Hl0.
  assert (Z.of_nat (length out) = len) as Hout by (unfold out; rewrite list.length_fmap, length_seq; lia).
  assert (fresh_array stack (total_len (tuple_of <$> bs)) = Some out) as Hfa by (unfold fresh_array; rewrite Htl; by rewrite decide_True).
  assert (name_string (ad_relName (tuple_of a1)) = Some (at_rel a1)) as Hns by (apply name_string_field, Hok1).
  pose proof (outer_loop_run 3 T w res (at_rel a1) (at_rel a2) bs P (ao_rel _ Hok1) Hbs Hwd a1 a2 t (flip_op op) J l1 l2 j eq_refl eq_refl (ao_rel _ Hok2) Ht ltac:(lia) Hrd Hat2
    ltac:(congruence) ltac:(congruence) Hparm HJ HP n n fuel np (0 + 1 + 1) fr h cr lr f1 s2 c1 T3 w3 out (heap_recs l1) Hn1 ltac:(lia) Hn2 Hf2 ltac:(lia)
    ltac:(done) ltac:(by unfold scan_obj in *; rewrite Hb) Hal ltac:(by apply Hst) ltac:(by intros rid r _; rewrite Hm) Hout) as Hloop.
  unfold join_body. destruct Hloop as [(c' & T4 & w4 & h4 & cr4 & lr4 & s4 & c4 & R5 & Ha4 & Hadd)|[R5 Hbl]]; [left|right].
  - destruct (crew_delete_scan 3 T w c' [res] [(mkObj res fr h4 cr4, lr4)] (at_rel a1) f1 s4 c4 l1 T4 w4 Ha4) as (T5 & w5 & R6 & Ha5 & _).
    destruct (crew_delete_insert 3 T w c' [res] [] res fr h4 cr4 lr4 T5 w5 Ha5) as (T6 & w6 & R7 & Ha6 & Hat6).
    destruct (aboard_over _ _ _ _ _ _ _ Ha6) as (-> & Hw6 & Hre6 & Hk6). exists w6, lr4. split; [|split; [|done]].
    + refine (with_insert_run _ _ _ _ _ _ _ _ _ R2 _ R7). run_with (defined_run _ _ w2 Hfa). run_with (defined_run _ _ w2 Hns). run_with R3.
      rewrite decide_False by (intros Hx; by apply Hx). run_with (call_run _ s1 w3 _ _ _ R4). run_with R5. run_with R6. done.
    + split; [done|done|done|]. intros nm m Hnm. apply (kp_named _ _ _ _ Hk6). by apply name_not_in.
  - split; [|done]. refine (with_insert_none _ _ _ _ _ R2 _). run_with (defined_run _ _ w2 Hfa). run_with (defined_run _ _ w2 Hns). run_with R3.
    rewrite decide_False by (intros Hx; by apply Hx). run_with (call_run _ s1 w3 _ _ _ R4). unfold bind. by rewrite R5.
Qed.

End Body.

(** The descriptors of the projections and of the two join attributes. *)
Lemma join_lookups (n fuel : nat) T w la A pn attr1 attr2 bs a1 a2 j :
  Forall2 (refers A) pn bs -> refers A attr1 a1 -> refers A attr2 a2 -> heap_at T w ATTRCATNAME la -> attr_state la A ->
  ready 3 (Z.of_nat (length pn) + 2 + j) T w -> 0 <= j ->
  (length (heap_recs la) < n)%nat -> (length (heap_recs la) + length la <= fuel)%nat ->
  exists wa wb w1, lookup_attrs n fuel pn w = Some (Ok (tuple_of <$> bs), wa) /\ lookup_attr n fuel attr1 wa = Some (Ok (tuple_of a1), wb) /\
    lookup_attr n fuel attr2 wb = Some (Ok (tuple_of a2), w1) /\ ready 3 j T w1 /\ changed (Z.of_nat (length pn) + 2) T w [ATTRCATNAME] w1 /\
    heap_at T w1 ATTRCATNAME la.
Proof.
  intros J3 J4 J5 Hata Hs Hrd Hj Hna Hfa. set (p := Z.of_nat (length pn)) in *.
  destruct (lookup_attrs_run 3 (p + 2 + j) T w la A pn bs n fuel Hrd ltac:(lia) ltac:(lia) Hata Hs J3 Hna Hfa) as (wa & Ra & Hcha & Hata1).
  pose proof (changed_ready _ _ (2 + j) _ _ _ _ _ Hrd Hcha ltac:(lia)) as Hrda.
  destruct (lookup_attr_run 3 (2 + j) T wa la A attr1 a1 n fuel Hrda ltac:(lia) ltac:(lia) Hata1 Hs J4 Hna Hfa) as (wb & Rb & Hfinb).
  pose proof (finished_ready _ _ (1 + j) _ _ _ _ _ Hrda Hfinb ltac:(lia)) as Hrdb.
  destruct (lookup_attr_run 3 (1 + j) T wb la A attr2 a2 n fuel Hrdb ltac:(lia) ltac:(lia) (fi_heap _ _ _ _ _ Hfinb) Hs J5 Hna Hfa) as (w1 & Rc & Hfinc).
  pose proof (finished_ready _ _ j _ _ _ _ _ Hrdb Hfinc ltac:(lia)) as Hrd1.
  exists wa, wb, w1. do 4 (split; [done|]). split; [|apply Hfinc].
  eapply changed_trans; [eapply changed_trans; [exact Hcha|by eapply finished_changed; [exact Hfinb|left]|reflexivity]|by eapply finished_changed; [exact Hfinc|left]|lia].
Qed.

Lemma QU_NL_Join_run stack (n fuel : nat) T w la A projCnt pn attr1 attr2 op res lr l1 l2 bs a1 a2 t J P :
  let new := joined P J l2 (heap_recs l1) in
  join_args A projCnt pn attr1 attr2 res bs a1 a2 t ->
  ready 3 (Z.of_nat (length pn) + Z.of_nat (length (heap_recs l1)) + 4) T w -> heap_at T w ATTRCATNAME la -> attr_state la A ->
  heap_at T w res lr -> heap_at T w (at_rel a1) l1 -> heap_at T w (at_rel a2) l2 ->
  (forall x y, x ∈ heap_recs l1 -> y ∈ heap_recs l2 ->
     selects (at_off a2) (at_len a2) t (Some (drop (Z.to_nat (at_off a1)) x.2)) (flip_op op) y.2 = Some (J x.2 y.2)) ->
  (forall x y, x ∈ heap_recs l1 -> y ∈ heap_recs l2 -> J x.2 y.2 = true ->
     exists row, pair_fields (at_rel a1) bs x.2 y.2 row /\ P x.2 y.2 = concat row /\ rec_fits (concat row)) ->
  (length (heap_recs la) < n)%nat -> (length (heap_recs la) + length la <= fuel)%nat -> (length (heap_recs l1) < n)%nat ->
  (length (heap_recs l1) + length l1 <= fuel)%nat -> (length (heap_recs l2) < n)%nat -> (length (heap_recs l2) + length l2 <= fuel)%nat ->
  (exists w' lr', QU_NL_Join stack n fuel res projCnt pn attr1 op attr2 w = Some (Ok tt, w') /\ world_ok T w' /\ restored w w' /\
     heap_at T w' res lr' /\ (heap_recs lr').*2 ≡ₚ new ++ (heap_recs lr).*2 /\
     (forall nm m, nm <> res -> nm <> ATTRCATNAME -> named_page w' nm m = named_page w nm m)) \/
  (QU_NL_Join stack n fuel res projCnt pn attr1 op attr2 w = None /\ exists w1, restored w w1 /\ blocked 3 T w1 res new (heap_recs lr).*2).
Proof.
  intros new [J1 J2 J3 J4 J5 J6 J7 (J8 & J9 & J10) (J11 & J12) J13 (J14 & J15)] Hrd Hata Hs Hatr Hat1 Hat2 HJ HP Hna Hfa Hn1 Hf1 Hn2 Hf2.
  destruct (join_lookups n fuel T w la A pn attr1 attr2 bs a1 a2 (Z.of_nat (length (heap_recs l1)) + 2) J3 J4 J5 Hata Hs) as
    (wa & wb & w1 & Ra & Rb & Rc & Hrd1 & Hch & _); [by replace (Z.of_nat (length pn) + 2 + (Z.of_nat (length (heap_recs l1)) + 2)) with
      (Z.of_nat (length pn) + Z.of_nat (length (heap_recs l1)) + 4) by lia|lia|done|done|].
  assert (forall nm l, nm <> ATTRCATNAME -> heap_at T w nm l -> heap_at T w1 nm l) as Hkeep.
  { intros nm l Hnm. apply (changed_heap _ _ _ _ _ _ _ Hch). by apply name_not_in. }
  pose proof (proj2 Hs) as HokA. assert (Forall attr_ok bs) as Hokb.
  { apply list.Forall_forall. intros b Hb. apply list_elem_of_lookup in Hb as [i Hb]. destruct (Forall2_lookup_r _ _ _ _ _ J3 Hb) as (q & _ & Hq). by eapply refers_ok. }
  assert (QU_NL_Join stack n fuel res projCnt pn attr1 op attr2 w = join_body stack n fuel res (tuple_of <$> bs) (tuple_of a1) (tuple_of a2) op w1) as ->.
  { unfold QU_NL_Join. rewrite J1. cbn [negb]. rewrite J2. run_with (defined_run _ _ w (first_n_all pn)). run_with Ra. run_with Rb. run_with Rc. done. }
  destruct (join_body_run res bs a1 a2 t op J P T w1 lr l1 l2 (refers_ok _ _ _ HokA J4) (refers_ok _ _ _ HokA J5) Hokb J6 J7 J8 J9 J13 J14 J15 Hrd1
    (Hkeep _ _ J10 Hatr) (Hkeep _ _ J11 Hat1) (Hkeep _ _ J12 Hat2) HJ HP stack n fuel Hn1 Hf1 Hn2 Hf2) as [(w' & lr' & R & [L1 L2 L3 L4] & Hadd)|[R Hbl]]; [left|right].
  - exists w', lr'. split; [done|]. split; [done|]. split; [transitivity w1; [apply Hch|done]|]. split; [done|]. split; [done|].
    intros nm m N1 N2. rewrite L4, (ch_other _ _ _ _ _ Hch); [done|by apply name_not_in|done].
  - split; [done|]. exists w1. split; [apply Hch|done].
Qed.

End Join.
