(* ===== verification/JoinHT.v ===== *)
(** * The hash table of the hash join (joinHT.h, joinHT.C)

    [joinHashTbl] maps the values of the join attribute to the record ids of
    the tuples that have them.  A pointer to an attribute is the block from
    there to the end of the tuple; a chain is the list of its buckets. *)

From S2P Require Export CatView.

(** ** Data *)

(** [union JAttrType], with the member that was written; [JNone] when
    [attrType] is not a type and no member is. *)
Inductive JAttrType : Set :=
| iValue (i : Z)
| fValue (f : spec_float)
| sValue (s : block)
| JNone.

Record joinhashBucket : Set := mkBucket { jb_attrValue : JAttrType; jb_rid : RID }.
Record HTentry : Set := mkHTentry { he_bucketCnt : Z; he_chain : list joinhashBucket }.
Record joinHashTbl : Set := mkJoinHT { jt_joinAttr : AttrDesc; jt_HTSIZE : Z; jt_ht : list HTentry }.

(** The type of the join attribute: the enumerators of [Datatype] are its
    first three integers. *)
Definition attr_datatype (attrType : Z) : option Datatype :=
  if decide (attrType = 0) then Some STRING
  else if decide (attrType = 1) then Some INTEGER
  else if decide (attrType = 2) then Some FLOAT else None.

(** ** Operations *)

(** [new HTentry[HTSIZE]] throws for a negative size. *)
Definition joinHashTbl_new (size : Z) (attr : AttrDesc) : option joinHashTbl :=
  if decide (size < 0) then None
  else Some (mkJoinHT attr size (replicate (Z.to_nat size) (mkHTentry 0 []))).

(** The buckets in the order the destructor frees them. *)
Definition joinHashTbl_delete (t : joinHashTbl) : list joinhashBucket := jt_ht t ≫= he_chain.

Definition schar (c : byte) : Z := wrapS 8 (byteZ c).

(** [while ( *attrPtr++ ) value = 31*value + (int) *attrPtr]: the first
    character is tested but not used, the terminator is. *)
Fixpoint hash_chars (value : Z) (s : block) : option Z :=
  match s with
  | [] => None
  | c :: s =>
      if decide (c = x00) then Some value
      else match s with
           | [] => None
           | d :: _ => hash_chars (s32 (s32 (31 * value) + schar d)) s
           end
  end.

Definition flt_mul (x y : spec_float) : spec_float := SFmul flt_prec flt_emax x y.

(** [(int) f]: towards zero, undefined when the result is no [int]. *)
Definition int_of_flt (f : spec_float) : option Z :=
  match f with
  | S754_zero _ => Some 0
  | S754_finite s m e =>
      let q := Z.shiftl (Zpos m) e in
      let z := if s then - q else q in
      if decide (inS 32 z) then Some z else None
  | _ => None
  end.

Definition rd_flt (off : Z) (b : block) : option spec_float := (fun v => flt_of_bits (le_dec v)) <$> rd off 4 b.

(** The value before the reduction; an illegal type only prints a message. *)
Definition raw_hash (HTSIZE : Z) (attrPtr : block) (attrType : Z) : option Z :=
  match attr_datatype attrType with
  | Some INTEGER => i ← rd32 0 attrPtr; Some (s32 (s32 (i * HTSIZE) * 31))
  | Some FLOAT => f ← rd_flt 0 attrPtr; int_of_flt (flt_mul (flt_mul f (flt_of_int HTSIZE)) (flt_of_int 31))
  | Some STRING => hash_chars 0 attrPtr
  | None => Some 0
  end.

(** [abs(value % HTSIZE)]. *)
Definition joinHashTbl_hash (t : joinHashTbl) (attrPtr : block) (attrType : Z) : option Z :=
  value ← raw_hash (jt_HTSIZE t) attrPtr attrType;
  if decide (jt_HTSIZE t = 0) then None else Some (Z.abs (Z.rem value (jt_HTSIZE t))).

(** The copy of the attribute [insert] keeps. *)
Definition attr_copy (a : AttrDesc) (joinAttrPtr : block) : option JAttrType :=
  match attr_datatype (ad_attrType a) with
  | Some INTEGER => iValue <$> rd32 0 joinAttrPtr
  | Some FLOAT => fValue <$> rd_flt 0 joinAttrPtr
  | Some STRING => sValue <$> rd 0 (ad_attrLen a) joinAttrPtr
  | None => Some JNone
  end.

Definition joinHashTbl_insert (newRid : RID) (tuple : block) (t : joinHashTbl) : option joinHashTbl :=
  let a := jt_joinAttr t in
  if decide (0 <= ad_attrOffset a <= Z.of_nat (length tuple)) then
    let joinAttrPtr := drop (Z.to_nat (ad_attrOffset a)) tuple in
    index ← joinHashTbl_hash t joinAttrPtr (ad_attrType a);
    e ← zget (jt_ht t) index;
    v ← attr_copy a joinAttrPtr;
    ht ← zset (jt_ht t) index (mkHTentry (s32 (he_bucketCnt e + 1)) (mkBucket v newRid :: he_chain e));
    Some (mkJoinHT a (jt_HTSIZE t) ht)
  else None.

(** Whether a bucket matches the value at [ptr]; the test of a [float] is the
    one of IEEE 754. *)
Definition bucket_matches (a : AttrDesc) (ptr : block) (v : JAttrType) : option bool :=
  match attr_datatype (ad_attrType a), v with
  | Some INTEGER, iValue i => j ← rd32 0 ptr; Some (bool_decide (i = j))
  | Some FLOAT, fValue f => g ← rd_flt 0 ptr; Some (SFeqb f g)
  | Some STRING, sValue s => c ← strncmp (Z.to_nat (ad_attrLen a)) s ptr; Some (bool_decide (c = 0))
  | None, _ => Some false
  | _, _ => None
  end.

(** The loop of [lookup]: [outRids[ridCnt] = ...] must stay in the array. *)
Fixpoint lookup_loop (a : AttrDesc) (ptr : block) (chain : list joinhashBucket) (ridCnt : Z) (outRids : list RID) :
    option (Z * list RID) :=
  match chain with
  | [] => Some (ridCnt, outRids)
  | b :: chain =>
      m ← bucket_matches a ptr (jb_attrValue b);
      if m : bool then
        outRids ← zset outRids ridCnt (jb_rid b);
        lookup_loop a ptr chain (ridCnt + 1) outRids
      else lookup_loop a ptr chain ridCnt outRids
  end.

(** The count and the array; the members of a new [RID] are arbitrary. *)
Definition joinHashTbl_lookup (rid0 : RID) (ptr : block) (t : joinHashTbl) : option (Z * list RID) :=
  let a := jt_joinAttr t in
  index ← joinHashTbl_hash t ptr (ad_attrType a);
  e ← zget (jt_ht t) index;
  if decide (he_bucketCnt e < 0) then None
  else lookup_loop a ptr (he_chain e) 0 (replicate (Z.to_nat (he_bucketCnt e)) rid0).

(** The build phase of a hash join: one [insert] per tuple. *)
Fixpoint insert_tuples (tuples : list (RID * block)) (t : joinHashTbl) : option joinHashTbl :=
  match tuples with
  | [] => Some t
  | (rid, tuple) :: tuples => t ← joinHashTbl_insert rid tuple t; insert_tuples tuples t
  end.

(** [matchRec] of join.C: 0 stands for a match.  The difference of two
    [float]s is truncated to an [int]. *)
Definition join_matchRec (outerRec innerRec : Record) (attrDesc1 attrDesc2 : AttrDesc) : option Z :=
  match attr_datatype (ad_attrType attrDesc1) with
  | Some INTEGER =>
      tmpInt1 ← rd32 (ad_attrOffset attrDesc1) outerRec;
      tmpInt2 ← rd32 (ad_attrOffset attrDesc2) innerRec;
      Some (s32 (tmpInt1 - tmpInt2))
  | Some FLOAT =>
      tmpFloat1 ← rd_flt (ad_attrOffset attrDesc1) outerRec;
      tmpFloat2 ← rd_flt (ad_attrOffset attrDesc2) innerRec;
      int_of_flt (flt_sub tmpFloat1 tmpFloat2)
  | Some STRING =>
      if decide (0 <= ad_attrOffset attrDesc1 /\ 0 <= ad_attrOffset attrDesc2) then
        strcmp (drop (Z.to_nat (ad_attrOffset attrDesc1)) outerRec) (drop (Z.to_nat (ad_attrOffset attrDesc2)) innerRec)
      else None
  | None => Some 0
  end.

(** ** The values of attributes *)

Inductive key : Set := KInt (i : Z) | KFlt (f : spec_float) | KStr (s : block).

(** A string must end within the length of the attribute. *)
Definition key_of (a : AttrDesc) (ptr : block) : option key :=
  match attr_datatype (ad_attrType a) with
  | Some INTEGER => KInt <$> rd32 0 ptr
  | Some FLOAT => KFlt <$> rd_flt 0 ptr
  | Some STRING => s ← rd 0 (ad_attrLen a) ptr; KStr <$> cstring s
  | None => None
  end.

Definition key_eqb (k k' : key) : bool :=
  match k, k' with
  | KInt i, KInt j => bool_decide (i = j)
  | KFlt f, KFlt g => SFeqb f g
  | KStr s, KStr r => bool_decide (s = r)
  | _, _ => false
  end.

Section Keys.
Implicit Types (a : AttrDesc) (p q s r : block) (n : nat).

(** A terminated string. *)
Lemma cstring_split s c : cstring s = Some c -> exists rest, s = c ++ x00 :: rest /\ x00 ∉ c.
Proof. intros [Hn [t ->]]%cstring_Some. by exists t. Qed.

Lemma strncmp_terminated n c d rest rest' :
  x00 ∉ c -> x00 ∉ d -> (length c < n)%nat -> exists z, strncmp n (c ++ x00 :: rest) (d ++ x00 :: rest') = Some z /\ (z = 0 <-> c = d).
Proof.
  revert c d. induction n as [|n IH]; intros c d Hc Hd Hn; [lia|]. cbn [strncmp].
  destruct c as [|x c], d as [|y d]; cbn [app head tail mbind option_bind].
  - rewrite decide_True, decide_True by done. by exists 0.
  - apply not_elem_of_cons in Hd as [Hy _]. rewrite decide_False by done. eexists. split; [done|]. split; [|done].
    intros Hz. destruct Hy. apply byteZ_inj. lia.
  - apply not_elem_of_cons in Hc as [Hx _]. rewrite decide_False by done. eexists. split; [done|]. split; [|done].
    intros Hz. destruct Hx. symmetry. apply byteZ_inj. lia.
  - apply not_elem_of_cons in Hc as [Hx Hc]. apply not_elem_of_cons in Hd as [Hy Hd]. cbn in Hn. destruct (decide (x = y)) as [->|Hne].
    + rewrite decide_False by done. destruct (IH c d Hc Hd ltac:(lia)) as (z & Hz & Hiff). exists z. split; [done|]. rewrite Hiff. split; congruence.
    + eexists. split; [done|]. split; [intros Hz; destruct Hne; apply byteZ_inj; lia|intros [= ? ?]; done].
Qed.

Lemma hash_chars_terminated v c rest : x00 ∉ c -> hash_chars v (c ++ x00 :: rest) = hash_chars v (c ++ [x00]).
Proof.
  revert v. induction c as [|x c IH]; intros v Hc; [done|]. apply not_elem_of_cons in Hc as [Hx Hc]. cbn [app hash_chars]. case_decide; [done|].
  destruct c as [|y c]; [done|]. cbn [app] in *. by apply IH.
Qed.

Lemma hash_chars_defined v c rest : x00 ∉ c -> is_Some (hash_chars v (c ++ x00 :: rest)).
Proof.
  revert v. induction c as [|x c IH]; intros v Hc; cbn [app hash_chars]; [by rewrite decide_True|]. apply not_elem_of_cons in Hc as [Hx Hc].
  rewrite decide_False by done. destruct c as [|y c]; cbn [app] in *; by apply IH.
Qed.

(** The attribute [p] as a string of length [len]. *)
Lemma rd_prefix len p s c : rd 0 len p = Some s -> cstring s = Some c -> exists rest, p = c ++ x00 :: rest /\ x00 ∉ c /\ (length c < Z.to_nat len)%nat.
Proof.
  intros Hr Hc. pose proof (rd_length _ _ _ _ Hr) as Hlen. apply rd_Some in Hr as [_ ->]. rewrite drop_0 in *. destruct (cstring_split _ _ Hc) as (rest & Heq & Hnul).
  exists (rest ++ drop (Z.to_nat len) p). split; [|split; [done|rewrite Heq, length_app in Hlen; cbn in Hlen; lia]].
  rewrite <- (take_drop (Z.to_nat len) p) at 1. rewrite Heq, <- app_assoc. done.
Qed.

(** The test of [lookup] compares the values. *)
Lemma bucket_matches_key a p q k k' v :
  key_of a p = Some k -> key_of a q = Some k' -> attr_copy a p = Some v -> bucket_matches a q v = Some (key_eqb k k').
Proof.
  unfold key_of, attr_copy, bucket_matches. destruct (attr_datatype (ad_attrType a)) as [[]|]; [| | |done].
  - intros (s & Hs & (c & Hc & ->)%fmap_Some)%bind_Some (r & Hr & (d & Hd & ->)%fmap_Some)%bind_Some. rewrite Hs. intros [= <-].
    destruct (cstring_split _ _ Hc) as (rest & -> & Hnc). destruct (rd_prefix _ _ _ _ Hr Hd) as (rest' & -> & Hnd & _).
    pose proof (rd_length _ _ _ _ Hs) as Hlen. rewrite length_app in Hlen. cbn in Hlen.
    destruct (strncmp_terminated (Z.to_nat (ad_attrLen a)) c d rest rest' Hnc Hnd ltac:(lia)) as (z & -> & Hiff). cbn. f_equal. by apply bool_decide_ext.
  - intros (i & Hi & ->)%fmap_Some (j & Hj & ->)%fmap_Some. rewrite Hi, Hj. intros [= <-]. done.
  - intros (f & Hf & ->)%fmap_Some (g & Hg & ->)%fmap_Some. rewrite Hf, Hg. intros [= <-]. done.
Qed.

Lemma SFeqb_cases f g : SFeqb f g = true -> f = g \/ (exists b b' : bool, f = S754_zero b /\ g = S754_zero b').
Proof.
  unfold SFeqb, SFcompare. destruct f as [b|b| |b m e], g as [b'|b'| |b' m' e']; try done; try (by destruct b); try (by destruct b').
  - intros _. right. by exists b, b'.
  - destruct b, b'; try done; by left.
  - destruct b, b'; try done; destruct (Z.compare_spec e e') as [->| |]; try done; change (PosDef.Pos.compare_cont Eq m m') with (m ?= m')%positive; destruct (Pos.compare_spec m m') as [->| |]; try done; by left.
Qed.

(** Equal values have equal hashes: also the two zeros. *)
Lemma raw_hash_key a size p q k k' :
  key_of a p = Some k -> key_of a q = Some k' -> key_eqb k k' = true -> raw_hash size p (ad_attrType a) = raw_hash size q (ad_attrType a).
Proof.
  unfold key_of, raw_hash. destruct (attr_datatype (ad_attrType a)) as [[]|]; [| | |done].
  - intros (s & Hs & (c & Hc & ->)%fmap_Some)%bind_Some (r & Hr & (d & Hd & ->)%fmap_Some)%bind_Some He. apply bool_decide_eq_true_1 in He as ->.
    destruct (rd_prefix _ _ _ _ Hs Hc) as (rest & -> & Hnc & _). destruct (rd_prefix _ _ _ _ Hr Hd) as (rest' & -> & _ & _). by rewrite (hash_chars_terminated 0 d rest), (hash_chars_terminated 0 d rest').
  - intros (i & Hi & ->)%fmap_Some (j & Hj & ->)%fmap_Some He. apply bool_decide_eq_true_1 in He as ->. by rewrite Hi, Hj.
  - intros (f & Hf & ->)%fmap_Some (g & Hg & ->)%fmap_Some He. rewrite Hf, Hg. cbn [mbind option_bind].
    destruct (SFeqb_cases f g He) as [->|(b & b' & -> & ->)]; [done|]. destruct (flt_of_int size) as [x|x| |x m e]; try done; by destruct b, b', x.
Qed.

End Keys.

(** ** The table is a multimap *)

Section Table.
Implicit Types (a : AttrDesc) (t : joinHashTbl) (p : block) (ents : list (RID * block)).

(** The chain of [index] holds the entries that hash to it, newest first. *)
Definition in_chain a size (index : Z) (x : RID * block) : bool :=
  match raw_hash size x.2 (ad_attrType a) with Some v => bool_decide (Z.abs (Z.rem v size) = index) | None => false end.

Definition bucket_of a (x : RID * block) : joinhashBucket := mkBucket (default JNone (attr_copy a x.2)) x.1.

Record table_ok t a size ents : Prop := {
  tb_attr : jt_joinAttr t = a;
  tb_size : jt_HTSIZE t = size;
  tb_length : Z.of_nat (length (jt_ht t)) = size;
  tb_chain : forall i e, zget (jt_ht t) i = Some e ->
    he_chain e = bucket_of a <$> List.filter (in_chain a size i) ents /\ he_bucketCnt e = Z.of_nat (length (he_chain e));
}.

(** A value that can be hashed. *)
Definition key_ok_at a size p : Prop := is_Some (key_of a p) /\ is_Some (raw_hash size p (ad_attrType a)).

Lemma key_copy a p k : key_of a p = Some k -> exists v, attr_copy a p = Some v.
Proof.
  unfold key_of, attr_copy. destruct (attr_datatype (ad_attrType a)) as [[]|]; [| | |done].
  - intros (s & Hs & _)%bind_Some. rewrite Hs. by eexists.
  - intros (i & Hi & _)%fmap_Some. rewrite Hi. by eexists.
  - intros (f & Hf & _)%fmap_Some. rewrite Hf. by eexists.
Qed.

Lemma new_table size a : 0 < size -> exists t, joinHashTbl_new size a = Some t /\ table_ok t a size [].
Proof.
  intros Hs. unfold joinHashTbl_new. rewrite decide_False by lia. eexists. split; [done|]. split; cbn; [done..| |].
  - rewrite length_replicate. lia.
  - intros i e [_ [-> _]%lookup_replicate]%zget_Some. done.
Qed.

Lemma hash_index t a size ents p v :
  table_ok t a size ents -> 0 < size -> raw_hash size p (ad_attrType a) = Some v ->
  joinHashTbl_hash t p (ad_attrType a) = Some (Z.abs (Z.rem v size)) /\ exists e, zget (jt_ht t) (Z.abs (Z.rem v size)) = Some e.
Proof.
  intros [T1 T2 T3 T4] Hs Hv. unfold joinHashTbl_hash. rewrite T2, Hv. cbn [mbind option_bind]. rewrite decide_False by lia. split; [done|].
  apply zget_is_Some. rewrite T3. pose proof (Z.rem_bound_abs v size ltac:(lia)). lia.
Qed.

(** [insert] adds an entry. *)
Lemma insert_table t a size ents rid (tuple : block) :
  let p := drop (Z.to_nat (ad_attrOffset a)) tuple in
  table_ok t a size ents -> 0 < size -> 0 <= ad_attrOffset a <= Z.of_nat (length tuple) -> key_ok_at a size p -> Z.of_nat (length ents) + 1 < 2 ^ 31 ->
  exists t', joinHashTbl_insert rid tuple t = Some t' /\ table_ok t' a size ((rid, p) :: ents).
Proof.
  intros p Ht Hs Ho [[k Hk] [v Hv]] Hlen. destruct (hash_index t a size ents p v Ht Hs Hv) as (Hh & e & He). destruct (key_copy _ _ _ Hk) as [c Hc].
  destruct Ht as [T1 T2 T3 T4]. destruct (T4 _ _ He) as [Hch Hcnt]. unfold joinHashTbl_insert. rewrite T1. rewrite decide_True by done. fold p.
  rewrite Hh. cbn [mbind option_bind]. rewrite He. cbn [mbind option_bind]. rewrite Hc. cbn [mbind option_bind].
  pose proof (zget_range _ _ _ He) as Hr. rewrite zset_in_range by done. cbn [mbind option_bind]. eexists. split; [done|]. split; cbn; [done..| |].
  { by rewrite length_insert. }
  assert (length (he_chain e) <= length ents)%nat as Hle by (rewrite Hch, list.length_fmap; apply List.filter_length_le).
  intros i e' Hi. rewrite zget_insert in Hi by done. unfold in_chain at 1. cbn [fst snd]. rewrite Hv. destruct (decide (Z.abs (Z.rem v size) = i)) as [<-|Hne].
  - injection Hi as <-. cbn. rewrite bool_decide_eq_true_2 by done. cbn. unfold bucket_of at 1. cbn [fst snd]. rewrite Hc. cbn. rewrite <- Hch.
    split; [done|]. rewrite Hcnt, wrapS_id by (unfold inS; lia). lia.
  - rewrite bool_decide_eq_false_2 by done. by apply T4.
Qed.

(** The loop of [lookup] over a chain. *)
Lemma lookup_loop_run a p k (chain : list (RID * block)) (cnt : Z) (out : list RID) :
  key_of a p = Some k -> Forall (fun x => is_Some (key_of a x.2)) chain -> 0 <= cnt -> cnt + Z.of_nat (length chain) <= Z.of_nat (length out) ->
  let found := (List.filter (fun x => match key_of a x.2 with Some k' => key_eqb k' k | None => false end) chain).*1 in
  exists out', lookup_loop a p (bucket_of a <$> chain) cnt out = Some (cnt + Z.of_nat (length found), out') /\
    take (Z.to_nat cnt + length found) out' = take (Z.to_nat cnt) out ++ found.
Proof.
  intros Hk Hch. revert cnt out. induction Hch as [|[rid q] chain [k' Hk'] Hch IH]; intros cnt out Hc Hl; cbn in *.
  { exists out. rewrite Z.add_0_r, Nat.add_0_r, app_nil_r. done. }
  destruct (key_copy _ _ _ Hk') as [v Hv]. rewrite Hv. cbn [default from_option id jb_attrValue]. rewrite (bucket_matches_key a q p k' k v Hk' Hk Hv). cbn [mbind option_bind]. rewrite Hk'.
  destruct (key_eqb k' k); cbn.
  - rewrite zset_in_range by lia. cbn [mbind option_bind]. destruct (IH (cnt + 1) (<[Z.to_nat cnt := rid]> out)) as (out' & -> & Ht); [lia|rewrite length_insert; lia|].
    exists out'. split; [f_equal; f_equal; lia|]. replace (Z.to_nat (cnt + 1)) with (S (Z.to_nat cnt)) in Ht by lia. rewrite <- Nat.add_succ_comm, Ht.
    erewrite take_S_r by (apply list_lookup_insert_eq; lia). rewrite take_insert_ge by lia. by rewrite <- app_assoc.
  - destruct (IH cnt out) as (out' & -> & Ht); [lia|lia|]. by exists out'.
Qed.

Definition same_key a p (x : RID * block) : bool :=
  match key_of a x.2, key_of a p with Some k', Some k => key_eqb k' k | _, _ => false end.

(** [lookup] returns the record ids of the entries with an equal value. *)
Lemma lookup_table t a size ents p (rid0 : RID) :
  table_ok t a size ents -> 0 < size -> Forall (fun x => key_ok_at a size x.2) ents -> key_ok_at a size p ->
  let found := (List.filter (same_key a p) ents).*1 in
  exists out, joinHashTbl_lookup rid0 p t = Some (Z.of_nat (length found), out) /\ take (length found) out = found.
Proof.
  intros Ht Hs Hents [[k Hk] [v Hv]] found. destruct (hash_index t a size ents p v Ht Hs Hv) as (Hh & e & He). destruct Ht as [T1 T2 T3 T4].
  destruct (T4 _ _ He) as [Hch Hcnt]. unfold joinHashTbl_lookup. rewrite T1, Hh. cbn [mbind option_bind]. rewrite He. cbn [mbind option_bind].
  rewrite decide_False by lia. rewrite Hcnt, Nat2Z.id, Hch. set (index := Z.abs (Z.rem v size)) in *.
  assert (found = (List.filter (fun x => match key_of a x.2 with Some k' => key_eqb k' k | None => false end) (List.filter (in_chain a size index) ents)).*1) as Hf.
  { unfold found. clear -Hk Hv Hents. induction Hents as [|x ents [[k' Hk'] [v' Hv']] Hents IH]; [done|]. cbn. unfold same_key at 1, in_chain at 1. rewrite Hk, Hk', Hv'.
    destruct (key_eqb k' k) eqn:Hke.
    - rewrite (raw_hash_key a size x.2 p k' k Hk' Hk Hke), Hv in Hv'. injection Hv' as <-. rewrite bool_decide_eq_true_2 by done. cbn. by rewrite Hk', Hke, fmap_cons, IH.
    - destruct (bool_decide _); cbn; rewrite ?Hk', ?Hke; exact IH. }
  destruct (lookup_loop_run a p k (List.filter (in_chain a size index) ents) 0 (replicate (length (bucket_of a <$> List.filter (in_chain a size index) ents)) rid0)) as (out & Hl & Htk).
  - done.
  - apply list.Forall_forall. intros x Hx%list_elem_of_In%filter_In. destruct Hx as [Hx%list_elem_of_In _]. rewrite list.Forall_forall in Hents. apply (Hents x Hx).
  - lia.
  - rewrite length_replicate, list.length_fmap. lia.
  - rewrite <- Hf in Hl, Htk. rewrite Hl. exists out. split; [done|exact Htk].
Qed.

(** The pointer [insert] computes. *)
Definition attr_ptr a (x : RID * block) : RID * block := (x.1, drop (Z.to_nat (ad_attrOffset a)) x.2).

Lemma insert_tuples_table a size tuples t ents :
  table_ok t a size ents -> 0 < size -> 0 <= ad_attrOffset a ->
  Forall (fun x => ad_attrOffset a <= Z.of_nat (length x.2) /\ key_ok_at a size (attr_ptr a x).2) tuples ->
  Z.of_nat (length ents) + Z.of_nat (length tuples) < 2 ^ 31 ->
  exists t', insert_tuples tuples t = Some t' /\ table_ok t' a size (reverse (attr_ptr a <$> tuples) ++ ents).
Proof.
  intros Ht Hs Ho Hall. revert t ents Ht. induction Hall as [|[rid tuple] tuples [H1 H2] Hall IH]; intros t ents Ht Hlen; [by exists t|]. cbn in H1, H2, Hlen. cbn [insert_tuples].
  destruct (insert_table t a size ents rid tuple Ht Hs ltac:(lia) H2 ltac:(lia)) as (t1 & -> & Ht1). cbn [mbind option_bind].
  destruct (IH t1 _ Ht1) as (t' & -> & Ht'); [cbn; lia|]. exists t'. split; [done|]. by rewrite fmap_cons, reverse_cons, <- app_assoc.
Qed.

End Table.

(** C17.  The hash table of the hash join is a multimap: after any sequence of
    insertions, [lookup] returns the number and the record ids of exactly the
    tuples whose join attribute has an equal value, newest first, and stays
    in the array it allocated.  Integers, floats, where the two zeros are
    equal, and strings that end within the length of the attribute; whatever
    collisions the hash function makes. *)
Theorem joinHT_refines_multimap (size : Z) (a : AttrDesc) (tuples : list (RID * block)) :
  0 < size -> 0 <= ad_attrOffset a -> Z.of_nat (length tuples) < 2 ^ 31 ->
  Forall (fun x => ad_attrOffset a <= Z.of_nat (length x.2) /\ key_ok_at a size (attr_ptr a x).2) tuples ->
  exists t0 t, joinHashTbl_new size a = Some t0 /\ insert_tuples tuples t0 = Some t /\
    forall rid0 p, key_ok_at a size p ->
      let found := (List.filter (same_key a p) (reverse (attr_ptr a <$> tuples))).*1 in
      exists out, joinHashTbl_lookup rid0 p t = Some (Z.of_nat (length found), out) /\ take (length found) out = found.
Proof.
  intros Hs Ho Hlen Hall. destruct (new_table size a Hs) as (t0 & Hn & Ht0).
  destruct (insert_tuples_table a size tuples t0 [] Ht0 Hs Ho Hall Hlen) as (t & Hi & Ht). rewrite app_nil_r in Ht.
  exists t0, t. split; [done|]. split; [done|]. intros rid0 p Hp. apply (lookup_table t a size); [done|done| |done].
  apply Forall_reverse, Forall_fmap. eapply List.Forall_impl; [|exact Hall]. by intros x [_ ?].
Qed.

(** Three tuples, the attribute at offset 4; all hash to the same chain. *)
Definition join_tuples : list (RID * block) :=
  [(mkRID 1 0, int_bytes 9 ++ int_bytes 5); (mkRID 1 1, int_bytes 9 ++ int_bytes 6); (mkRID 2 0, int_bytes 8 ++ int_bytes 5)].
Definition join_attr : AttrDesc := mkAttrDesc (replicate 32 x00) (replicate 32 x00) 4 1 4.

Lemma joinHT_refines_multimap_witness :
  exists t0 t out, joinHashTbl_new 7 join_attr = Some t0 /\ insert_tuples join_tuples t0 = Some t /\
    joinHashTbl_lookup (mkRID (-1) (-1)) (int_bytes 5) t = Some (2, out) /\ take 2 out = [mkRID 2 0; mkRID 1 0].
Proof.
  destruct (joinHT_refines_multimap 7 join_attr join_tuples ltac:(lia) ltac:(cbn; lia) ltac:(cbn; lia)) as (t0 & t & Hn & Hi & Hl).
  - repeat constructor; cbn; try lia; by eexists.
  - destruct (Hl (mkRID (-1) (-1)) (int_bytes 5)) as (out & Hout & Htk).
    + split; cbn; by eexists.
    + exists t0, t, out. exact (conj Hn (conj Hi (conj Hout Htk))).
Defined.
