(* ===== verification/Format.v ===== *)
(** * Formatted output

    The conversions of [printf] and [sprintf] the program uses: [%d], [%s],
    [%c] and [%f], with field widths, left adjustment and precisions. *)

From S2P Require Export CatView.

(** ** Numbers *)

Definition digit (d : Z) : byte := Zbyte (48 + d).

(** The decimal digits of [z >= 0]; [n] bounds their number. *)
Fixpoint digits_of (n : nat) (z : Z) : block :=
  match n with
  | O => []
  | S n => (if decide (z < 10) then [] else digits_of n (z / 10)) ++ [digit (z mod 10)]
  end.

(** [z] has no more decimal than binary digits. *)
Definition nat_digits (z : Z) : block := digits_of (S (Z.to_nat (Z.log2 z))) z.

(** [%d]. *)
Definition fmt_d (z : Z) : block := (if decide (z < 0) then chars "-" else []) ++ nat_digits (Z.abs z).

(** Exactly [k] digits. *)
Fixpoint fixed_digits (k : nat) (z : Z) : block :=
  match k with O => [] | S k => fixed_digits k (z / 10) ++ [digit (z mod 10)] end.

(** [num / den] rounded to an integer, ties to even. *)
Definition round_div (num den : Z) : Z :=
  let q := num / den in
  match Z.compare (2 * (num mod den)) den with
  | Lt => q
  | Gt => q + 1
  | Eq => if Z.even q then q else q + 1
  end.

(** [%.kf] of a [float] with the given bits, which [printf] gets as a
    [double] of the same value. *)
Definition fmt_f (k : nat) (bits : Z) : block :=
  let sign (s : bool) := if s then chars "-" else [] in
  let number (s : bool) (n : Z) := sign s ++ nat_digits (n / 10 ^ Z.of_nat k) ++ (match k with O => [] | _ => chars "." end) ++ fixed_digits k (n mod 10 ^ Z.of_nat k) in
  match flt_of_bits bits with
  | S754_zero s => number s 0
  | S754_infinity s => sign s ++ chars "inf"
  | S754_nan => sign (Z.testbit bits 31) ++ chars "nan"
  | S754_finite s m e =>
      number s (if decide (0 <= e) then Zpos m * 2 ^ e * 10 ^ Z.of_nat k else round_div (Zpos m * 10 ^ Z.of_nat k) (2 ^ (- e)))
  end.

(** ** Fields *)

(** A field of at least [w] characters, adjusted to the left or to the right. *)
Definition field_left (w : Z) (s : block) : block := s ++ replicate (Z.to_nat w - length s) "032"%byte.
Definition field_right (w : Z) (s : block) : block := replicate (Z.to_nat w - length s) "032"%byte ++ s.

(** [%.ns]: at most [n] characters; a terminator is only needed before. *)
Definition fmt_s (n : nat) (s : block) : option block :=
  let k := first_idx is_nul s in
  if decide (k < n)%nat then if decide (k < length s)%nat then Some (take k s) else None
  else Some (take n s).

(** ** [atoi] reads what [%d] writes *)

Section Decimal.
Implicit Types (z d : Z) (n : nat) (s : block).

Lemma byteZ_digit d : 0 <= d < 10 -> byteZ (digit d) = 48 + d.
Proof. intros Hd. unfold digit. rewrite byteZ_Zbyte, Z.mod_small; lia. Qed.

Lemma get_digits_app z k s s' :
  Forall (fun c => is_digit c = true) s -> get_digits z k (s ++ s') = let '(z', k', _) := get_digits z k s in get_digits z' k' s'.
Proof. intros Hs. revert z k. induction Hs as [|c s Hc Hs IH]; intros z k; [done|]. cbn. rewrite Hc. apply IH. Qed.

Lemma is_digit_digit d : 0 <= d < 10 -> is_digit (digit d) = true.
Proof. intros Hd. unfold is_digit. rewrite byteZ_digit by done. apply bool_decide_eq_true_2. lia. Qed.

Lemma digits_of_digits n z : Forall (fun c => is_digit c = true) (digits_of n z).
Proof.
  revert z. induction n as [|n IH]; intros z; [constructor|]. cbn. apply Forall_app. split; [case_decide; [constructor|apply IH]|].
  constructor; [|constructor]. apply is_digit_digit. apply Z.mod_pos_bound. lia.
Qed.

(** Reading the digits gives the number. *)
Lemma get_digits_of n z : 0 <= z < 10 ^ Z.of_nat n -> exists k, get_digits 0 0 (digits_of n z) = (z, k, []).
Proof.
  revert z. induction n as [|n IH]; intros z Hz; [exists 0; cbn in *; f_equal; f_equal; lia|]. rewrite Nat2Z.inj_succ, Z.pow_succ_r in Hz by lia. cbn [digits_of].
  assert (forall z' k, get_digits z' k [digit (z mod 10)] = (10 * z' + z mod 10, k + 1, [])) as Hlast.
  { intros z' k. cbn. pose proof (Z.mod_pos_bound z 10 ltac:(lia)) as Hm. rewrite is_digit_digit by done. rewrite byteZ_digit by done. f_equal. f_equal. lia. }
  case_decide as Hlt.
  - exists 1. cbn [app]. rewrite Hlast. rewrite Z.mod_small by lia. f_equal.
  - destruct (IH (z / 10)) as [k Hk]; [split; [apply Z.div_pos; lia|apply Z.div_lt_upper_bound; lia]|].
    exists (k + 1). rewrite get_digits_app by apply digits_of_digits. rewrite Hk, Hlast. f_equal. f_equal. rewrite (Z.div_mod z 10) at 3 by lia. lia.
Qed.

Lemma nat_digits_read z : 0 <= z -> exists k, get_digits 0 0 (nat_digits z) = (z, k, []).
Proof.
  intros Hz. apply get_digits_of. split; [done|]. rewrite Nat2Z.inj_succ, Z2Nat.id by apply Z.log2_nonneg. destruct (decide (z = 0)) as [->|Hne]; [by vm_compute|].
  eapply Z.lt_le_trans; [apply Z.log2_spec; lia|]. apply Z.pow_le_mono_l. lia.
Qed.

Lemma nat_digits_head z : exists c s, nat_digits z = c :: s /\ is_digit c = true.
Proof.
  unfold nat_digits. pose proof (digits_of_digits (S (Z.to_nat (Z.log2 z))) z) as Hd. cbn [digits_of] in *.
  destruct (_ ++ _) as [|c s] eqn:He; [by apply app_eq_nil in He as [_ He]|]. inversion Hd; subst. by exists c, s.
Qed.

Lemma is_digit_plain (c : byte) : is_digit c = true -> is_space c = false /\ byteZ c <> 45 /\ byteZ c <> 43 /\ c <> x00.
Proof.
  unfold is_digit, is_space. rewrite bool_decide_eq_true. intros Hc. split; [apply bool_decide_eq_false_2; lia|]. split; [lia|]. split; [lia|].
  intros ->. cbn in Hc. lia.
Qed.

Lemma nat_digits_no_nul z : x00 ∉ nat_digits z.
Proof.
  intros Hin. pose proof (digits_of_digits (S (Z.to_nat (Z.log2 z))) z) as Hd. rewrite list.Forall_forall in Hd. apply Hd in Hin. by vm_compute in Hin.
Qed.

Lemma fmt_d_no_nul z : x00 ∉ fmt_d z.
Proof.
  unfold fmt_d. intros [H|H]%elem_of_app; [|by apply nat_digits_no_nul in H]. case_decide; [|by apply not_elem_of_nil in H].
  revert H. apply (bool_decide_unpack (x00 ∉ chars "-")). by vm_compute.
Qed.

Lemma fmt_d_length z : inS 32 z -> (length (fmt_d z) <= 33)%nat.
Proof.
  intros Hz. assert (forall n x, (length (digits_of n x) <= n)%nat) as Hd by (induction n as [|n IH]; intros x; [done|]; cbn; rewrite length_app; cbn; specialize (IH (x / 10)); case_decide; cbn; lia).
  unfold fmt_d, nat_digits. rewrite length_app. specialize (Hd (S (Z.to_nat (Z.log2 (Z.abs z)))) (Z.abs z)).
  assert (Z.log2 (Z.abs z) <= 31) as Hl by (apply (Z.log2_le_mono _ (2 ^ 31)); unfold inS in Hz; cbn in Hz |- *; lia).
  case_decide; [change (length (chars "-")) with 1%nat|cbn [length]]; lia.
Qed.

(** The conversions are inverse to each other. *)
Lemma atoi_fmt_d z rest : inS 32 z -> atoi (fmt_d z ++ x00 :: rest) = Some z.
Proof.
  intros Hz. unfold atoi. rewrite (proj2 (cstring_Some _ (fmt_d z))) by (split; [apply fmt_d_no_nul|by exists rest]). cbn [mbind option_bind].
  destruct (nat_digits_read (Z.abs z) ltac:(lia)) as [k Hk]. destruct (nat_digits_head (Z.abs z)) as (c & s & Hh & Hc). destruct (is_digit_plain c Hc) as (H1 & H2 & H3 & _).
  unfold fmt_d. case_decide as Hneg.
  - change (chars "-" ++ nat_digits (Z.abs z)) with ("-"%byte :: nat_digits (Z.abs z)). cbn [skip_spaces]. change (is_space "-") with false. cbn iota.
    cbn [get_sign]. rewrite decide_True by done. cbn iota. rewrite Hk. rewrite decide_True; [f_equal; lia|]. replace (- Z.abs z) with z by lia. done.
  - cbn [app]. rewrite Hh in Hk |- *. cbn [skip_spaces]. rewrite H1. cbn [get_sign]. rewrite decide_False by done. rewrite decide_False by done. cbn iota. rewrite Hk.
    rewrite decide_True; [f_equal; lia|]. by replace (Z.abs z) with z by lia.
Qed.

End Decimal.
