(* ===== verification/Print.v ===== *)
(** * Printing relations and catalogs (print.C, help.C)

    What the program writes to its standard output is a block that grows; a
    function that prints runs on the world and that block. *)

From S2P Require Export Format Query.

(** [printf], [cout <<]. *)
Definition say (s : block) : CODE (World * block) unit := assign (fun out => out ++ s).

Definition newline : block := ["010"%byte].

(** ** Columns *)

Definition MAX (a b : Z) : Z := if decide (a > b) then a else b.
Definition MIN (a b : Z) : Z := if decide (a < b) then a else b.

(** The width of a column; not set when the type is none of the three. *)
Definition attr_width (a : AttrDesc) : option (option Z) :=
  namelen ← strlen (ad_attrName a);
  Some match Datatype_of_int (ad_attrType a) with
       | Some INTEGER | Some FLOAT => Some (MIN (MAX namelen 5) 7)
       | Some STRING => Some (MIN (MAX namelen (ad_attrLen a)) 20)
       | None => None
       end.

Definition UT_computeWidth (attrs : list AttrDesc) : option (list (option Z)) := mapM attr_width attrs.

(** The value of one attribute; an [int] and a [float] are copied out of the
    record, a string is printed up to the width of its column. *)
Definition print_attr (a : AttrDesc) (width : option Z) (rec : Record) : option block :=
  w ← width;
  if decide (0 <= ad_attrOffset a <= Z.of_nat (length rec)) then
    let attr := drop (Z.to_nat (ad_attrOffset a)) rec in
    match Datatype_of_int (ad_attrType a) with
    | Some INTEGER => tempi ← rd32 0 attr; Some (field_left w (fmt_d tempi) ++ chars "  ")
    | Some FLOAT => tempf ← rd 0 4 attr; Some (field_left w (fmt_f 2 (le_dec tempf)) ++ chars "  ")
    | _ => s ← fmt_s (Z.to_nat w) attr; Some (field_left w s ++ chars "  ")
    end
  else None.

Fixpoint print_attrs (attrs : list AttrDesc) (attrWidth : list (option Z)) (rec : Record) : option block :=
  match attrs, attrWidth with
  | [], _ => Some []
  | a :: attrs, w :: attrWidth => s ← print_attr a w rec; t ← print_attrs attrs attrWidth rec; Some (s ++ t)
  | _ :: _, [] => None
  end.

Definition UT_printRec (attrs : list AttrDesc) (attrWidth : list (option Z)) (rec : Record) : CODE (World * block) unit :=
  let! s := defined (print_attrs attrs attrWidth rec) in
  say (s ++ newline).

(** The names of the columns, and the line below. *)
Fixpoint print_heads (attrs : list AttrDesc) (attrWidth : list (option Z)) : option block :=
  match attrs, attrWidth with
  | [], _ => Some []
  | a :: attrs, w :: attrWidth =>
      w ← w; s ← fmt_s (Z.to_nat w) (ad_attrName a); t ← print_heads attrs attrWidth; Some (field_left w s ++ chars " " ++ t)
  | _ :: _, [] => None
  end.

Fixpoint print_rules (attrWidth : list (option Z)) : option block :=
  match attrWidth with
  | [] => Some []
  | w :: attrWidth => w ← w; t ← print_rules attrWidth; Some (replicate (Z.to_nat w) "-"%byte ++ chars "  " ++ t)
  end.

(** ** [UT_Print] *)

(** The loop over the records: the scan and the number of records, or the
    status it ended with.  A failure of [getRecord] ends the function. *)
Fixpoint print_loop (n fuel : nat) (attrs : list AttrDesc) (attrWidth : list (option Z)) (hfile : HeapFileScan) (records : Z) :
    CODE (World * block) (HeapFileScan * Status * Z) :=
  match n with
  | O => undef
  | S n =>
      let! (r, hfile) := io (call (HeapFileScan_scanNext fuel) hfile) in
      match r with
      | Err st => ret (hfile, st, records)
      | Ok _ =>
          let! (r, hfile) := io (call HeapFileScan_getRecord hfile) in
          let! rec := of_res r in
          UT_printRec attrs attrWidth rec ;;;
          print_loop n fuel attrs attrWidth hfile (s32 (records + 1))
      end
  end.

(** The scan is only deleted at the end: an early return leaves its file
    open. *)
Definition UT_Print (n fuel : nat) (relation : string) : CODE (World * block) unit :=
  let relation := if decide (relation = ""%string) then RELCATNAME else relation in
  let! rd := io (RelCatalog_getInfo fuel relation) in
  let! relName := defined (name_string (rd_relName rd)) in
  let! attrs := io (AttrCatalog_getRelInfo n fuel relName) in
  let! attrWidth := defined (UT_computeWidth attrs) in
  let! hfile := io (new_scan relName) in
  say (chars "Relation name: " ++ chars relName ++ newline ++ newline) ;;;
  let! heads := defined (print_heads attrs attrWidth) in
  say (heads ++ newline) ;;;
  let! rules := defined (print_rules attrWidth) in
  say (rules ++ newline) ;;;
  let! (r, hfile) := io (call (HeapFileScan_startScan 0 0 INTEGER None EQ) hfile) in
  of_res r ;;;
  let! (hfile, st, records) := print_loop n fuel attrs attrWidth hfile 0 in
  if decide (st <> FILEEOF) then throw st
  else
    say (newline ++ chars "Number of records: " ++ fmt_d records ++ newline) ;;;
    let! (r, hfile) := io (call HeapFileScan_endScan hfile) in
    of_res r ;;;
    io (end_scope hfile).

(** ** [RelCatalog::help] *)

Definition type_char (attrType : Z) : block :=
  match Datatype_of_int attrType with Some INTEGER => chars "i" | Some FLOAT => chars "f" | _ => chars "s" end.

(** [%16.16s   %3d   %c   %3d]. *)
Definition help_attr (a : AttrDesc) : option block :=
  s ← fmt_s 16 (ad_attrName a);
  Some (field_right 16 s ++ chars "   " ++ field_right 3 (fmt_d (ad_attrOffset a)) ++ chars "   " ++ type_char (ad_attrType a) ++
        chars "   " ++ field_right 3 (fmt_d (ad_attrLen a)) ++ newline).

Fixpoint help_attrs (attrs : list AttrDesc) : CODE (World * block) unit :=
  match attrs with
  | [] => ret tt
  | a :: attrs =>
      let! s := defined (help_attr a) in
      say s ;;;
      help_attrs attrs
  end.

Definition RelCatalog_help (n fuel : nat) (relation : string) : CODE (World * block) unit :=
  if decide (relation = ""%string) then UT_Print n fuel RELCATNAME
  else
    let! rd := io (RelCatalog_getInfo fuel relation) in
    let! attrs := io (AttrCatalog_getRelInfo n fuel relation) in
    let! relName := defined (name_string (rd_relName rd)) in
    say (chars "Relation name: " ++ chars relName ++ chars " (" ++ fmt_d (rd_attrCnt rd) ++ chars " attributes)" ++ newline) ;;;
    say (field_right 16 (chars "Attribute name") ++ chars "   Off   T   Len   I" ++ newline ++ newline) ;;;
    help_attrs attrs.
