(* ===== verification/Load.v ===== *)
(** * Bulk loading (load.C) *)

From S2P Require Export Print.

Definition on_unix {A} (f : Unix -> A * Unix) : CODE World A := fun w =>
  let '(a, u) := f (unix (w_disk w)) in
  Some (Ok a, set_disk (mkDisk u (files (w_disk w)) (nextPtr (w_disk w))) w).

(** [while ((nbytes = read(fd, record, width)) == width)]: the reads follow
    each other from offset [off] on. *)
Fixpoint load_loop (n : nat) (fd off width : Z) (iFile : HeapFile) : CODE World (HeapFile * nat) :=
  match n with
  | O => undef
  | S n =>
      let! u := gets (fun w => unix (w_disk w)) in
      let! bytes := defined (unix_read fd off width u) in
      if decide (Z.of_nat (length bytes) = width) then
        let! (r, iFile) := call (InsertFileScan_insertRecord bytes) iFile in
        (* the object and the descriptor are lost when this returns *)
        of_res r ;;;
        let! (iFile, records) := load_loop n fd (off + width) width iFile in
        ret (iFile, S records)
      else ret (iFile, O)
  end.

(** The number of records is written before the files are closed. *)
Definition UT_Load (n fuel : nat) (relation fileName : string) : CODE (World * block) unit :=
  if decide (relation = ""%string \/ fileName = ""%string \/ relation = RELCATNAME \/ relation = ATTRCATNAME)
  then throw BADCATPARM
  else
    let! fd := io (on_unix (unix_open fileName)) in
    match fd with
    | inl _ => throw UNIXERR
    | inr fd =>
        let! rd := io (RelCatalog_getInfo fuel relation) in
        let! relName := defined (name_string (rd_relName rd)) in
        let! attrs := io (AttrCatalog_getRelInfo n fuel relName) in
        let! (st, iFile) := io (InsertFileScan_new relName) in
        if decide (st <> OK) then throw st
        else
          let width := total_len attrs in
          if decide (width < 0) then undef
          else
            let! (iFile, records) := io (load_loop n fd 0 width iFile) in
            say (chars "Number of records inserted: " ++ fmt_d (Z.of_nat records) ++ newline) ;;;
            io (delete_ifs iFile) ;;;
            let! e := io (on_unix (unix_close fd)) in
            match e with Some _ => throw UNIXERR | None => ret tt end
    end.
