(* ===== verification/Dbdestroy.v ===== *)
(** * The program dbdestroy (dbdestroy.C)

    [main] asks for a confirmation and calls [rm] on the directory.  The
    command interpreter behind [system] is a parameter; what the program
    writes is the list of its lines with the stream of each. *)

From S2P Require Export CLib.

Inductive stream : Set := cout | cerr.
Definition line : Set := stream * block.

(** [scanf("%s", ...)]: the next word, [None] at the end of the input. *)
Fixpoint scan_word (input : block) : block :=
  match input with
  | [] => []
  | c :: input => if is_space c then [] else c :: scan_word input
  end.

Definition scanf_s (input : block) : option block :=
  match scan_word (skip_spaces input) with
  | [] => None
  | w => Some w
  end.

(** [char command[128]]; [None] for a string that does not fit with its
    terminator. *)
Definition COMMAND : Z := 128.
Definition to_command (s : block) : option block :=
  if decide (Z.of_nat (length s) < COMMAND) then Some s else None.

Definition is_yes (w : block) : bool :=
  match w with
  | c :: _ => bool_decide (c = "y"%byte \/ c = "Y"%byte)
  | [] => false
  end.

Lemma to_command_Some s c : to_command s = Some c -> c = s /\ Z.of_nat (length s) < COMMAND.
Proof. unfold to_command. case_decide; [|done]. by intros [= <-]. Qed.

Section Dbdestroy.
Context {Sys : Type} (system : block -> Sys -> Z * Sys).

(** [args] are the words [argv]; the first one is there. *)
Definition dbdestroy_main (argv0 : block) (args : list block) (input : block) (s : Sys) : option (Z * list line * Sys) :=
  match args with
  | [] => Some (1, [(cerr, chars "Usage: " ++ argv0 ++ chars " dbname")], s)
  | dbname :: _ =>
      let ask := (cout, chars "Enter y if you want to delete " ++ dbname ++ chars "/*") in
      let refuse := Some (0, [ask; (cout, chars "Database not destroyed.")], s) in
      match scanf_s input with
      | None => refuse
      | Some w =>
          w ← to_command w;
          if is_yes w then
            command ← to_command (chars "rm -r " ++ dbname);
            let (r, s) := system command s in
            Some (r, [ask; (cout, chars "Executing " ++ command)], s)
          else refuse
      end
  end.

(** Only a word that begins with [y] lets the program run a command, and the
    command is the one for the given directory. *)
Lemma dbdestroy_confirmed argv0 args input s r out s' :
  dbdestroy_main argv0 args input s = Some (r, out, s') ->
  s' = s \/ exists dbname rest w, args = dbname :: rest /\ scanf_s input = Some w /\ is_yes w = true /\ (r, s') = system (chars "rm -r " ++ dbname) s.
Proof.
  unfold dbdestroy_main. destruct args as [|dbname rest]; [intros [= _ _ <-]; by left|].
  destruct (scanf_s input) as [w|] eqn:Hw; [|intros [= _ _ <-]; by left].
  intros (w' & Hc & H)%bind_Some. apply to_command_Some in Hc as [-> _].
  destruct (is_yes w) eqn:Hy; [|injection H as _ _ <-; by left].
  apply bind_Some in H as (command & Hc & H). apply to_command_Some in Hc as [-> _].
  destruct (system (chars "rm -r " ++ dbname) s) as [r1 s1] eqn:Hs. injection H as <- _ <-.
  right. exists dbname, rest, w. by rewrite Hs.
Qed.

(** A directory name of 122 characters or more overflows [command]. *)
Lemma dbdestroy_long_name argv0 dbname rest input s w :
  scanf_s input = Some w -> is_yes w = true -> 122 <= Z.of_nat (length dbname) -> dbdestroy_main argv0 (dbname :: rest) input s = None.
Proof.
  intros Hw Hy Hl. destruct (dbdestroy_main argv0 (dbname :: rest) input s) as [x|] eqn:H; [|done]. exfalso. unfold dbdestroy_main in H.
  rewrite Hw in H. apply bind_Some in H as (w' & Hc & H). apply to_command_Some in Hc as [-> _].
  rewrite Hy in H. apply bind_Some in H as (command & Hc & _). apply to_command_Some in Hc as [_ Hlt].
  rewrite length_app in Hlt. change (length (chars "rm -r ")) with 6%nat in Hlt. unfold COMMAND in Hlt. lia.
Qed.

End Dbdestroy.
