(* ===== verification/Gen.v ===== *)
(** * The data generators (data/genWITuples.cpp, data/create.c, data/create_9.c, data/testdata.c)

    Programs beside the engine that write files for [UT_Load]: a shuffled
    range of integers, two tables of constants and two tables of random
    numbers; and one that lists the latter.  [rand] is a parameter, the
    sequence of its results; a program starts at the first of them. *)

From S2P Require Export Load.

(** ** Opening a file for writing *)

(** [open(name, O_WRONLY | O_CREAT | O_TRUNC)]. *)
Definition unix_open_trunc (name : string) (u : Unix) : (errno + Z) * Unix :=
  match u_dir u !! name with
  | None => unix_creat name u
  | Some ino =>
      if decide (u_maxFds u <= Z.of_nat (size (u_fds u))) then (inl EMFILE, u)
      else let '(fd, u) := new_fd ino (set_data (<[ino := []]> (u_data u)) u) in (inr fd, u)
  end.

(** ** genWITuples *)

Section GenWITuples.
Variable rand : nat -> Z.

Definition NUMRANDOMIZEPASSES : nat := 10.

(** [nums[i] = i]. *)
Definition fill_nums (tupleCount : Z) : list Z := seqZ 0 tupleCount.

(** The body of the inner loop; [r] is the result of [rand()]. *)
Definition swap (tupleCount i r : Z) (nums : list Z) : option (list Z) :=
  let newPos := Z.rem r tupleCount in
  tmpVal ← zget nums newPos;
  x ← zget nums i;
  nums ← zset nums newPos x;
  zset nums i tmpVal.

(** The inner loop over the indices [idx]; [k] calls of [rand] were made. *)
Fixpoint swap_pass (tupleCount : Z) (idx : list Z) (k : nat) (nums : list Z) : option (list Z) :=
  match idx with
  | [] => Some nums
  | i :: idx => nums ← swap tupleCount i (rand k) nums; swap_pass tupleCount idx (S k) nums
  end.

Fixpoint randomize (passes : nat) (tupleCount : Z) (k : nat) (nums : list Z) : option (list Z) :=
  match passes with
  | O => Some nums
  | S passes =>
      nums ← swap_pass tupleCount (seqZ 0 tupleCount) k nums;
      randomize passes tupleCount (k + Z.to_nat tupleCount) nums
  end.

(** The loop that writes; whether all calls of [write] succeeded. *)
Fixpoint write_nums (fd off : Z) (nums : list Z) (u : Unix) : bool * Unix :=
  match nums with
  | [] => (true, u)
  | x :: nums =>
      let '(n, u) := unix_write fd off (int_bytes x) u in
      if decide (n = -1) then (false, u) else write_nums fd (off + n) nums u
  end.

(** What the program says at its end. *)
Inductive gen_end : Set := gen_usage | gen_open_error | gen_write_error | gen_done.

(** [main]: the code it ends with and its message; [args] are the arguments
    after the name of the program.  The array must not have a negative size. *)
Definition genWITuples (args : list string) (u : Unix) : option (Z * gen_end * Unix) :=
  match args with
  | [count; outputFilename] =>
      tupleCount ← atoi (c_str count);
      if decide (tupleCount < 0) then None
      else
        nums ← randomize NUMRANDOMIZEPASSES tupleCount 0 (fill_nums tupleCount);
        match unix_open_trunc outputFilename u with
        | (inl _, u) => Some (1, gen_open_error, u)
        | (inr outfd, u) =>
            let '(ok, u) := write_nums outfd 0 nums u in
            if ok : bool then Some (0, gen_done, (unix_close outfd u).2) else Some (1, gen_write_error, u)
        end
  | _ => Some (1, gen_usage, u)
  end.

End GenWITuples.

(** ** create *)

(** An array of characters with an initialiser: the rest is zero. *)
Definition char_array (n : nat) (s : string) : block := take n (chars s ++ replicate n x00).

Record Soaps : Set := mkSoaps { so_soapid : Z; so_sname : string; so_network : string; so_rating : string }.
Record Stars : Set := mkStars { st_starid : Z; st_stname : string; st_plays : string; st_soapid : Z }.

(** The constants are decimal [double]s, rounded to [float]. *)
Definition float_const (s : string) : option block := (fun x => flt_bytes (flt_of_dbl x)) <$> atof (c_str s).

Definition Soaps_bytes (s : Soaps) : option block :=
  r ← float_const (so_rating s);
  Some (int_bytes (so_soapid s) ++ char_array 28 (so_sname s) ++ char_array 4 (so_network s) ++ r).
Definition Stars_bytes (s : Stars) : block :=
  int_bytes (st_starid s) ++ char_array 20 (st_stname s) ++ char_array 12 (st_plays s) ++ int_bytes (st_soapid s).

Definition soaps : list Soaps := [
  mkSoaps 0 "Days of Our Lives" "NBC" "7.02"; mkSoaps 1 "General Hospital" "ABC" "9.81";
  mkSoaps 2 "Guiding Light" "CBS" "4.02"; mkSoaps 3 "One Life to Live" "ABC" "2.31";
  mkSoaps 4 "Santa Barbara" "NBC" "6.44"; mkSoaps 5 "The Young and the Restless" "CBS" "5.50";
  mkSoaps 6 "As the World Turns" "CBS" "7.00"; mkSoaps 7 "Another World" "NBC" "1.97";
  mkSoaps 8 "All My Children" "ABC" "8.82" ].

Definition stars : list Stars := [
  mkStars 0 "Hayes, Kathryn" "Kim" 6; mkStars 1 "DeFreitas, Scott" "Andy" 6; mkStars 2 "Grahn, Nancy" "Julia" 4;
  mkStars 3 "Linder, Kate" "Esther" 5; mkStars 4 "Cooper, Jeanne" "Katherine" 5; mkStars 5 "Ehlers, Beth" "Harley" 2;
  mkStars 6 "Novak, John" "Keith" 4; mkStars 7 "Elliot, Patricia" "Renee" 3; mkStars 8 "Hutchinson, Fiona" "Gabrielle" 5;
  mkStars 9 "Carey, Phil" "Asa" 5; mkStars 10 "Walker, Nicholas" "Max" 3; mkStars 11 "Ross, Charlotte" "Eve" 0;
  mkStars 12 "Anthony, Eugene" "Stan" 8; mkStars 13 "Douglas, Jerry" "John" 5; mkStars 14 "Holbrook, Anna" "Sharlene" 7;
  mkStars 15 "Hammer, Jay" "Fletcher" 2; mkStars 16 "Sloan, Tina" "Lillian" 2; mkStars 17 "DuClos, Danielle" "Lisa" 3;
  mkStars 18 "Tuck, Jessica" "Megan" 3; mkStars 19 "Ashford, Matthew" "Jack" 0; mkStars 20 "Novak, John" "Keith" 4;
  mkStars 21 "Larson, Jill" "Opal" 8; mkStars 22 "McKinnon, Mary" "Denise" 7; mkStars 23 "Barr, Julia" "Brooke" 8;
  mkStars 24 "Borlenghi, Matt" "Brian" 8; mkStars 25 "Hughes, Finola" "Anna" 1; mkStars 26 "Rogers, Tristan" "Robert" 1;
  mkStars 27 "Richardson, Cheryl" "Jenny" 1; mkStars 28 "Evans, Mary Beth" "Kayla" 0 ].

(** The files [main] writes, in order, when the calls of stdio succeed. *)
Definition create_files : option (list (string * block)) :=
  s ← mapM Soaps_bytes soaps;
  Some [("stars.data"%string, concat (Stars_bytes <$> stars)); ("soaps.data"%string, concat s)].

(** ** create_9 and testdata *)

Record Rels : Set := mkRels { unique1 : Z; unique2 : Z; hundred1 : Z; hundred2 : Z; dummy : block }.

Definition Rels_bytes (r : Rels) : block :=
  int_bytes (unique1 r) ++ int_bytes (unique2 r) ++ int_bytes (hundred1 r) ++ int_bytes (hundred2 r) ++ dummy r.

Section Create9.
Variable rand : nat -> Z.

(** One round: four calls of [rand] after [k] of them, and
    [sprintf(rel.dummy, "<name>.%3d", i)] over what [dummy] held. *)
Definition rel_round (name : string) (n i : Z) (k : nat) (dummy : block) : option Rels :=
  d ← strcpy dummy (chars name ++ chars "." ++ field_right 3 (fmt_d i) ++ [x00]);
  Some (mkRels (Z.rem (rand k) n + 1) (Z.rem (rand (k + 1)) n + 1) (Z.rem (rand (k + 2)) 100 + 1) (Z.rem (rand (k + 3)) 100 + 1) d).

(** [todo] rounds from [i] on: the records, and [dummy] at the end. *)
Fixpoint rel_loop (name : string) (n : Z) (todo : nat) (i : Z) (k : nat) (dummy0 : block) : option (list Rels * block) :=
  match todo with
  | O => Some ([], dummy0)
  | S todo =>
      r ← rel_round name n i k dummy0;
      '(rs, d) ← rel_loop name n todo (i + 1) (k + 4) (dummy r);
      Some (r :: rs, d)
  end.

(** The two files [main] writes when the calls of stdio succeed. *)
Definition create_9_files : option (list (string * block)) :=
  '(rs500, d) ← rel_loop "rel500" 500 500 0 0 (replicate 84 "032"%byte);
  '(rs1000, _) ← rel_loop "rel1000" 1000 1000 0 2000 d;
  Some [("rel500.data"%string, concat (Rels_bytes <$> rs500)); ("rel1000.data"%string, concat (Rels_bytes <$> rs1000))].

End Create9.

(** The line of testdata for a record, up to the end of the string in
    [dummy]. *)
Definition rel_line (r : block) : option block :=
  a ← rd32 0 r; b ← rd32 4 r; c ← rd32 8 r; d ← rd32 12 r;
  s ← rd 16 84 r; s ← cstring s;
  let tab : block := ["009"%byte] in
  Some (fmt_d a ++ tab ++ fmt_d b ++ tab ++ fmt_d c ++ tab ++ fmt_d d ++ tab ++ s ++ newline).

(** The rounds of testdata on what is left of a file; [rel] is what the last
    round read, nothing at first.  At the end of the file [fread] leaves [rel]
    as it is; after a part of a record its contents are not defined, and the
    program prints it all the same. *)
Fixpoint testdata_loop (todo : nat) (c : block) (rel : option block) : option (block * option block) :=
  match todo with
  | O => Some ([], rel)
  | S todo =>
      rel ← (if decide (100 <= length c)%nat then Some (take 100 c) else if decide (c = []) then rel else None);
      line ← rel_line rel;
      '(out, rel) ← testdata_loop todo (drop 100 c) (Some rel);
      Some (line ++ out, rel)
  end.

(** What [main] writes when the two files can be opened. *)
Definition testdata (rel500 rel1000 : block) : option block :=
  '(out1, rel) ← testdata_loop 500 rel500 None;
  '(out2, _) ← testdata_loop 1000 rel1000 rel;
  Some (out1 ++ out2).
