(* ===== verification/Sort.v ===== *)
(** * External sort (sort.h, sort.C)

    Class [SortedFile]: the source file is read into runs of at most
    [maxItems] records, each run is sorted by the [qsort] of the C library and
    written to a temporary heap file, and [next] merges the runs.  A run keeps
    the record it fetched last; the pages the records lie on stay pinned.
    The name of a run ends with the null character that [ends] writes; the
    files of the storage layer are told apart by the whole name. *)

From S2P Require Export Print JoinHT.

(** ** Comparing attributes *)

(** [memcmp(a, b, n)]: the bytes compare as [unsigned char]. *)
Fixpoint memcmp (n : nat) (a b : block) : option Z :=
  match n with
  | O => Some 0
  | S n =>
      x ← head a;
      y ← head b;
      if decide (x = y) then memcmp n (tail a) (tail b) else Some (byteZ x - byteZ y)
  end.

(** The [switch] of [reccmp]. *)
Definition rec_diff (p1 p2 : block) (p1Len p2Len : Z) (type : Datatype) : option spec_float :=
  match type with
  | INTEGER => iattr ← rd32 0 p1; ifltr ← rd32 0 p2; Some (flt_of_int (s32 (iattr - ifltr)))
  | FLOAT => fattr ← rd_flt 0 p1; ffltr ← rd_flt 0 p2; Some (flt_sub fattr ffltr)
  | STRING => flt_of_int <$> memcmp (Z.to_nat (MIN p1Len p2Len)) p1 p2
  end.

(** The conversion of a NaN to [int] is undefined. *)
Definition reccmp (p1 p2 : block) (p1Len p2Len : Z) (type : Datatype) : option Z :=
  diff ← rec_diff p1 p2 p1Len p2Len type;
  match flt_sign diff with
  | Some Lt => Some (-1)
  | Some Gt => Some 1
  | _ => int_of_flt diff
  end.

Record SORTREC : Set := mkSORTREC { sr_rid : RID; sr_field : block; sr_length : Z }.

Definition intcmp (p1 p2 : SORTREC) : option Z := reccmp (sr_field p1) (sr_field p2) (sr_length p1) (sr_length p2) INTEGER.
Definition floatcmp (p1 p2 : SORTREC) : option Z := reccmp (sr_field p1) (sr_field p2) (sr_length p1) (sr_length p2) FLOAT.
Definition stringcmp (p1 p2 : SORTREC) : option Z := reccmp (sr_field p1) (sr_field p2) (sr_length p1) (sr_length p2) STRING.

(** ** Objects *)

(** [None] is a member that was not assigned. *)
Record RUN : Set := mkRUN {
  rn_name : string; rn_inFile : option HeapFileScan; rn_valid : option bool;
  rn_rec : option Record; rn_rid : option RID; rn_mark : option RID }.

Definition newRun : RUN := mkRUN "" None None None None None.
Definition set_name (nm : string) (r : RUN) : RUN := mkRUN nm (rn_inFile r) (rn_valid r) (rn_rec r) (rn_rid r) (rn_mark r).
Definition set_inFile (s : HeapFileScan) (r : RUN) : RUN := mkRUN (rn_name r) (Some s) (rn_valid r) (rn_rec r) (rn_rid r) (rn_mark r).
Definition set_valid (v : bool) (r : RUN) : RUN := mkRUN (rn_name r) (rn_inFile r) (Some v) (rn_rec r) (rn_rid r) (rn_mark r).
Definition set_rec (x : Record) (r : RUN) : RUN := mkRUN (rn_name r) (rn_inFile r) (rn_valid r) (Some x) (rn_rid r) (rn_mark r).
Definition set_rid (i : RID) (r : RUN) : RUN := mkRUN (rn_name r) (rn_inFile r) (rn_valid r) (rn_rec r) (Some i) (rn_mark r).
Definition set_mark (i : RID) (r : RUN) : RUN := mkRUN (rn_name r) (rn_inFile r) (rn_valid r) (rn_rec r) (rn_rid r) (Some i).

(** [sf_buffer] holds the elements of [buffer] below [numItems]; [None] is a
    pointer that was not assigned. *)
Record SortedFile : Set := mkSortedFile {
  sf_runs : list RUN; sf_fileName : string; sf_type : Datatype; sf_offset : Z; sf_length : Z;
  sf_buffer : option (list SORTREC); sf_maxItems : Z }.

Definition set_runs (rs : list RUN) (s : SortedFile) : SortedFile :=
  mkSortedFile rs (sf_fileName s) (sf_type s) (sf_offset s) (sf_length s) (sf_buffer s) (sf_maxItems s).
Definition set_buffer (b : list SORTREC) (s : SortedFile) : SortedFile :=
  mkSortedFile (sf_runs s) (sf_fileName s) (sf_type s) (sf_offset s) (sf_length s) (Some b) (sf_maxItems s).

Abbreviation SORT := (CODE (World * SortedFile)).

Definition this : SORT SortedFile := member (fun s => Some s).

(** ** Writing a run *)

Definition run_file (fileName : string) (size : nat) : string :=
  String.string_of_list_byte (chars fileName ++ chars ".sort." ++ nat_digits (Z.of_nat size) ++ [x00]).

Section Build.

(** [qsort] of the C library, which is free to order equal elements as it
    likes; undefined when a comparison is. *)
Variable qsort : (SORTREC -> SORTREC -> option Z) -> list SORTREC -> option (list SORTREC).

(** The loop of [generateRun]. *)
Fixpoint write_run (items : list SORTREC) (hfile outFile : HeapFile) : CODE World (HeapFile * HeapFile) :=
  match items with
  | [] => ret (hfile, outFile)
  | rec :: items =>
      let! (r, hfile) := call (HeapFile_getRecord (sr_rid rec)) hfile in
      let! record := of_res r in
      let! (r, outFile) := call (InsertFileScan_insertRecord record) outFile in
      of_res r ;;;
      write_run items hfile outFile
  end.

(** The end of [generateRun], from the opening of the temporary file on. *)
Definition fill_run (name fileName : string) (items : list SORTREC) : SORT unit :=
  let! (st, outFile) := io (InsertFileScan_new name) in
  if decide (st <> OK) then throw st
  else
    let! (st, hfile) := io (HeapFile_new fileName) in
    if decide (st <> OK) then throw st
    else
      let! (hfile, outFile) := io (write_run items hfile outFile) in
      io (delete_ifs outFile) ;;;
      io (call HeapFile_delete hfile) ;;;
      ret tt.

Definition generateRun : SORT unit :=
  let! s := this in
  let! items := defined (sf_buffer s) in
  let! items := defined (qsort (match sf_type s with INTEGER => intcmp | FLOAT => floatcmp | STRING => stringcmp end) items) in
  assign (set_buffer items) ;;;
  let name := run_file (sf_fileName s) (S (length (sf_runs s))) in
  assign (set_runs (sf_runs s ++ [set_name name newRun])) ;;;
  io (createFile name) ;;;
  io (destroyFile name) ;;;
  fill_run name (sf_fileName s) items.

(** ** Reading the source file *)

(** The [for] loop of [sortFile] from [numItems] on; [n] bounds the records. *)
Fixpoint collect (n fuel : nat) (numItems : Z) (hfs : HeapFileScan) : SORT HeapFileScan :=
  match n with
  | O => undef
  | S n =>
      let! s := this in
      if decide (numItems < sf_maxItems s) then
        let! (r, hfs) := io (call (HeapFileScan_scanNext fuel) hfs) in
        match r with
        | Err st => if decide (st = FILEEOF) then ret hfs else throw st
        | Ok rid =>
            let! (r, hfs) := io (call HeapFileScan_getRecord hfs) in
            let! rec := of_res r in
            let! field := defined (rd (sf_offset s) (sf_length s) rec) in
            let! items := defined (sf_buffer s) in
            assign (set_buffer (items ++ [mkSORTREC rid field (sf_length s)])) ;;;
            collect n fuel (numItems + 1) hfs
        end
      else ret hfs
  end.

(** The [do] loop: the status of the last fetch is not looked at. *)
Fixpoint sort_runs (n fuel : nat) (hfs : HeapFileScan) : SORT HeapFileScan :=
  match n with
  | O => undef
  | S n' =>
      assign (set_buffer []) ;;;
      let! hfs := collect n fuel 0 hfs in
      let! s := this in
      let! items := defined (sf_buffer s) in
      if decide (0 < Z.of_nat (length items)) then
        generateRun ;;;
        sort_runs n' fuel hfs
      else ret hfs
  end.

(** ** Scanning the runs *)

Fixpoint start_loop (runs : list RUN) : CODE World (result unit * list RUN) :=
  match runs with
  | [] => ret (Ok tt, [])
  | run :: runs =>
      let! (st, f) := HeapFileScan_new (rn_name run) in
      if decide (st <> OK) then ret (Err st, set_inFile f run :: runs)
      else
        let! (r, f) := call (HeapFileScan_startScan 0 0 STRING None EQ) f in
        match r with
        | Err st => ret (Err st, set_inFile f run :: runs)
        | Ok _ =>
            let! (r, runs) := start_loop runs in
            ret (r, set_rid (mkRID (-1) (-1)) (set_valid false (set_inFile f run)) :: runs)
        end
  end.

(** A loop over the runs that may end early. *)
Definition over_runs {A} (loop : list RUN -> CODE World (result A * list RUN)) : SORT A :=
  let! s := this in
  let! (r, runs) := io (loop (sf_runs s)) in
  assign (set_runs runs) ;;;
  of_res r.

Definition startScans : SORT unit := over_runs start_loop.

Definition sortFile (n fuel : nat) : SORT unit :=
  let! s := this in
  let! (st, hfs) := io (HeapFileScan_new (sf_fileName s)) in
  if decide (st <> OK) then throw st
  else
    let! (r, hfs) := io (call (HeapFileScan_startScan 0 0 STRING None EQ) hfs) in
    of_res r ;;;
    let! hfs := sort_runs n fuel hfs in
    io (delete_scan hfs) ;;;
    startScans.

(** The constructor: the status it reports and the object. *)
Definition SortedFile_new (n fuel : nat) (fileName : string) (offset len : Z) (type : Datatype) (maxItems : Z) :
    CODE World (Status * SortedFile) :=
  let s := mkSortedFile [] fileName type offset len None maxItems in
  if decide (offset < 0 \/ len < 1) then ret (BADSORTPARM, s)
  else if decide ((type = INTEGER /\ len <> sizeof_int) \/ (type = FLOAT /\ len <> sizeof_float)) then ret (BADSORTPARM, s)
  else if decide (maxItems < 2) then ret (INSUFMEM, s)
  else
    let! (r, s) := call (sortFile n fuel) (set_buffer [] s) in
    ret (status_of r, s).

End Build.

(** ** Merging the runs *)

(** The record of a run is fetched when it is not in memory. *)
Definition fetch (fuel : nat) (run : RUN) : CODE World (result unit * RUN) :=
  let! valid := defined (rn_valid run) in
  if valid : bool then ret (Ok tt, run)
  else
    let! f := defined (rn_inFile run) in
    let! (r, f) := call (HeapFileScan_scanNext fuel) f in
    let run := set_inFile f run in
    match r with
    | Err st =>
        if decide (st = FILEEOF) then
          let! rid := defined (rn_rid run) in
          ret (Ok tt, set_valid true (set_rid (mkRID (-1) (slotNo rid)) run))
        else ret (Err st, run)
    | Ok rid =>
        let run := set_rid rid run in
        let! (r, f) := call HeapFileScan_getRecord f in
        let run := set_inFile f run in
        match r with
        | Err st => ret (Err st, run)
        | Ok rec => ret (Ok tt, set_valid true (set_rec rec run))
        end
    end.

Section Merge.
Context (type : Datatype) (offset len : Z).

(** [reccmp(... > 0)] for two records. *)
Definition rec_greater (x y : Record) : option bool :=
  p1 ← rd offset len x;
  p2 ← rd offset len y;
  c ← reccmp p1 p2 len len type;
  Some (bool_decide (c > 0)).

(** The loop of [next]; [smallest] is the run found so far, by its index,
    with its record. *)
Fixpoint next_loop (fuel i : nat) (runs : list RUN) (smallest : option (nat * Record)) :
    CODE World (result (option (nat * Record)) * list RUN) :=
  match runs with
  | [] => ret (Ok smallest, [])
  | run :: runs =>
      let! (r, run) := fetch fuel run in
      match r with
      | Err st => ret (Err st, run :: runs)
      | Ok _ =>
          let! rid := defined (rn_rid run) in
          let! smallest :=
            (if decide (pageNo rid < 0) then ret smallest
             else
               let! rec := defined (rn_rec run) in
               match smallest with
               | None => ret (Some (i, rec))
               | Some (_, best) =>
                   let! g := defined (rec_greater best rec) in
                   ret (if g : bool then Some (i, rec) else smallest)
               end) in
          let! (r, runs) := next_loop fuel (S i) runs smallest in
          ret (r, run :: runs)
      end
  end.

End Merge.

Definition next (fuel : nat) : SORT Record :=
  let! s := this in
  match sf_runs s with
  | [] => throw FILEEOF
  | _ :: _ =>
      let! smallest := over_runs (fun runs => next_loop (sf_type s) (sf_offset s) (sf_length s) fuel 0 runs None) in
      match smallest with
      | None => throw FILEEOF
      | Some (i, rec) =>
          assign (fun s => set_runs (alter (set_valid false) i (sf_runs s)) s) ;;;
          ret rec
      end
  end.

(** ** Marks *)

Fixpoint mark_loop (runs : list RUN) : CODE World (result unit * list RUN) :=
  match runs with
  | [] => ret (Ok tt, [])
  | run :: runs =>
      let! f := defined (rn_inFile run) in
      let! (_, f) := call HeapFileScan_markScan f in
      let! rid := defined (rn_rid run) in
      let! (r, runs) := mark_loop runs in
      ret (r, set_mark rid (set_inFile f run) :: runs)
  end.

Definition setMark : SORT unit := over_runs mark_loop.

Fixpoint goto_loop (runs : list RUN) : CODE World (result unit * list RUN) :=
  match runs with
  | [] => ret (Ok tt, [])
  | run :: runs =>
      let! f := defined (rn_inFile run) in
      let! (r, f) := call HeapFileScan_resetScan f in
      let run := set_inFile f run in
      match r with
      | Err st => ret (Err st, run :: runs)
      | Ok _ =>
          let! rid := defined (rn_mark run) in
          let run := set_rid rid run in
          let! (r, run) :=
            (if decide (0 <= pageNo rid) then
               let! (r, f) := call HeapFileScan_getRecord f in
               let run := set_inFile f run in
               ret (match r with Ok rec => (Ok tt, set_rec rec run) | Err st => (Err st, run) end)
             else ret (Ok tt, run)) in
          match r with
          | Err st => ret (Err st, run :: runs)
          | Ok _ =>
              let! (r, runs) := goto_loop runs in
              ret (r, set_valid true run :: runs)
          end
      end
  end.

Definition gotoMark : SORT unit := over_runs goto_loop.

(** ** Destructor *)

Fixpoint delete_runs (runs : list RUN) : CODE World unit :=
  match runs with
  | [] => ret tt
  | run :: runs =>
      let! f := defined (rn_inFile run) in
      delete_scan f ;;;
      attempt (destroyFile (rn_name run)) ;;;
      delete_runs runs
  end.

(** [delete [] buffer] of a pointer that was never assigned is undefined. *)
Definition SortedFile_delete : SORT unit :=
  let! s := this in
  io (delete_runs (sf_runs s)) ;;;
  let! _ := defined (sf_buffer s) in
  ret tt.
