(* ===== verification/Partition.v ===== *)
(** * Partitions (partition.h, partition.C)

    Class [Partition] splits the file of an open scan into [P] heap files by a
    hash function of the caller.  The partition files are opened, not
    created; their names end with the null character that [ends] writes. *)

From S2P Require Export Sort.

(** [None] is [NULL]. *)
Record Partition : Set := mkPartition { pt_P : Z; pt_partName : option (list string) }.

Definition part_file (fileName : string) (p : Z) : string :=
  String.string_of_list_byte (chars "/tmp/" ++ chars fileName ++ chars "." ++ fmt_d p ++ [x00]).

Section Split.

(** The hash function of the caller. *)
Variable hashfcn : Record -> Z -> Z.

(** The loop that opens the partition files from [p] on, [k] of them: the
    names given so far and the objects. *)
Fixpoint open_parts (fileName : string) (k : nat) (p : Z) : CODE World (result (list HeapFile) * list string) :=
  match k with
  | O => ret (Ok [], [])
  | S k =>
      let name := part_file fileName p in
      let! (st, part) := InsertFileScan_new name in
      if decide (st <> OK) then ret (Err st, name :: replicate k ""%string)
      else
        let! (r, names) := open_parts fileName k (p + 1) in
        ret (match r with Ok parts => Ok (part :: parts) | Err st => Err st end, name :: names)
  end.

(** The [while] loop; [n] bounds the records.  The status that ends it and the
    objects. *)
Fixpoint split_loop (n fuel : nat) (P : Z) (rel : HeapFileScan) (parts : list HeapFile) :
    CODE World (Status * HeapFileScan * list HeapFile) :=
  match n with
  | O => undef
  | S n =>
      let! (r, rel) := call (HeapFileScan_scanNext fuel) rel in
      match r with
      | Err st => ret (if decide (st = FILEEOF) then OK else st, rel, parts)
      | Ok _ =>
          let! (r, rel) := call HeapFileScan_getRecord rel in
          match r with
          | Err st => ret (st, rel, parts)
          | Ok rec =>
              let p := hashfcn rec P in
              let! part := defined (zget parts p) in
              let! (r, part) := call (InsertFileScan_insertRecord rec) part in
              let! parts := defined (zset parts p part) in
              match r with
              | Err st => ret (st, rel, parts)
              | Ok _ => split_loop n fuel P rel parts
              end
          end
      end
  end.

Fixpoint close_parts (parts : list HeapFile) : CODE World unit :=
  match parts with
  | [] => ret tt
  | part :: parts => delete_ifs part ;;; close_parts parts
  end.

(** The constructor: the status, the object, the names it returns and the scan
    of the caller.  A negative [P] is no size of an array. *)
Definition Partition_new (n fuel : nat) (rel : HeapFileScan) (fileName : string) (P : Z) :
    CODE World (Status * Partition * list string * HeapFileScan) :=
  if decide (P < 0) then undef
  else
    let! (r, partName) := open_parts fileName (Z.to_nat P) 0 in
    match r with
    | Err st => ret (st, mkPartition P None, partName, rel)
    | Ok parts =>
        let this := mkPartition P (Some partName) in
        let! (r, rel) := call (HeapFileScan_startScan 0 sizeof_int INTEGER None EQ) rel in
        match r with
        | Err st => ret (st, this, partName, rel)
        | Ok _ =>
            let! (st, rel, parts) := split_loop n fuel P rel parts in
            if decide (st <> OK) then ret (st, this, partName, rel)
            else
              close_parts parts ;;;
              let! (r, rel) := call HeapFileScan_endScan rel in
              ret (status_of r, this, partName, rel)
        end
    end.

End Split.

(** The destructor: the files it could not destroy are reported. *)
Fixpoint destroy_parts (names : list string) : CODE World (list string) :=
  match names with
  | [] => ret []
  | name :: names =>
      let! r := attempt (destroyFile name) in
      let! failed := destroy_parts names in
      ret (match r with Ok _ => failed | Err _ => name :: failed end)
  end.

Definition Partition_delete (this : Partition) : CODE World (list string) :=
  match pt_partName this with
  | None => ret []
  | Some names => destroy_parts names
  end.
