(* ===== verification/Parse.v ===== *)
(** * The data of the parser (parser/parse.h, parser/y.tab.h)

    Tokens, the nodes of parse trees, and the state the scanner helpers and
    the node constructors share: the pool of characters, the pool of nodes,
    and the semantic value of the last token.

    A [char *] is an offset into the pool of characters, a [NODE *] an index
    into the pool of nodes; [None] is [NULL]. *)

From S2P Require Export CatView.

(** ** Tokens *)

Inductive token : Set :=
| RW_CREATE | RW_BUILD | RW_REBUILD | RW_DROP | RW_DESTROY | RW_PRINT | RW_LOAD | RW_HELP | RW_QUIT
| RW_SELECT | RW_INTO | RW_WHERE | RW_INSERT | RW_DELETE | RW_PRIMARY | RW_NUMBUCKETS | RW_ALL
| RW_FROM | RW_AS | RW_TABLE | RW_AND | RW_OR | RW_NOT | RW_VALUES
| INT_TYPE | REAL_TYPE | CHAR_TYPE
| T_EQ | T_LT | T_LE | T_GT | T_GE | T_NE | T_EOF | NOTOKEN
| T_INT | T_REAL | T_STRING | T_QSTRING | T_SHELL_CMD.

#[export] Instance token_eq_dec : EqDecision token.
Proof. solve_decision. Defined.

(** The codes: consecutive from 258 on. *)
Definition token_code (t : token) : Z :=
  match t with
  | RW_CREATE => 258 | RW_BUILD => 259 | RW_REBUILD => 260 | RW_DROP => 261 | RW_DESTROY => 262
  | RW_PRINT => 263 | RW_LOAD => 264 | RW_HELP => 265 | RW_QUIT => 266 | RW_SELECT => 267
  | RW_INTO => 268 | RW_WHERE => 269 | RW_INSERT => 270 | RW_DELETE => 271 | RW_PRIMARY => 272
  | RW_NUMBUCKETS => 273 | RW_ALL => 274 | RW_FROM => 275 | RW_AS => 276 | RW_TABLE => 277
  | RW_AND => 278 | RW_OR => 279 | RW_NOT => 280 | RW_VALUES => 281 | INT_TYPE => 282
  | REAL_TYPE => 283 | CHAR_TYPE => 284 | T_EQ => 285 | T_LT => 286 | T_LE => 287 | T_GT => 288
  | T_GE => 289 | T_NE => 290 | T_EOF => 291 | NOTOKEN => 292 | T_INT => 293 | T_REAL => 294
  | T_STRING => 295 | T_QSTRING => 296 | T_SHELL_CMD => 297
  end.

(** ** Nodes *)

Abbreviation charp := (option Z).
Abbreviation nodep := (option Z).

Inductive NODEKIND : Set :=
| N_QUERY | N_INSERT | N_DELETE | N_CREATE | N_DESTROY | N_BUILD | N_REBUILD | N_DROP | N_LOAD
| N_PRINT | N_HELP | N_SELECT | N_JOIN | N_PRIMATTR | N_QUALATTR | N_ATTRVAL | N_ATTRTYPE
| N_VALUE | N_LIST | N_ALIAS.

#[export] Instance NODEKIND_eq_dec : EqDecision NODEKIND.
Proof. solve_decision. Defined.

(** The union inside [VALUE]; a [float] by its bits. *)
Inductive value_u : Set := ival (i : Z) | rval (bits : Z) | sval (s : charp).

(** [union u]: the member that was written last.  Reading another one is
    undefined. *)
Inductive node_u : Set :=
| QUERY (relname : charp) (attrlist qual : nodep)
| INSERT (relname : charp) (attrlist : nodep)
| DELETE (relname : charp) (qual : nodep)
| CREATE (relname : charp) (attrlist primattr : nodep)
| DESTROY (relname : charp)
| BUILD (relname attrname : charp) (nbuckets : Z)
| DROP (relname attrname : charp)
| LOAD (relname filename : charp)
| PRINT (relname : charp)
| HELP (relname : charp)
| SELECT (selattr : nodep) (op : Operator) (value : nodep)
| JOIN (joinattr1 : nodep) (op : Operator) (joinattr2 : nodep)
| QUALATTR (relname attrname : charp)
| PRIMATTR (attrname : charp) (nbuckets : Z)
| ATTRVAL (attrname : charp) (value : nodep)
| ATTRTYPE (attrname : charp) (type : Z)
| VALUE (type : Datatype) (len : Z) (u : value_u)
| LIST (self next : nodep)
| ALIAS (relname alias : charp)
| NOTSET.                                   (* nothing was written yet *)

Record NODE : Set := mkNODE { kind : NODEKIND; nu : node_u }.

(** [YYSTYPE]. *)
Inductive YYSTYPE : Set := yy_ival (i : Z) | yy_rval (bits : Z) | yy_sval (s : charp) | yy_n (n : nodep) | yy_none.

(** ** The state *)

Record Parser : Set := mkParser {
  charpool : block;              (* [charpool], [MAXCHAR] bytes *)
  charptr : Z;
  idbuf : block;                 (* the static [string] of [get_id] *)
  yylval : YYSTYPE;
  nodepool : list NODE;          (* [nodepool], [MAXNODE] nodes *)
  nodeptr : Z;
  complaints : list string;      (* what was written to [stderr] *)
}.

Definition set_chars (b : block) (p : Parser) : Parser :=
  mkParser b (charptr p) (idbuf p) (yylval p) (nodepool p) (nodeptr p) (complaints p).
Definition set_charptr (i : Z) (p : Parser) : Parser :=
  mkParser (charpool p) i (idbuf p) (yylval p) (nodepool p) (nodeptr p) (complaints p).
Definition set_idbuf (b : block) (p : Parser) : Parser :=
  mkParser (charpool p) (charptr p) b (yylval p) (nodepool p) (nodeptr p) (complaints p).
Definition set_yylval (v : YYSTYPE) (p : Parser) : Parser :=
  mkParser (charpool p) (charptr p) (idbuf p) v (nodepool p) (nodeptr p) (complaints p).
Definition set_nodes (l : list NODE) (p : Parser) : Parser :=
  mkParser (charpool p) (charptr p) (idbuf p) (yylval p) l (nodeptr p) (complaints p).
Definition set_nodeptr (i : Z) (p : Parser) : Parser :=
  mkParser (charpool p) (charptr p) (idbuf p) (yylval p) (nodepool p) i (complaints p).
Definition complain (s : string) (p : Parser) : Parser :=
  mkParser (charpool p) (charptr p) (idbuf p) (yylval p) (nodepool p) (nodeptr p) (complaints p ++ [s]).

(** Code of the parser: [throw] ends the program with [exit(1)] after a
    message. *)
Abbreviation PARSE := (ST string Parser).

(** The bytes a [char *] points to, up to the end of the pool. *)
Definition chars_at (p : Parser) (s : charp) : option block :=
  i ← s; if decide (0 <= i <= Z.of_nat (length (charpool p))) then Some (drop (Z.to_nat i) (charpool p)) else None.

(** The string it points to. *)
Definition str_at (p : Parser) (s : charp) : option block := b ← chars_at p s; cstring b.
