(* ===== verification/Scan.v ===== *)
(** * The helpers of the scanner (parser/scanhelp.C)

    The pool of characters, identifiers and reserved words, and quoted
    strings.  [yytext], the text of the token, is a block of its own. *)

From S2P Require Export Parse.

Definition MAXCHAR : Z := 5000.
Definition MAXIDLEN : Z := 50.              (* [MAXSTRINGLEN] of scanhelp.C *)

Definition string_alloc (len : Z) : PARSE charp :=
  let! ptr := gets charptr in
  if decide (s32 (ptr + len) > MAXCHAR) then throw "out of memory"%string
  else modify (set_charptr (s32 (ptr + len))) ;;; ret (Some ptr).

Definition reset_charptr : PARSE unit := modify (set_charptr 0).

(** [yyrestart] belongs to the generated scanner. *)
Definition reset_scanner (yyrestart : PARSE unit) : PARSE unit := modify (set_charptr 0) ;;; yyrestart.

(** [strncpy(dst, s, n)]: at most [n] characters, padded with zeros. *)
Definition strncpy_bytes (s : block) (n : nat) : option block :=
  let k := first_idx is_nul s in
  if decide (k < n)%nat then
    if decide (k < length s)%nat then Some (take k s ++ replicate (n - k) x00) else None
  else Some (take n s).

(** [string_alloc] never returns [NULL]. *)
Definition mk_string (s : block) (len : Z) : PARSE charp :=
  let! copy := string_alloc (s32 (len + 1)) in
  let! off := defined copy in
  if decide (len + 1 < 0) then undef
  else
    let! bytes := defined (strncpy_bytes s (Z.to_nat (len + 1))) in
    let! pool := gets charpool in
    let! pool := defined (wr off bytes pool) in
    modify (set_chars pool) ;;;
    ret copy.

Definition lower_char (c : byte) : byte :=
  if decide (65 <= byteZ c <= 90) then Zbyte (byteZ c + 32) else c.

(** The characters [lower] copies: at most [max], up to the end of [src]. *)
Fixpoint lower_chars (src : block) (max : nat) {struct max} : option block :=
  match max, src with
  | O, _ => Some []
  | S max, c :: src => if decide (c = x00) then Some [] else cons (lower_char c) <$> lower_chars src max
  | S _, [] => None
  end.

(** The array after the copy and its terminator, and the length. *)
Definition lower (dst src : block) (max : Z) : option (block * Z) :=
  cs ← lower_chars src (Z.to_nat max);
  dst ← wr 0 (cs ++ [x00]) dst;
  Some (dst, Z.of_nat (length cs)).

Definition reserved : list (string * token) :=
  [("select", RW_SELECT); ("insert", RW_INSERT); ("delete", RW_DELETE); ("create", RW_CREATE);
   ("destroy", RW_DESTROY); ("buildindex", RW_BUILD); ("rebuildindex", RW_REBUILD);
   ("dropindex", RW_DROP); ("load", RW_LOAD); ("print", RW_PRINT); ("help", RW_HELP);
   ("quit", RW_QUIT); ("into", RW_INTO); ("where", RW_WHERE); ("primary", RW_PRIMARY);
   ("numbuckets", RW_NUMBUCKETS); ("all", RW_ALL); ("from", RW_FROM); ("as", RW_AS);
   ("table", RW_TABLE); ("and", RW_AND); ("or", RW_OR); ("not", RW_NOT); ("values", RW_VALUES);
   ("int", INT_TYPE); ("real", REAL_TYPE); ("char", CHAR_TYPE)]%string.

(** The [if (!strcmp(string, ...))] one after the other. *)
Fixpoint find_reserved (words : list (string * token)) (str : block) : option (option token) :=
  match words with
  | [] => Some None
  | (w, t) :: words => c ← strcmp str (c_str w); if decide (c = 0) then Some (Some t) else find_reserved words str
  end.

Definition get_id (s : block) : PARSE token :=
  let! buf := gets idbuf in
  let! (buf, len) := defined (lower buf s MAXIDLEN) in
  modify (set_idbuf buf) ;;;
  if decide (len = MAXIDLEN) then ret NOTOKEN
  else
    let! w := defined (find_reserved reserved buf) in
    match w with
    | Some t => modify (set_yylval (yy_ival (token_code t))) ;;; ret t
    | None =>
        let! p := mk_string s len in
        modify (set_yylval (yy_sval p)) ;;;
        ret T_STRING
    end.

(** [qstring] is the text of the token, quotes included. *)
Definition get_qstring (qstring : block) (len : Z) : PARSE charp :=
  let! qstring := defined (wr (len - 1) [x00] qstring) in
  mk_string (drop 1 qstring) (s32 (len - 2)).

(** ** Strings in the pool *)

Record pools_ok (p : Parser) : Prop := {
  po_chars : Z.of_nat (length (charpool p)) = MAXCHAR;
  po_ptr : 0 <= charptr p <= MAXCHAR;
  po_buf : Z.of_nat (length (idbuf p)) = MAXIDLEN;
}.

(** The string [cs] at [s] lies in the allocated part of the pool. *)
Definition live (p : Parser) (s : charp) (cs : block) : Prop :=
  str_at p s = Some cs /\ exists i, s = Some i /\ i + Z.of_nat (length cs) < charptr p.

Section Strings.
Implicit Types (p q : Parser) (s cs : block) (c : charp).

(** Copying a terminated string with its terminator. *)
Lemma strncpy_bytes_ok s cs : cstring s = Some cs -> strncpy_bytes s (length cs + 1) = Some (cs ++ [x00]).
Proof.
  unfold cstring, strncpy_bytes. intros H. case_decide as Hk; [|done]. injection H as <-. set (k := first_idx is_nul s) in *.
  rewrite length_take_le by lia. rewrite decide_True by lia. by replace (k + 1 - k)%nat with 1%nat by lia.
Qed.

Lemma chars_at_Some p i : 0 <= i <= Z.of_nat (length (charpool p)) -> chars_at p (Some i) = Some (drop (Z.to_nat i) (charpool p)).
Proof. intros Hi. unfold chars_at. cbn. by rewrite decide_True. Qed.

(** A live string only depends on the bytes before [charptr]. *)
Lemma live_ext p q c cs :
  live p c cs -> charptr p <= charptr q -> length (charpool q) = length (charpool p) -> charptr p <= Z.of_nat (length (charpool p)) ->
  (forall k : nat, Z.of_nat k < charptr p -> charpool q !! k = charpool p !! k) -> live q c cs.
Proof.
  intros [Hs (i & -> & Hi)] Hptr Hlen Hmax Hk. unfold str_at in *. apply bind_Some in Hs as (b & Hb & Hc). unfold chars_at in Hb. cbn in Hb.
  case_decide as Hr; [|done]. injection Hb as <-. split; [|exists i; split; [done|lia]]. unfold str_at. rewrite chars_at_Some by lia. cbn.
  apply cstring_Some in Hc as (Hn & t & Ht). apply cstring_Some. split; [done|]. exists (drop (S (Z.to_nat i + length cs)) (charpool q)).
  assert (take (S (length cs)) (drop (Z.to_nat i) (charpool q)) = cs ++ [x00]) as Htake.
  { transitivity (take (S (length cs)) (drop (Z.to_nat i) (charpool p))).
    - apply list_eq. intros k. destruct (decide (k < S (length cs))%nat) as [Hlt|Hge].
      + rewrite !lookup_take_lt, !lookup_drop by done. apply Hk. lia.
      + rewrite !lookup_take_ge by lia. done.
    - rewrite Ht. replace (S (length cs)) with (length (cs ++ [x00])) by (rewrite length_app; cbn; lia).
      change (cs ++ x00 :: t) with (cs ++ ([x00] ++ t)). rewrite app_assoc. apply take_app_length. }
  rewrite <- (take_drop (S (length cs)) (drop (Z.to_nat i) (charpool q))), Htake, <- app_assoc, drop_drop. cbn. by rewrite Nat.add_succ_r.
Qed.

(** [mk_string] copies a string behind the others. *)
Lemma mk_string_run p s cs :
  pools_ok p -> cstring s = Some cs -> charptr p + Z.of_nat (length cs) + 1 <= MAXCHAR ->
  exists q, mk_string s (Z.of_nat (length cs)) p = Some (Ok (Some (charptr p)), q) /\ pools_ok q /\ live q (Some (charptr p)) cs /\
    q = set_chars (charpool q) (set_charptr (charptr p + Z.of_nat (length cs) + 1) p) /\ forall c ds, live p c ds -> live q c ds.
Proof.
  intros [P1 P2 P3] Hs Hroom. unfold mk_string, string_alloc, MAXCHAR in *. step. step.
  rewrite (wrapS_id 32 (Z.of_nat (length cs) + 1)) by (unfold inS; lia). rewrite wrapS_id by (unfold inS; lia). rewrite decide_False by lia.
  step. step. step. step. rewrite decide_False by lia. replace (Z.to_nat (Z.of_nat (length cs) + 1)) with (length cs + 1)%nat by lia.
  rewrite (strncpy_bytes_ok s cs Hs). step. step. cbn [charpool set_charptr].
  destruct (wr_is_Some (charptr p) (cs ++ [x00]) (charpool p)) as [b Hb]; [lia|rewrite length_app; cbn; lia|].
  rewrite Hb. step. step. eexists. split; [reflexivity|].
  pose proof (wr_length _ _ _ _ Hb) as Hlen. split; [split; cbn; unfold MAXCHAR; lia|]. split; [split; [|exists (charptr p); split; [done|cbn; lia]]|split; [cbn; by rewrite Z.add_assoc|]].
  - unfold str_at. rewrite chars_at_Some by (cbn; lia). cbn. apply wr_Some in Hb as [_ ->]. apply cstring_Some. apply cstring_Some in Hs as [Hn _]. split; [done|].
    rewrite drop_app_ge by (rewrite length_take; lia). rewrite length_take_le by lia. rewrite Nat.sub_diag, drop_0, <- app_assoc. by eexists.
  - intros c ds Hl. apply (live_ext p); [done|cbn; lia|done|lia|]. intros k Hk. cbn. apply (wr_lookup_out _ _ _ _ _ Hb). lia.
Qed.

Lemma mk_string_full p s cs :
  pools_ok p -> cstring s = Some cs -> charptr p + Z.of_nat (length cs) + 1 > MAXCHAR -> Z.of_nat (length cs) < 2 ^ 30 ->
  mk_string s (Z.of_nat (length cs)) p = Some (Err "out of memory"%string, p).
Proof.
  intros [P1 P2 P3] Hs Hroom Hmax. unfold mk_string, string_alloc, MAXCHAR in *. step. step.
  rewrite (wrapS_id 32 (Z.of_nat (length cs) + 1)) by (unfold inS; lia). rewrite wrapS_id by (unfold inS; lia). by rewrite decide_True by lia.
Qed.

(** ** Reserved words *)

Lemma lower_chars_ok s cs n : cstring s = Some cs -> lower_chars s n = Some (take n (lower_char <$> cs)).
Proof.
  revert s cs. induction n as [|n IH]; intros s cs Hs; [done|]. destruct s as [|x s]; [done|]. rewrite cstring_cons in Hs. cbn [lower_chars].
  destruct (decide (x = x00)) as [->|Hx]; [by injection Hs as <-|]. apply fmap_Some in Hs as (cs' & Hs & ->). cbn. by rewrite (IH s cs' Hs).
Qed.

Lemma lower_char_nul (x : byte) : lower_char x = x00 -> x = x00.
Proof.
  unfold lower_char. case_decide as Hx; [|done]. intros Hz. exfalso. assert (byteZ (Zbyte (byteZ x + 32)) = 0) as H0 by (by rewrite Hz).
  rewrite byteZ_Zbyte, Z.mod_small in H0 by lia. lia.
Qed.

(** The words of [get_id] as a map. *)
Definition reserved_word (w : block) : option token := snd <$> List.find (fun x => bool_decide (chars x.1 = w)) reserved.

Lemma find_reserved_ok words b w :
  cstring b = Some w -> Forall (fun x => no_nul x.1) words ->
  find_reserved words b = Some (snd <$> List.find (fun x : string * token => bool_decide (chars x.1 = w)) words).
Proof.
  intros Hb Hw. induction Hw as [|[x t] words Hx Hw IH]; [done|]. cbn [find_reserved List.find fst snd].
  destruct (strcmp_ok b (c_str x) w (chars x) Hb (cstring_c_str x Hx)) as (d & -> & Hd). cbn [mbind option_bind].
  destruct (decide (d = 0)) as [Hz|Hz].
  - rewrite bool_decide_eq_true_2 by (symmetry; by apply Hd). done.
  - rewrite bool_decide_eq_false_2; [exact IH|]. intros Heq. apply Hz, Hd. done.
Qed.

Lemma reserved_no_nul : Forall (fun x : string * token => no_nul x.1) reserved.
Proof. apply (bool_decide_unpack _). by vm_compute. Qed.

(** The buffer [get_id] compares. *)
Lemma lower_ok buf s cs :
  Z.of_nat (length buf) = MAXIDLEN -> cstring s = Some cs -> Z.of_nat (length cs) < MAXIDLEN ->
  exists buf', lower buf s MAXIDLEN = Some (buf', Z.of_nat (length cs)) /\ length buf' = length buf /\ cstring buf' = Some (lower_char <$> cs).
Proof.
  unfold MAXIDLEN. intros Hb Hs Hlen. unfold lower. rewrite (lower_chars_ok s cs _ Hs). cbn [mbind option_bind].
  rewrite take_ge by (rewrite list.length_fmap; lia). destruct (wr_is_Some 0 ((lower_char <$> cs) ++ [x00]) buf) as [buf' Hw];
    [lia|rewrite length_app, list.length_fmap; cbn; lia|]. rewrite Hw. cbn [mbind option_bind]. rewrite list.length_fmap.
  exists buf'. split; [done|]. split; [by apply (wr_length _ _ _ _ Hw)|]. apply wr_Some in Hw as [_ ->]. apply cstring_Some. cbn. split; [|rewrite <- app_assoc; by eexists].
  apply cstring_Some in Hs as [Hn _]. intros (x & Hx & Hin)%list_elem_of_fmap. apply Hn. by rewrite <- (lower_char_nul x (eq_sym Hx)).
Qed.

End Strings.

(** The state of the program when it starts. *)
Definition Parser_init : Parser :=
  mkParser (replicate (Z.to_nat MAXCHAR) x00) 0 (replicate (Z.to_nat MAXIDLEN) x00) yy_none (replicate 100 (mkNODE N_QUERY NOTSET)) 0 [].

Lemma Parser_init_ok : pools_ok Parser_init.
Proof. by split. Qed.

(** C22.  [get_id] tells reserved words from names whatever their case: a
    reserved word gives its token and leaves the pool alone; any other name
    gives [T_STRING] and a copy of its text, in its own case, and every string
    handed out before keeps its text; a full pool ends the program.  A name
    of fifty or more characters does not give [NOTOKEN]: its terminator is
    written past the end of the buffer. *)
Theorem get_id_exact p s cs :
  pools_ok p -> cstring s = Some cs ->
  (MAXIDLEN <= Z.of_nat (length cs) -> get_id s p = None) /\
  (Z.of_nat (length cs) < MAXIDLEN ->
   match reserved_word (lower_char <$> cs) with
   | Some t => exists q, get_id s p = Some (Ok t, q) /\ pools_ok q /\ yylval q = yy_ival (token_code t) /\
       charpool q = charpool p /\ charptr q = charptr p /\ nodepool q = nodepool p
   | None =>
       if decide (charptr p + Z.of_nat (length cs) + 1 <= MAXCHAR) then
         exists q c, get_id s p = Some (Ok T_STRING, q) /\ pools_ok q /\ yylval q = yy_sval c /\ live q c cs /\
           (forall c' ds, live p c' ds -> live q c' ds) /\ nodepool q = nodepool p
       else exists q, get_id s p = Some (Err "out of memory"%string, q)
   end).
Proof.
  intros Hp Hs. pose proof Hp as [P1 P2 P3]. split; intros Hlen; unfold get_id; step.
  - unfold lower. rewrite (lower_chars_ok s cs _ Hs). cbn [mbind option_bind]. unfold MAXIDLEN in *.
    assert (wr 0 (take (Z.to_nat 50) (lower_char <$> cs) ++ [x00]) (idbuf p) = None) as ->; [|done].
    unfold wr. rewrite decide_False; [done|]. rewrite length_app, length_take, list.length_fmap. cbn. lia.
  - destruct (lower_ok (idbuf p) s cs P3 Hs Hlen) as (buf & -> & Hbl & Hbuf). step. step. rewrite decide_False by lia.
    rewrite (find_reserved_ok reserved buf _ Hbuf reserved_no_nul). step. fold (reserved_word (lower_char <$> cs)).
    assert (pools_ok (set_idbuf buf p)) as Hp' by (split; cbn; [done|done|lia]). destruct (reserved_word (lower_char <$> cs)) as [t|].
    + step. eexists. split; [reflexivity|]. split; [|done]. destruct Hp' as [H1 H2 H3]. by split.
    + case_decide as Hroom.
      * destruct (mk_string_run (set_idbuf buf p) s cs Hp' Hs Hroom) as (q & Hq & [Q1 Q2 Q3] & Hl & Heq & Hkeep). rewrite (bind_Ok _ _ _ _ _ Hq). step.
        eexists _, _. split; [reflexivity|]. split; [by split|]. split; [reflexivity|]. split; [exact Hl|]. split; [exact Hkeep|]. cbn. by rewrite Heq.
      * eexists. unfold MAXIDLEN in Hlen. pose proof (mk_string_full (set_idbuf buf p) s cs Hp' Hs ltac:(cbn; lia) ltac:(lia)) as Hf. rewrite (bind_Err _ _ _ _ _ Hf). done.
Qed.

(** [SELECT] is the reserved word, [Sailors] is a name. *)
Lemma get_id_exact_witness :
  (exists q, get_id (c_str "SELECT") Parser_init = Some (Ok RW_SELECT, q)) /\
  (exists q c, get_id (c_str "Sailors") Parser_init = Some (Ok T_STRING, q) /\ yylval q = yy_sval c /\ live q c (chars "Sailors")).
Proof.
  split.
  - destruct (proj2 (get_id_exact Parser_init (c_str "SELECT") (chars "SELECT") Parser_init_ok eq_refl) ltac:(by vm_compute)) as (q & Hq & _). exists q. exact Hq.
  - destruct (proj2 (get_id_exact Parser_init (c_str "Sailors") (chars "Sailors") Parser_init_ok eq_refl) ltac:(by vm_compute)) as (q & c & Hq & _ & Hy & Hl & _).
    exists q, c. exact (conj Hq (conj Hy Hl)).
Defined.
