(* ===== verification/Nodes.v ===== *)
(** * Parse trees (parser/nodes.C)

    The pool of nodes, one constructor function per kind of node, and the
    functions the grammar calls on finished lists: pairing attributes with
    values, and replacing the aliases of relations by their names.  Loops
    over lists take fuel; running out of it is undefined. *)

From S2P Require Export Scan.

Definition MAXNODE : Z := 100.

(** [cleanup_func] is called when one was registered. *)
Definition new_query (cleanup_func : option (PARSE unit)) : PARSE unit :=
  modify (set_nodeptr 0) ;;;
  reset_charptr ;;;
  match cleanup_func with Some f => f | None => ret tt end.

Definition reset_parser (yyrestart : PARSE unit) : PARSE unit :=
  reset_scanner yyrestart ;;;
  modify (set_nodeptr 0).

(** ** Access to nodes *)

Definition deref (n : nodep) : PARSE NODE :=
  let! pool := gets nodepool in
  defined (i ← n; zget pool i).

Definition store (n : nodep) (x : NODE) : PARSE unit :=
  let! pool := gets nodepool in
  let! pool := defined (i ← n; zset pool i x) in
  modify (set_nodes pool).

(** [n->u.X... = ...]: the union changes, the kind stays. *)
Definition set_u (n : nodep) (u : node_u) : PARSE unit :=
  let! x := deref n in store n (mkNODE (kind x) u).

(** ** Allocation *)

Definition newnode (k : NODEKIND) : PARSE nodep :=
  let! ptr := gets nodeptr in
  if decide (ptr = MAXNODE) then throw "Out of Memory !"%string
  else
    modify (set_nodeptr (s32 (ptr + 1))) ;;;
    let n := Some ptr in
    let! x := deref n in
    store n (mkNODE k (nu x)) ;;;
    ret n.

Definition node (k : NODEKIND) (u : node_u) : PARSE nodep :=
  let! n := newnode k in
  set_u n u ;;;
  ret n.

Definition query_node (relname : charp) (attrlist qual : nodep) : PARSE nodep := node N_QUERY (QUERY relname attrlist qual).
Definition insert_node (relname : charp) (attrlist : nodep) : PARSE nodep := node N_INSERT (INSERT relname attrlist).
Definition delete_node (relname : charp) (qual : nodep) : PARSE nodep := node N_DELETE (DELETE relname qual).
Definition create_node (relname : charp) (attrlist primattr : nodep) : PARSE nodep := node N_CREATE (CREATE relname attrlist primattr).
Definition destroy_node (relname : charp) : PARSE nodep := node N_DESTROY (DESTROY relname).
Definition build_node (relname attrname : charp) (nbuckets : Z) : PARSE nodep := node N_BUILD (BUILD relname attrname nbuckets).
Definition rebuild_node (relname attrname : charp) (nbuckets : Z) : PARSE nodep := node N_REBUILD (BUILD relname attrname nbuckets).
Definition drop_node (relname attrname : charp) : PARSE nodep := node N_DROP (DROP relname attrname).
Definition load_node (relname filename : charp) : PARSE nodep := node N_LOAD (LOAD relname filename).
Definition print_node (relname : charp) : PARSE nodep := node N_PRINT (PRINT relname).
Definition help_node (relname : charp) : PARSE nodep := node N_HELP (HELP relname).
Definition select_node (selattr : nodep) (op : Operator) (value : nodep) : PARSE nodep := node N_SELECT (SELECT selattr op value).
Definition join_node (joinattr1 : nodep) (op : Operator) (joinattr2 : nodep) : PARSE nodep := node N_JOIN (JOIN joinattr1 op joinattr2).
Definition primattr_node (attrname : charp) (nbuckets : Z) : PARSE nodep := node N_PRIMATTR (PRIMATTR attrname nbuckets).
Definition qualattr_node (relname attrname : charp) : PARSE nodep := node N_QUALATTR (QUALATTR relname attrname).
Definition attrval_node (attrname : charp) (value : nodep) : PARSE nodep := node N_ATTRVAL (ATTRVAL attrname value).
Definition attrtype_node (attrname : charp) (type : Z) : PARSE nodep := node N_ATTRTYPE (ATTRTYPE attrname type).
Definition int_node (i : Z) : PARSE nodep := node N_VALUE (VALUE INTEGER 0 (ival i)).
Definition float_node (bits : Z) : PARSE nodep := node N_VALUE (VALUE FLOAT 0 (rval bits)).

(** [strlen(s)] is taken after the node was allocated. *)
Definition string_node (s : charp) : PARSE nodep :=
  let! n := newnode N_VALUE in
  let! p := gets id in
  let! len := defined (cs ← str_at p s; Some (s32 (Z.of_nat (length cs)))) in
  set_u n (VALUE STRING len (sval s)) ;;;
  ret n.

Definition list_node (n : nodep) : PARSE nodep := node N_LIST (LIST n None).
Definition prepend (n list : nodep) : PARSE nodep := node N_LIST (LIST n list).
Definition alias_node (relname alias : charp) : PARSE nodep := node N_ALIAS (ALIAS relname alias).

(** ** Members of the union *)

Definition get_LIST (n : nodep) : PARSE (nodep * nodep) :=
  let! x := deref n in defined match nu x with LIST self next => Some (self, next) | _ => None end.
Definition get_ALIAS (n : nodep) : PARSE (charp * charp) :=
  let! x := deref n in defined match nu x with ALIAS r a => Some (r, a) | _ => None end.
Definition get_QUALATTR (n : nodep) : PARSE (charp * charp) :=
  let! x := deref n in defined match nu x with QUALATTR r a => Some (r, a) | _ => None end.
Definition get_ATTRVAL (n : nodep) : PARSE (charp * nodep) :=
  let! x := deref n in defined match nu x with ATTRVAL a v => Some (a, v) | _ => None end.

(** ** Attributes and values *)

Fixpoint merge_loop (fuel : nat) (attr_ptr value_ptr : nodep) : PARSE (option nodep) :=
  match fuel with
  | O => undef
  | S fuel =>
      match attr_ptr with
      | None => ret (Some value_ptr)
      | Some _ =>
          match value_ptr with
          | None =>
              modify (complain "Error: Value list is shorter than attr list!") ;;;
              ret None
          | Some _ =>
              let! (self, next) := get_LIST attr_ptr in
              let! (vself, vnext) := get_LIST value_ptr in
              let! (name, _) := get_ATTRVAL self in
              set_u self (ATTRVAL name vself) ;;;
              merge_loop fuel next vnext
          end
      end
  end.

Definition merge_attr_value_list (fuel : nat) (attr_list value_list : nodep) : PARSE nodep :=
  let! r := merge_loop fuel attr_list value_list in
  match r with
  | None => ret None
  | Some (Some _) =>
      modify (complain "Error: Value list is longer than attr list!") ;;;
      ret None
  | Some None => ret attr_list
  end.

(** ** Aliases *)

(** [!strcmp(a, b)]. *)
Definition same_string (a b : charp) : PARSE bool :=
  let! p := gets id in
  defined (x ← chars_at p a; y ← chars_at p b; c ← strcmp x y; Some (bool_decide (c = 0))).

Fixpoint alias_loop (fuel : nat) (n : nodep) (rel_alias : charp) : PARSE charp :=
  match fuel with
  | O => undef
  | S fuel =>
      match n with
      | None => ret None
      | Some _ =>
          let! (self, next) := get_LIST n in
          let! (relname, alias) := get_ALIAS self in
          let! b := same_string relname rel_alias in
          if b : bool then ret rel_alias
          else
            match alias with
            | None => alias_loop fuel next rel_alias
            | Some _ =>
                let! b := same_string alias rel_alias in
                if b : bool then ret relname else alias_loop fuel next rel_alias
            end
      end
  end.

Definition find_match_in_alias (fuel : nat) (alias : nodep) (rel_alias : charp) : PARSE charp :=
  match rel_alias with
  | None => ret None
  | Some _ => alias_loop fuel alias rel_alias
  end.

(** The body of the loop and of the three cases of a condition: resolve the
    qualifier of the attribute [q].  Whether to go on. *)
Definition replace_alias (fuel : nat) (alias q : nodep) : PARSE bool :=
  let! (s, attrname) := get_QUALATTR q in
  match s with
  | None =>
      let! (self, next) := get_LIST alias in
      match next with
      | Some _ =>
          modify (complain "Error: must have relation qualifier beforeattributes if multi-table invovle in the query") ;;;
          ret false
      | None =>
          let! (relname, _) := get_ALIAS self in
          set_u q (QUALATTR relname attrname) ;;;
          ret true
      end
  | Some _ =>
      let! r := find_match_in_alias fuel alias s in
      match r with
      | None =>
          let! p := gets id in
          let! name := defined (str_at p s) in
          modify (complain (String.string_of_list_byte (chars "Error: relation qualifier " ++ name ++ chars " not found"))) ;;;
          ret false
      | Some _ =>
          set_u q (QUALATTR r attrname) ;;;
          ret true
      end
  end.

Fixpoint qualattr_loop (fuel : nat) (alias n : nodep) : PARSE bool :=
  match fuel with
  | O => undef
  | S fuel' =>
      match n with
      | None => ret true
      | Some _ =>
          let! (self, _) := get_LIST n in
          let! go := replace_alias fuel alias self in
          if go : bool then
            let! (_, next) := get_LIST n in
            qualattr_loop fuel' alias next
          else ret false
      end
  end.

Definition replace_alias_in_qualattr_list (fuel : nat) (alias qualattr_list : nodep) : PARSE nodep :=
  let! ok := qualattr_loop fuel alias qualattr_list in
  ret (if ok : bool then qualattr_list else None).

(** A [where] clause that is no selection is a join. *)
Definition replace_alias_in_condition (fuel : nat) (alias wh : nodep) : PARSE nodep :=
  match wh with
  | None => ret None
  | Some _ =>
      let! x := deref wh in
      if decide (kind x = N_SELECT) then
        let! selattr := defined match nu x with SELECT a _ _ => Some a | _ => None end in
        let! ok := replace_alias fuel alias selattr in
        ret (if ok : bool then wh else None)
      else
        let! (a1, a2) := defined match nu x with JOIN a1 _ a2 => Some (a1, a2) | _ => None end in
        let! ok := replace_alias fuel alias a1 in
        if ok : bool then
          let! ok := replace_alias fuel alias a2 in
          ret (if ok : bool then wh else None)
        else ret None
  end.

(** The action of the grammar for [select]. *)
Definition query_action (fuel : nat) (attrs : nodep) (into : charp) (tables cond : nodep) : PARSE nodep :=
  let! qualattr_list := replace_alias_in_qualattr_list fuel tables attrs in
  match qualattr_list with
  | None => ret None
  | Some _ =>
      let! wh := replace_alias_in_condition fuel tables cond in
      match wh, cond with
      | None, Some _ => ret None
      | _, _ => query_node into qualattr_list wh
      end
  end.

(** The action of the grammar for [insert]. *)
Definition insert_action (fuel : nat) (relname : charp) (attrib_list value_list : nodep) : PARSE nodep :=
  let! tmp := merge_attr_value_list fuel attrib_list value_list in
  match tmp with
  | None => ret None
  | Some _ => insert_node relname tmp
  end.

(** ** What the pool stands for *)

Section Trees.
Implicit Types (p q : Parser) (n : nodep) (c : charp) (u : node_u) (i : Z).

(** An allocated node with the union [u]. *)
Definition kind_at p n (k : NODEKIND) u : Prop := exists i, n = Some i /\ i < nodeptr p /\ zget (nodepool p) i = Some (mkNODE k u).
Definition node_at p n u : Prop := exists k, kind_at p n k u.

(** A list of nodes. *)
Fixpoint list_at p n (xs : list nodep) : Prop :=
  match xs with
  | [] => n = None
  | x :: xs => exists next, node_at p n (LIST x next) /\ list_at p next xs
  end.

(** A string that may be missing. *)
Definition opt_str p c (o : option block) : Prop := match o with None => c = None | Some s => str_at p c = Some s end.

(** A relation of the [from] clause with its alias. *)
Definition alias_at p n (t : block * option block) : Prop :=
  exists r a, node_at p n (ALIAS r a) /\ str_at p r = Some t.1 /\ opt_str p a t.2.

Definition tables_at p n (ts : list (block * option block)) : Prop := exists xs, list_at p n xs /\ Forall2 (alias_at p) xs ts.

(** An attribute with its qualifier. *)
Definition qual_at p n (x : option block * block) : Prop :=
  exists r a, node_at p n (QUALATTR r a) /\ opt_str p r x.1 /\ str_at p a = Some x.2.

Definition quals_at p n (xs : list (option block * block)) : Prop := exists qs, list_at p n qs /\ Forall2 (qual_at p) qs xs.

(** The relation a qualifier stands for: a name or an alias of the [from]
    clause, or its only relation when there is none. *)
Fixpoint find_table (ts : list (block * option block)) (s : block) : option block :=
  match ts with
  | [] => None
  | (r, a) :: ts => if decide (r = s) then Some s else if decide (a = Some s) then Some r else find_table ts s
  end.

Definition resolve (ts : list (block * option block)) (x : option block * block) : option (option block * block) :=
  match x.1 with
  | None => match ts with [(r, _)] => Some (Some r, x.2) | _ => None end
  | Some s => (fun r => (Some r, x.2)) <$> find_table ts s
  end.

(** ** Reading *)

Lemma node_at_fun p n u u' : node_at p n u -> node_at p n u' -> u = u'.
Proof. intros (k & i & -> & _ & H) (k' & i' & [= <-] & _ & H'). congruence. Qed.

Lemma node_at_ptr p n u : node_at p n u -> exists i, n = Some i.
Proof. intros (k & i & -> & _). by exists i. Qed.

Lemma deref_kind p n k u : kind_at p n k u -> deref n p = Some (Ok (mkNODE k u), p).
Proof. intros (i & -> & _ & H). unfold deref. step. cbn. by rewrite H. Qed.

Lemma deref_run p n u : node_at p n u -> exists k, deref n p = Some (Ok (mkNODE k u), p).
Proof. intros [k H]. exists k. by apply deref_kind. Qed.

Lemma get_LIST_run p n x next : node_at p n (LIST x next) -> get_LIST n p = Some (Ok (x, next), p).
Proof. intros [k H]%deref_run. unfold get_LIST. by rewrite (bind_Ok _ _ _ _ _ H). Qed.
Lemma get_ALIAS_run p n r a : node_at p n (ALIAS r a) -> get_ALIAS n p = Some (Ok (r, a), p).
Proof. intros [k H]%deref_run. unfold get_ALIAS. by rewrite (bind_Ok _ _ _ _ _ H). Qed.
Lemma get_QUALATTR_run p n r a : node_at p n (QUALATTR r a) -> get_QUALATTR n p = Some (Ok (r, a), p).
Proof. intros [k H]%deref_run. unfold get_QUALATTR. by rewrite (bind_Ok _ _ _ _ _ H). Qed.
Lemma get_ATTRVAL_run p n a v : node_at p n (ATTRVAL a v) -> get_ATTRVAL n p = Some (Ok (a, v), p).
Proof. intros [k H]%deref_run. unfold get_ATTRVAL. by rewrite (bind_Ok _ _ _ _ _ H). Qed.

Lemma same_string_run p a b s t : str_at p a = Some s -> str_at p b = Some t -> same_string a b p = Some (Ok (bool_decide (s = t)), p).
Proof.
  intros (x & Hx & Hs)%bind_Some (y & Hy & Ht)%bind_Some. unfold same_string. step. cbn. rewrite Hx. cbn. rewrite Hy. cbn.
  destruct (strcmp_ok x y s t Hs Ht) as (d & -> & Hd). cbn. do 3 f_equal. by apply bool_decide_ext.
Qed.

(** ** Writing *)

(** Only nodes in [Q] changed. *)
Record frame p q (Q : list nodep) : Prop := {
  fr_chars : charpool q = charpool p;
  fr_charptr : charptr q = charptr p;
  fr_nodeptr : nodeptr q = nodeptr p;
  fr_length : length (nodepool q) = length (nodepool p);
  fr_nodes : forall i, Some i ∉ Q -> zget (nodepool q) i = zget (nodepool p) i;
}.

Lemma frame_refl p Q : frame p p Q.
Proof. by split. Qed.

Lemma frame_trans p q r Q : frame p q Q -> frame q r Q -> frame p r Q.
Proof. intros [F1 F2 F3 F4 F5] [G1 G2 G3 G4 G5]. split; [congruence..|]. intros i Hi. by rewrite G5, F5. Qed.

Lemma frame_sub p q Q Q' : frame p q Q -> Q ⊆ Q' -> frame p q Q'.
Proof. intros [F1 F2 F3 F4 F5] Hs. split; [done..|]. intros i Hi. apply F5. by intros ?%Hs. Qed.

Lemma frame_complain p s Q : frame p (complain s p) Q.
Proof. by split. Qed.

Lemma frame_str p q Q c : frame p q Q -> str_at q c = str_at p c.
Proof. intros F. unfold str_at, chars_at. by rewrite (fr_chars _ _ _ F). Qed.

Lemma frame_opt_str p q Q c o : frame p q Q -> opt_str p c o -> opt_str q c o.
Proof. intros F. unfold opt_str. destruct o; [|done]. by rewrite (frame_str _ _ _ _ F). Qed.

Lemma frame_kind p q Q n k u : frame p q Q -> n ∉ Q -> kind_at p n k u -> kind_at q n k u.
Proof. intros F Hn (i & -> & Hi & H). exists i. by rewrite (fr_nodeptr _ _ _ F), (fr_nodes _ _ _ F) by done. Qed.

Lemma frame_node p q Q n u : frame p q Q -> n ∉ Q -> node_at p n u -> node_at q n u.
Proof. intros F Hn [k H]. exists k. by eapply frame_kind. Qed.

(** [Q] are attributes: the only nodes that change once they are made. *)
Definition is_attr_node u : bool := match u with QUALATTR _ _ | ATTRVAL _ _ => true | _ => false end.
Definition quals p (Q : list nodep) : Prop := forall n, n ∈ Q -> exists u, node_at p n u /\ is_attr_node u = true.

Lemma quals_not p Q n u : quals p Q -> node_at p n u -> is_attr_node u = false -> n ∉ Q.
Proof. intros HQ Hn Hu (u' & H & Hu')%HQ. rewrite (node_at_fun p n u' u H Hn), Hu in Hu'. discriminate Hu'. Qed.

Lemma frame_list p q Q n xs : frame p q Q -> quals p Q -> list_at p n xs -> list_at q n xs.
Proof.
  intros F HQ. revert n. induction xs as [|x xs IH]; intros n; [done|]. cbn. intros (next & Hn & Hxs). exists next. split; [|by apply IH].
  eapply frame_node; [done| |done]. by eapply quals_not.
Qed.

Lemma frame_tables p q Q n ts : frame p q Q -> quals p Q -> tables_at p n ts -> tables_at q n ts.
Proof.
  intros F HQ (xs & Hxs & Hts). exists xs. split; [by eapply frame_list|]. eapply Forall2_impl; [|exact Hts]. intros x t (r & a & H1 & H2 & H3).
  exists r, a. split; [eapply frame_node; [done| |done]; by eapply quals_not|]. rewrite (frame_str _ _ _ _ F). split; [done|by eapply frame_opt_str].
Qed.

Lemma frame_qual p q Q n x : frame p q Q -> n ∉ Q -> qual_at p n x -> qual_at q n x.
Proof.
  intros F Hn (r & a & H1 & H2 & H3). exists r, a. split; [by eapply frame_node|]. rewrite (frame_str _ _ _ _ F). split; [by eapply frame_opt_str|done].
Qed.

Lemma set_u_kind p n k u u' : kind_at p n k u -> exists q, set_u n u' p = Some (Ok tt, q) /\ frame p q [n] /\ kind_at q n k u'.
Proof.
  intros Hn. pose proof Hn as (i & -> & Hlt & Hi). unfold set_u. rewrite (bind_Ok _ _ _ _ _ (deref_kind _ _ _ _ Hn)). unfold store. step.
  pose proof (zget_range _ _ _ Hi) as Hr. cbn [kind nu]. erewrite bind_Ok by (unfold defined; cbn [mbind option_bind]; rewrite zset_in_range by done; reflexivity).
  eexists. split; [reflexivity|]. split.
  - split; cbn; [done..|by rewrite length_insert|]. intros j Hj. rewrite zget_insert by done. rewrite decide_False; [done|]. intros ->. apply Hj. by left.
  - exists i. split; [done|]. split; [done|]. cbn. by rewrite zget_insert, decide_True.
Qed.

Lemma set_u_run p n u u' : node_at p n u -> exists q, set_u n u' p = Some (Ok tt, q) /\ frame p q [n] /\ node_at q n u'.
Proof. intros [k Hk]. destruct (set_u_kind p n k u u' Hk) as (q & Hq & F & Hk'). exists q. split; [done|]. split; [done|by exists k]. Qed.

(** ** Aliases *)

Lemma alias_loop_run p n ts c t (fuel : nat) :
  tables_at p n ts -> str_at p c = Some t -> (length ts < fuel)%nat ->
  match find_table ts t with
  | Some r => exists c', alias_loop fuel n c p = Some (Ok c', p) /\ str_at p c' = Some r
  | None => alias_loop fuel n c p = Some (Ok None, p)
  end.
Proof.
  intros (xs & Hxs & Hts) Hc. revert n fuel Hxs. induction Hts as [|x [r a] xs ts (rp & ap & H1 & H2 & H3) Hts IH]; intros n [|fuel] Hxs Hf; cbn in Hf; try lia.
  - cbn in Hxs. by subst n.
  - destruct Hxs as (next & Hn & Hxs). destruct (node_at_ptr _ _ _ Hn) as [i ->]. cbn [alias_loop find_table fst snd] in *.
    rewrite (bind_Ok _ _ _ _ _ (get_LIST_run _ _ _ _ Hn)). rewrite (bind_Ok _ _ _ _ _ (get_ALIAS_run _ _ _ _ H1)). rewrite (bind_Ok _ _ _ _ _ (same_string_run p rp c r t H2 Hc)).
    specialize (IH next fuel Hxs ltac:(lia)). destruct (decide (r = t)) as [->|Hr]; [rewrite bool_decide_eq_true_2 by done; by exists c|].
    rewrite bool_decide_eq_false_2 by done. destruct a as [a|]; cbn in H3; [|subst ap; by rewrite decide_False].
    destruct ap as [ap|]; [|done]. rewrite (bind_Ok _ _ _ _ _ (same_string_run p (Some ap) c a t H3 Hc)). destruct (decide (Some a = Some t)) as [[= ->]|Ha].
    + rewrite bool_decide_eq_true_2 by done. by exists rp.
    + rewrite bool_decide_eq_false_2 by congruence. exact IH.
Qed.

(** One attribute. *)
Lemma replace_alias_run p tables ts n x (fuel : nat) :
  tables_at p tables ts -> ts <> [] -> qual_at p n x -> (length ts < fuel)%nat ->
  exists q, frame p q [n] /\
    match resolve ts x with
    | Some y => replace_alias fuel tables n p = Some (Ok true, q) /\ qual_at q n y
    | None => replace_alias fuel tables n p = Some (Ok false, q)
    end.
Proof.
  intros Htab Hne (rp & ap & Hn & Hr & Ha) Hf. destruct x as [rel attr]. cbn in Hr, Ha. unfold replace_alias, resolve. rewrite (bind_Ok _ _ _ _ _ (get_QUALATTR_run _ _ _ _ Hn)).
  assert (forall c y, str_at p c = Some y -> exists q, set_u n (QUALATTR c ap) p = Some (Ok tt, q) /\ frame p q [n] /\ qual_at q n (Some y, attr)) as Hset.
  { intros c y Hc. destruct (set_u_run p n _ (QUALATTR c ap) Hn) as (q & Hq & F & Hq'). exists q. split; [done|]. split; [done|].
    exists c, ap. cbn. by rewrite !(frame_str _ _ _ _ F). }
  destruct rel as [s|]; cbn [fst snd opt_str] in Hr |- *.
  - destruct rp as [rp|]; [|done]. pose proof (alias_loop_run p tables ts (Some rp) s fuel Htab Hr Hf) as Hl. unfold find_match_in_alias.
    destruct (find_table ts s) as [y|]; cbn [fmap option_fmap option_map].
    + destruct Hl as (c' & Hl & Hc'). rewrite (bind_Ok _ _ _ _ _ Hl). destruct c' as [c'|]; [|done]. destruct (Hset (Some c') y Hc') as (q & Hq & F & Hq').
      exists q. rewrite (bind_Ok _ _ _ _ _ Hq). done.
    + rewrite (bind_Ok _ _ _ _ _ Hl). eexists (complain _ p). split; [apply frame_complain|]. step. unfold id. erewrite bind_Ok by (unfold defined; rewrite Hr; reflexivity). step. reflexivity.
  - subst rp. destruct Htab as (xs & Hxs & Hts). destruct Hts as [|x1 [r1 a1] xs ts (r & a & H1 & H2 & H3) Hts]; [done|]. cbn in Hxs. destruct Hxs as (next & Hl & Hxs).
    rewrite (bind_Ok _ _ _ _ _ (get_LIST_run _ _ _ _ Hl)). destruct Hts as [|x2 t2 xs ts H4 Hts].
    + cbn in Hxs. subst next. rewrite (bind_Ok _ _ _ _ _ (get_ALIAS_run _ _ _ _ H1)). destruct (Hset r r1 H2) as (q & Hq & F & Hq'). exists q.
      rewrite (bind_Ok _ _ _ _ _ Hq). done.
    + destruct Hxs as (next2 & [i2 ->]%node_at_ptr & _). eexists (complain _ p). split; [apply frame_complain|]. step. reflexivity.
Qed.

Lemma quals_of p qs xs : Forall2 (qual_at p) qs xs -> quals p qs.
Proof.
  intros Hq n Hn. apply list_elem_of_lookup in Hn as [i Hi]. destruct (Forall2_lookup_l _ _ _ _ _ Hq Hi) as (x & _ & r & a & H & _). by exists (QUALATTR r a).
Qed.

(** The list of attributes: all of them, or a message at the first that
    cannot be resolved. *)
Lemma qualattr_loop_run p tables ts n qs xs (fuel : nat) :
  tables_at p tables ts -> ts <> [] -> list_at p n qs -> Forall2 (qual_at p) qs xs -> NoDup qs -> (length ts + length xs < fuel)%nat ->
  exists q, frame p q qs /\
    match mapM (resolve ts) xs with
    | Some ys => qualattr_loop fuel tables n p = Some (Ok true, q) /\ list_at q n qs /\ Forall2 (qual_at q) qs ys
    | None => qualattr_loop fuel tables n p = Some (Ok false, q)
    end.
Proof.
  intros Htab Hne Hl Hq Hnd. revert p n fuel Htab Hl Hq Hnd. revert qs. induction xs as [|x xs IH]; intros qs p n [|fuel] Htab Hl Hq Hnd Hf; cbn in Hf; try lia.
  { apply Forall2_nil_inv_r in Hq as ->. cbn in Hl. subst n. exists p. split; [apply frame_refl|]. cbn. done. }
  apply Forall2_cons_inv_r in Hq as (a & qs' & Ha & Hq & ->). apply list.NoDup_cons in Hnd as [Hni Hnd]. destruct Hl as (next & Hn & Hl).
  destruct (node_at_ptr _ _ _ Hn) as [i ->]. cbn [qualattr_loop]. rewrite (bind_Ok _ _ _ _ _ (get_LIST_run _ _ _ _ Hn)).
  destruct (replace_alias_run p tables ts a x (S fuel) Htab Hne Ha ltac:(lia)) as (q & F & Hr). cbn [mapM].
  assert (quals p [a]) as Hqa by (intros m [->|?%not_elem_of_nil]%elem_of_cons; [destruct Ha as (r & b & H & _); by exists (QUALATTR r b)|done]).
  destruct (resolve ts x) as [y|]; cbn [mbind option_bind].
  - destruct Hr as [Hr Hy]. rewrite (bind_Ok _ _ _ _ _ Hr). assert (node_at q (Some i) (LIST a next)) as Hn' by (eapply frame_node; [exact F|by eapply quals_not|done]).
    rewrite (bind_Ok _ _ _ _ _ (get_LIST_run _ _ _ _ Hn')). assert (Forall2 (qual_at q) qs' xs) as Hq'.
    { apply Forall2_same_length_lookup_2; [by apply Forall2_length in Hq|]. intros j m z Hj Hz. pose proof (Forall2_lookup_lr _ _ _ _ _ _ Hq Hj Hz) as Hm.
      eapply frame_qual; [exact F| |done]. intros [->|?%not_elem_of_nil]%elem_of_cons; [|done]. apply Hni. by eapply list_elem_of_lookup_2. }
    destruct (IH qs' q next fuel) as (q2 & F2 & Hl2); [by eapply frame_tables|by eapply frame_list|done|done|lia|]. exists q2.
    split; [eapply frame_trans; (eapply frame_sub; [eassumption|])|].
    + by intros m [->|?%not_elem_of_nil]%elem_of_cons; [left|].
    + intros m. by right.
    + destruct (mapM (resolve ts) xs) as [ys|]; [|done]. destruct Hl2 as (H1 & H2 & H3). split; [done|]. split; [|constructor; [|done]].
      * exists next. split; [|done]. eapply frame_node; [exact F2| |done]. apply (quals_not q qs' _ _ (quals_of _ _ _ Hq') Hn'). done.
      * by eapply frame_qual.
  - rewrite (bind_Ok _ _ _ _ _ Hr). exists q. split; [|done]. eapply frame_sub; [exact F|]. by intros m [->|?%not_elem_of_nil]%elem_of_cons; [left|].
Qed.

(** ** Allocation *)

Record nodes_ok p : Prop := { no_length : Z.of_nat (length (nodepool p)) = MAXNODE; no_ptr : 0 <= nodeptr p <= MAXNODE }.

(** A node was added; the others are as they were. *)
Record grown p q : Prop := {
  gr_chars : charpool q = charpool p;
  gr_charptr : charptr q = charptr p;
  gr_nodeptr : nodeptr p <= nodeptr q;
  gr_nodes : forall i, i < nodeptr p -> zget (nodepool q) i = zget (nodepool p) i;
}.

Lemma grown_kind p q n k u : grown p q -> kind_at p n k u -> kind_at q n k u.
Proof. intros [G1 G2 G3 G4] (i & -> & Hi & H). exists i. split; [done|]. split; [lia|]. by rewrite G4. Qed.

Lemma grown_node p q n u : grown p q -> node_at p n u -> node_at q n u.
Proof. intros G [k H]. exists k. by eapply grown_kind. Qed.

Lemma grown_str p q c : grown p q -> str_at q c = str_at p c.
Proof. intros G. unfold str_at, chars_at. by rewrite (gr_chars _ _ G). Qed.

Lemma grown_qual p q n x : grown p q -> qual_at p n x -> qual_at q n x.
Proof.
  intros G (r & a & H1 & H2 & H3). exists r, a. split; [by eapply grown_node|]. rewrite (grown_str _ _ _ G). split; [|done].
  unfold opt_str in *. destruct x.1; [by rewrite (grown_str _ _ _ G)|done].
Qed.

Lemma grown_list p q n xs : grown p q -> list_at p n xs -> list_at q n xs.
Proof. intros G. revert n. induction xs as [|x xs IH]; intros n; [done|]. cbn. intros (next & Hn & Hxs). exists next. split; [by eapply grown_node|by apply IH]. Qed.

Lemma grown_quals p q n xs : grown p q -> quals_at p n xs -> quals_at q n xs.
Proof. intros G (qs & Hl & Hq). exists qs. split; [by eapply grown_list|]. eapply Forall2_impl; [|exact Hq]. intros m x. by apply grown_qual. Qed.

(** A constructor returns a new node, or ends the program. *)
Lemma node_run p k u :
  nodes_ok p ->
  if decide (nodeptr p < MAXNODE) then
    exists q n, node k u p = Some (Ok n, q) /\ kind_at q n k u /\ grown p q /\ nodes_ok q
  else node k u p = Some (Err "Out of Memory !"%string, p).
Proof.
  intros [N1 N2]. unfold node, newnode, MAXNODE in *. destruct (decide (nodeptr p < 100)) as [Hlt|Hge].
  2: { rewrite bind_assoc. step. by rewrite decide_True by lia. }
  rewrite bind_assoc. step. rewrite decide_False by lia. rewrite wrapS_id by (unfold inS; lia). rewrite bind_assoc. step.
  destruct (zget_is_Some (nodepool p) (nodeptr p)) as [x Hx]; [lia|]. set (p1 := set_nodeptr (nodeptr p + 1) p).
  assert (kind_at p1 (Some (nodeptr p)) (kind x) (nu x)) as Hk by (exists (nodeptr p); split; [done|]; split; [cbn; lia|]; cbn; by destruct x).
  rewrite bind_assoc, (bind_Ok _ _ _ _ _ (deref_kind _ _ _ _ Hk)). cbn [nu]. unfold store. rewrite !bind_assoc. step.
  erewrite bind_assoc, bind_Ok by (unfold defined; cbn [mbind option_bind]; rewrite zset_in_range by (cbn; lia); reflexivity). step. step.
  set (p2 := set_nodes _ p1). assert (kind_at p2 (Some (nodeptr p)) k (nu x)) as Hk2.
  { exists (nodeptr p). split; [done|]. split; [cbn; lia|]. cbn. by rewrite zget_insert, decide_True by (cbn; lia). }
  destruct (set_u_kind p2 (Some (nodeptr p)) k (nu x) u Hk2) as (q & Hq & [F1 F2 F3 F4 F5] & Hu). rewrite (bind_Ok _ _ _ _ _ Hq).
  exists q, (Some (nodeptr p)). split; [done|]. split; [done|]. split; [split; [done|done|rewrite F3; cbn; lia|]|split; [rewrite F4; cbn; rewrite length_insert; exact N1|rewrite F3; cbn; unfold MAXNODE; lia]].
  intros i Hi. rewrite F5 by (intros [[= ->]|?%not_elem_of_nil]%elem_of_cons; [lia|done]). cbn. rewrite zget_insert by lia. by rewrite decide_False by lia.
Qed.

(** ** Conditions *)

Inductive acond : Set :=
| ASelect (x : option block * block) (op : Operator) (v : nodep)
| AJoin (x : option block * block) (op : Operator) (y : option block * block).

(** The condition at [n], with the nodes of its attributes. *)
Definition cond_at p n (c : acond) (Q : list nodep) : Prop :=
  match c with
  | ASelect x op v => exists a, kind_at p n N_SELECT (SELECT a op v) /\ qual_at p a x /\ Q = [a]
  | AJoin x op y => exists a b, kind_at p n N_JOIN (JOIN a op b) /\ qual_at p a x /\ qual_at p b y /\ Q = [a; b]
  end.

Definition resolve_cond (ts : list (block * option block)) (c : acond) : option acond :=
  match c with
  | ASelect x op v => x ← resolve ts x; Some (ASelect x op v)
  | AJoin x op y => x ← resolve ts x; y ← resolve ts y; Some (AJoin x op y)
  end.

Lemma cond_quals p n (c : acond) Q : cond_at p n c Q -> quals p Q.
Proof.
  destruct c as [x op v|x op y].
  - intros (a & _ & (r & b & H & _) & ->) m [->|?%not_elem_of_nil]%elem_of_cons; [by exists (QUALATTR r b)|done].
  - intros (a & b & _ & (r & d & H & _) & (r' & d' & H' & _) & ->) m [->|[->|?%not_elem_of_nil]%elem_of_cons]%elem_of_cons; [by exists (QUALATTR r d)|by exists (QUALATTR r' d')|done].
Qed.

Lemma replace_condition_run p tables ts n (c : acond) Q (fuel : nat) :
  tables_at p tables ts -> ts <> [] -> cond_at p n c Q -> NoDup Q -> (length ts < fuel)%nat ->
  exists q, frame p q Q /\
    match resolve_cond ts c with
    | Some c' => replace_alias_in_condition fuel tables n p = Some (Ok n, q) /\ cond_at q n c' Q
    | None => replace_alias_in_condition fuel tables n p = Some (Ok None, q)
    end.
Proof.
  intros Htab Hne Hc Hnd Hf. pose proof (cond_quals _ _ _ _ Hc) as HQ. destruct c as [x op v|x op y].
  - destruct Hc as (a & Hk & Ha & ->). pose proof Hk as (i & -> & _). unfold replace_alias_in_condition. rewrite (bind_Ok _ _ _ _ _ (deref_kind _ _ _ _ Hk)).
    cbn [kind nu]. rewrite decide_True by done. step. destruct (replace_alias_run p tables ts a x fuel Htab Hne Ha Hf) as (q & F & Hr). cbn [resolve_cond]. exists q. split; [done|].
    destruct (resolve ts x) as [x'|]; cbn [mbind option_bind]; [|by rewrite (bind_Ok _ _ _ _ _ Hr)]. destruct Hr as [Hr Hx']. rewrite (bind_Ok _ _ _ _ _ Hr).
    split; [done|]. exists a. split; [|done]. eapply frame_kind; [exact F|eapply quals_not; [exact HQ|by eexists|done]|done].
  - destruct Hc as (a & b & Hk & Ha & Hb & ->). pose proof Hk as (i & -> & _). unfold replace_alias_in_condition. rewrite (bind_Ok _ _ _ _ _ (deref_kind _ _ _ _ Hk)).
    cbn [kind nu]. rewrite decide_False by done. step. apply list.NoDup_cons in Hnd as [Hab _]. assert (b ∉ [a]) as Hba by (intros [->|?%not_elem_of_nil]%elem_of_cons; [apply Hab; by left|done]).
    destruct (replace_alias_run p tables ts a x fuel Htab Hne Ha Hf) as (q & F & Hr). cbn [resolve_cond].
    assert (frame p q [a; b]) as F' by (eapply frame_sub; [exact F|]; by intros m [->|?%not_elem_of_nil]%elem_of_cons; [left|]).
    destruct (resolve ts x) as [x'|]; cbn [mbind option_bind]; [|exists q; split; [done|]; by rewrite (bind_Ok _ _ _ _ _ Hr)]. destruct Hr as [Hr Hx']. rewrite (bind_Ok _ _ _ _ _ Hr).
    assert (quals p [a]) as Hqa by (intros m Hm; apply HQ; by apply elem_of_cons in Hm as [->|?%not_elem_of_nil]; [left|]).
    destruct (replace_alias_run q tables ts b y fuel) as (q2 & F2 & Hr2); [by eapply frame_tables|done|by eapply frame_qual; [exact F|..]|done|].
    assert (frame p q2 [a; b]) as F3 by (eapply frame_trans; [exact F'|]; eapply frame_sub; [exact F2|]; intros m [->|?%not_elem_of_nil]%elem_of_cons; [right; by left|done]).
    exists q2. split; [done|]. destruct (resolve ts y) as [y'|]; cbn [mbind option_bind]; [|by rewrite (bind_Ok _ _ _ _ _ Hr2)].
    destruct Hr2 as [Hr2 Hy']. rewrite (bind_Ok _ _ _ _ _ Hr2). split; [done|]. exists a, b. split; [eapply frame_kind; [exact F3|eapply quals_not; [exact HQ|by eexists|done]|done]|].
    split; [|done]. eapply frame_qual; [exact F2| |exact Hx']. intros [->|?%not_elem_of_nil]%elem_of_cons; [apply Hab; by left|done].
Qed.

(** ** Attributes and values *)

(** The attribute [n] is called [x] and has the value [v]. *)
Definition attrval_at p n (x : block) (v : nodep) : Prop := exists a, node_at p n (ATTRVAL a v) /\ str_at p a = Some x.

Lemma merge_loop_run p al vl qs xs vs (fuel : nat) :
  list_at p al qs -> list_at p vl vs -> Forall2 (fun n x => exists v, attrval_at p n x v) qs xs -> NoDup qs -> (length xs < fuel)%nat ->
  exists q r, merge_loop fuel al vl p = Some (Ok r, q) /\ frame p q qs /\ list_at q al qs /\
    if decide (length vs < length xs)%nat then r = None
    else exists v, r = Some v /\ list_at q v (drop (length xs) vs) /\
      forall (j : nat) n x v', qs !! j = Some n -> xs !! j = Some x -> vs !! j = Some v' -> attrval_at q n x v'.
Proof.
  intros Hal Hvl Hqs Hnd. revert p al vl vs fuel Hal Hvl Hqs Hnd. revert xs. induction qs as [|a qs IH]; intros xs p al vl vs [|fuel] Hal Hvl Hqs Hnd Hf; cbn in Hf; try lia.
  { apply Forall2_nil_inv_l in Hqs as ->. cbn in Hal. subst al. exists p, (Some vl). split; [done|]. split; [apply frame_refl|]. split; [done|].
    rewrite decide_False by (cbn; lia). exists vl. cbn. rewrite drop_0. done. }
  apply Forall2_cons_inv_l in Hqs as (x & xs' & (v0 & c0 & Hv0 & Hc0) & Hqs & ->). apply list.NoDup_cons in Hnd as [Hni Hnd]. cbn in Hf.
  pose proof Hal as Hal0. destruct Hal as (next & Hn & Hal). destruct (node_at_ptr _ _ _ Hn) as [i ->]. cbn [merge_loop]. destruct vs as [|v vs].
  { cbn in Hvl. subst vl. eexists _, _. split; [reflexivity|]. split; [apply frame_complain|]. split; [|done].
    eapply (frame_list p _ []); [apply frame_complain|intros m ?%not_elem_of_nil; done|exact Hal0]. }
  destruct Hvl as (vnext & Hvn & Hvl). destruct (node_at_ptr _ _ _ Hvn) as [j ->].
  rewrite (bind_Ok _ _ _ _ _ (get_LIST_run _ _ _ _ Hn)), (bind_Ok _ _ _ _ _ (get_LIST_run _ _ _ _ Hvn)), (bind_Ok _ _ _ _ _ (get_ATTRVAL_run _ _ _ _ Hv0)).
  destruct (set_u_run p a _ (ATTRVAL c0 v) Hv0) as (q & Hq & F & Ha). rewrite (bind_Ok _ _ _ _ _ Hq).
  assert (quals p [a]) as Hqa by (intros m [->|?%not_elem_of_nil]%elem_of_cons; [by exists (ATTRVAL c0 v0)|done]).
  assert (Forall2 (fun n x => exists v, attrval_at q n x v) qs xs') as Hqs'.
  { apply Forall2_same_length_lookup_2; [by apply Forall2_length in Hqs|]. intros k m z Hk Hz. destruct (Forall2_lookup_lr _ _ _ _ _ _ Hqs Hk Hz) as (v' & c' & H1 & H2).
    exists v', c'. rewrite (frame_str _ _ _ _ F). split; [|done]. eapply frame_node; [exact F| |exact H1]. intros [->|?%not_elem_of_nil]%elem_of_cons; [|done].
    apply Hni. by eapply list_elem_of_lookup_2. }
  destruct (IH xs' q next vnext vs fuel) as (q2 & r & Hr & F2 & Hl2 & Hres); [by eapply frame_list|by eapply frame_list|done|done|lia|].
  assert (quals q qs) as HQ by (intros m Hm; apply list_elem_of_lookup in Hm as [k Hk]; destruct (Forall2_lookup_l _ _ _ _ _ Hqs' Hk) as (z & _ & v' & c' & H1 & _); by exists (ATTRVAL c' v')).
  exists q2, r. split; [done|]. split; [eapply frame_trans; (eapply frame_sub; [eassumption|])|].
  { by intros m [->|?%not_elem_of_nil]%elem_of_cons; [left|]. }
  { intros m. by right. }
  assert (node_at q (Some i) (LIST a next)) as Hn' by (eapply frame_node; [exact F|by eapply quals_not|done]).
  split; [exists next; split; [eapply frame_node; [exact F2|by eapply quals_not|done]|done]|]. cbn [length]. destruct (decide (length vs < length xs')%nat) as [Hd|Hd].
  { by rewrite decide_True by lia. }
  rewrite decide_False by lia. destruct Hres as (v' & -> & Hv' & Hall). exists v'. split; [done|]. split; [done|].
  intros [|k] n y z; cbn; [|apply Hall]. intros [= <-] [= <-] [= <-]. exists c0. rewrite (frame_str _ _ _ _ F2), (frame_str _ _ _ _ F). split; [by eapply frame_node|done].
Qed.

(** Lists of different lengths are refused. *)
Lemma merge_run p al vl qs xs vs (fuel : nat) :
  list_at p al qs -> list_at p vl vs -> Forall2 (fun n x => exists v, attrval_at p n x v) qs xs -> NoDup qs -> (length xs < fuel)%nat ->
  exists q, frame p q qs /\ list_at q al qs /\
    if decide (length vs = length xs) then
      merge_attr_value_list fuel al vl p = Some (Ok al, q) /\
      forall (j : nat) n x v, qs !! j = Some n -> xs !! j = Some x -> vs !! j = Some v -> attrval_at q n x v
    else merge_attr_value_list fuel al vl p = Some (Ok None, q).
Proof.
  intros Hal Hvl Hqs Hnd Hf. destruct (merge_loop_run p al vl qs xs vs fuel Hal Hvl Hqs Hnd Hf) as (q & r & Hr & F & Hl & Hres). unfold merge_attr_value_list. rewrite (bind_Ok _ _ _ _ _ Hr).
  case_decide as Hlt. { subst r. exists q. rewrite decide_False by lia. done. }
  destruct Hres as (v & -> & Hv & Hall). destruct (decide (length vs = length xs)) as [Heq|Hne].
  - rewrite drop_ge in Hv by lia. cbn in Hv. subst v. exists q. done.
  - destruct (drop (length xs) vs) as [|y ys] eqn:Hd; [apply (f_equal length) in Hd; rewrite length_drop in Hd; cbn in Hd; lia|].
    destruct Hv as (next & [j ->]%node_at_ptr & _). eexists (complain _ q). split; [destruct F; by split|]. split; [|step; reflexivity].
    eapply (frame_list q _ []); [apply frame_complain|intros m ?%not_elem_of_nil; done|done].
Qed.

End Trees.

(** ** The [select] statement *)

Section Select.
Implicit Types (p q : Parser) (n : nodep).

(** The [where] clause, if there is one. *)
Definition where_at p n (c : option acond) (Q : list nodep) : Prop :=
  match c with None => n = None /\ Q = [] | Some c => cond_at p n c Q end.

Definition resolve_where (ts : list (block * option block)) (c : option acond) : option (option acond) :=
  match c with None => Some None | Some c => Some <$> resolve_cond ts c end.

Lemma where_quals p n c Q : where_at p n c Q -> quals p Q.
Proof. destruct c as [c|]; [apply cond_quals|]. intros [_ ->] m ?%not_elem_of_nil. done. Qed.

Lemma frame_where p q Q n c Q' : frame p q Q -> quals p Q -> (forall m, m ∈ Q' -> m ∉ Q) -> where_at p n c Q' -> where_at q n c Q'.
Proof.
  intros F HQ Hd. destruct c as [[x op v|x op y]|]; cbn; [| |done].
  - intros (a & Hk & Ha & ->). exists a. split; [eapply frame_kind; [exact F|eapply quals_not; [exact HQ|by eexists|done]|done]|].
    split; [eapply frame_qual; [exact F|apply Hd; by left|done]|done].
  - intros (a & b & Hk & Ha & Hb & ->). exists a, b. split; [eapply frame_kind; [exact F|eapply quals_not; [exact HQ|by eexists|done]|done]|].
    split; [eapply frame_qual; [exact F|apply Hd; by left|done]|]. split; [eapply frame_qual; [exact F|apply Hd; right; by left|done]|done].
Qed.

Lemma grown_where p q n c Q : grown p q -> where_at p n c Q -> where_at q n c Q.
Proof.
  intros G. destruct c as [[x op v|x op y]|]; cbn; [| |done].
  - intros (a & Hk & Ha & ->). exists a. split; [by eapply grown_kind|]. split; [by eapply grown_qual|done].
  - intros (a & b & Hk & Ha & Hb & ->). exists a, b. split; [by eapply grown_kind|]. split; [by eapply grown_qual|]. split; [by eapply grown_qual|done].
Qed.

Lemma replace_where_run p tables ts n c Q (fuel : nat) :
  tables_at p tables ts -> ts <> [] -> where_at p n c Q -> NoDup Q -> (length ts < fuel)%nat ->
  exists q, frame p q Q /\
    match resolve_where ts c with
    | Some c' => replace_alias_in_condition fuel tables n p = Some (Ok n, q) /\ where_at q n c' Q
    | None => replace_alias_in_condition fuel tables n p = Some (Ok None, q) /\ exists i, n = Some i
    end.
Proof.
  intros Htab Hne Hw Hnd Hf. destruct c as [c|]; cbn in Hw |- *.
  - destruct (replace_condition_run p tables ts n c Q fuel Htab Hne Hw Hnd Hf) as (q & F & Hr). exists q. split; [done|].
    destruct (resolve_cond ts c) as [c'|]; cbn; [done|]. split; [done|]. destruct c as [x op v|x op y]; [destruct Hw as (a & (i & -> & _) & _)|destruct Hw as (a & b & (i & -> & _) & _)]; by exists i.
  - destruct Hw as [-> ->]. exists p. split; [apply frame_refl|done].
Qed.

(** C16.  The [select] action of the parser refines name resolution on
    abstract queries: it returns a query node with the given attributes and
    condition in which every qualifier is the relation it stands for, a name
    or an alias of the [from] clause, or the only relation there when there
    is no qualifier; and no query when one cannot be resolved.  The program
    ends when the pool of nodes is used up. *)
Theorem query_action_resolves p (tables attrs cond : nodep) (into : charp) ts qs xs (c : option acond) Q (fuel : nat) :
  nodes_ok p -> tables_at p tables ts -> ts <> [] -> list_at p attrs qs -> Forall2 (qual_at p) qs xs -> xs <> [] ->
  where_at p cond c Q -> NoDup (qs ++ Q) -> (length ts + length xs < fuel)%nat ->
  match mapM (resolve ts) xs, resolve_where ts c with
  | Some ys, Some c' =>
      if decide (nodeptr p < MAXNODE) then
        exists q n, query_action fuel attrs into tables cond p = Some (Ok n, q) /\ nodes_ok q /\
          kind_at q n N_QUERY (QUERY into attrs cond) /\ quals_at q attrs ys /\ where_at q cond c' Q
      else exists q, query_action fuel attrs into tables cond p = Some (Err "Out of Memory !"%string, q)
  | _, _ => exists q, query_action fuel attrs into tables cond p = Some (Ok None, q)
  end.
Proof.
  intros Hn Htab Hne Hl Hq Hx Hw Hnd Hf. apply list.NoDup_app in Hnd as (Hnd1 & Hdis & Hnd2). unfold query_action, replace_alias_in_qualattr_list.
  destruct (qualattr_loop_run p tables ts attrs qs xs fuel Htab Hne Hl Hq Hnd1 Hf) as (q & F & Hr). rewrite bind_assoc.
  destruct (mapM (resolve ts) xs) as [ys|]; [|exists q; by rewrite (bind_Ok _ _ _ _ _ Hr)].
  destruct Hr as (Hr & Hl' & Hq'). rewrite (bind_Ok _ _ _ _ _ Hr). step. pose proof (quals_of _ _ _ Hq) as HQ. destruct Hq as [|a x qs xs Ha Hq]; [done|]. pose proof Hl' as (next & [i ->]%node_at_ptr & _).
  destruct (replace_where_run q tables ts cond c Q fuel) as (q2 & F2 & Hr2); [by eapply frame_tables|done|eapply frame_where; [exact F|exact HQ| |done]|done|lia|].
  { intros m Hm Hin. by apply (Hdis m Hin). }
  destruct (resolve_where ts c) as [c'|]; [|destruct Hr2 as [Hr2 [j ->]]; exists q2; by rewrite (bind_Ok _ _ _ _ _ Hr2)]. destruct Hr2 as [Hr2 Hw2]. rewrite (bind_Ok _ _ _ _ _ Hr2).
  assert (nodes_ok q2) as Hn2 by (destruct Hn as [N1 N2], F as [F1 F3 F4 F5 F6], F2 as [G1 G3 G4 G5 G6]; split; [by rewrite G5, F5|by rewrite G4, F4]).
  assert (nodeptr q2 = nodeptr p) as Hptr by (by rewrite (fr_nodeptr _ _ _ F2), (fr_nodeptr _ _ _ F)).
  assert (quals_at q2 (Some i) ys) as Hqs.
  { assert (quals q Q) as HQ2 by (eapply where_quals, (frame_where p q); [exact F|exact HQ| |exact Hw]; intros m Hm Hin; by apply (Hdis m Hin)).
    exists (a :: qs). split; [eapply frame_list; [exact F2|exact HQ2|exact Hl']|]. apply Forall2_same_length_lookup_2; [by apply Forall2_length in Hq'|].
    intros k m z Hk Hz. eapply frame_qual; [exact F2| |by eapply (Forall2_lookup_lr _ _ _ _ _ _ Hq')]. apply Hdis. by eapply list_elem_of_lookup_2. }
  pose proof (node_run q2 N_QUERY (QUERY into (Some i) cond) Hn2) as Hnode. rewrite Hptr in Hnode. fold (query_node into (Some i) cond) in Hnode.
  assert (match cond, cond with None, Some _ => ret None | _, _ => query_node into (Some i) cond end = query_node into (Some i) cond) as -> by (by destruct cond).
  case_decide; [|by exists q2]. destruct Hnode as (q3 & n & H1 & H2 & H3 & H4). exists q3, n. split; [done|]. split; [done|]. split; [done|].
  split; [by eapply grown_quals|by eapply grown_where].
Qed.

End Select.

(** [select s.name from Sailors s where age > 30]: the nodes in the order the
    parser makes them. *)
Definition demo_statement : PARSE (nodep * nodep * nodep) :=
  let! s1 := mk_string (c_str "s") 1 in
  let! name := mk_string (c_str "name") 4 in
  let! q1 := qualattr_node s1 name in
  let! attrs := list_node q1 in
  let! rel := mk_string (c_str "Sailors") 7 in
  let! s2 := mk_string (c_str "s") 1 in
  let! t := alias_node rel s2 in
  let! tables := list_node t in
  let! age := mk_string (c_str "age") 3 in
  let! q2 := qualattr_node None age in
  let! v := int_node 30 in
  let! cond := select_node q2 GT v in
  ret (attrs, tables, cond).

Definition demo_parser : Parser := match demo_statement Parser_init with Some (_, p) => p | None => Parser_init end.

#[local] Opaque demo_parser.

Lemma demo_kinds :
  kind_at demo_parser (Some 0) N_QUALATTR (QUALATTR (Some 0) (Some 2)) /\ kind_at demo_parser (Some 1) N_LIST (LIST (Some 0) None) /\
  kind_at demo_parser (Some 2) N_ALIAS (ALIAS (Some 7) (Some 15)) /\ kind_at demo_parser (Some 3) N_LIST (LIST (Some 2) None) /\
  kind_at demo_parser (Some 4) N_QUALATTR (QUALATTR None (Some 17)) /\ kind_at demo_parser (Some 6) N_SELECT (SELECT (Some 4) GT (Some 5)).
Proof. do 5 (split; [eexists; split; [reflexivity|split; by vm_compute]|]). eexists; split; [reflexivity|split; by vm_compute]. Qed.

Lemma demo_strings :
  str_at demo_parser (Some 0) = Some (chars "s") /\ str_at demo_parser (Some 2) = Some (chars "name") /\ str_at demo_parser (Some 7) = Some (chars "Sailors") /\
  str_at demo_parser (Some 15) = Some (chars "s") /\ str_at demo_parser (Some 17) = Some (chars "age").
Proof. repeat split; by vm_compute. Qed.

Lemma demo_nodes : nodes_ok demo_parser.
Proof. split; vm_compute; [reflexivity|split; discriminate]. Qed.

Lemma query_action_resolves_witness :
  exists q n, query_action 10 (Some 1) None (Some 3) (Some 6) demo_parser = Some (Ok n, q) /\
    kind_at q n N_QUERY (QUERY None (Some 1) (Some 6)) /\ quals_at q (Some 1) [(Some (chars "Sailors"), chars "name")] /\
    where_at q (Some 6) (Some (ASelect (Some (chars "Sailors"), chars "age") GT (Some 5))) [Some 4].
Proof.
  destruct demo_kinds as (K0 & K1 & K2 & K3 & K4 & K6). destruct demo_strings as (S0 & S2 & S7 & S15 & S17).
  pose proof (query_action_resolves demo_parser (Some 3) (Some 1) (Some 6) None [(chars "Sailors", Some (chars "s"))] [Some 0] [(Some (chars "s"), chars "name")]
    (Some (ASelect (None, chars "age") GT (Some 5))) [Some 4] 10) as H.
  assert (mapM (resolve [(chars "Sailors", Some (chars "s"))]) [(Some (chars "s"), chars "name")] = Some [(Some (chars "Sailors"), chars "name")]) as E1 by reflexivity.
  assert (resolve_where [(chars "Sailors", Some (chars "s"))] (Some (ASelect (None, chars "age") GT (Some 5))) =
    Some (Some (ASelect (Some (chars "Sailors"), chars "age") GT (Some 5)))) as E2 by reflexivity.
  rewrite E1, E2, decide_True in H by (by vm_compute). destruct H as (q & n & H1 & _ & H2 & H3 & H4).
  - exact demo_nodes.
  - exists [Some 2]. split; [exists None; split; [exists N_LIST; exact K3|reflexivity]|]. constructor; [|constructor]. exists (Some 7), (Some 15).
    split; [exists N_ALIAS; exact K2|]. exact (conj S7 S15).
  - discriminate.
  - exists None. split; [exists N_LIST; exact K1|reflexivity].
  - constructor; [|constructor]. exists (Some 0), (Some 2). split; [exists N_QUALATTR; exact K0|]. exact (conj S0 S2).
  - discriminate.
  - exists (Some 4). split; [exact K6|]. split; [|reflexivity]. exists None, (Some 17). split; [exists N_QUALATTR; exact K4|]. exact (conj eq_refl S17).
  - by apply (bool_decide_unpack (NoDup [Some 0; Some 4])).
  - cbn. lia.
  - exists q, n. exact (conj H1 (conj H2 (conj H3 H4))).
Defined.
