(* ===== verification/Interp.v ===== *)
(** * The interpreter of parse trees (parser/interp.C)

    [interp] turns a parse tree into calls of the query layer, of the
    catalogs and of the utilities.  The tree is the state [p] of the parser;
    [interp] only reads it.  The static arrays [names], [qual_attrs],
    [attr_descrs] and [ins_attrs] are filled before each use and appear as
    the lists they then hold; [attrList], [attr1], [attr2] and the counter
    keep their contents from one statement to the next.  The traces the query
    layer writes to the standard output are left out. *)

From S2P Require Export Load Nodes Program.

(** ** State *)

Record Shell : Set := mkShell {
  sh_out : block;                (* standard output *)
  sh_err : block;                (* standard error *)
  sh_attrList : list attrInfo;   (* [attrList], [MAXATTRS] elements *)
  sh_attr1 : attrInfo;
  sh_attr2 : attrInfo;
  sh_counter : Z;                (* the static [counter] of [interp] *)
}.

Definition set_out (o : block) (s : Shell) : Shell :=
  mkShell o (sh_err s) (sh_attrList s) (sh_attr1 s) (sh_attr2 s) (sh_counter s).
Definition add_out (o : block) (s : Shell) : Shell := set_out (sh_out s ++ o) s.
Definition add_err (e : block) (s : Shell) : Shell :=
  mkShell (sh_out s) (sh_err s ++ e) (sh_attrList s) (sh_attr1 s) (sh_attr2 s) (sh_counter s).
Definition set_attrList (l : list attrInfo) (s : Shell) : Shell :=
  mkShell (sh_out s) (sh_err s) l (sh_attr1 s) (sh_attr2 s) (sh_counter s).
Definition set_attr1 (a : attrInfo) (s : Shell) : Shell :=
  mkShell (sh_out s) (sh_err s) (sh_attrList s) a (sh_attr2 s) (sh_counter s).
Definition set_attr2 (a : attrInfo) (s : Shell) : Shell :=
  mkShell (sh_out s) (sh_err s) (sh_attrList s) (sh_attr1 s) a (sh_counter s).
Definition set_counter (c : Z) (s : Shell) : Shell :=
  mkShell (sh_out s) (sh_err s) (sh_attrList s) (sh_attr1 s) (sh_attr2 s) c.

Abbreviation SHELL := (CODE (World * Shell)).

(** A function that prints. *)
Definition printing {A} (m : CODE (World * block) A) : SHELL A :=
  zoom (fun '(w, s) => (w, sh_out s)) (fun '(w, o) '(_, s) => (w, set_out o s)) m.

(** [error.print(status)]. *)
Definition error_text (st : Status) : block :=
  chars "Error: " ++ match Error_print st with Some m => chars m | None => chars "undefined error status: " ++ fmt_d (Status_code st) end ++ newline.
Definition report (st : Status) : SHELL unit := assign (add_err (error_text st)).

(** [if (errval != OK) error.print(errval)]. *)
Definition reporting {A} (m : SHELL A) : SHELL unit :=
  let! r := attempt m in
  match r with Ok _ => ret tt | Err st => report st end.

(** ** Error codes *)

Definition E_OK : Z := 0.
Definition E_INCOMPATIBLE : Z := -1.
Definition E_TOOMANYATTRS : Z := -2.
Definition E_NOLENGTH : Z := -3.
Definition E_INVINTSIZE : Z := -4.
Definition E_INVFLOATSIZE : Z := -5.
Definition E_INVFORMATSTRING : Z := -6.
Definition E_INVSTRLEN : Z := -7.
Definition E_DUPLICATEATTR : Z := -8.
Definition E_TOOLONG : Z := -9.
Definition E_STRINGTOOLONG : Z := -10.

Definition MAXATTRS : nat := 40.
Definition MAXSTRINGLEN : Z := 255.

Definition errval_text (errval : Z) : block :=
  if decide (errval = E_OK) then chars "no error"
  else if decide (errval = E_INCOMPATIBLE) then chars "attributes must be from selected relation(s)"
  else if decide (errval = E_TOOMANYATTRS) then chars "too many attributes"
  else if decide (errval = E_NOLENGTH) then chars "length must be specified for STRING attribute"
  else if decide (errval = E_INVINTSIZE) then chars "invalid size for INTEGER attribute (should be " ++ fmt_d sizeof_int ++ chars ")"
  else if decide (errval = E_INVFLOATSIZE) then chars "invalid size for FLOAT attribute (should be " ++ fmt_d sizeof_float ++ chars ")"
  else if decide (errval = E_INVFORMATSTRING) then chars "invalid format string"
  else if decide (errval = E_INVSTRLEN) then chars "invalid length for string attribute"
  else if decide (errval = E_DUPLICATEATTR) then chars "duplicated attribute name"
  else if decide (errval = E_TOOLONG) then chars "relation name or attribute name too long"
  else if decide (errval = E_STRINGTOOLONG) then chars "string attribute too long"
  else chars "unrecognized errval: " ++ fmt_d errval.

Definition print_error (errmsg : string) (errval : Z) : SHELL unit :=
  assign (add_err (chars errmsg ++ chars ": " ++ errval_text errval ++ newline)).

(** The integer of an enumerator of [Datatype] and back. *)
Definition type_code (t : Datatype) : Z := match t with STRING => 0 | INTEGER => 1 | FLOAT => 2 end.

(** A format: ['i' - 128], ['f' - 128], or the length of a string. *)
Definition parse_format_string (format : Z) : res Z (Datatype * Z) :=
  if decide (format = 105 - 128) then Ok (INTEGER, sizeof_int)
  else if decide (format = 102 - 128) then Ok (FLOAT, sizeof_float)
  else if decide (format <= 255 /\ format >= 1) then Ok (STRING, format)
  else Err E_INVFORMATSTRING.

(** ** Reading the tree *)

Section Tree.
Variable p : Parser.

Definition u_of (n : nodep) : option node_u := i ← n; nu <$> zget (nodepool p) i.
Definition LIST_of (n : nodep) : option (nodep * nodep) :=
  u ← u_of n; match u with LIST self next => Some (self, next) | _ => None end.
Definition QUALATTR_of (n : nodep) : option (charp * charp) :=
  u ← u_of n; match u with QUALATTR r a => Some (r, a) | _ => None end.

(** [strcmp] of two strings of the tree, and [string(s)]. *)
Definition compare_at (a b : charp) : option Z := x ← chars_at p a; y ← chars_at p b; strcmp x y.
Definition string_at (s : charp) : option string := b ← chars_at p s; name_string b.

Definition type_of (n : nodep) : option Datatype := u ← u_of n; match u with VALUE t _ _ => Some t | _ => None end.
Definition length_of (n : nodep) : option Z := u ← u_of n; match u with VALUE _ len _ => Some len | _ => None end.

(** What [sprintf] writes into [value], which has room for 255 characters. *)
Definition value_text (n : nodep) : option block :=
  u ← u_of n;
  match u with
  | VALUE INTEGER _ (ival i) => Some (fmt_d i)
  | VALUE FLOAT _ (rval bits) => Some (fmt_f 6 bits)
  | VALUE STRING _ (sval s) => str_at p s
  | _ => None
  end.

Definition value_of (n : nodep) : option block :=
  s ← value_text n;
  if decide (Z.of_nat (length s) + 1 <= 255) then Some (s ++ [x00]) else None.

(** The loops stop at [MAXATTRS] elements: [k] is how many may follow, and a
    list of exactly [MAXATTRS] is too long.  The names, and the relation. *)
Fixpoint attrnames_loop (k : nat) (lst : nodep) (relname : charp) (names : list charp) : option (res Z (list charp * charp)) :=
  match k with
  | O => Some (Err E_TOOMANYATTRS)
  | S k =>
      match lst with
      | None => Some (Ok (names, relname))
      | Some _ =>
          '(self, next) ← LIST_of lst;
          '(r, a) ← QUALATTR_of self;
          match relname with
          | None => attrnames_loop k next r (names ++ [a])
          | Some _ =>
              c ← compare_at relname r;
              if decide (c <> 0) then Some (Err E_INCOMPATIBLE) else attrnames_loop k next relname (names ++ [a])
          end
      end
  end.

Definition mk_attrnames (lst : nodep) (relname : charp) := attrnames_loop MAXATTRS lst relname [].

Fixpoint qual_attrs_loop (k : nat) (lst : nodep) (relname1 relname2 : charp) (attrs : list (charp * charp)) :
    option (res Z (list (charp * charp))) :=
  match k with
  | O => Some (Err E_TOOMANYATTRS)
  | S k =>
      match lst with
      | None => Some (Ok attrs)
      | Some _ =>
          '(self, next) ← LIST_of lst;
          '(r, a) ← QUALATTR_of self;
          c ← compare_at r relname1;
          c' ← (if decide (c <> 0) then compare_at r relname2 else Some 0);
          if decide (c' <> 0) then Some (Err E_INCOMPATIBLE)
          else qual_attrs_loop k next relname1 relname2 (attrs ++ [(r, a)])
      end
  end.

Definition mk_qual_attrs (lst : nodep) (relname1 relname2 : charp) := qual_attrs_loop MAXATTRS lst relname1 relname2 [].

Fixpoint attr_descrs_loop (k : nat) (lst : nodep) (descrs : list (charp * Datatype * Z)) :
    option (res Z (list (charp * Datatype * Z))) :=
  match k with
  | O => Some (Err E_TOOMANYATTRS)
  | S k =>
      match lst with
      | None => Some (Ok descrs)
      | Some _ =>
          '(self, next) ← LIST_of lst;
          u ← u_of self;
          '(name, format) ← match u with ATTRTYPE a f => Some (a, f) | _ => None end;
          match parse_format_string format with
          | Err e => Some (Err e)
          | Ok (type, len) => attr_descrs_loop k next (descrs ++ [(name, type, len)])
          end
      end
  end.

Definition mk_attr_descrs (lst : nodep) := attr_descrs_loop MAXATTRS lst [].

Fixpoint ins_attrs_loop (k : nat) (lst : nodep) (attrs : list (charp * Datatype * block)) :
    option (res Z (list (charp * Datatype * block))) :=
  match k with
  | O => Some (Err E_TOOMANYATTRS)
  | S k =>
      match lst with
      | None => Some (Ok attrs)
      | Some _ =>
          '(self, next) ← LIST_of lst;
          u ← u_of self;
          '(name, value) ← match u with ATTRVAL a v => Some (a, v) | _ => None end;
          type ← type_of value;
          len ← length_of value;
          if decide (type = STRING /\ len > MAXSTRINGLEN) then Some (Err E_STRINGTOOLONG)
          else v ← value_of value; ins_attrs_loop k next (attrs ++ [(name, type, v)])
      end
  end.

Definition mk_ins_attrs (lst : nodep) := ins_attrs_loop MAXATTRS lst [].

(** ** Echoing a query *)

Definition print_qualattr (n : nodep) : option block :=
  '(r, a) ← QUALATTR_of n; x ← str_at p r; y ← str_at p a; Some (x ++ chars "." ++ y).

Definition print_op (op : Operator) : block :=
  match op with LT => chars " <" | LTE => chars " <=" | EQ => chars " =" | GT => chars " >" | GTE => chars " >=" | NE => chars " <>" end.

Definition quote : block := ["034"%byte].

Definition print_val (n : nodep) : option block :=
  u ← u_of n;
  match u with
  | VALUE INTEGER _ (ival i) => Some (chars " " ++ fmt_d i)
  | VALUE FLOAT _ (rval bits) => Some (chars " " ++ fmt_f 6 bits)
  | VALUE STRING _ (sval s) => x ← str_at p s; Some (chars " " ++ quote ++ x ++ quote)
  | _ => None
  end.

(** A list with commas between its elements; [fuel] bounds its length. *)
Fixpoint print_list (fuel : nat) (f : nodep -> option block) (n : nodep) : option block :=
  match fuel with
  | O => None
  | S fuel =>
      match n with
      | None => Some []
      | Some _ =>
          '(self, next) ← LIST_of n;
          x ← f self;
          y ← print_list fuel f next;
          Some (x ++ match next with Some _ => chars ", " | None => [] end ++ y)
      end
  end.

Definition print_attrnames (fuel : nat) (n : nodep) : option block := print_list fuel print_qualattr n.

Definition print_attrval (n : nodep) : option block :=
  u ← u_of n;
  '(a, v) ← match u with ATTRVAL a v => Some (a, v) | _ => None end;
  x ← str_at p a; y ← print_val v; Some (x ++ chars " =" ++ y).
Definition print_attrvals (fuel : nat) (n : nodep) : option block := print_list fuel print_attrval n.

Definition print_attrdescr (n : nodep) : option block :=
  u ← u_of n;
  '(a, format) ← match u with ATTRTYPE a f => Some (a, f) | _ => None end;
  x ← str_at p a;
  Some (x ++ chars " = " ++
    (if decide (format = 105 - 128) then chars "int"
     else if decide (format = 102 - 128) then chars "real"
     else if decide (format <= 255 /\ format >= 1) then chars "char(" ++ fmt_d format ++ chars ")" else [])).
Definition print_attrdescrs (fuel : nat) (n : nodep) : option block := print_list fuel print_attrdescr n.

Definition print_primattr (n : nodep) : option block :=
  match n with
  | None => Some []
  | Some _ =>
      u ← u_of n;
      '(a, nbuckets) ← match u with PRIMATTR a b => Some (a, b) | _ => None end;
      x ← str_at p a; Some (chars " primary " ++ x ++ chars " numbuckets = " ++ fmt_d nbuckets)
  end.

Definition print_qual (n : nodep) : option block :=
  match n with
  | None => Some []
  | Some i =>
      x ← zget (nodepool p) i;
      if decide (kind x = N_SELECT) then
        '(a, op, v) ← match nu x with SELECT a op v => Some (a, op, v) | _ => None end;
        s ← print_qualattr a; t ← print_val v;
        Some (chars " where " ++ s ++ print_op op ++ t)
      else
        '(a, op, b) ← match nu x with JOIN a op b => Some (a, op, b) | _ => None end;
        s ← print_qualattr a; t ← print_qualattr b;
        Some (chars " where " ++ s ++ print_op op ++ chars " " ++ t)
  end.

(** Printing a [NULL] string is undefined. *)
Definition echo_query (fuel : nat) (n : nodep) : option block :=
  i ← n;
  x ← zget (nodepool p) i;
  match kind x, nu x with
  | N_QUERY, QUERY relname attrlist qual =>
      into ← match relname with Some _ => r ← str_at p relname; Some (chars " into " ++ r) | None => Some [] end;
      a ← print_attrnames fuel attrlist; q ← print_qual qual;
      Some (chars "select" ++ into ++ chars " (" ++ a ++ chars ")" ++ q ++ chars ";" ++ newline)
  | N_INSERT, INSERT relname attrlist =>
      r ← str_at p relname; a ← print_attrvals fuel attrlist;
      Some (chars "insert " ++ r ++ chars " (" ++ a ++ chars ");" ++ newline)
  | N_DELETE, DELETE relname qual =>
      r ← str_at p relname; q ← print_qual qual; Some (chars "delete " ++ r ++ q ++ chars ";" ++ newline)
  | N_CREATE, CREATE relname attrlist primattr =>
      r ← str_at p relname; a ← print_attrdescrs fuel attrlist; q ← print_primattr primattr;
      Some (chars "create " ++ r ++ chars " (" ++ a ++ chars ")" ++ q ++ chars ";" ++ newline)
  | N_DESTROY, DESTROY relname => r ← str_at p relname; Some (chars "destroy " ++ r ++ chars ";" ++ newline)
  | N_BUILD, BUILD relname attrname _ =>
      r ← str_at p relname; a ← str_at p attrname; Some (chars "buildindex " ++ r ++ chars "(" ++ a ++ chars ");" ++ newline)
  | N_REBUILD, BUILD relname attrname nbuckets =>
      r ← str_at p relname; a ← str_at p attrname;
      Some (chars "rebuildindex " ++ r ++ chars "(" ++ a ++ chars ") numbuckets = " ++ fmt_d nbuckets ++ chars ";" ++ newline)
  | N_DROP, DROP relname attrname =>
      r ← str_at p relname;
      a ← match attrname with Some _ => a ← str_at p attrname; Some (chars "(" ++ a ++ chars ")") | None => Some [] end;
      Some (chars "dropindex " ++ r ++ a ++ chars ";" ++ newline)
  | N_LOAD, LOAD relname filename =>
      r ← str_at p relname; f ← str_at p filename; Some (chars "load " ++ r ++ chars "(" ++ quote ++ f ++ quote ++ chars ");" ++ newline)
  | N_PRINT, PRINT relname => r ← str_at p relname; Some (chars "print " ++ r ++ chars ";" ++ newline)
  | N_HELP, HELP relname =>
      r ← match relname with Some _ => r ← str_at p relname; Some (chars " " ++ r) | None => Some [] end;
      Some (chars "help" ++ r ++ chars ";" ++ newline)
  | _, _ => None
  end.

End Tree.

(** ** Statements *)

Section Statements.

(** Whether the standard input is a terminal; the join method; the contents
    of arrays and structs before they are assigned; freed memory; and what
    [sprintf] leaves in an array when it also reads from it, which C does not
    define. *)
Variables (tty : bool) (JoinMethod : JoinType) (stack : nat -> byte) (freed : HeapFileScan -> option HeapFileScan).
Variables (rd0 : RelDesc) (ad0 : AttrDesc) (info0 : attrInfo) (sprintf_overlap : block -> Z -> option block).
Variables (n fuel : nat) (p : Parser).

(** The assignments to an element of [attrList]. *)
Definition put_attr (a : attrInfo) (rel name : charp) (type len : Z) (value : option block) : option attrInfo :=
  x ← chars_at p rel; r ← strcpy (ai_relName a) x;
  y ← chars_at p name; m ← strcpy (ai_attrName a) y;
  Some (mkAttrInfo r m type len value).

(** The loop over [acnt]. *)
Fixpoint put_attrs (l : list attrInfo) (es : list (charp * charp * Z * Z * option block)) : option (list attrInfo) :=
  match es, l with
  | [], _ => Some l
  | (rel, name, type, len, value) :: es, a :: l =>
      a ← put_attr a rel name type len value; l ← put_attrs l es; Some (a :: l)
  | _ :: _, [] => None
  end.

Definition fill_attrList (es : list (charp * charp * Z * Z * option block)) : SHELL (list attrInfo) :=
  let! l := member (fun s => Some (sh_attrList s)) in
  let! l := defined (put_attrs l es) in
  assign (set_attrList l) ;;;
  ret l.

(** [attrCat->getInfo(attrList[i].relName, attrList[i].attrName, attrDesc)]. *)
Definition attr_info (a : attrInfo) : SHELL AttrDesc :=
  let! rel := defined (name_string (ai_relName a)) in
  let! name := defined (name_string (ai_attrName a)) in
  io (AttrCatalog_getInfo n fuel rel name).

(** Whether one of the names so far is [name]. *)
Fixpoint name_taken (infos : list attrInfo) (name : block) : option bool :=
  match infos with
  | [] => Some false
  | i :: infos => c ← strcmp (ai_attrName i) name; if decide (c = 0) then Some true else name_taken infos name
  end.

(** [createAttrInfo]: the attributes of a new result relation.  Only a join
    renames an attribute whose name is taken. *)
Fixpoint create_infos (rename : bool) (resultName : string) (attrs : list attrInfo) (infos : list attrInfo) : SHELL (list attrInfo) :=
  match attrs with
  | [] => ret infos
  | a :: attrs =>
      let! rel := defined (strcpy (ai_relName info0) (c_str resultName)) in
      let! taken := defined (if rename then name_taken infos (ai_attrName a) else Some false) in
      let! name := defined (strcpy (ai_attrName info0) (ai_attrName a)) in
      let! name := (if taken : bool then
                      let! c := member (fun s => Some (sh_counter s)) in
                      let! name := defined (sprintf_overlap name c) in
                      assign (set_counter (s32 (c + 1))) ;;;
                      ret name
                    else ret name) in
      let! d := attr_info a in
      create_infos rename resultName attrs (infos ++ [mkAttrInfo rel name (ad_attrType d) (ad_attrLen d) (ai_attrValue info0)])
  end.

(** The types of an existing result relation must match. *)
Fixpoint check_types (attrs : list attrInfo) (descs : list AttrDesc) : SHELL unit :=
  match attrs, descs with
  | [], _ => ret tt
  | a :: attrs, d' :: descs =>
      let! d := attr_info a in
      if decide (ad_attrType d <> ad_attrType d' \/ ad_attrLen d <> ad_attrLen d') then throw ATTRTYPEMISMATCH
      else check_types attrs descs
  | _ :: _, [] => undef
  end.

(** [existing]: the attributes of the result relation when there is one. *)
Definition prepare_result (rename : bool) (resultName : string) (existing : option (list AttrDesc)) (attrs : list attrInfo) : SHELL unit :=
  match existing with
  | None =>
      let! infos := create_infos rename resultName attrs [] in
      io (RelCatalog_createRel rd0 ad0 fuel resultName (Z.of_nat (length attrs)) infos)
  | Some descs =>
      if decide (length attrs <> length descs) then throw ATTRTYPEMISMATCH else check_types attrs descs
  end.

Definition TMP_RESULT : string := "Tmp_Minirel_Result".

(** The name of the result relation, and its attributes when it exists. *)
Definition query_target (relname : charp) : SHELL (string * option (list AttrDesc)) :=
  match relname with
  | Some _ =>
      let! resultName := defined (string_at p relname) in
      let! r := attempt (io (AttrCatalog_getRelInfo n fuel resultName)) in
      match r with
      | Ok attrs => ret (resultName, Some attrs)
      | Err st => if decide (st <> RELNOTFOUND) then throw st else ret (resultName, None)
      end
  | None =>
      let! r := attempt (io (RelCatalog_getInfo fuel TMP_RESULT)) in
      match r with
      | Ok _ => throw TMP_RES_EXISTS
      | Err st => if decide (st <> RELNOTFOUND) then throw st else ret (TMP_RESULT, None)
      end
  end.

(** A part of a query that ends the function when it fails; then whether
    [interp] goes on to the end of the [case]. *)
Definition guarded (m : SHELL unit) (k : SHELL unit) : SHELL bool :=
  let! r := attempt m in
  match r with
  | Err st => report st ;;; ret false
  | Ok _ => reporting k ;;; ret true
  end.

(** No condition. *)
Definition simple_select (resultName : string) (existing : option (list AttrDesc)) (attrlist : nodep) : SHELL bool :=
  let! r := defined (mk_attrnames p attrlist None) in
  match r with
  | Err e => print_error "select" e ;;; ret false
  | Ok (names, rel) =>
      let! l := fill_attrList ((fun a => (rel, a, -1, -1, None)) <$> names) in
      guarded (prepare_result false resultName existing (take (length names) l))
        (io (QU_Select stack n fuel resultName (Z.of_nat (length names)) l None LT None))
  end.

(** [attr op value]. *)
Definition regular_select (resultName : string) (existing : option (list AttrDesc)) (attrlist selattr : nodep) (op : Operator) (value : nodep) : SHELL bool :=
  let! (r1, a1) := defined (QUALATTR_of p selattr) in
  let! r := defined (mk_attrnames p attrlist r1) in
  match r with
  | Err e => print_error "select" e ;;; ret false
  | Ok (names, rel) =>
      let! l := fill_attrList ((fun a => (rel, a, -1, -1, None)) <$> names) in
      let! type := defined (type_of p value) in
      let! v := defined (value_of p value) in
      let! attr1 := member (fun s => put_attr (sh_attr1 s) rel a1 (type_code type) (-1) (Some v)) in
      assign (set_attr1 attr1) ;;;
      guarded (prepare_result false resultName existing (take (length names) l))
        (let! tmpValue := defined (value_of p value) in
         io (QU_Select stack n fuel resultName (Z.of_nat (length names)) l (Some attr1) op (Some tmpValue)))
  end.

(** [attr1 op attr2]. *)
Definition join_query (resultName : string) (existing : option (list AttrDesc)) (attrlist joinattr1 : nodep) (op : Operator) (joinattr2 : nodep) : SHELL bool :=
  let! (r1, a1) := defined (QUALATTR_of p joinattr1) in
  let! (r2, a2) := defined (QUALATTR_of p joinattr2) in
  let! r := defined (mk_qual_attrs p attrlist r1 r2) in
  match r with
  | Err e => print_error "select" e ;;; ret false
  | Ok attrs =>
      let! l := fill_attrList ((fun x => (x.1, x.2, -1, -1, None)) <$> attrs) in
      let! attr1 := member (fun s => put_attr (sh_attr1 s) r1 a1 (-1) (-1) None) in
      assign (set_attr1 attr1) ;;;
      let! attr2 := member (fun s => put_attr (sh_attr2 s) r2 a2 (-1) (-1) None) in
      assign (set_attr2 attr2) ;;;
      guarded (prepare_result true resultName existing (take (length attrs) l))
        (io (QU_Join JoinMethod stack n fuel resultName (Z.of_nat (length attrs)) l attr1 op attr2))
  end.

(** A result without a name is printed and destroyed. *)
Definition show_result (resultName : string) : SHELL unit :=
  if decide (resultName = TMP_RESULT) then
    reporting (printing (UT_Print n fuel resultName)) ;;;
    reporting (io (RelCatalog_destroyRel freed n fuel resultName))
  else ret tt.

Definition interp_query (relname : charp) (attrlist qual : nodep) : SHELL unit :=
  let! r := attempt (query_target relname) in
  match r with
  | Err st => report st
  | Ok (resultName, existing) =>
      let! go := match qual with
                 | None => simple_select resultName existing attrlist
                 | Some i =>
                     let! x := defined (zget (nodepool p) i) in
                     if decide (kind x = N_SELECT) then
                       let! (a, op, v) := defined match nu x with SELECT a op v => Some (a, op, v) | _ => None end in
                       regular_select resultName existing attrlist a op v
                     else
                       let! (a, op, b) := defined match nu x with JOIN a op b => Some (a, op, b) | _ => None end in
                       join_query resultName existing attrlist a op b
                 end in
      if go : bool then show_result resultName else ret tt
  end.

Definition interp_insert (relname : charp) (attrlist : nodep) : SHELL unit :=
  let! r := defined (mk_ins_attrs p attrlist) in
  match r with
  | Err e => print_error "insert" e
  | Ok attrs =>
      let! l := fill_attrList ((fun '(a, t, v) => (relname, a, type_code t, -1, Some v)) <$> attrs) in
      let! rel := defined (string_at p relname) in
      reporting (io (QU_Insert stack n fuel rel (Z.of_nat (length attrs)) l))
  end.

Definition interp_delete (relname : charp) (qual : nodep) : SHELL unit :=
  match qual with
  | None =>
      let! rel := defined (string_at p relname) in
      reporting (io (QU_Delete n fuel rel "" LT STRING None))
  | Some i =>
      let! x := defined (zget (nodepool p) i) in
      if decide (kind x <> N_SELECT) then assign (add_err (chars "Syntax Error" ++ newline))
      else
        let! (selattr, op, v) := defined match nu x with SELECT a op v => Some (a, op, v) | _ => None end in
        let! (_, attrname) := defined (QUALATTR_of p selattr) in
        let! type := defined (type_of p v) in
        let! value := defined (value_of p v) in
        let! rel := defined (string_at p relname) in
        let! attr := match attrname with Some _ => defined (string_at p attrname) | None => ret ""%string end in
        reporting (io (QU_Delete n fuel rel attr op type (Some value)))
  end.

(** The primary attribute is read and not used. *)
Definition interp_create (relname : charp) (attrlist primattr : nodep) : SHELL unit :=
  let! r := defined (mk_attr_descrs p attrlist) in
  match r with
  | Err e => print_error "create" e
  | Ok descrs =>
      let! _ := defined match primattr with None => Some tt | Some _ => u ← u_of p primattr; match u with PRIMATTR _ _ => Some tt | _ => None end end in
      let! l := fill_attrList ((fun '(a, t, len) => (relname, a, type_code t, len, None)) <$> descrs) in
      let! rel := defined (string_at p relname) in
      reporting (io (RelCatalog_createRel rd0 ad0 fuel rel (Z.of_nat (length descrs)) l))
  end.

Definition interp_destroy (relname : charp) : SHELL unit :=
  let! rel := defined (string_at p relname) in
  reporting (io (RelCatalog_destroyRel freed n fuel rel)).

Definition interp_load (relname filename : charp) : SHELL unit :=
  let! rel := defined (string_at p relname) in
  let! file := defined (string_at p filename) in
  reporting (printing (UT_Load n fuel rel file)).

Definition interp_print (relname : charp) : SHELL unit :=
  let! rel := defined (string_at p relname) in
  reporting (printing (UT_Print n fuel rel)).

Definition interp_help (relname : charp) : SHELL unit :=
  let! rel := match relname with Some _ => defined (string_at p relname) | None => ret ""%string end in
  reporting (printing (RelCatalog_help n fuel rel)).

(** Statements on indexes run into [assert(0)]. *)
Definition interp (root : nodep) : SHELL unit :=
  (if tty then ret tt else let! s := defined (echo_query p fuel root) in assign (add_out s)) ;;;
  let! x := defined (i ← root; zget (nodepool p) i) in
  match kind x, nu x with
  | N_QUERY, QUERY relname attrlist qual => interp_query relname attrlist qual
  | N_INSERT, INSERT relname attrlist => interp_insert relname attrlist
  | N_DELETE, DELETE relname qual => interp_delete relname qual
  | N_CREATE, CREATE relname attrlist primattr => interp_create relname attrlist primattr
  | N_DESTROY, DESTROY relname => interp_destroy relname
  | N_LOAD, LOAD relname filename => interp_load relname filename
  | N_PRINT, PRINT relname => interp_print relname
  | N_HELP, HELP relname => interp_help relname
  | _, _ => undef
  end.

End Statements.

(** [quit]: [UT_Quit] does not return. *)
Definition quit (relCat attrCat : HeapFile) : CODE World unit := UT_Quit relCat attrCat.
