(* ===== verification/QueryDemo.v ===== *)
(** * A small database with two relations

    The concrete states the witnesses of the query properties run on: the
    relation [t] of CatProps.v with two tuples, a second relation [u] with the
    same attributes, and an empty file [res] for results. *)

From S2P Require Export CatProps.

Section Demo.
Implicit Types (A : list attr) (l : list hpage) (w : World).

Definition demo_rows : list Record := [int_bytes 42 ++ chars "hello"; int_bytes 7 ++ chars "world"].
Definition demo_rows2 : list Record := [int_bytes 8 ++ chars "eight"; int_bytes 50 ++ chars "fifty"].

Definition row_world : option World :=
  w ← cat_world1; '(r, w) ← insert_file "t" demo_rows w;
  match r with Ok _ => Some w | Err _ => None end.

Lemma demo_rows_fit : Forall rec_fits demo_rows.
Proof. repeat constructor; by vm_compute. Qed.
Lemma demo_rows2_fit : Forall rec_fits demo_rows2.
Proof. repeat constructor; by vm_compute. Qed.

Lemma row_world_cat : exists w l lr la rids, row_world = Some w /\ ready 4 7 ∅ w /\ heap_at ∅ w "t" l /\
  catalogs ∅ w lr la {["t"%string := 2]} demo_A /\ heap_recs l ≡ₚ zip rids demo_rows /\ length rids = 2%nat.
Proof.
  destruct cat_world1_ok as (w & lr & la & A & Hw & Hrd & [n0 Hat] & [C1 C2 C3 C4] & -> & _).
  destruct (insert_file_run 4 8 ∅ w "t" _ demo_rows Hrd Hat ltac:(lia) ltac:(lia) demo_rows_fit) as (r & w1 & l' & rids & Hr & Hfin & Hp & Hl & Hres).
  assert (row_world <> None) as Hi by (intros H; vm_compute in H; discriminate H).
  unfold row_world in Hi |- *. rewrite Hw in Hi |- *. cbn [mbind option_bind] in Hi |- *. rewrite Hr in Hi |- *.
  cbn [mbind option_bind] in Hi |- *. destruct r as [rids'|e]; [|by destruct Hi].
  assert (catalogs ∅ w1 lr la {["t"%string := 2]} demo_A) as Hca.
  { split; [apply (finished_other _ _ _ _ _ _ _ Hfin); [discriminate|exact C1]|exact C2|apply (finished_other _ _ _ _ _ _ _ Hfin); [discriminate|exact C3]|exact C4]. }
  exists w1, l', lr, la, rids. rewrite app_nil_r in Hp.
  exact (conj eq_refl (conj (finished_ready 4 8 7 _ _ _ _ _ Hrd Hfin ltac:(lia)) (conj (fi_heap _ _ _ _ _ Hfin) (conj Hca (conj Hp (proj2 Hres)))))).
Qed.

Lemma row_world_ok : exists w l la rids, row_world = Some w /\ ready 4 7 ∅ w /\ heap_at ∅ w "t" l /\
  heap_at ∅ w ATTRCATNAME la /\ attr_state la demo_A /\
  heap_recs l ≡ₚ zip rids demo_rows /\ length rids = 2%nat.
Proof.
  destruct row_world_cat as (w & l & lr & la & rids & Hw & Hrd & Hat & [_ _ C3 C4] & Hp & Hl). exists w, l, la, rids.
  exact (conj Hw (conj Hrd (conj Hat (conj C3 (conj C4 (conj Hp Hl)))))).
Qed.

Lemma demo_row_in l rids rows (rid : RID) (r : Record) : heap_recs l ≡ₚ zip rids rows -> (rid, r) ∈ heap_recs l -> r ∈ rows.
Proof. intros Hp Hin. rewrite Hp in Hin. by apply elem_of_zip_r in Hin. Qed.

Definition is_42 (r : Record) : bool := bool_decide (head r = Some "*"%byte).

Lemma demo_is_42 (r : Record) : r ∈ demo_rows -> selects 0 4 INTEGER (Some (int_bytes 42)) EQ r = Some (is_42 r).
Proof. intros [->|[->|?%not_elem_of_nil]%elem_of_cons]%elem_of_cons; [vm_compute; reflexivity..|done]. Qed.

(** ** The relation [u] *)

Definition u_info (nm : string) (ty len : Z) : attrInfo := mkAttrInfo (name_field "u") (name_field nm) ty len None.
Definition u_attrs : list attrInfo := [u_info "a" 1 4; u_info "b" 0 5].
Definition demo_A2 : list attr := demo_A ++ [mkAttr "u" "a" 0 1 4; mkAttr "u" "b" 4 0 5].

Definition cat_world2 : option World :=
  w ← cat_world1;
  '(r, w) ← RelCatalog_createRel demo_rd demo_ad 2 "u" 2 u_attrs w;
  match r with Ok _ => Some w | _ => None end.

Lemma u_name_ok : name_ok "u".
Proof. split; [by apply (bool_decide_unpack (x00 ∉ chars "u"))|cbn; lia]. Qed.

Lemma u_key : key_ok "u".
Proof. apply name_key; [done|]. apply u_name_ok. Qed.

Lemma u_args : create_args demo_rd demo_ad "u" 2 u_attrs ["a"; "b"]%string.
Proof.
  assert (forall nm, nm ∈ ["t"; "a"; "b"]%string -> cstring (name_field nm) = Some (chars nm)) as Hc by (intros; by apply cstring_name_field, demo_name_ok).
  split; [done|done|split; [done|apply u_name_ok]|cbn; lia| |].
  - constructor; [|constructor; [|constructor]]; apply Hc; by repeat constructor.
  - by repeat constructor.
Qed.

(** What is computed of the first database. *)
Lemma cat_world1_facts w lr :
  cat_world1 = Some w -> heap_at ∅ w RELCATNAME lr ->
  (length (heap_recs lr) + length lr <= 2)%nat /\ of_map (w_open w) !! "u"%string = None /\ u_dir (unix (w_disk w)) !! "u"%string = None.
Proof.
  intros Hw [_ Hok _].
  assert ((fun w => ((fun l => (length (heap_recs l) + length l)%nat) <$> heap_contents (named_page w RELCATNAME),
    bool_decide (of_map (w_open w) !! "u"%string = None /\ u_dir (unix (w_disk w)) !! "u"%string = None))) <$> cat_world1 = Some (Some 2%nat, true)) as Hf
    by (vm_compute; reflexivity).
  rewrite Hw in Hf. cbn [fmap option_fmap option_map] in Hf. injection Hf as Hl Hb. apply bool_decide_eq_true_1 in Hb. split; [|exact Hb].
  assert (exists l', heap_contents (named_page w RELCATNAME) = Some l' /\ (length (heap_recs l') + length l' = 2)%nat) as (l' & Hl' & H2).
  { destruct (heap_contents (named_page w RELCATNAME)) as [l'|]; [|discriminate Hl]. exists l'. split; [reflexivity|]. injection Hl as ->. reflexivity. }
  rewrite <- (heap_contents_ok _ _ _ Hok Hl'), H2. exact (le_n 2).
Qed.

Lemma cat_world2_ok : exists w la n n', cat_world2 = Some w /\ ready 4 8 ∅ w /\ heap_at ∅ w "t" [(n, [])] /\ heap_at ∅ w "u" [(n', [])] /\
  heap_at ∅ w ATTRCATNAME la /\ attr_state la demo_A2.
Proof.
  destruct cat_world1_ok as (w1 & lr & la & A & Hw & Hrd & [n Hat] & Hca & -> & _).
  destruct (cat_world1_facts w1 lr Hw (ca_rel _ _ _ _ _ _ Hca)) as (Hf & Hno & Hdir).
  destruct (createRel_run demo_rd demo_ad 2 4 8 ∅ w1 lr la {["t"%string := 2]} demo_A "u" 2 u_attrs ["a"; "b"]%string Hrd) as (r & w & R & Hr);
    [lia|lia|exact Hca|exact u_args|exact Hf|done|exact demo_nodup|repeat constructor; apply demo_name_ok; by repeat constructor|by vm_compute|exact Hno|exact Hdir|].
  assert (idle <$> cat_world2 = Some true) as Hi by (vm_compute; reflexivity).
  assert ((fun w => (fun l => (heap_recs l).*2) <$> heap_contents (named_page w ATTRCATNAME)) <$> cat_world2 =
    Some (Some ((fun a => AttrDesc_bytes (tuple_of a)) <$> demo_A2))) as Hl by (vm_compute; reflexivity).
  unfold cat_world2 in Hi, Hl |- *. rewrite Hw in Hi, Hl |- *. cbn [mbind option_bind] in Hi, Hl |- *. rewrite R in Hi, Hl |- *.
  cbn [mbind option_bind] in Hi, Hl |- *. destruct r as [[]|e]; [|discriminate Hi]. destruct Hr as [G1 G2 (lr1 & la1 & A1 & G3 & HA) [n' G4] G5].
  apply (inj Some) in Hi. apply (inj Some), fmap_Some in Hl as (l' & Hl & Hb).
  assert (A1 ≡ₚ demo_A2) as HA2 by (rewrite HA; apply Permutation_app_comm).
  pose proof (demo_order w la1 A1 demo_A2 l' (tells_apart_inj demo_A2 ltac:(vm_compute; reflexivity)) (ca_attr _ _ _ _ _ _ G3) (ca_attrs _ _ _ _ _ _ G3) HA2 Hl (eq_sym Hb)) as ->.
  exists w, la1, n, n'. pose proof (idle_ready w 4 Hi G1 ltac:(lia)) as Hrd'.
  assert (heap_at ∅ w "t" [(n, [])]) as Hat'.
  { destruct Hat as [T1 T2 T3]. split; [exact T1| |intros; apply not_elem_of_empty]. eapply heap_ok_ext; [|exact T2]. intros m _. apply G5; discriminate. }
  exact (conj eq_refl (conj Hrd' (conj Hat' (conj G4 (conj (ca_attr _ _ _ _ _ _ G3) (ca_attrs _ _ _ _ _ _ G3)))))).
Qed.

(** ** Tuples in both, and a file for the result *)

Definition filled (rows1 rows2 : list Record) : option World :=
  w ← cat_world2; '(r, w) ← insert_file "t" rows1 w; '(r', w) ← insert_file "u" rows2 w;
  match r, r' with Ok _, Ok _ => Some w | _, _ => None end.

Definition filled_world : option World := filled demo_rows demo_rows2.

Definition query_world : option World :=
  w ← filled_world; '(r, w) ← createHeapFile "res" w;
  match r with Ok _ => Some w | _ => None end.

(** The tuples of [t] and of [u]. *)
Record two_relations (rows1 rows2 : list Record) w la (l1 l2 : list hpage) : Prop := {
  tr_t : heap_at ∅ w "t" l1;
  tr_u : heap_at ∅ w "u" l2;
  tr_attr : heap_at ∅ w ATTRCATNAME la;
  tr_attrs : attr_state la demo_A2;
  tr_rows1 : exists rids, heap_recs l1 ≡ₚ zip rids rows1 /\ length rids = length rows1;
  tr_rows2 : exists rids, heap_recs l2 ≡ₚ zip rids rows2 /\ length rids = length rows2;
}.

Lemma filled_ok rows1 rows2 : Forall rec_fits rows1 -> Forall rec_fits rows2 -> filled rows1 rows2 <> None ->
  exists w la l1 l2, filled rows1 rows2 = Some w /\ ready 4 6 ∅ w /\ two_relations rows1 rows2 w la l1 l2.
Proof.
  intros Hfit1 Hfit2 Hi.
  destruct cat_world2_ok as (w & la & n & n' & Hw & Hrd & Ht & Hu & Hat & Hs).
  destruct (insert_file_run 4 8 ∅ w "t" _ rows1 Hrd Ht ltac:(lia) ltac:(lia) Hfit1) as (r & w1 & l1 & rids & Hr & Hfin & Hp & Hl & Hres).
  pose proof (finished_ready 4 8 7 _ _ _ _ _ Hrd Hfin ltac:(lia)) as Hrd1.
  assert (forall nm l, nm <> "t"%string -> heap_at ∅ w nm l -> heap_at ∅ w1 nm l) as K1 by (intros nm l; exact (finished_other _ _ _ _ _ nm l Hfin)).
  assert (heap_at ∅ w1 "u" [(n', [])]) as Hu1 by (apply K1; [discriminate|exact Hu]).
  destruct (insert_file_run 4 7 ∅ w1 "u" _ rows2 Hrd1 Hu1 ltac:(lia) ltac:(lia) Hfit2) as
    (r' & w2 & l2 & rids' & Hr' & Hfin' & Hp' & Hl' & Hres').
  assert (forall nm l, nm <> "u"%string -> heap_at ∅ w1 nm l -> heap_at ∅ w2 nm l) as K2 by (intros nm l; exact (finished_other _ _ _ _ _ nm l Hfin')).
  unfold filled in Hi |- *. rewrite Hw in Hi |- *. cbn [mbind option_bind] in Hi |- *. rewrite Hr in Hi |- *.
  cbn [mbind option_bind] in Hi |- *. rewrite Hr' in Hi |- *. cbn [mbind option_bind] in Hi |- *.
  destruct r as [rs|e]; [|by destruct Hi]. destruct r' as [rs'|e]; [|by destruct Hi]. rewrite app_nil_r in Hp, Hp'.
  exists w2, la, l1, l2. split; [reflexivity|]. split; [exact (finished_ready 4 7 6 _ _ _ _ _ Hrd1 Hfin' ltac:(lia))|].
  split; [apply K2; [discriminate|exact (fi_heap _ _ _ _ _ Hfin)]|exact (fi_heap _ _ _ _ _ Hfin')|
    apply K2; [discriminate|apply K1; [discriminate|exact Hat]]|exact Hs|exists rids; exact (conj Hp (proj2 Hres))|exists rids'; exact (conj Hp' (proj2 Hres'))].
Qed.

Lemma filled_world_ok : exists w la l1 l2, filled_world = Some w /\ ready 4 6 ∅ w /\ two_relations demo_rows demo_rows2 w la l1 l2.
Proof. apply filled_ok; [exact demo_rows_fit|exact demo_rows2_fit|intros H; vm_compute in H; discriminate H]. Qed.

Lemma query_world_ok : exists w la lr l1 l2, query_world = Some w /\ ready 4 8 ∅ w /\ heap_at ∅ w "res" lr /\ heap_recs lr = [] /\ two_relations demo_rows demo_rows2 w la l1 l2.
Proof.
  destruct filled_world_ok as (w & la & l1 & l2 & Hw & Hrd & [T1 T2 T3 T4 T5 T6]).
  assert ((fun w => bool_decide (of_map (w_open w) !! "res"%string = None /\ u_dir (unix (w_disk w)) !! "res"%string = None)) <$> filled_world = Some true) as Hf
    by (vm_compute; reflexivity).
  rewrite Hw in Hf. apply (inj Some), bool_decide_eq_true_1 in Hf as [Hf1 Hf2].
  destruct (createHeapFile_run 4 6 ∅ w "res" Hrd) as (r & w' & R & Hr); [lia|lia|done|exact Hf1|exact Hf2|].
  assert (idle <$> query_world = Some true) as Hi by (vm_compute; reflexivity).
  unfold query_world in Hi |- *. rewrite Hw in Hi |- *. cbn [mbind option_bind] in Hi |- *. rewrite R in Hi |- *. cbn [mbind option_bind] in Hi |- *.
  destruct r as [[]|e]; [|discriminate Hi]. apply (inj Some) in Hi.
  destruct (created_heap _ _ _ Hr ltac:(done)) as [n Hn]. exists w', la, [(n, [])], l1, l2.
  assert (forall nm l, nm <> "res"%string -> heap_at ∅ w nm l -> heap_at ∅ w' nm l) as Hkeep.
  { intros nm l Hne [N1 N2 N3]. split; [exact N1| |intros; apply not_elem_of_empty]. eapply heap_ok_ext; [|exact N2]. intros m _. by apply (cr_named _ _ _ _ Hr). }
  split; [reflexivity|]. split; [exact (idle_ready w' 4 Hi (cr_world _ _ _ _ Hr) ltac:(lia))|]. split; [exact Hn|]. split; [reflexivity|].
  split; [apply Hkeep; [discriminate|exact T1]|apply Hkeep; [discriminate|exact T2]|apply Hkeep; [discriminate|exact T3]|exact T4|exact T5|exact T6].
Qed.

End Demo.
