(* ===== verification/QueryProps.v ===== *)
(** * Properties of insertions and deletions *)

From S2P Require Export QueryDelete QueryInsert QuerySelect QueryJoin QueryDemo.

(** ** [QU_Delete] *)

Section Delete.
Variables (n fuel : nat) (T : gset (Z * Z)) (w : World) (rel : string) (l la : list hpage) (A : list attr).
Variables (attrName : string) (a : attr) (op : Operator) (type : Datatype) (value : option block) (flt : block).
Hypotheses (Hrd : ready 2 2 T w) (Hat : heap_at T w rel l) (Hata : heap_at T w ATTRCATNAME la) (Hs : attr_state la A).
Hypotheses (Hkey : key_ok rel) (Hn1 : rel <> RELCATNAME) (Hn2 : rel <> ATTRCATNAME).
Hypotheses (Hne : attrName <> ""%string) (Hfind : List.find (is_attr rel attrName) A = Some a) (Hflt : filter_bytes type value = Some flt).
Hypotheses (Hnl : (length (heap_recs l) < n)%nat) (Hfl : (length (heap_recs l) + length l <= fuel)%nat).
Hypotheses (Hna : (length (heap_recs la) < n)%nat) (Hfa : (length (heap_recs la) + length la <= fuel)%nat).

(** C7.  [QU_Delete] with a condition whose parameters [startScan] accepts
    deletes exactly the tuples that satisfy it: the others keep their
    identifiers, bytes and order.  The attribute is looked up while the
    relation is open; the catalog and all other files keep their contents,
    and everything that was opened is closed. *)
Theorem delete_exact (M : Record -> bool) :
  scan_parm_ok (at_off a) (at_len a) type (Some flt) ->
  (forall rid r, (rid, r) ∈ heap_recs l -> selects (at_off a) (at_len a) type (Some flt) op r = Some (M r)) ->
  exists w' l', QU_Delete n fuel rel attrName op type value w = Some (Ok tt, w') /\ world_ok T w' /\ restored w w' /\
    heap_at T w' rel l' /\ heap_recs l' = List.filter (fun x => negb (M x.2)) (heap_recs l) /\ heap_at T w' ATTRCATNAME la /\
    forall nm m, nm <> rel -> nm <> ATTRCATNAME -> named_page w' nm m = named_page w nm m.
Proof using Type*.
  intros Hp HM. destruct (QU_Delete_run n fuel T w rel l la A attrName a op type value flt M) as (w' & R & (l' & D1 & D2 & D3 & D4 & D5) & D6); try done.
  { intros rid r Hin. unfold scan_test. rewrite decide_True by done. by apply (HM rid). }
  by exists w', l'.
Qed.

(** C38.  [QU_Delete] does not look at the status of [startScan]: a condition
    whose parameters are refused, such as an integer constant for a string
    attribute that is not four bytes long, deletes every tuple of the
    relation and returns [OK]. *)
Theorem delete_refused_scan :
  ~ scan_parm_ok (at_off a) (at_len a) type (Some flt) ->
  exists w' l', QU_Delete n fuel rel attrName op type value w = Some (Ok tt, w') /\ heap_at T w' rel l' /\ heap_recs l' = [].
Proof using Type*.
  intros Hp. destruct (QU_Delete_run n fuel T w rel l la A attrName a op type value flt (fun _ => true)) as (w' & R & (l' & D1 & D2 & D3 & D4 & D5) & D6); try done.
  { intros rid r Hin. unfold scan_test. by rewrite decide_False. }
  exists w', l'. split; [done|]. split; [done|]. rewrite D4. by apply filter_none.
Qed.

End Delete.

Lemma delete_exact_witness :
  exists w n fuel w' l', row_world = Some w /\ QU_Delete n fuel "t" "a" EQ INTEGER (Some (c_str "42")) w = Some (Ok tt, w') /\
    heap_at ∅ w' "t" l' /\ (heap_recs l').*2 = [int_bytes 7 ++ chars "world"].
Proof.
  destruct row_world_ok as (w & l & la & rids & Hw & Hrd & Hat & Hata & Hs & Hp & Hlen).
  set (n := S (length (heap_recs l) + length (heap_recs la))%nat). set (fuel := (length (heap_recs l) + length l + (length (heap_recs la) + length la))%nat).
  destruct (delete_exact n fuel ∅ w "t" l la demo_A "a" (mkAttr "t" "a" 0 1 4) EQ INTEGER (Some (c_str "42")) (int_bytes 42)
    (ready_le 2 4 2 7 _ _ ltac:(lia) ltac:(lia) Hrd) Hat Hata Hs demo_key ltac:(discriminate) ltac:(discriminate) ltac:(discriminate)
    ltac:(reflexivity) ltac:(vm_compute; reflexivity)
    ltac:(lia) ltac:(lia) ltac:(lia) ltac:(lia) is_42) as (w' & l' & R & _ & _ & Hat' & Hl' & _).
  - right. repeat split; cbn; lia.
  - intros rid r Hin. exact (demo_is_42 r (demo_row_in l rids _ rid r Hp Hin)).
  - exists w, n, fuel, w', l'. split; [exact Hw|]. split; [exact R|]. split; [exact Hat'|]. rewrite Hl'.
    destruct rids as [|x [|y [|z rids]]]; try discriminate Hlen.
    apply symmetry, Permutation_length_2_inv in Hp as [-> | ->]; vm_compute; reflexivity.
Defined.

(** [delete from t where t.b = 5], where [b] is a string of five bytes. *)
Lemma delete_refused_scan_witness :
  exists w n fuel w' l', row_world = Some w /\ QU_Delete n fuel "t" "b" EQ INTEGER (Some (c_str "5")) w = Some (Ok tt, w') /\
    heap_at ∅ w' "t" l' /\ heap_recs l' = [].
Proof.
  destruct row_world_ok as (w & l & la & rids & Hw & Hrd & Hat & Hata & Hs & Hp & Hlen).
  set (n := S (length (heap_recs l) + length (heap_recs la))%nat). set (fuel := (length (heap_recs l) + length l + (length (heap_recs la) + length la))%nat).
  destruct (delete_refused_scan n fuel ∅ w "t" l la demo_A "b" (mkAttr "t" "b" 4 0 5) EQ INTEGER (Some (c_str "5")) (int_bytes 5)
    (ready_le 2 4 2 7 _ _ ltac:(lia) ltac:(lia) Hrd) Hat Hata Hs demo_key ltac:(discriminate) ltac:(discriminate) ltac:(discriminate)
    ltac:(reflexivity) ltac:(vm_compute; reflexivity)
    ltac:(lia) ltac:(lia) ltac:(lia) ltac:(lia)) as (w' & l' & R & Hat' & Hl').
  - intros [Hx|(_ & _ & Hx & _)]; [discriminate Hx|]. specialize (Hx eq_refl). discriminate Hx.
  - exists w, n, fuel, w', l'. exact (conj Hw (conj R (conj Hat' Hl'))).
Defined.

(** ** [QU_Insert] *)

(** C8.  [QU_Insert] with one value for each attribute, in any order, either
    fails and leaves the relation as it was, or adds one tuple, in which each
    attribute, at its offset, holds the bytes of its value, whatever the
    buffer on the stack held before.  The catalogs and all other files keep
    their contents. *)
Theorem insert_stores stack (n fuel : nat) T w lr la m A rel l values nms row :
  let B := List.filter (of_rel rel) A in
  ready 1 3 T w -> catalogs T w lr la m A -> heap_at T w rel l -> key_ok rel -> rel <> RELCATNAME -> rel <> ATTRCATNAME ->
  is_Some (m !! rel) -> B <> [] -> laid_out 0 B -> length values = length B -> named_attrs values nms -> NoDup nms ->
  Forall2 (gives values nms) (tuple_of <$> B) row -> rec_fits (concat row) ->
  (length (heap_recs lr) + length lr <= fuel)%nat -> (length (heap_recs la) < n)%nat -> (length (heap_recs la) + length la <= fuel)%nat ->
  exists r w' l', QU_Insert stack n fuel rel (Z.of_nat (length B)) values w = Some (r, w') /\ world_ok T w' /\ restored w w' /\
    catalogs T w' lr la m A /\ heap_at T w' rel l' /\
    (forall nm i, nm <> rel -> nm <> RELCATNAME -> nm <> ATTRCATNAME -> named_page w' nm i = named_page w nm i) /\
    match r with
    | Err _ => l' = l
    | Ok _ => exists rid rec, heap_recs l' ≡ₚ (rid, rec) :: heap_recs l /\
        Forall2 (fun a bytes => rd (at_off a) (at_len a) rec = Some bytes) B row
    end.
Proof.
  intros B Hrd Hca Hat Hkey Hn1 Hn2 Hm HB Hlay Hlen Hnv Hnd Hg Hfit Hf1 Hn Hf2.
  destruct (QU_Insert_run stack n fuel T w lr la m A rel l values nms row) as (r & w' & R & [S1 S2 S3 (l' & S4 & S5) S6]); try done.
  exists r, w', l'. do 6 (split; [done|]). destruct r as [[]|e]; [|done]. destruct S5 as [rid Hp]. exists rid, (concat row). split; [done|].
  apply (row_fields B row []); [done|]. by eapply gives_len.
Qed.

(** [insert t (b = "hello", a = "42")]. *)
Definition demo_value (nm v : string) : attrInfo := mkAttrInfo (name_field "t") (name_field nm) 0 (-1) (Some (c_str v)).
Definition demo_values : list attrInfo := [demo_value "b" "hello"; demo_value "a" "42"].

Lemma demo_gives nm i v ty len off bytes :
  nm ∈ ["t"; "a"; "b"]%string -> ["b"; "a"]%string !! i = Some nm -> demo_values !! i = Some v ->
  given_bytes (attr_tuple "t" nm off ty len) v = Some bytes -> gives demo_values ["b"; "a"]%string (tuple_of (mkAttr "t" nm off ty len)) bytes.
Proof. intros Hin Hi Hv Hval. exists nm, i, v. split; [|done]. by apply cstring_name_field, demo_name_ok. Qed.

Lemma insert_stores_witness :
  exists w n fuel r w', cat_world1 = Some w /\ QU_Insert (fun _ => xff) n fuel "t" 2 demo_values w = Some (r, w').
Proof.
  destruct cat_world1_ok as (w & lr & la & A & Hw & Hrd & [n0 Hat] & Hca & -> & _).
  set (n := S (length (heap_recs la))). set (fuel := (length (heap_recs la) + length la + (length (heap_recs lr) + length lr))%nat).
  destruct (insert_stores (fun _ => xff) n fuel ∅ w lr la _ demo_A "t" _ demo_values ["b"; "a"]%string [int_bytes 42; chars "hello"]
    (ready_le 1 4 3 8 _ _ ltac:(lia) ltac:(lia) Hrd) Hca Hat demo_key) as (r & w' & l' & R & _).
  - discriminate.
  - discriminate.
  - rewrite lookup_singleton_eq. exact (ex_intro _ 2 eq_refl).
  - discriminate.
  - repeat split.
  - reflexivity.
  - constructor; [|constructor; [|constructor]]; apply cstring_name_field, demo_name_ok; by repeat constructor.
  - by apply (bool_decide_unpack (NoDup ["b"; "a"]%string)).
  - constructor; [|constructor; [|constructor]].
    + apply (demo_gives "a" 1 (demo_value "a" "42")); [by repeat constructor|reflexivity|reflexivity|vm_compute; reflexivity].
    + apply (demo_gives "b" 0 (demo_value "b" "hello")); [by repeat constructor|reflexivity|reflexivity|vm_compute; reflexivity].
  - split; [discriminate|]. vm_compute. discriminate.
  - exact (Nat.le_add_l _ _).
  - exact (Nat.lt_succ_diag_r _).
  - exact (Nat.le_add_r _ _).
  - exists w, n, fuel, r, w'. exact (conj Hw R).
Defined.

(** ** [QU_Select] *)

(** The attributes [bs] of the record [r], one after the other. *)
Definition projection (bs : list attr) (r : Record) : Record := concat ((fun b => default [] (rd (at_off b) (at_len b) r)) <$> bs).

(** The record [r] holds all of [bs], and they fit on a page. *)
Definition projects (bs : list attr) (r : Record) : Prop :=
  Forall (fun b => is_Some (rd (at_off b) (at_len b) r)) bs /\ rec_fits (projection bs r).

Lemma projects_fields bs r :
  projects bs r -> exists row, fields (tuple_of <$> bs) r row /\ projection bs r = concat row /\ rec_fits (concat row).
Proof.
  intros [Hin Hfit]. exists ((fun b => default [] (rd (at_off b) (at_len b) r)) <$> bs). split; [|done].
  unfold fields. clear Hfit. induction Hin as [|b bs [bytes Hb] Hin IH]; constructor; [|done]. cbn. by rewrite Hb.
Qed.

(** C9.  [QU_Select] adds to the result relation exactly the projections of
    the tuples of the relation that satisfy the condition, or all of them
    when there is none, and returns [OK]; when an insertion fails it returns
    the error after some of them.  The relation, the catalog and all other
    files keep their contents, and everything that was opened is closed,
    whatever the buffer on the stack held before. *)
Theorem select_exact stack (n fuel : nat) T w res rel lr l la A projCnt pn cattr op value pnms cond bs a flt M :
  ready 2 3 T w -> heap_at T w res lr -> heap_at T w rel l -> heap_at T w ATTRCATNAME la -> attr_state la A -> key_ok rel ->
  rel <> res -> res <> ATTRCATNAME -> rel <> ATTRCATNAME -> select_args A rel projCnt pn cattr value pnms cond bs a flt ->
  scan_parm_ok (at_off a) (at_len a) (scan_type (tuple_of a)) flt ->
  (forall rid r, (rid, r) ∈ heap_recs l -> selects (at_off a) (at_len a) (scan_type (tuple_of a)) flt (sel_op cond op) r = Some (M r)) ->
  (forall rid r, (rid, r) ∈ heap_recs l -> M r = true -> projects bs r) ->
  (length (heap_recs l) < n)%nat -> (length (heap_recs l) + length l <= fuel)%nat ->
  (length (heap_recs la) < n)%nat -> (length (heap_recs la) + length la <= fuel)%nat ->
  exists r w' lr', QU_Select stack n fuel res projCnt pn cattr op value w = Some (r, w') /\ world_ok T w' /\ restored w w' /\
    heap_at T w' res lr' /\ heap_at T w' rel l /\ heap_at T w' ATTRCATNAME la /\
    (forall nm m, nm <> res -> nm <> ATTRCATNAME -> named_page w' nm m = named_page w nm m) /\
    let new := projection bs <$> List.filter M (heap_recs l).*2 in
    match r with
    | Ok _ => (heap_recs lr').*2 ≡ₚ new ++ (heap_recs lr).*2
    | Err _ => exists i, (heap_recs lr').*2 ≡ₚ take i new ++ (heap_recs lr).*2
    end.
Proof.
  intros Hrd Hatr Hat Hata Hs Hkey N1 N2 N3 Hargs Hparm HM HP Hn Hf Hna Hfa.
  destruct (QU_Select_run stack n fuel T w res rel lr l la A projCnt pn cattr op value pnms cond bs a flt M (projection bs)) as
    (r & w' & lr' & R & D1 & D2 & D3 & D4 & D5 & D6); try done.
  { intros rid x Hin Hx. by apply projects_fields, (HP rid). }
  exists r, w', lr'. do 4 (split; [done|]). split; [eapply heap_at_kept; [exact Hat|done|by intros; apply D5]|]. do 2 (split; [done|]).
  unfold selected, added in D6. assert ((fun x : RID * Record => projection bs x.2) <$> List.filter (fun x => M x.2) (heap_recs l) =
    projection bs <$> List.filter M (heap_recs l).*2) as Hnew; [|by rewrite Hnew in D6].
  clear. induction (heap_recs l) as [|x recs IH]; [done|]. cbn. destruct (M x.2); cbn; by rewrite IH.
Qed.

(** [select into res (t.b) where t.a = 42]. *)
Lemma demo_select_args :
  select_args demo_A2 "t" 1 [demo_info "b" 0 5] (Some (demo_info "a" 1 4)) (Some (c_str "42")) ["b"]%string (Some "a"%string)
    [mkAttr "t" "b" 4 0 5] (mkAttr "t" "a" 0 1 4) (Some (int_bytes 42)).
Proof.
  split.
  - reflexivity.
  - constructor; [|constructor]. apply cstring_name_field, demo_name_ok. by repeat constructor.
  - eexists. split; [reflexivity|]. apply cstring_name_field, demo_name_ok. by repeat constructor.
  - apply cstring_name_field, demo_name_ok. by repeat constructor.
  - intros v [= <-]. cbn. lia.
  - exact demo_nodup.
  - by repeat constructor.
  - constructor; [reflexivity|constructor].
  - reflexivity.
  - by vm_compute.
  - by vm_compute.
Qed.

Lemma demo_projects (r : Record) : r ∈ demo_rows -> projects [mkAttr "t" "b" 4 0 5] r.
Proof.
  intros [->|[->|?%not_elem_of_nil]%elem_of_cons]%elem_of_cons; [..|contradiction].
  all: (split; [constructor; [vm_compute; by eexists|constructor]|split; [discriminate|vm_compute; discriminate]]).
Qed.

Lemma select_exact_witness :
  exists w n fuel r w' lr', query_world = Some w /\
    QU_Select (fun _ => xff) n fuel "res" 1 [demo_info "b" 0 5] (Some (demo_info "a" 1 4)) EQ (Some (c_str "42")) w = Some (r, w') /\
    heap_at ∅ w' "res" lr' /\ (r = Ok tt -> (heap_recs lr').*2 = [chars "hello"]).
Proof.
  destruct query_world_ok as (w & la & lr & l & l2 & Hw & Hrd & Hres & Hnil & [Hat Hu Hata Hs (rids & Hp & Hlen) _]).
  set (n := S (length (heap_recs l) + length (heap_recs la))%nat). set (fuel := (length (heap_recs l) + length l + (length (heap_recs la) + length la))%nat).
  destruct (select_exact (fun _ => xff) n fuel ∅ w "res" "t" lr l la demo_A2 1 _ _ EQ _ _ _ _ _ _ is_42
    (ready_le 2 4 3 8 _ _ ltac:(lia) ltac:(lia) Hrd) Hres Hat Hata Hs demo_key ltac:(discriminate) ltac:(discriminate) ltac:(discriminate) demo_select_args) as
    (r & w' & lr' & R & _ & _ & Hat' & _ & _ & _ & Hl').
  - right. repeat split; cbn; lia.
  - intros rid r Hin. exact (demo_is_42 r (demo_row_in l rids _ rid r Hp Hin)).
  - intros rid r Hin _. exact (demo_projects r (demo_row_in l rids _ rid r Hp Hin)).
  - lia.
  - lia.
  - lia.
  - lia.
  - exists w, n, fuel, r, w', lr'. split; [exact Hw|]. split; [exact R|]. split; [exact Hat'|]. intros ->. rewrite Hnil in Hl'. cbn zeta in Hl'.
    destruct rids as [|x [|y [|z rids]]]; try discriminate Hlen. apply symmetry, Permutation_length_2_inv in Hp as [Hq|Hq]; rewrite Hq in Hl'; vm_compute in Hl' |- *;
      apply Permutation_singleton_r in Hl'; exact Hl'.
Defined.

(** ** [QU_Join] *)

(** The reference: the pairs of the product that satisfy the condition. *)
Definition theta_join (theta : Record -> Record -> bool) (P : Record -> Record -> Record) (rs ss : list Record) : list Record :=
  r ← rs; s ← List.filter (theta r) ss; [P r s].

(** The attributes [bs] of a pair of tuples, the first one of [rel]. *)
Definition pair_projection (rel : string) (bs : list attr) (r s : Record) : Record :=
  concat ((fun b => default [] (rd (at_off b) (at_len b) (if decide (at_rel b = rel) then r else s))) <$> bs).

Definition pair_projects (rel : string) (bs : list attr) (r s : Record) : Prop :=
  Forall (fun b => is_Some (rd (at_off b) (at_len b) (if decide (at_rel b = rel) then r else s))) bs /\ rec_fits (pair_projection rel bs r s).

Lemma pair_projects_fields rel bs r s :
  pair_projects rel bs r s -> exists row, pair_fields rel bs r s row /\ pair_projection rel bs r s = concat row /\ rec_fits (concat row).
Proof.
  intros [Hin Hfit]. eexists. split; [|split; [reflexivity|exact Hfit]].
  unfold pair_fields. clear Hfit. induction Hin as [|b bs [bytes Hb] Hin IH]; constructor; [|done]. cbn. by rewrite Hb.
Qed.

Lemma joined_theta P J l2 recs : joined P J l2 recs = theta_join J P recs.*2 (heap_recs l2).*2.
Proof.
  unfold joined, theta_join. induction recs as [|x recs IH]; [done|]. cbn. rewrite IH. f_equal. unfold selected. clear.
  induction (heap_recs l2) as [|y ys IH]; [done|]. cbn. destruct (J x.2 y.2); cbn; by rewrite IH.
Qed.

(** The [int] at [off]. *)
Definition int_at (off : Z) (r : Record) : Z := default 0 (rd32 off r).

Lemma rd_drop_0 off len (r : block) : 0 <= off -> 0 < len -> rd 0 len (drop (Z.to_nat off) r) = rd off len r.
Proof.
  intros Ho Hl. unfold rd. rewrite length_drop, drop_drop. change (Z.to_nat 0) with 0%nat. rewrite Nat.add_0_r.
  destruct (decide (0 <= off /\ 0 <= len /\ off + len <= Z.of_nat (length r))) as [H|H], (decide (0 <= 0 /\ 0 <= len /\ 0 + len <= Z.of_nat (length r - Z.to_nat off))) as [H'|H'];
    try reflexivity; exfalso; lia.
Qed.

Lemma flip_op_int op x y : op_int (flip_op op) y x = op_int op x y.
Proof. destruct op; cbn; rewrite ?(Z.eqb_sym y x); reflexivity. Qed.

(** What the inner scan tests for the outer tuple [r]: the inner attribute is
    on the left of the operator. *)
Lemma join_test a1 a2 op (r s : Record) :
  is_Some (rd32 (at_off a1) r) -> is_Some (rd32 (at_off a2) s) -> Z.of_nat (length s) < 2 ^ 31 ->
  inS 32 (int_at (at_off a2) s - int_at (at_off a1) r) ->
  selects (at_off a2) 4 INTEGER (Some (drop (Z.to_nat (at_off a1)) r)) (flip_op op) s = Some (op_int op (int_at (at_off a1) r) (int_at (at_off a2) s)).
Proof.
  unfold int_at. intros [x Hx] [y Hy] Hlen. rewrite Hx, Hy. cbn. intros Hd.
  assert (rd32 0 (drop (Z.to_nat (at_off a1)) r) = Some x) as Hx'.
  { unfold rd32 in Hx |- *. rewrite rd_drop_0; [done| |lia]. apply fmap_Some in Hx as (v & [Hv _]%rd_Some & _). lia. }
  pose proof (match_attr_int (at_off a2) s _ (flip_op op) y x Hlen Hy Hx') as Hm. unfold sizeof_int in Hm. rewrite Hm.
  rewrite decide_True by done. f_equal. apply flip_op_int.
Qed.

(** C10.  The nested-loops join (also taken by a hash join whose operator is
    not [=]) of two relations on integer attributes is the theta join: it adds
    to the result exactly the projections of the pairs of tuples whose
    attributes are related by the operator, each as often as it occurs, and
    keeps every other file but the result and returns [OK]; or an insertion
    into the result fails and the program stops in [ASSERT].  The operator is
    exchanged for the inner scan, which has the inner attribute on its left;
    differences must not overflow [int]. *)
Theorem join_exact JoinMethod stack (n fuel : nat) T w la A projCnt pn attr1 attr2 op res lr l1 l2 bs a1 a2 :
  let new := theta_join (fun r s => op_int op (int_at (at_off a1) r) (int_at (at_off a2) s)) (pair_projection (at_rel a1) bs)
               (heap_recs l1).*2 (heap_recs l2).*2 in
  JoinMethod = NLJoin \/ (JoinMethod = HashJoin /\ op <> EQ) ->
  join_args A projCnt pn attr1 attr2 res bs a1 a2 INTEGER -> at_len a2 = 4 ->
  ready 3 (Z.of_nat (length pn) + Z.of_nat (length (heap_recs l1)) + 4) T w -> heap_at T w ATTRCATNAME la -> attr_state la A ->
  heap_at T w res lr -> heap_at T w (at_rel a1) l1 -> heap_at T w (at_rel a2) l2 ->
  (forall r s, r ∈ (heap_recs l1).*2 -> s ∈ (heap_recs l2).*2 ->
     is_Some (rd32 (at_off a1) r) /\ is_Some (rd32 (at_off a2) s) /\ Z.of_nat (length s) < 2 ^ 31 /\
     inS 32 (int_at (at_off a2) s - int_at (at_off a1) r) /\ pair_projects (at_rel a1) bs r s) ->
  (length (heap_recs la) < n)%nat -> (length (heap_recs la) + length la <= fuel)%nat -> (length (heap_recs l1) < n)%nat ->
  (length (heap_recs l1) + length l1 <= fuel)%nat -> (length (heap_recs l2) < n)%nat -> (length (heap_recs l2) + length l2 <= fuel)%nat ->
  (exists w' lr', QU_Join JoinMethod stack n fuel res projCnt pn attr1 op attr2 w = Some (Ok tt, w') /\ world_ok T w' /\ restored w w' /\
     heap_at T w' res lr' /\ (heap_recs lr').*2 ≡ₚ new ++ (heap_recs lr).*2 /\
     (forall nm m, nm <> res -> nm <> ATTRCATNAME -> named_page w' nm m = named_page w nm m)) \/
  (QU_Join JoinMethod stack n fuel res projCnt pn attr1 op attr2 w = None /\ exists w1, restored w w1 /\ blocked 3 T w1 res new (heap_recs lr).*2).
Proof.
  intros new Hm Hargs Hlen Hrd Hata Hs Hatr Hat1 Hat2 Hrows Hna Hfa Hn1 Hf1 Hn2 Hf2. unfold QU_Join. rewrite decide_True by done.
  assert (forall l x, x ∈ heap_recs l -> x.2 ∈ (heap_recs l).*2) as H2 by (intros l x Hx; by apply list_elem_of_fmap_2).
  unfold new. rewrite <- joined_theta. apply (QU_NL_Join_run stack n fuel T w la A projCnt pn attr1 attr2 op res lr l1 l2 bs a1 a2 INTEGER); try done.
  - intros x y Hx Hy. destruct (Hrows x.2 y.2 (H2 _ _ Hx) (H2 _ _ Hy)) as (R1 & R2 & R3 & R4 & _). rewrite Hlen. by apply join_test.
  - intros x y Hx Hy _. by apply pair_projects_fields, Hrows; apply H2.
Qed.

(** [select into res (t.b, u.b) where t.a < u.a]. *)
Lemma demo_join_args :
  join_args demo_A2 2 [demo_info "b" 0 5; u_info "b" 0 5] (demo_info "a" 1 4) (u_info "a" 1 4) "res"
    [mkAttr "t" "b" 4 0 5; mkAttr "u" "b" 4 0 5] (mkAttr "t" "a" 0 1 4) (mkAttr "u" "a" 0 1 4) INTEGER.
Proof.
  assert (forall nm, nm ∈ ["t"; "a"; "b"]%string -> cstring (name_field nm) = Some (chars nm)) as Hc by (intros; by apply cstring_name_field, demo_name_ok).
  assert (cstring (name_field "u") = Some (chars "u")) as Hu by exact (cstring_name_field _ u_name_ok).
  assert (forall nm a, nm ∈ ["t"; "a"; "b"]%string -> nm <> ""%string -> List.find (is_attr "t" nm) demo_A2 = Some a -> refers demo_A2 (demo_info nm (at_type a) (at_len a)) a) as Ht.
  { intros nm a Hin Hne Hf. exists "t"%string, nm. split; [apply Hc; by left|]. split; [by apply Hc|]. split; [exact demo_key|]. by split. }
  assert (forall nm a, nm ∈ ["t"; "a"; "b"]%string -> nm <> ""%string -> List.find (is_attr "u" nm) demo_A2 = Some a -> refers demo_A2 (u_info nm (at_type a) (at_len a)) a) as Hu'.
  { intros nm a Hin Hne Hf. exists "u"%string, nm. split; [exact Hu|]. split; [by apply Hc|]. split; [exact u_key|]. by split. }
  split; [reflexivity..| | | |reflexivity|discriminate|repeat split; discriminate|split; discriminate| |].
  - constructor; [|constructor; [|constructor]].
    + apply (Ht "b"%string (mkAttr "t" "b" 4 0 5)); [by repeat constructor|discriminate|reflexivity].
    + apply (Hu' "b"%string (mkAttr "u" "b" 4 0 5)); [by repeat constructor|discriminate|reflexivity].
  - apply (Ht "a"%string (mkAttr "t" "a" 0 1 4)); [by repeat constructor|discriminate|reflexivity].
  - apply (Hu' "a"%string (mkAttr "u" "a" 0 1 4)); [by repeat constructor|discriminate|reflexivity].
  - intros flt. right. repeat split; cbn; lia.
  - split; [by vm_compute|by repeat constructor].
Qed.

Lemma demo_pairs (r s : Record) : r ∈ demo_rows -> s ∈ demo_rows2 ->
  is_Some (rd32 0 r) /\ is_Some (rd32 0 s) /\ Z.of_nat (length s) < 2 ^ 31 /\ inS 32 (int_at 0 s - int_at 0 r) /\
  pair_projects "t" [mkAttr "t" "b" 4 0 5; mkAttr "u" "b" 4 0 5] r s.
Proof.
  intros [->|[->|?%not_elem_of_nil]%elem_of_cons]%elem_of_cons [->|[->|?%not_elem_of_nil]%elem_of_cons]%elem_of_cons; try contradiction.
  all: split; [vm_compute; by eexists|]; split; [vm_compute; by eexists|]; split; [by vm_compute|]; split; [split; by vm_compute|].
  all: split; [constructor; [vm_compute; by eexists|constructor; [vm_compute; by eexists|constructor]]|split; [discriminate|vm_compute; discriminate]].
Qed.

Lemma demo_join_new (rids rids' : list RID) (recs1 recs2 : list (RID * Record)) :
  length rids = 2%nat -> length rids' = 2%nat -> recs1 ≡ₚ zip rids demo_rows -> recs2 ≡ₚ zip rids' demo_rows2 ->
  theta_join (fun r s => op_int LT (int_at 0 r) (int_at 0 s)) (pair_projection "t" [mkAttr "t" "b" 4 0 5; mkAttr "u" "b" 4 0 5]) recs1.*2 recs2.*2 ≡ₚ
  [chars "hellofifty"; chars "worldeight"; chars "worldfifty"].
Proof.
  intros H1 H2 P1 P2. destruct rids as [|x [|y [|z rids]]]; try discriminate H1. destruct rids' as [|x' [|y' [|z' rids']]]; try discriminate H2.
  apply symmetry, Permutation_length_2_inv in P1 as [-> | ->]; apply symmetry, Permutation_length_2_inv in P2 as [-> | ->].
  all: apply (bool_decide_unpack (_ ≡ₚ _)); by vm_compute.
Qed.

Lemma join_exact_witness :
  exists w n fuel, query_world = Some w /\
    let run := QU_Join NLJoin (fun _ => xff) n fuel "res" 2 [demo_info "b" 0 5; u_info "b" 0 5] (demo_info "a" 1 4) LT (u_info "a" 1 4) w in
    run = None \/ exists w' lr', run = Some (Ok tt, w') /\ heap_at ∅ w' "res" lr' /\
      (heap_recs lr').*2 ≡ₚ [chars "hellofifty"; chars "worldeight"; chars "worldfifty"].
Proof.
  destruct query_world_ok as (w & la & lr & l1 & l2 & Hw & Hrd & Hres & Hnil & [Hat Hu Hata Hs (rids & Hp & Hlen) (rids' & Hp' & Hlen')]).
  assert (length (heap_recs l1) = 2%nat) as Hl1.
  { rewrite Hp, length_zip_with, Hlen. reflexivity. }
  set (n := S (length (heap_recs l1) + length (heap_recs l2) + length (heap_recs la))%nat).
  set (fuel := (length (heap_recs l1) + length l1 + (length (heap_recs l2) + length l2) + (length (heap_recs la) + length la))%nat).
  exists w, n, fuel. split; [exact Hw|]. cbn zeta.
  destruct (join_exact NLJoin (fun _ => xff) n fuel ∅ w la demo_A2 2 _ _ _ LT "res" lr l1 l2 _ _ _ (or_introl eq_refl) demo_join_args eq_refl) as
    [(w' & lr' & R & _ & _ & Hat' & Hl' & _)|[R _]].
  - rewrite Hl1. exact (ready_le 3 4 8 8 _ _ ltac:(lia) ltac:(lia) Hrd).
  - exact Hata.
  - exact Hs.
  - exact Hres.
  - exact Hat.
  - exact Hu.
  - intros r s ([rid r'] & -> & Hr)%list_elem_of_fmap ([rid' s'] & -> & Hs')%list_elem_of_fmap.
    exact (demo_pairs r' s' (demo_row_in l1 rids _ rid r' Hp Hr) (demo_row_in l2 rids' _ rid' s' Hp' Hs')).
  - lia.
  - lia.
  - lia.
  - lia.
  - lia.
  - lia.
  - right. exists w', lr'. split; [exact R|]. split; [exact Hat'|]. rewrite Hnil, app_nil_r in Hl'. etransitivity; [exact Hl'|].
    exact (demo_join_new rids rids' _ _ Hlen Hlen' Hp Hp').
  - left. exact R.
Defined.
