(* ===== verification/PrintProps.v ===== *)
(** * What [print] writes *)

From S2P Require Export Print QueryInsert QueryScan QueryDemo.

Section Loop.
Context {O : Clients} {T0 : gset (Z * Z)} {b : Base}.
Local Abbreviation session := (session (O := O) T0 b).
Local Abbreviation positioned := (positioned (O := O)).
Implicit Types (T : gset (Z * Z)) (w : World) (f cur : Z) (l : list hpage) (name : string) (rest : list (RID * Record)) (out : block).

Lemma next_match_all rest : next_match (fun _ => true) rest = rest.
Proof. by destruct rest as [|[rid r] rest]. Qed.

(** The lines of the records. *)
Definition lines (P : Record -> block) rest : block := concat ((fun x => P x.2 ++ newline) <$> rest).

Lemma print_loop_run (n fuel np : nat) T w out name f s cur l rest (cnt : Z) attrs ws (P : Record -> block) :
  (length rest < n)%nat -> (length rest + np < fuel)%nat -> session T w name f (hfs_base s) cur l ->
  positioned T w f l (hfs_base s) rest np -> predicate s (fun _ => true) rest ->
  (forall rid r, (rid, r) ∈ rest -> print_attrs attrs ws r = Some (P r)) -> 0 <= cnt -> cnt + Z.of_nat (length rest) < 2 ^ 31 ->
  exists T' w' s' cur', print_loop n fuel attrs ws s cnt (w, out) = Some (Ok (s', FILEEOF, cnt + Z.of_nat (length rest)), (w', out ++ lines P rest)) /\
    session T' w' name f (hfs_base s') cur' l /\ kept 0 [] w w'.
Proof.
  revert T w s cur rest np cnt out. induction n as [|n IH]; intros T w s cur rest np cnt out Hn Hfuel Hse Hpos HM HP Hc Hmax; [lia|]. cbn [print_loop].
  destruct (scanNext_session fuel np T w name f s cur l _ rest Hfuel Hse Hpos HM) as (r & T1 & w1 & s1 & cur1 & Hr & Hss & _ & Hse1 & Hres).
  run_with (io_run _ w out _ _ (call_run _ s w _ _ _ Hr)). pose proof (kept_same _ _ _ _ [] (se_world Hse) Hss) as Hk1. rewrite next_match_all in Hres.
  destruct rest as [|[rid rec] rest].
  - subst r. exists T1, w1, s1, cur1. split; [|done]. unfold lines. cbn. by rewrite Z.add_0_r, app_nil_r.
  - destruct Hres as (-> & HM1 & Hlen & np' & Hloc & Hnp). cbn [length] in *.
    pose proof (getRecord_located _ _ _ _ _ _ _ _ _ (se_heap _ _ _ _ _ _ _ _ _ Hse1) Hloc) as R2. run_with (io_run _ w1 out _ _ (call_run _ s1 w1 _ _ _ R2)). step.
    assert (UT_printRec attrs ws rec (w1, out) = Some (Ok tt, (w1, out ++ P rec ++ newline))) as R3.
    { unfold UT_printRec. run_with (defined_run _ _ (w1, out) (HP rid rec ltac:(by left))). done. }
    run_with R3. rewrite wrapS_id by (unfold inS; lia).
    destruct (IH T1 w1 s1 cur1 rest np' (cnt + 1) (out ++ P rec ++ newline)) as (T' & w' & s' & cur' & R' & Hse' & Hk');
      [lia|lia|done|eapply stands_positioned; [exact Hse1|]; eapply stands_at_stands, located_stands, Hloc|exact HM1|intros rid' r' Hin; apply (HP rid'); by right|lia|lia|].
    exists T', w', s', cur'. rewrite R'. split; [|split; [done|by eapply kept_trans; [exact Hk1|exact Hk'|]]].
    unfold lines. cbn [fmap list_fmap concat snd]. rewrite <- !app_assoc. do 4 f_equal. lia.
Qed.

End Loop.

(** ** [UT_Print] *)

Section Print.
Implicit Types (T : gset (Z * Z)) (w : World) (l la lr : list hpage) (A : list attr) (rel : string) (out : block).

Definition title rel : block := chars "Relation name: " ++ chars rel ++ newline ++ newline.
Definition footer (records : Z) : block := newline ++ chars "Number of records: " ++ fmt_d records ++ newline.

(** The part that reads the relation. *)
Lemma print_body_run (n fuel : nat) k j T w out rel l attrs ws (P : Record -> block) heads rules :
  ready k j T w -> 1 <= k -> 1 <= j -> heap_at T w rel l -> print_heads attrs ws = Some heads -> print_rules ws = Some rules ->
  (forall rid r, (rid, r) ∈ heap_recs l -> print_attrs attrs ws r = Some (P r)) -> Z.of_nat (length (heap_recs l)) < 2 ^ 31 ->
  (length (heap_recs l) < n)%nat -> (length (heap_recs l) + length l <= fuel)%nat ->
  exists w', (let! hfile := io (new_scan rel) in
    say (title rel) ;;;
    let! heads := defined (print_heads attrs ws) in
    say (heads ++ newline) ;;;
    let! rules := defined (print_rules ws) in
    say (rules ++ newline) ;;;
    let! (r, hfile) := io (call (HeapFileScan_startScan 0 0 INTEGER None EQ) hfile) in
    of_res r ;;;
    let! (hfile, st, records) := print_loop n fuel attrs ws hfile 0 in
    if decide (st <> FILEEOF) then throw st
    else
      say (newline ++ chars "Number of records: " ++ fmt_d records ++ newline) ;;;
      let! (r, hfile) := io (call HeapFileScan_endScan hfile) in
      of_res r ;;;
      io (end_scope hfile)) (w, out) =
    Some (Ok tt, (w', out ++ title rel ++ heads ++ newline ++ rules ++ newline ++ lines P (heap_recs l) ++ footer (Z.of_nat (length (heap_recs l))))) /\
    finished T w rel l w'.
Proof.
  intros Hrd Hk Hj Hat Hh Hru HP Hmax Hn Hf.
  destruct (HeapFileScan_new_ok k j T w rel l Hrd Hat Hk Hj) as (f & s0 & w1 & np & R1 & Hlt & Hse & Hpos & Hnf & Hk1).
  destruct (startScan_ok w1 s0 0 0 INTEGER None EQ ltac:(by left)) as (s1 & R2 & Hbase & Hmatch).
  set (out1 := ((out ++ title rel) ++ heads ++ newline) ++ rules ++ newline).
  destruct (print_loop_run (O := clients w k) (T0 := T) (b := base_of w) n fuel np T w1 out1 rel f s1 (next_no l) l (heap_recs l) 0 attrs ws P) as (T3 & w3 & s3 & cur3 & R3 & Hse3 & Hk3);
    [done|lia|by rewrite Hbase|by apply Hpos|intros rid r _; by rewrite Hmatch|done|lia|lia|].
  destruct (finish_scan_ok _ _ _ _ _ _ _ _ _ Hse3) as (w4 & s4 & w5 & s5 & R4 & R5 & Hend).
  exists w5. split; [|eapply session_finished; [exact Hse3|exact Hend|]].
  - assert (new_scan rel w = Some (Ok s0, w1)) as R1' by (unfold new_scan; run_with R1; by rewrite decide_False by (intros Hx; by apply Hx)).
    run_with (io_run _ w out _ _ R1'). unfold say. run_assign. rewrite Hh. step. run_assign. rewrite Hru. step. run_assign. fold out1.
    run_with (io_run _ w1 out1 _ _ (call_run _ s0 w1 _ _ _ R2)). step. run_with R3. rewrite decide_False by (intros Hx; by apply Hx). run_assign.
    run_with (io_run _ w3 (((out1 ++ lines P (heap_recs l)) ++ newline ++ chars "Number of records: " ++ fmt_d (0 + Z.of_nat (length (heap_recs l))) ++ newline)) _ _ (call_run _ s3 w3 _ _ _ R4)).
    step. erewrite io_run by (unfold end_scope, delete_scan; rewrite bind_assoc; run_with (call_run _ s4 w4 _ _ _ R5); reflexivity).
    do 3 f_equal. unfold out1, footer. rewrite Z.add_0_l. by rewrite <- !app_assoc.
  - eapply kept_trans; [eapply kept_weaken; [exact Hk1|reflexivity|by constructor]|eapply kept_weaken; [exact Hk3|reflexivity|by constructor]|lia].
Qed.

(** The columns of relations whose attributes have one of the three types. *)
Definition columns (B : list attr) : option (list (option Z)) := UT_computeWidth (tuple_of <$> B).

End Print.

(** C20.  [UT_Print] of a relation in the catalogs writes its name, the names
    of the columns and a line below them, then one line per tuple in file
    order with its attributes, and their number, and returns [OK]; the
    relation, the catalogs and all other files keep their contents, and what
    was opened is closed. *)
Theorem print_complete (n fuel : nat) T w out lr la m A rel l ws (P : Record -> block) heads rules :
  let B := List.filter (of_rel rel) A in
  ready 1 3 T w -> catalogs T w lr la m A -> heap_at T w rel l -> key_ok rel -> rel <> RELCATNAME -> rel <> ATTRCATNAME ->
  is_Some (m !! rel) -> B <> [] -> columns B = Some ws -> print_heads (tuple_of <$> B) ws = Some heads -> print_rules ws = Some rules ->
  (forall rid r, (rid, r) ∈ heap_recs l -> print_attrs (tuple_of <$> B) ws r = Some (P r)) -> Z.of_nat (length (heap_recs l)) < 2 ^ 31 ->
  (length (heap_recs lr) + length lr <= fuel)%nat -> (length (heap_recs la) < n)%nat -> (length (heap_recs la) + length la <= fuel)%nat ->
  (length (heap_recs l) < n)%nat -> (length (heap_recs l) + length l <= fuel)%nat ->
  exists w', UT_Print n fuel rel (w, out) =
      Some (Ok tt, (w', out ++ title rel ++ heads ++ newline ++ rules ++ newline ++ lines P (heap_recs l) ++ footer (Z.of_nat (length (heap_recs l))))) /\
    world_ok T w' /\ restored w w' /\ heap_at T w' rel l /\ catalogs T w' lr la m A /\
    forall nm i, nm <> rel -> nm <> RELCATNAME -> nm <> ATTRCATNAME -> named_page w' nm i = named_page w nm i.
Proof.
  intros B Hrd [C1 C2 C3 C4] Hat Hkey N1 N2 [c Hc] HB Hws Hh Hru HP Hmax Hf1 Hn2 Hf2 Hn Hf.
  destruct (getInfo_run 1 3 T w lr m rel fuel Hrd C1 C2 ltac:(lia) ltac:(lia) Hkey Hf1) as (w1 & R1 & Hfin1). rewrite Hc in R1.
  pose proof (finished_ready _ _ 2 _ _ _ _ _ Hrd Hfin1 ltac:(lia)) as Hrd1.
  assert (forall nm x, nm <> RELCATNAME -> heap_at T w nm x -> heap_at T w1 nm x) as K1 by (intros nm x; exact (finished_other _ _ _ _ _ nm x Hfin1)).
  assert (heap_at T w1 ATTRCATNAME la) as C3' by (by apply K1).
  destruct (getRelInfo_run 1 2 T w1 la A rel n fuel Hrd1 C3' C4 ltac:(lia) ltac:(lia) Hkey Hn2 Hf2) as (w2 & R2 & Hfin2).
  pose proof (finished_ready _ _ 1 _ _ _ _ _ Hrd1 Hfin2 ltac:(lia)) as Hrd2.
  assert (forall nm x, nm <> ATTRCATNAME -> heap_at T w1 nm x -> heap_at T w2 nm x) as K2 by (intros nm x; exact (finished_other _ _ _ _ _ nm x Hfin2)).
  assert (heap_at T w2 rel l) as Hat2 by (apply K2; [done|by apply K1]).
  destruct (print_body_run n fuel 1 1 T w2 out rel l (tuple_of <$> B) ws P heads rules Hrd2 ltac:(lia) ltac:(lia) Hat2 Hh Hru HP Hmax Hn Hf) as (w3 & R3 & Hfin3).
  assert (AttrCatalog_getRelInfo n fuel rel w1 = Some (Ok (tuple_of <$> B), w2)) as R2'.
  { rewrite R2. change (List.filter _ A) with B. clear -HB. by destruct B. }
  exists w3. split; [|split; [apply Hfin3|split; [|split; [apply Hfin3|split]]]].
  - unfold UT_Print. rewrite decide_False by apply Hkey. run_with (io_run _ w out _ _ R1). cbn [rel_tuple rd_relName].
    run_with (defined_run _ _ (w1, out) (name_string_field rel (proj1 (rs_ok _ _ C2 rel c Hc)))). run_with (io_run _ w1 out _ _ R2'). run_with (defined_run _ _ (w2, out) Hws). exact R3.
  - transitivity w1; [apply Hfin1|]. transitivity w2; [apply Hfin2|apply Hfin3].
  - assert (forall nm x, nm <> rel -> heap_at T w2 nm x -> heap_at T w3 nm x) as K3 by (intros nm x; exact (finished_other _ _ _ _ _ nm x Hfin3)).
    split; [apply K3; [done|]; apply K2; [done|apply Hfin1]|done|apply K3; [done|apply Hfin2]|done].
  - intros nm i H1 H2 H3. by rewrite (fi_other _ _ _ _ _ Hfin3), (fi_other _ _ _ _ _ Hfin2), (fi_other _ _ _ _ _ Hfin1).
Qed.

(** The lines of the tuples of [t]. *)
Definition demo_line (r : Record) : block :=
  if bool_decide (head r = Some "*"%byte) then chars "42     hello  " else chars "7      world  ".

Lemma demo_lines (r : Record) : r ∈ demo_rows -> print_attrs (tuple_of <$> demo_A) [Some 5; Some 5] r = Some (demo_line r).
Proof. intros [->|[->|?%not_elem_of_nil]%elem_of_cons]%elem_of_cons; [vm_compute; reflexivity..|done]. Qed.

Lemma print_complete_witness :
  exists w n fuel w' l out, row_world = Some w /\ UT_Print n fuel "t" (w, []) = Some (Ok tt, (w', out)) /\ heap_at ∅ w' "t" l /\
    out = chars "Relation name: t" ++ newline ++ newline ++ chars "a     b     " ++ newline ++ chars "-----  -----  " ++ newline ++
          lines demo_line (heap_recs l) ++ newline ++ chars "Number of records: 2" ++ newline.
Proof.
  destruct row_world_cat as (w & l & lr & la & rids & Hw & Hrd & Hat & Hca & Hp & Hlen).
  assert (length (heap_recs l) = 2%nat) as Hl by (rewrite Hp, length_zip_with, Hlen; reflexivity).
  set (n := S (length (heap_recs l) + length (heap_recs la))%nat).
  set (fuel := (length (heap_recs l) + length l + (length (heap_recs la) + length la) + (length (heap_recs lr) + length lr))%nat).
  destruct (print_complete n fuel ∅ w [] lr la _ demo_A "t" l [Some 5; Some 5] demo_line (chars "a     b     ") (chars "-----  -----  ")
    (ready_le 1 4 3 7 _ _ ltac:(lia) ltac:(lia) Hrd) Hca Hat demo_key) as (w' & R & _ & _ & Hat' & _).
  - discriminate.
  - discriminate.
  - rewrite lookup_singleton_eq. exact (ex_intro _ 2 eq_refl).
  - discriminate.
  - vm_compute. reflexivity.
  - vm_compute. reflexivity.
  - vm_compute. reflexivity.
  - intros rid r Hin. rewrite demo_of_rel. exact (demo_lines r (demo_row_in l rids _ rid r Hp Hin)).
  - rewrite Hl. reflexivity.
  - lia.
  - lia.
  - lia.
  - lia.
  - lia.
  - eexists w, n, fuel, w', l, _. split; [exact Hw|]. split; [exact R|]. split; [exact Hat'|]. rewrite Hl. reflexivity.
Defined.
