(* ===== verification/LoadProps.v ===== *)
(** * Properties of the bulk load

    [UT_Load] reads the records of a Unix file one after the other and inserts
    them into a relation; the file is not one of the engine, and may hold any
    bytes. *)

From S2P Require Export Foreign Load QueryInsert QueryJoin QueryDemo.

(** ** The records of a file *)

(** The full records of [k] bytes at the start of [c]; what is left at the end
    is not a record. *)
Fixpoint rows_of (n k : nat) (c : block) : list block :=
  match n with
  | O => []
  | S n => if decide (k <= length c)%nat then take k c :: rows_of n k (drop k c) else []
  end.
Definition rows (k : nat) (c : block) : list block := rows_of (length c) k c.

Section Rows.
Implicit Types (n k : nat) (c : block).

Lemma rows_of_step n k c : (0 < k)%nat -> (length c <= n)%nat ->
  rows_of n k c = if decide (k <= length c)%nat then take k c :: rows_of n k (drop k c) else [].
Proof.
  intros Hk. revert c. induction n as [|n IH]; intros c Hn; [rewrite decide_False by lia; done|]. cbn [rows_of]. case_decide as Hl; [|done].
  f_equal. rewrite IH by (rewrite length_drop; lia). done.
Qed.

Lemma rows_of_fits n k c : (0 < k)%nat -> Z.of_nat k + sizeof_slot <= PAGESIZE - DPFIXED -> Forall rec_fits (rows_of n k c).
Proof.
  intros Hk Hs. revert c. induction n as [|n IH]; intros c; cbn; [constructor|]. case_decide; [|constructor]. constructor; [|apply IH].
  assert (length (take k c) = k) as Hl by (rewrite length_take; lia). split; [intros Hx; rewrite Hx in Hl; cbn in Hl; lia|by rewrite Hl].
Qed.

End Rows.

(** ** Descriptors that belong to no object *)

Section Descriptors.
Implicit Types (T : gset (Z * Z)) (w : World) (u : Unix) (fd i : Z) (nm : string).

(** The world with another table of descriptors. *)
Definition with_fds (fds : gmap Z Z) (next : Z) (w : World) : World :=
  let u := unix (w_disk w) in
  set_disk (set_unix (mkUnix (u_dir u) (u_data u) fds (u_nextIno u) next (u_maxFds u) (u_fsize u)) (w_disk w)) w.

Record unused (fds : gmap Z Z) (next : Z) (w : World) : Prop := {
  un_same : forall f o, files (w_disk w) !! f = Some o -> fds !! unixFile o = u_fds (unix (w_disk w)) !! unixFile o;
  un_fresh : forall fd i, fds !! fd = Some i -> fd < next;
}.

Lemma with_fds_conn fds next w f : unused fds next w -> conn (w_disk (with_fds fds next w)) f = conn (w_disk w) f.
Proof.
  intros [H1 _]. unfold conn. cbn. destruct (files (w_disk w) !! f) as [o|] eqn:Ho; [|done]. cbn. by apply (H1 f).
Qed.

Lemma with_fds_disk_page fds next w f n : unused fds next w -> disk_page (w_disk (with_fds fds next w)) f n = disk_page (w_disk w) f n.
Proof. intros Hu. unfold disk_page, content. by rewrite (with_fds_conn _ _ _ _ Hu). Qed.

Lemma with_fds_ok T fds next w : world_ok T w -> unused fds next w -> world_ok T (with_fds fds next w).
Proof.
  intros Hw Hu. pose proof Hw as [H1 H2 H3 H4 H5 H6]. pose proof (fun f => with_fds_conn fds next w f Hu) as Hc.
  assert (unix_ok (unix (w_disk (with_fds fds next w)))) as Hux by (destruct H1 as [U1 U2 U3 U4 U5 U6]; split; try done; apply Hu).
  split; try done.
  - intros f o Ho. destruct (H3 f o Ho) as [O1 O2 O3 (i & O4 & O5)]. split; try done. exists i. split; [|done]. cbn. by rewrite (un_same _ _ _ Hu f o Ho).
  - eapply pool_inv_pages; [exact H6| |intros; by apply with_fds_disk_page].
    pose proof (pi_store _ _ _ _ H6) as Hd. apply disk_ok_intro; [done| |].
    + intros f i. rewrite Hc. intros Hi. split; [by eapply (do_ptr _ Hd)|]. exact (disk_formatted _ _ _ Hd Hi).
    + intros f g i. rewrite !Hc. apply (do_inj _ Hd).
Qed.

Lemma with_fds_page fds next w nm n : unused fds next w -> named_page (with_fds fds next w) nm n = named_page w nm n.
Proof.
  intros Hu. unfold named_page. cbn [w_open with_fds set_disk]. destruct (of_map (w_open w) !! nm) as [g|]; [|done].
  unfold logical. cbn [w_mgr with_fds set_disk]. destruct (frame_of (w_mgr w) g n); [done|]. by apply with_fds_disk_page.
Qed.

Lemma with_fds_heap T fds next w nm l : unused fds next w -> heap_at T w nm l -> heap_at T (with_fds fds next w) nm l.
Proof. intros Hu [H1 H2 H3]. split; [done| |done]. eapply heap_ok_ext; [|exact H2]. intros n _. by apply with_fds_page. Qed.

End Descriptors.

(** ** Opening, reading and closing the file *)

(** A file that nobody has open. *)
Record data_file (nm : string) (i : Z) (c : block) (w : World) : Prop := {
  dt_dir : u_dir (unix (w_disk w)) !! nm = Some i;
  dt_data : u_data (unix (w_disk w)) !! i = Some c;
  dt_shut : forall fd, u_fds (unix (w_disk w)) !! fd <> Some i;
  dt_next : 0 <= u_nextFd (unix (w_disk w));
}.

Section Reading.
Implicit Types (T : gset (Z * Z)) (w : World) (fd i : Z) (nm name : string) (c : block) (k j : Z).

Definition opened_data i w : World :=
  let u := unix (w_disk w) in with_fds (<[u_nextFd u := i]> (u_fds u)) (u_nextFd u + 1) w.

Lemma opened_data_unused T i w : world_ok T w ->
  unused (<[u_nextFd (unix (w_disk w)) := i]> (u_fds (unix (w_disk w)))) (u_nextFd (unix (w_disk w)) + 1) w.
Proof.
  intros Hw. split.
  - intros f o Ho. pose proof (object_fd T w f o Hw Ho). rewrite lookup_insert_ne by lia. done.
  - intros fd i' [[<- _]|[_ Hi]]%lookup_insert_Some; [lia|]. pose proof (uo_fd _ (wo_unix _ _ Hw) _ _ Hi). lia.
Qed.

Lemma open_data_run k j T w nm i c :
  ready (k + 1) j T w -> 0 <= k -> 0 <= j -> data_file nm i c w ->
  on_unix (unix_open nm) w = Some (Ok (inr (u_nextFd (unix (w_disk w)))), opened_data i w) /\ ready k j T (opened_data i w) /\
  reading nm (u_nextFd (unix (w_disk w))) i c (w_disk (opened_data i w)).
Proof.
  intros Hrd Hk Hj [D1 D2 D3 D4]. pose proof (rdy_world _ _ _ _ Hrd) as Hw. pose proof (opened_data_unused T i w Hw) as Hu.
  pose proof (rdy_fds _ _ _ _ Hrd) as Hfds. split; [|split].
  - unfold on_unix, unix_open. rewrite D1, decide_False by lia. done.
  - destruct (ready_le k (k + 1) j j T w ltac:(lia) ltac:(lia) Hrd) as [R1 R2 R3 R4 R5 R6 R7].
    split; try done; [by apply with_fds_ok|]. cbn. rewrite map_size_insert_None; [lia|].
    destruct (u_fds (unix (w_disk w)) !! u_nextFd (unix (w_disk w))) as [x|] eqn:Hx; [|done]. pose proof (uo_fd _ (wo_unix _ _ Hw) _ _ Hx). lia.
  - split; cbn; try done; [apply lookup_insert_eq| |lia| |].
    + intros fd' [[<- _]|[_ Hi]]%lookup_insert_Some; [done|]. by destruct (D3 fd').
    + intros f o Ho. pose proof (object_fd T w f o Hw Ho). split; [lia|]. intros He.
      destruct (oo_ino _ _ _ (wo_obj _ _ Hw f o Ho)) as (x & Hx & Hdx). rewrite He, D1 in Hdx. injection Hdx as <-. by destruct (D3 (unixFile o)).
    + intros nm' Hn. exact (uo_inj _ (wo_unix _ _ Hw) _ _ _ Hn D1).
Qed.

Lemma read_data_run fd i c nm off (k : nat) w :
  reading nm fd i c (w_disk w) -> unix_read fd off (Z.of_nat k) (unix (w_disk w)) = Some (take k (drop (Z.to_nat off) c)).
Proof. intros [H1 _ H3 _ _ _]. unfold unix_read. rewrite H1. cbn. rewrite H3. cbn. unfold pread. by rewrite Nat2Z.id. Qed.

(** Closing it brings back the table of descriptors. *)
Lemma close_data_run fd i c nm T w :
  reading nm fd i c (w_disk w) -> world_ok T w ->
  exists w', on_unix (unix_close fd) w = Some (Ok None, w') /\ w' = with_fds (delete fd (u_fds (unix (w_disk w)))) (u_nextFd (unix (w_disk w))) w /\
    unused (delete fd (u_fds (unix (w_disk w)))) (u_nextFd (unix (w_disk w))) w.
Proof.
  intros [H1 H2 H3 H4 H5 H6] Hw. eexists. split; [unfold on_unix, unix_close; rewrite H1; reflexivity|]. split; [done|]. split.
  - intros f o Ho. rewrite lookup_delete_ne; [done|]. intros ->. by destruct (H5 f o Ho).
  - intros fd' i' [_ Hi]%lookup_delete_Some. by apply (uo_fd _ (wo_unix _ _ Hw) _ _ Hi).
Qed.

End Reading.

(** ** The loop *)

Section Loop.
Context {O : Clients} {T0 : gset (Z * Z)} {b : Base}.
Local Abbreviation session := (session (O := O) T0 b).
Implicit Types (T : gset (Z * Z)) (w : World) (f cur fd i off : Z) (h : HeapFile) (name nm : string) (data : block).

Lemma load_loop_run (n k m : nat) nm fd i data off T w name f h l1 cur c :
  session T w name f h cur (l1 ++ [(cur, c)]) -> reading nm fd i data (w_disk w) -> 0 <= off -> (0 < k)%nat ->
  Z.of_nat k + sizeof_slot <= PAGESIZE - DPFIXED -> (length (drop (Z.to_nat off) data) <= m)%nat ->
  let todo := rows_of m k (drop (Z.to_nat off) data) in (length todo < n)%nat ->
  exists r T' w' h' l1' cur' c' rids, load_loop n fd off (Z.of_nat k) h w = Some (r, w') /\ session T' w' name f h' cur' (l1' ++ [(cur', c')]) /\
    kept 0 [name] w w' /\ reading nm fd i data (w_disk w') /\ heap_recs (l1' ++ [(cur', c')]) ≡ₚ zip rids todo ++ heap_recs (l1 ++ [(cur, c)]) /\
    match r with Ok x => x = (h', length todo) /\ length rids = length todo | Err _ => (length rids < length todo)%nat end.
Proof.
  revert off T w h l1 cur c. induction n as [|n IH]; intros off T w h l1 cur c Hse Hrg Hoff Hk Hfit Hm todo Hn; [lia|]. cbn [load_loop].
  erewrite (bind_Ok _ _ _ (unix (w_disk w)) w) by done. run_with (defined_run _ _ w (read_data_run fd i data nm off k w Hrg)).
  set (rest := drop (Z.to_nat off) data) in *. assert (todo = rows_of m k rest) as Ht by done. rewrite rows_of_step in Ht by done.
  destruct (decide (k <= length rest)%nat) as [Hl|Hl].
  2: { rewrite decide_False by (rewrite length_take; lia). rewrite Ht. exists (Ok (h, 0%nat)), T, w, h, l1, cur, c, [].
    do 2 (split; [done|]). split; [by apply kept_refl|]. done. }
  rewrite decide_True by (rewrite length_take; lia).
  destruct (insertRecord_session T w name f h l1 cur c (take k rest) Hse) as (r1 & T1 & w1 & h1 & R1 & Hres).
  { intros Hx. assert (length (take k rest) = k) as Hlk by (rewrite length_take; lia). rewrite Hx in Hlk. cbn in Hlk. lia. }
  { rewrite length_take. lia. }
  assert (reading nm fd i data (w_disk w1)) as Hrg1 by exact (keeps_insertRecord nm _ _ _ _ R1 _ _ _ Hrg).
  run_with (call_run _ h w _ _ _ R1). destruct r1 as [rid|e].
  2: { destruct Hres as [Hse1 Hso1]. step. exists (Err e), T1, w1, h1, l1, cur, c, []. split; [done|]. split; [done|].
       split; [by eapply (kept_other _ _ _ _ _ _ _ _ Hse)|]. do 2 (split; [done|]). rewrite Ht. cbn. lia. }
  destruct Hres as (l1' & cur' & c' & Hse1 & Hso1 & Hp1 & _). step.
  assert (drop (Z.to_nat (off + Z.of_nat k)) data = drop k rest) as Hd by (unfold rest; rewrite drop_drop; f_equal; lia).
  destruct (IH (off + Z.of_nat k) T1 w1 h1 l1' cur' c' Hse1 Hrg1 ltac:(lia) Hk Hfit) as (r & T2 & w2 & h2 & l2 & cur2 & c2 & rids & R2 & Hse2 & Hk2 & Hrg2 & Hp2 & Hr).
  { rewrite Hd, length_drop. lia. } { rewrite Hd. rewrite Ht in Hn. cbn in Hn. lia. }
  rewrite Hd in Hp2, Hr. exists (match r with Ok x => Ok (x.1, S x.2) | Err e => Err e end), T2, w2, h2, l2, cur2, c2, (rid :: rids).
  split; [destruct r as [[h3 cnt]|e]; by run_with R2|]. split; [done|].
  split; [eapply kept_trans; [by eapply (kept_other _ _ _ _ _ _ _ _ Hse)|exact Hk2|lia]|]. split; [done|]. rewrite Ht. cbn [zip zip_with length app].
  split; [by rewrite Hp2, Hp1, <- Permutation_middle|]. destruct r as [x|e]; [|lia]. destruct Hr as [-> ->]. done.
Qed.

End Loop.

(** ** The whole load *)

Section Load.
Implicit Types (T : gset (Z * Z)) (w : World) (fd i : Z) (nm rel : string) (lr la l : list hpage) (m : gmap string Z) (A : list attr).

Lemma opened_catalogs T w i lr la m A : world_ok T w -> catalogs T w lr la m A -> catalogs T (opened_data i w) lr la m A.
Proof.
  intros Hw [C1 C2 C3 C4]. pose proof (opened_data_unused T i w Hw) as Hu. split; [by apply with_fds_heap|done|by apply with_fds_heap|done].
Qed.

(** What was taken in between is given back. *)
Lemma closed_data_restored nm i c w w' :
  restored (opened_data i w) w' -> reading nm (u_nextFd (unix (w_disk w))) i c (w_disk w') -> (forall fd, u_fds (unix (w_disk w)) !! fd <> Some i) ->
  u_fds (unix (w_disk w)) !! u_nextFd (unix (w_disk w)) = None ->
  restored w (with_fds (delete (u_nextFd (unix (w_disk w))) (u_fds (unix (w_disk w')))) (u_nextFd (unix (w_disk w'))) w').
Proof.
  intros [R1 R2 R3 R4 R5 R6 R7] Hr Hno Hfresh. split; try done. cbn. rewrite map_size_delete_Some by (exists i; apply Hr).
  rewrite R5. cbn. rewrite map_size_insert_None by done. done.
Qed.

(** The catalog lookups of [UT_Load]. *)
Lemma load_front (n fuel : nat) T w lr la m A rel nm fd i data l :
  let B := List.filter (of_rel rel) A in
  ready 1 3 T w -> catalogs T w lr la m A -> heap_at T w rel l -> key_ok rel -> rel <> RELCATNAME -> rel <> ATTRCATNAME -> is_Some (m !! rel) -> B <> [] ->
  reading nm fd i data (w_disk w) -> nm <> RELCATNAME -> nm <> ATTRCATNAME ->
  (length (heap_recs lr) + length lr <= fuel)%nat -> (length (heap_recs la) < n)%nat -> (length (heap_recs la) + length la <= fuel)%nat ->
  exists rd w1 w2, RelCatalog_getInfo fuel rel w = Some (Ok rd, w1) /\ name_string (rd_relName rd) = Some rel /\
    AttrCatalog_getRelInfo n fuel rel w1 = Some (Ok (tuple_of <$> B), w2) /\ changed 2 T w cat_names w2 /\ catalogs T w2 lr la m A /\
    heap_at T w2 rel l /\ reading nm fd i data (w_disk w2).
Proof.
  intros B Hrd [C1 C2 C3 C4] Hat Hkey Hn1 Hn2 [c Hm] HB Hrg Hd1 Hd2 Hf1 Hn Hf2.
  destruct (getInfo_run 1 3 T w lr m rel fuel Hrd C1 C2 ltac:(lia) ltac:(lia) Hkey Hf1) as (w1 & R1 & Hfin1). rewrite Hm in R1.
  pose proof (finished_ready _ _ 2 _ _ _ _ _ Hrd Hfin1 ltac:(lia)) as Hrd1.
  assert (heap_at T w1 ATTRCATNAME la) as C3' by (by apply (finished_other _ _ _ _ _ _ _ Hfin1)).
  destruct (getRelInfo_run 1 2 T w1 la A rel n fuel Hrd1 C3' C4 ltac:(lia) ltac:(lia) Hkey Hn Hf2) as (w2 & R2 & Hfin2).
  assert (AttrCatalog_getRelInfo n fuel rel w1 = Some (Ok (tuple_of <$> B), w2)) as R2' by (rewrite R2; change (List.filter _ A) with B; clear -HB; by destruct B).
  exists (rel_tuple rel c), w1, w2. split; [done|]. split; [by apply name_string_field, (rs_ok _ _ C2 rel c Hm)|]. split; [exact R2'|].
  split; [eapply changed_trans; [by eapply (finished_changed _ _ _ _ _ cat_names Hfin1); left|by eapply (finished_changed _ _ _ _ _ cat_names Hfin2); right; left|lia]|].
  split; [split; [by apply (finished_other _ _ _ _ _ _ _ Hfin2); [|apply Hfin1]|done|apply Hfin2|done]|].
  split; [apply (finished_other _ _ _ _ _ _ _ Hfin2); [done|]; by apply (finished_other _ _ _ _ _ _ _ Hfin1)|].
  apply (keeps_getRelInfo nm n fuel rel ltac:(done) _ _ _ R2'), (keeps_getInfo nm fuel rel ltac:(done) _ _ _ R1). exact Hrg.
Qed.

(** The session on the relation, from the constructor to the end of the loop
    and to the destructor. *)
Lemma load_session (n k : nat) T w rel l nm fd i data :
  ready 1 1 T w -> heap_at T w rel l -> reading nm fd i data (w_disk w) -> nm <> rel -> (0 < k)%nat -> Z.of_nat k + sizeof_slot <= PAGESIZE - DPFIXED ->
  (length (rows k data) < n)%nat ->
  exists h w1 r w2 l' rids, InsertFileScan_new rel w = Some (Ok (OK, h), w1) /\ load_loop n fd 0 (Z.of_nat k) h w1 = Some (r, w2) /\
    heap_recs l' ≡ₚ zip rids (rows k data) ++ heap_recs l /\ reading nm fd i data (w_disk w2) /\
    match r with
    | Err _ => (length rids < length (rows k data))%nat /\ heap_ok (named_page w2 rel) l' /\ exists T', world_ok T' w2
    | Ok x => x.2 = length (rows k data) /\ length rids = length (rows k data) /\
        exists w3, delete_ifs x.1 w2 = Some (Ok tt, w3) /\ finished T w rel l' w3 /\ reading nm fd i data (w_disk w3)
    end.
Proof.
  intros Hrd Hat Hrg Hne Hk Hfit Hn.
  destruct (InsertFileScan_new_ok 1 1 T w rel l Hrd Hat ltac:(lia) ltac:(lia)) as (f & h & w1 & T1 & l1 & cur & c & R1 & -> & Hse & Hk1).
  assert (reading nm fd i data (w_disk w1)) as Hrg1 by exact (keeps_InsertFileScan_new nm rel ltac:(done) _ _ _ R1 _ _ _ Hrg).
  destruct (load_loop_run n k (length data) nm fd i data 0 T1 w1 rel f h l1 cur c Hse Hrg1 ltac:(lia) Hk Hfit ltac:(by rewrite drop_0) Hn)
    as (r & T2 & w2 & h2 & l2 & cur2 & c2 & rids & R2 & Hse2 & Hk2 & Hrg2 & Hp & Hr).
  exists h, w1, r, w2, (l2 ++ [(cur2, c2)]), rids. do 2 (split; [done|]). split; [exact Hp|]. split; [done|]. destruct r as [x|e].
  - destruct Hr as [-> Hl]. split; [done|]. split; [done|]. destruct (InsertFileScan_delete_ok _ _ _ _ _ _ _ _ _ Hse2) as (w3 & h3 & R3 & Hend).
    exists w3. split; [unfold delete_ifs; by run_with (call_run _ h2 w2 _ _ _ R3)|]. split.
    + eapply session_finished; [exact Hse2|exact Hend|]. eapply kept_trans; [by apply (kept_weaken 1 1 [] [rel] _ _ Hk1)|exact Hk2|lia].
    + exact (keeps_InsertFileScan_delete nm _ _ _ R3 _ _ _ Hrg2).
  - split; [done|]. pose proof Hse2 as [Hh _ Hok]. split; [|by exists T2; apply (se_world Hse2)].
    eapply heap_ok_ext; [|exact Hok]. intros p _. destruct (hd_since _ _ _ _ _ _ Hh) as [q Hsi]. apply named_open. by eapply since_open.
Qed.

End Load.

(** What a completed load leaves. *)
Record loaded (T : gset (Z * Z)) (w : World) (lr la : list hpage) (m : gmap string Z) (A : list attr) (rel nm : string) (i : Z) (data : block) (l' : list hpage) (w' : World) : Prop := {
  ld_world : world_ok T w';
  ld_restored : restored w w';
  ld_cats : catalogs T w' lr la m A;
  ld_heap : heap_at T w' rel l';
  ld_data : data_file nm i data w';
  ld_other : forall nm' p, nm' ∉ rel :: cat_names -> named_page w' nm' p = named_page w nm' p;
}.

(** The descriptor is closed after the last session. *)
Lemma load_closed T w lr la m A rel nm i data w2 l' w5 w6 :
  let fd := u_nextFd (unix (w_disk w)) in
  world_ok T w -> data_file nm i data w -> rel <> RELCATNAME -> rel <> ATTRCATNAME ->
  changed 2 T (opened_data i w) cat_names w2 -> catalogs T w2 lr la m A -> finished T w2 rel l' w5 -> reading nm fd i data (w_disk w5) ->
  w6 = with_fds (delete fd (u_fds (unix (w_disk w5)))) (u_nextFd (unix (w_disk w5))) w5 ->
  unused (delete fd (u_fds (unix (w_disk w5)))) (u_nextFd (unix (w_disk w5))) w5 -> loaded T w lr la m A rel nm i data l' w6.
Proof.
  intros fd Hw [D1 D2 D3 D4] Hn1 Hn2 Hch [C1 C2 C3 C4] Hfin Hrg -> Hu. pose proof (opened_data_unused T i w Hw) as Hu0. split.
  - by apply with_fds_ok; [apply Hfin|].
  - apply (closed_data_restored nm i data w w5); [|done|done|].
    + transitivity w2; [apply Hch|apply Hfin].
    + destruct (u_fds _ !! u_nextFd _) as [x|] eqn:Hx; [|done]. pose proof (uo_fd _ (wo_unix _ _ Hw) _ _ Hx). lia.
  - split; [apply with_fds_heap; [done|]; by apply (finished_other _ _ _ _ _ _ _ Hfin)|done|
      apply with_fds_heap; [done|]; by apply (finished_other _ _ _ _ _ _ _ Hfin)|done].
  - by apply with_fds_heap; [|apply Hfin].
  - split; cbn.
    + by rewrite (fi_dir _ _ _ _ _ Hfin), (ch_dir _ _ _ _ _ Hch).
    + apply Hrg.
    + intros fd' [Hne Hi]%lookup_delete_Some. apply Hne. symmetry. by apply (rg_only _ _ _ _ _ Hrg).
    + pose proof (rg_old _ _ _ _ _ Hrg). lia.
  - intros nm' p [Hr Hc]%not_elem_of_cons. rewrite with_fds_page by done. rewrite (fi_other _ _ _ _ _ Hfin), (ch_other _ _ _ _ _ Hch) by done.
    by apply with_fds_page.
Qed.

(** C13.  A bulk load: [UT_Load] of a file that nobody has open, whatever its
    bytes, into a relation whose tuples have [k] bytes.  It either adds every
    full record of the file to the relation, once each and nothing else,
    leaves all other files and the file itself as they were, writes the number
    of records and gives back all it took; or an insertion fails: then the
    relation has some of the records more, nothing is written, and the
    descriptor of the file stays open. *)
Theorem load_complete (n fuel k : nat) T w out lr la m A rel nm i data l :
  let B := List.filter (of_rel rel) A in
  ready 2 3 T w -> catalogs T w lr la m A -> heap_at T w rel l -> key_ok rel -> rel <> RELCATNAME -> rel <> ATTRCATNAME -> is_Some (m !! rel) -> B <> [] ->
  Forall (fun a => 0 <= at_len a) B -> sum_lens (tuple_of <$> B) = Z.of_nat k -> (0 < k)%nat -> Z.of_nat k + sizeof_slot <= PAGESIZE - DPFIXED ->
  data_file nm i data w -> nm ∉ ["" : string; rel; RELCATNAME; ATTRCATNAME] ->
  (length (heap_recs lr) + length lr <= fuel)%nat -> (length (heap_recs la) < n)%nat -> (length (heap_recs la) + length la <= fuel)%nat ->
  (length (rows k data) < n)%nat ->
  exists r w' out' l' rids, UT_Load n fuel rel nm (w, out) = Some (r, (w', out')) /\ heap_recs l' ≡ₚ zip rids (rows k data) ++ heap_recs l /\
    match r with
    | Ok _ => length rids = length (rows k data) /\ loaded T w lr la m A rel nm i data l' w' /\
        out' = out ++ chars "Number of records inserted: " ++ fmt_d (Z.of_nat (length (rows k data))) ++ newline
    | Err _ => (length rids < length (rows k data))%nat /\ out' = out /\ heap_ok (named_page w' rel) l' /\ (exists T', world_ok T' w') /\
        u_fds (unix (w_disk w')) !! u_nextFd (unix (w_disk w)) = Some i
    end.
Proof.
  intros B Hrd Hca Hat Hkey Hn1 Hn2 Hm HB Hlens Hsum Hk Hfit Hdf Hnm Hf1 Hn Hf2 Hrows. pose proof (rdy_world _ _ _ _ Hrd) as Hw.
  rewrite !not_elem_of_cons in Hnm. destruct Hnm as (M1 & M2 & M3 & M4 & _).
  destruct (open_data_run 1 3 T w nm i data Hrd ltac:(lia) ltac:(lia) Hdf) as (R0 & Hrd0 & Hrg0). set (w0 := opened_data i w) in *. set (fd := u_nextFd (unix (w_disk w))) in *.
  pose proof (opened_data_unused T i w Hw) as Hu0. fold fd in Hu0.
  destruct (load_front n fuel T w0 lr la m A rel nm fd i data l Hrd0 (opened_catalogs T w i lr la m A Hw Hca) (with_fds_heap _ _ _ _ _ _ Hu0 Hat) Hkey Hn1 Hn2 Hm HB Hrg0 M3 M4 Hf1 Hn Hf2)
    as (rd & w1 & w2 & R1 & Hrn & R2 & Hch & Hca2 & Hat2 & Hrg2).
  pose proof (changed_ready _ _ 1 _ _ _ _ _ Hrd0 Hch ltac:(lia)) as Hrd2.
  destruct (load_session n k T w2 rel l nm fd i data Hrd2 Hat2 Hrg2 M2 Hk Hfit Hrows) as (h & w3 & r & w4 & l' & rids & R3 & R4 & Hp & Hrg4 & Hr).
  assert (total_len (tuple_of <$> B) = Z.of_nat k) as Hw8.
  { rewrite <- Hsum. apply total_len_sum; [|rewrite Hsum; unfold PAGESIZE, DPFIXED, sizeof_slot, sizeof_short, sizeof_int in Hfit; lia].
    apply Forall_fmap. eapply Forall_impl; [|exact Hlens]. by intros a. }
  unfold UT_Load. rewrite decide_False by naive_solver. run_with (io_run _ w out _ _ R0). run_with (io_run _ w0 out _ _ R1). run_with (defined_run _ _ (w1, out) Hrn).
  run_with (io_run _ w1 out _ _ R2). run_with (io_run _ w2 out _ _ R3). rewrite decide_False by (intros Hx; by apply Hx). fold B. rewrite Hw8, decide_False by lia.
  destruct r as [[h4 cnt]|e].
  2: { destruct Hr as (G1 & G2 & G3). run_with (io_run _ w3 out _ _ R4). exists (Err e), w4, out, l', rids. do 6 (split; [done|]). exact (rg_fd _ _ _ _ _ Hrg4). }
  destruct Hr as (Hcnt & Hl & w5 & R5 & Hfin & Hrg5). cbn [fst snd] in Hcnt, R5. subst cnt. run_with (io_run _ w3 out _ _ R4).
  destruct (close_data_run fd i data nm T w5 Hrg5 (fi_world _ _ _ _ _ Hfin)) as (w6 & R6 & Ew6 & Hu6).
  set (out' := out ++ chars "Number of records inserted: " ++ fmt_d (Z.of_nat (length (rows k data))) ++ newline).
  exists (Ok tt), w6, out', l', rids. split; [|split; [done|split; [done|split; [|done]]]].
  { erewrite (bind_Ok _ _ _ tt (w4, out')) by done. run_with (io_run _ w4 out' _ _ R5). by run_with (io_run _ w5 out' _ _ R6). }
  by apply (load_closed T w lr la m A rel nm i data w2 l' w5 w6).
Qed.

(** ** A file that another program wrote *)

Section Added.
Implicit Types (T : gset (Z * Z)) (w : World) (nm : string) (c : block) (k j : Z).

Definition add_file nm c w : World :=
  let u := unix (w_disk w) in
  set_disk (set_unix (mkUnix (<[nm := u_nextIno u]> (u_dir u)) (<[u_nextIno u := c]> (u_data u)) (u_fds u) (u_nextIno u + 1)
    (u_nextFd u) (u_maxFds u) (u_fsize u)) (w_disk w)) w.

Lemma add_file_ok T w nm c :
  world_ok T w -> u_dir (unix (w_disk w)) !! nm = None -> Z.of_nat (length c) <= u_fsize (unix (w_disk w)) -> world_ok T (add_file nm c w).
Proof.
  intros Hw Hno Hlen. pose proof (inode_old T w) as Hold. apply world_ok_dir; try done.
  - destruct (wo_unix _ _ Hw) as [U1 U2 U3 U4 U5 U6]. split; cbn; try done.
    + intros n1 n2 i [[<- <-]|[Hn1 Hi1]]%lookup_insert_Some [[<- Hi2]|[Hn2 Hi2]]%lookup_insert_Some; try done.
      * pose proof (Hold n2 _ Hw Hi2). lia.
      * subst i. pose proof (Hold n1 _ Hw Hi1). lia.
      * by eapply U1.
    + intros n1 i [[<- <-]|[Hn1 Hi1]]%lookup_insert_Some; [by rewrite lookup_insert_eq|]. pose proof (Hold n1 _ Hw Hi1).
      rewrite lookup_insert_ne by lia. by eapply U2.
    + intros i c' [[<- _]|[_ Hc]]%lookup_insert_Some; [lia|]. specialize (U3 i c' Hc). lia.
    + intros i c' [[_ <-]|[_ Hc]]%lookup_insert_Some; [done|by eapply U5].
  - intros f i Hi. destruct (world_dir T w f i Hw Hi) as [n Hn]. pose proof (Hold n i Hw Hn). cbn. by rewrite lookup_insert_ne by lia.
  - intros f o Ho. destruct (oo_ino _ _ _ (wo_obj _ _ Hw f o Ho)) as (i & _ & Hd). cbn. rewrite lookup_insert_ne; [done|]. intros Heq. rewrite <- Heq in Hd. congruence.
Qed.

Lemma add_file_page T w nm c nm' n : world_ok T w -> nm' <> nm -> named_page (add_file nm c w) nm' n = named_page w nm' n.
Proof.
  intros Hw Hne. unfold named_page. cbn [w_open add_file set_disk]. destruct (of_map (w_open w) !! nm') as [g|].
  - unfold logical. cbn [w_mgr add_file set_disk]. destruct (frame_of (w_mgr w) g n); [done|].
    change (disk_page (w_disk (add_file nm c w)) g n = disk_page (w_disk w) g n). unfold disk_page, content.
    change (conn (w_disk (add_file nm c w)) g) with (conn (w_disk w) g). destruct (conn (w_disk w) g) as [i|] eqn:Hi; [|done].
    destruct (world_dir T w g i Hw Hi) as [x Hx]. pose proof (inode_old T w x i Hw Hx). cbn. by rewrite lookup_insert_ne by lia.
  - unfold stored_page. cbn. rewrite lookup_insert_ne by done. destruct (u_dir (unix (w_disk w)) !! nm') as [i|] eqn:Hi; [|done].
    pose proof (inode_old T w nm' i Hw Hi). cbn. by rewrite lookup_insert_ne by lia.
Qed.

Lemma add_file_heap T w nm c nm' l : world_ok T w -> nm' <> nm -> heap_at T w nm' l -> heap_at T (add_file nm c w) nm' l.
Proof. intros Hw Hne [H1 H2 H3]. split; [done| |done]. eapply heap_ok_ext; [|exact H2]. intros n _. by apply (add_file_page T). Qed.

Lemma add_file_ready k j T w nm c :
  ready k j T w -> u_dir (unix (w_disk w)) !! nm = None -> Z.of_nat (length c) <= u_fsize (unix (w_disk w)) -> ready k j T (add_file nm c w).
Proof. intros [R1 R2 R3 R4 R5 R6 R7] Hno Hl. split; try done. by apply add_file_ok. Qed.

Lemma add_file_data w nm c :
  0 <= u_nextFd (unix (w_disk w)) -> (forall fd, u_fds (unix (w_disk w)) !! fd <> Some (u_nextIno (unix (w_disk w)))) ->
  data_file nm (u_nextIno (unix (w_disk w))) c (add_file nm c w).
Proof. intros H1 H2. split; cbn; [apply lookup_insert_eq|apply lookup_insert_eq|done|done]. Qed.

End Added.

(** Two tuples of the relation [t] and two bytes more. *)
Definition demo_data : block := int_bytes 7 ++ chars "hello" ++ int_bytes 8 ++ chars "world" ++ chars "xy".

Lemma load_complete_witness :
  exists w0 n fuel r w' out' l' rids, cat_world1 = Some w0 /\ UT_Load n fuel "t" "d" (add_file "d" demo_data w0, []) = Some (r, (w', out')) /\
    heap_recs l' ≡ₚ zip rids [int_bytes 7 ++ chars "hello"; int_bytes 8 ++ chars "world"] /\ (r = Ok tt -> heap_at ∅ w' "t" l' /\ length rids = 2%nat).
Proof.
  destruct cat_world1_ok as (w0 & lr & la & A & Hw0 & Hrd & [n0 Hat] & [C1 C2 C3 C4] & -> & _ & _). pose proof (rdy_world _ _ _ _ Hrd) as Hok.
  assert ((fun w => bool_decide (u_dir (unix (w_disk w)) !! "d"%string = None /\ u_fsize (unix (w_disk w)) = 65536 /\ 0 <= u_nextFd (unix (w_disk w)) /\ u_fds (unix (w_disk w)) = ∅)) <$>
    cat_world1 = Some true) as Hv by (vm_compute; reflexivity).
  rewrite Hw0 in Hv. apply (inj Some), bool_decide_eq_true_1 in Hv as (V1 & V2 & V3 & V4).
  set (w := add_file "d" demo_data w0). set (n := (4 + length (heap_recs la))%nat). set (fuel := (length (heap_recs la) + length la + (length (heap_recs lr) + length lr))%nat).
  assert (Z.of_nat (length demo_data) <= u_fsize (unix (w_disk w0))) as Hlen by (rewrite V2; vm_compute; discriminate).
  destruct (load_complete n fuel 9 ∅ w [] lr la {["t"%string := 2]} demo_A "t" "d" (u_nextIno (unix (w_disk w0))) demo_data [(n0, [])]) as (r & w' & out' & l' & rids & R & Hp & Hr).
  - exact (ready_le 2 4 3 8 _ _ ltac:(lia) ltac:(lia) (add_file_ready _ _ _ _ _ _ Hrd V1 Hlen)).
  - split; [by apply add_file_heap|exact C2|by apply add_file_heap|exact C4].
  - by apply add_file_heap.
  - exact demo_key.
  - discriminate.
  - discriminate.
  - rewrite lookup_singleton_eq. exact (ex_intro _ 2 eq_refl).
  - discriminate.
  - exact (bool_decide_unpack (Forall (fun a => 0 <= at_len a) (List.filter (of_rel "t") demo_A)) I).
  - reflexivity.
  - lia.
  - vm_compute. discriminate.
  - apply add_file_data; [exact V3|]. rewrite V4. intros fd. rewrite lookup_empty. discriminate.
  - exact (bool_decide_unpack ("d"%string ∉ ["" : string; "t"; RELCATNAME; ATTRCATNAME]%string) I).
  - exact (Nat.le_add_l _ _).
  - unfold n. lia.
  - exact (Nat.le_add_r _ _).
  - change (length (rows 9 demo_data)) with 2%nat. unfold n. lia.
  - exists w0, n, fuel, r, w', out', l', rids. split; [exact Hw0|]. split; [exact R|]. split; [rewrite app_nil_r in Hp; exact Hp|].
    intros ->. destruct Hr as (H1 & H2 & _). exact (conj (ld_heap _ _ _ _ _ _ _ _ _ _ _ _ H2) H1).
Defined.
