(* ===== verification/SortProps.v ===== *)
(** * What the external sort does *)

From stdpp Require Import sorting.
From S2P Require Export Sort QueryProps PrintProps QueryScan.

(** ** Choosing the smallest record *)

Section Choose.
Context (key : Record -> Z).
Implicit Types (i : nat) (x y : Record) (qs : list (list Record)) (best : option (nat * Record)).

(** The first smallest head of the queues. *)
Fixpoint choose i qs best : option (nat * Record) :=
  match qs with
  | [] => best
  | [] :: qs => choose (S i) qs best
  | (x :: _) :: qs =>
      choose (S i) qs match best with None => Some (i, x) | Some (_, y) => if decide (key x < key y) then Some (i, x) else best end
  end.

(** The heads of the queues before [i] are not smaller than [best]. *)
Definition best_of qs best : Prop :=
  match best with
  | None => Forall (.= []) qs
  | Some (j, y) => (exists q, qs !! j = Some (y :: q)) /\ forall q x, q ∈ qs -> head q = Some x -> key y <= key x
  end.

Lemma choose_ok qs qs' best : best_of qs' best -> best_of (qs' ++ qs) (choose (length qs') qs best).
Proof.
  revert qs' best. induction qs as [|[|x q] qs IH]; intros qs' best Hb; cbn [choose]; [by rewrite app_nil_r| |].
  - specialize (IH (qs' ++ [[]]) best). rewrite length_app, <- app_assoc, Nat.add_1_r in IH. apply IH. destruct best as [[j y]|]; cbn in Hb |- *.
    + destruct Hb as [[q Hq] Hmin]. split; [exists q; by apply lookup_app_l_Some|]. intros q' x [Hin|Hin]%elem_of_app Hx; [by eapply Hmin|].
      by apply list_elem_of_singleton in Hin as ->.
    + apply Forall_app. by split; [|constructor].
  - specialize (IH (qs' ++ [x :: q])). rewrite length_app, <- app_assoc, Nat.add_1_r in IH. apply IH. destruct best as [[j y]|]; cbn in Hb |- *.
    + destruct Hb as [[q0 Hq] Hmin]. case_decide as Hlt; split.
      * exists q. by apply list_lookup_middle.
      * intros q' z [Hin|Hin]%elem_of_app Hz; [pose proof (Hmin q' z Hin Hz); lia|]. apply list_elem_of_singleton in Hin as ->. injection Hz as ->. lia.
      * exists q0. by apply lookup_app_l_Some.
      * intros q' z [Hin|Hin]%elem_of_app Hz; [by eapply Hmin|]. apply list_elem_of_singleton in Hin as ->. injection Hz as ->. lia.
    + split; [exists q; by apply list_lookup_middle|]. intros q' z [Hin|Hin]%elem_of_app Hz.
      * rewrite list.Forall_forall in Hb. by rewrite (Hb _ Hin) in Hz.
      * apply list_elem_of_singleton in Hin as ->. injection Hz as ->. lia.
Qed.

(** Taking the smallest head over and over sorts sorted queues. *)
Inductive merges : list (list Record) -> list Record -> Prop :=
  | merges_nil qs : choose 0 qs None = None -> merges qs []
  | merges_cons qs i x out : choose 0 qs None = Some (i, x) -> merges (alter tail i qs) out -> merges qs (x :: out).

Lemma alter_head qs i x q : qs !! i = Some (x :: q) -> concat qs ≡ₚ x :: concat (alter tail i qs).
Proof.
  revert i. induction qs as [|q0 qs IH]; intros [|i] Hi; cbn in Hi; [done..| |].
  - injection Hi as ->. done.
  - cbn. rewrite (IH i Hi). by rewrite Permutation_middle.
Qed.

Abbreviation key_sorted := (StronglySorted (fun x y => key x <= key y)).

Lemma merges_ok qs out : merges qs out -> Forall key_sorted qs -> out ≡ₚ concat qs /\ key_sorted out.
Proof.
  induction 1 as [qs Hc|qs i x out Hc Hm IH]; intros Hs; pose proof (choose_ok qs [] None (Forall_nil_2 _)) as Hb; cbn in Hb; rewrite Hc in Hb; cbn in Hb.
  - split; [|constructor]. clear -Hb. by induction Hb as [|q qs -> _ IH].
  - destruct Hb as [[q Hq] Hmin]. destruct IH as [Hp Hso].
    { apply Forall_alter; [done|]. intros q' Hq' Hq''. destruct Hq'' as [|y q'' H1 H2]; [constructor|done]. }
    assert (x :: out ≡ₚ concat qs) as Hp' by (rewrite (alter_head _ _ _ _ Hq), Hp; done).
    split; [done|]. constructor; [done|]. apply list.Forall_forall. intros y Hy.
    assert (y ∈ concat qs) as Hy1 by (rewrite <- Hp'; by right).
    apply list_elem_of_In, in_concat in Hy1 as (q' & Hin & Hy'). apply list_elem_of_In in Hin, Hy'. rewrite list.Forall_forall in Hs. specialize (Hs q' Hin).
    destruct q' as [|z q']; [by apply not_elem_of_nil in Hy'|]. pose proof (Hmin _ z Hin eq_refl) as Hz.
    apply elem_of_cons in Hy' as [->|Hy']; [done|]. inversion_clear Hs as [|? ? _ Hall]. rewrite list.Forall_forall in Hall. specialize (Hall y Hy'). lia.
Qed.

End Choose.

(** ** Fetching the next record of a run *)

(** What a run has to give: the records from here on, those it gives again
    after a mark at this place, and those from its last mark on. *)
Record Queue : Set := mkQueue { q_now : list Record; q_again : list Record; q_mark : option (list Record) }.

(** After the first record was looked at, after it was taken, after [setMark]
    and after [gotoMark]. *)
Definition q_look (q : Queue) : Queue := mkQueue (q_now q) (q_now q) (q_mark q).
Definition q_take (q : Queue) : Queue := mkQueue (tail (q_now q)) (q_now q) (q_mark q).
Definition q_set (q : Queue) : Queue := mkQueue (q_now q) (q_again q) (Some (q_again q)).
Definition q_goto (q : Queue) : Queue := let m := default [] (q_mark q) in mkQueue m m (q_mark q).

(** The state of the run: at its end; with a record that was looked at; with a
    record that was taken; before the first record.  [rest] are the records
    the scan has not come to. *)
Inductive holds (run : RUN) (l : list hpage) (h : HeapFile) (rest : list (RID * Record)) (np : nat) : list Record -> list Record -> Prop :=
  | holds_end rid : rn_valid run = Some true -> rn_rid run = Some rid -> pageNo rid < 0 -> holds run l h rest np [] []
  | holds_rec rid x : rn_valid run = Some true -> rn_rid run = Some rid -> 0 <= pageNo rid -> stands_at l h rid x rest np -> rn_rec run = Some x ->
      holds run l h rest np (x :: rest.*2) (x :: rest.*2)
  | holds_used rid x : rn_valid run = Some false -> rn_rid run = Some rid -> 0 <= pageNo rid -> stands_at l h rid x rest np ->
      holds run l h rest np rest.*2 (x :: rest.*2)
  | holds_new rid : rn_valid run = Some false -> rn_rid run = Some rid -> pageNo rid < 0 -> holds run l h rest np rest.*2 [].

(** The mark of the run, and the records from it on. *)
Definition keeps_mark (fuel : nat) (run : RUN) (s : HeapFileScan) (l : list hpage) (m : list Record) : Prop :=
  exists rid rest np, rn_mark run = Some rid /\ stands l (at_mark s) rest np /\ (length rest + np < fuel)%nat /\
    ((pageNo rid < 0 /\ m = []) \/ (0 <= pageNo rid /\ exists x, stands_at l (at_mark s) rid x rest np /\ m = x :: rest.*2)).

(** The run with the scan of the object [x] of a crew has the records [q]. *)
Definition queue_at (fuel : nat) (run : RUN) (q : Queue) (x : Obj * list hpage) : Prop :=
  exists s rest np, rn_inFile run = Some s /\ o_heap x.1 = hfs_base s /\ sc_filter s = None /\
    stands x.2 (hfs_base s) rest np /\ (length rest + np < fuel)%nat /\ holds run x.2 (hfs_base s) rest np (q_now q) (q_again q) /\
    forall m, q_mark q = Some m -> keeps_mark fuel run s x.2 m.

Lemma over_runs_run {A} (loop : list RUN -> CODE World (result A * list RUN)) w w' sf r runs :
  loop (sf_runs sf) w = Some (Ok (r, runs), w') -> over_runs loop (w, sf) = Some (r, (w', set_runs runs sf)).
Proof.
  intros R. unfold over_runs. run_with (member_run (fun s : SortedFile => Some s) w sf sf eq_refl). run_with (io_run _ w sf _ _ R). by run_assign.
Qed.

Section Runs.
Context (k : Z) (T0 : gset (Z * Z)) (w0 : World).
Local Abbreviation aboard := (aboard k T0 w0).
Implicit Types (T : gset (Z * Z)) (w : World) (x : Obj * list hpage) (xs : list (Obj * list hpage)) (run : RUN) (runs : list RUN)
  (q : Queue) (qs : list Queue) (names : list string) (c : Z) (fuel : nat).

Lemma aboard_pages c names xs T w y l (n : Z) : aboard c names xs T w -> (y, l) ∈ xs -> n ∈ l.*1 -> 1 <= n.
Proof.
  intros Ha Hin ([n' cs] & -> & (l1 & l2 & ->)%list_elem_of_split)%list_elem_of_fmap_1.
  destruct (cur_entry _ _ _ _ _ _ (ab_heap _ _ _ _ _ _ _ _ Ha _ _ Hin) eq_refl) as (_ & p & Hp & _).
  apply (wlog_bounds _ _ _ _ _ (ab_world _ _ _ _ _ _ _ _ Ha) Hp).
Qed.

Lemma stands_at_page l h rid r rest np : stands_at l h rid r rest np -> pageNo rid ∈ l.*1.
Proof. intros (l1 & cur & cs & l2 & j & -> & _ & _ & -> & _). rewrite fmap_app. apply elem_of_app. right. by left. Qed.

(** Any object of the crew can be taken for the one opened last. *)
Lemma mid_last (xs1 xs2 : list (Obj * list hpage)) y : xs1 ++ y :: xs2 ≡ₚ (xs1 ++ xs2) ++ [y].
Proof. by rewrite <- app_assoc, (Permutation_app_comm xs2 [y]). Qed.

Lemma aboard_last c names xs1 xs2 y T w : aboard c names (xs1 ++ y :: xs2) T w <-> aboard c names ((xs1 ++ xs2) ++ [y]) T w.
Proof. split; apply aboard_perm; [|symmetry]; apply mid_last. Qed.

Lemma fetch_run fuel c names xs1 x xs2 T w run q :
  aboard c names (xs1 ++ x :: xs2) T w -> queue_at fuel run q x ->
  exists run' x' T' w', fetch fuel run w = Some (Ok (Ok tt, run'), w') /\ aboard c names (xs1 ++ x' :: xs2) T' w' /\
    queue_at fuel run' (q_look q) x' /\ rn_valid run' = Some true.
Proof.
  intros Ha Hq. pose proof Hq as (s & rest & np & Hs & Hb & Hnf & Hst & Hf & Hh & Hm). unfold fetch.
  assert ((rn_valid run = Some true /\ q_look q = q) \/ exists rid, rn_valid run = Some false /\ rn_rid run = Some rid /\ q_now q = rest.*2) as [[Hv ->]|(rid & Hv & Hr & Hnow)].
  { destruct q as [qn qa qm]. cbn in Hh |- *. unfold q_look. cbn. inversion Hh; subst; eauto. }
  { run_with (defined_run _ _ w Hv). exists run, x, T, w. split; [reflexivity|]. by split. }
  destruct x as [[nm f h cur] l]. cbn [fst snd o_heap] in *. subst h. apply aboard_last in Ha.
  assert (predicate s (fun _ => true) rest) as Hp by (intros ? ? _; unfold matchRec; by rewrite Hnf).
  destruct (crew_scanNext_at k T0 w0 fuel np c names (xs1 ++ xs2) nm f s cur l T w (fun _ => true) rest Ha Hst Hp Hf) as
    (r & T1 & w1 & h1 & cur1 & R1 & Ha2 & np1 & Hnp & Hres). rewrite next_match_all in Hres.
  run_with (defined_run _ _ w Hv). run_with (defined_run _ _ w Hs). run_with R1. pose proof (proj2 (aboard_last _ _ _ _ _ _ _) Ha2) as Ha3.
  destruct rest as [|[rid1 rec1] rest1]; destruct Hres as [-> Hst1].
  - rewrite decide_True by done. run_with (defined_run (rn_rid (set_inFile (set_base h1 s) run)) rid w1 Hr).
    eexists _, _, T1, w1. split; [reflexivity|]. split; [exact Ha3|]. split; [|done]. exists (set_base h1 s), [], np1.
    do 4 (split; [done|]). split; [cbn in Hf |- *; lia|]. split; [|done]. cbn [q_now q_again q_look]. rewrite Hnow. by eapply holds_end.
  - run_with (crew_getRecord _ _ _ _ _ _ _ _ _ _ _ _ _ _ _ _ _ Ha2 Hst1). eexists _, _, T1, w1. split; [reflexivity|]. split; [exact Ha3|].
    split; [|done]. exists (set_base h1 s), rest1, np1. do 3 (split; [done|]). split; [by eapply stands_at_stands|]. split; [cbn in Hf; lia|]. split; [|done].
    cbn [q_now q_again q_look]. rewrite Hnow. cbn [fmap list_fmap]. eapply (holds_rec _ _ _ _ _ rid1); [done..| |done|done].
    assert (1 <= pageNo rid1); [|lia]. eapply (aboard_pages _ _ _ _ _ _ l); [exact Ha2|apply elem_of_app; right; by left|by eapply stands_at_page].
Qed.

(** ** [next] *)

Context (type : Datatype) (offset len : Z) (key : Record -> Z) (D : Record -> Prop).
(** The comparison orders the records by their keys. *)
Hypothesis Hcmp : forall x y : Record, D x -> D y -> rec_greater type offset len x y = Some (bool_decide (key y < key x)).

Lemma queue_head fuel run q x : queue_at fuel run q x -> rn_valid run = Some true ->
  exists rid, rn_rid run = Some rid /\ match q_now q with [] => pageNo rid < 0 | y :: _ => 0 <= pageNo rid /\ rn_rec run = Some y end.
Proof.
  intros (s & rest & np & _ & _ & _ & _ & _ & Hh & _) Hv. destruct q as [qn qa qm]. cbn in Hh |- *. inversion Hh; subst; try congruence; eauto.
Qed.

(** Taking the record that was looked at. *)
Lemma queue_take fuel run q x y rest : queue_at fuel run q x -> rn_valid run = Some true -> q_now q = y :: rest -> queue_at fuel (set_valid false run) (q_take q) x.
Proof.
  intros (s & rs & np & Hs & Hb & Hnf & Hst & Hf & Hh & Hm) Hv Hq. exists s, rs, np. do 5 (split; [done|]). split; [|done].
  destruct q as [qn qa qm]. cbn in Hq, Hh |- *. subst qn. inversion Hh; subst; try congruence. by eapply holds_used.
Qed.

Lemma next_loop_run fuel i c names xs1 xs T w runs qs best :
  aboard c names (xs1 ++ xs) T w -> Forall3 (queue_at fuel) runs qs xs -> Forall (Forall D) (q_now <$> qs) ->
  (forall j y, best = Some (j, y) -> D y) ->
  exists runs' xs' T' w', next_loop type offset len fuel i runs best w = Some (Ok (Ok (choose key i (q_now <$> qs) best), runs'), w') /\
    aboard c names (xs1 ++ xs') T' w' /\ Forall3 (queue_at fuel) runs' (q_look <$> qs) xs' /\ Forall (fun run => rn_valid run = Some true) runs'.
Proof.
  intros Ha Hall. revert i xs1 T w best Ha. induction Hall as [|run q x runs qs xs Hq Hall IH]; intros i xs1 T w best Ha HD Hbest.
  - exists [], [], T, w. split; [done|]. split; [done|]. by split; constructor.
  - rewrite fmap_cons in HD. apply list.Forall_cons in HD as [HDq HD].
    destruct (fetch_run fuel c names xs1 x xs T w run q Ha Hq) as (run1 & x1 & T1 & w1 & R1 & Ha1 & Hq1 & Hv1).
    destruct (queue_head fuel run1 _ x1 Hq1 Hv1) as (rid & Hr & Hhd). cbn [q_now q_look] in Hhd. rewrite cons_middle, app_assoc in Ha1.
    set (best' := match q_now q with [] => best | y :: _ => match best with None => Some (i, y) | Some (_, z) => if decide (key y < key z) then Some (i, y) else best end end).
    assert (forall j y, best' = Some (j, y) -> D y) as Hbest'.
    { subst best'. destruct (q_now q) as [|y l]; [done|]. apply list.Forall_cons in HDq as [Hy _].
      destruct best as [[j z]|]; [case_decide; [|done]|]; intros j' y'; intros [= -> ->]; done. }
    destruct (IH (S i) (xs1 ++ [x1]) T1 w1 best' Ha1 HD Hbest') as (runs2 & xs2 & T2 & w2 & R2 & Ha2 & Hall2 & Hv2).
    exists (run1 :: runs2), (x1 :: xs2), T2, w2. rewrite <- app_assoc in Ha2.
    split; [|split; [done|]; by split; constructor].
    cbn [next_loop]. run_with R1. run_with (defined_run _ _ w1 Hr). rewrite fmap_cons.
    assert (choose key i (q_now q :: (q_now <$> qs)) best = choose key (S i) (q_now <$> qs) best') as -> by (subst best'; by destruct (q_now q)).
    erewrite bind_Ok; [cbn beta iota; by run_with R2|]. subst best'. destruct (q_now q) as [|y l].
    + by rewrite decide_True.
    + destruct Hhd as [Hpos Hrec]. rewrite decide_False by lia. run_with (defined_run _ _ w1 Hrec). apply list.Forall_cons in HDq as [Hy _].
      destruct best as [[j z]|]; [|done]. run_with (defined_run _ _ w1 (Hcmp z y (Hbest j z eq_refl) Hy)). by rewrite bool_decide_decide; case_decide.
Qed.

(** The queues after [next]: at the end of the file, or with the run [i] chosen. *)
Definition q_next (r : option (nat * Record)) qs : list Queue :=
  match r with None => q_look <$> qs | Some (i, _) => alter q_take i (q_look <$> qs) end.

(** The object after [next], which has the record chosen from the queues. *)
Lemma next_run fuel c names xs T w sf qs :
  aboard c names xs T w -> Forall3 (queue_at fuel) (sf_runs sf) qs xs -> Forall (Forall D) (q_now <$> qs) ->
  sf_type sf = type -> sf_offset sf = offset -> sf_length sf = len ->
  let r := choose key 0 (q_now <$> qs) None in
  exists runs xs' T' w', aboard c names xs' T' w' /\ Forall3 (queue_at fuel) runs (q_next r qs) xs' /\
    next fuel (w, sf) = Some (match r with None => Err FILEEOF | Some (_, y) => Ok y end, (w', set_runs runs sf)).
Proof.
  intros Ha Hall HD Ht Ho Hl r. unfold next. run_with (member_run (fun s : SortedFile => Some s) w sf sf eq_refl).
  destruct (next_loop_run fuel 0 c names [] xs T w (sf_runs sf) qs None Ha Hall HD) as (runs' & xs' & T' & w' & R & Ha' & Hall' & Hv); [done|].
  rewrite <- Ht, <- Ho, <- Hl in R. pose proof (over_runs_run (fun runs => next_loop (sf_type sf) (sf_offset sf) (sf_length sf) fuel 0 runs None) _ _ _ _ _ R) as Ro.
  fold r in Ro. destruct (sf_runs sf) as [|run0 runs0] eqn:Hruns.
  - inversion Hall; subst qs xs. exists [], [], T, w. split; [done|]. split; [constructor|]. cbn. destruct sf. cbn in Hruns. by subst.
  - destruct r as [[i y]|] eqn:Hc; [|exists runs', xs', T', w'; split; [done|]; split; [done|]; by run_with Ro].
    exists (alter (set_valid false) i runs'), xs', T', w'. split; [done|]. split; [|run_with Ro; by run_assign].
    pose proof (choose_ok key (q_now <$> qs) [] None (Forall_nil_2 _)) as Hb. cbn [length app] in Hb. fold r in Hb. rewrite Hc in Hb.
    destruct Hb as [[q Hq] _]. apply list_lookup_fmap_Some in Hq as (q0 & Hq0 & Hi).
    apply Forall3_alter_lm; [done|]. intros run q' x Hrun Hq' _ Hat. rewrite list_lookup_fmap, Hi in Hq'. injection Hq' as <-.
    eapply queue_take; [done|exact (Forall_lookup_1 _ _ _ _ Hv Hrun)|done].
Qed.

Lemma now_next r qs : q_now <$> q_next r qs = match r with None => q_now <$> qs | Some (i, _) => alter tail i (q_now <$> qs) end.
Proof.
  assert (q_now <$> (q_look <$> qs) = q_now <$> qs) as Hl by (rewrite <- list_fmap_compose; by apply list_fmap_ext).
  destruct r as [[i y]|]; [|done]. cbn [q_next]. rewrite (list_fmap_alter _ _ tail); [by rewrite Hl|]. by apply Forall_true.
Qed.

(** [while (sf.next(rec) == OK)]: the records, when it ends with the end of the
    file; [n] bounds them. *)
Fixpoint next_all (n fuel : nat) : SORT (list Record) :=
  match n with
  | O => undef
  | S n =>
      let! r := attempt (next fuel) in
      match r with
      | Err st => if decide (st = FILEEOF) then ret [] else throw st
      | Ok rec => let! out := next_all n fuel in ret (rec :: out)
      end
  end.

Lemma next_all_run (n : nat) fuel c names xs T w sf qs :
  aboard c names xs T w -> Forall3 (queue_at fuel) (sf_runs sf) qs xs -> Forall (Forall D) (q_now <$> qs) ->
  sf_type sf = type -> sf_offset sf = offset -> sf_length sf = len -> (length (concat (q_now <$> qs)) < n)%nat ->
  exists out sf' xs' T' w', next_all n fuel (w, sf) = Some (Ok out, (w', sf')) /\ aboard c names xs' T' w' /\ merges key (q_now <$> qs) out.
Proof.
  revert xs T w sf qs. induction n as [|n IH]; intros xs T w sf qs Ha Hall HD Ht Ho Hl Hn; [lia|].
  destruct (next_run fuel c names xs T w sf qs Ha Hall HD Ht Ho Hl) as (runs & xs1 & T1 & w1 & Ha1 & Hall1 & R1). cbn [next_all].
  run_with (attempt_run _ _ _ _ R1). pose proof (now_next (choose key 0 (q_now <$> qs) None) qs) as Hnow.
  destruct (choose key 0 (q_now <$> qs) None) as [[i y]|] eqn:Hch.
  - pose proof (choose_ok key (q_now <$> qs) [] None (Forall_nil_2 _)) as Hb. cbn [length app] in Hb. rewrite Hch in Hb. destruct Hb as [[q Hq] _].
    pose proof (Permutation_length (alter_head _ i y q Hq)) as Hlen. cbn in Hlen.
    destruct (IH xs1 T1 w1 (set_runs runs sf) _ Ha1 Hall1) as (out & sf' & xs2 & T2 & w2 & R2 & Ha2 & Hm); rewrite ?Hnow; [|done|done|done|lia|].
    { apply Forall_alter; [done|]. intros q' _ Hq'. by destruct Hq'. }
    rewrite Hnow in Hm. exists (y :: out), sf', xs2, T2, w2. split; [by run_with R2|]. split; [done|by eapply merges_cons].
  - exists [], (set_runs runs sf), xs1, T1, w1. rewrite decide_True by done. split; [done|]. split; [done|by apply merges_nil].
Qed.

End Runs.

(** ** [startScans] *)

Lemma start_loop_run k j T0 w0 fuel c xs T w runs ls :
  aboard k T0 w0 c [] xs T w -> ready k j T0 w0 -> c + Z.of_nat (length runs) <= j -> Z.of_nat (length xs + length runs) <= k ->
  Forall2 (fun run l => heap_at T0 w0 (rn_name run) l /\ (length (heap_recs l) + length l <= fuel)%nat) runs ls ->
  NoDup (names_of xs ++ (rn_name <$> runs)) ->
  exists runs' xs' T' w', start_loop runs w = Some (Ok (Ok tt, runs'), w') /\ aboard k T0 w0 (c + Z.of_nat (length runs)) [] (xs ++ xs') T' w' /\
    Forall3 (queue_at fuel) runs' ((fun l => mkQueue (heap_recs l).*2 [] None) <$> ls) xs'.
Proof.
  intros Ha Hrd Hj Hk Hall. revert c xs T w Ha Hj Hk. induction Hall as [|run l runs ls [Hat Hf] Hall IH]; intros c xs T w Ha Hj Hk Hnd.
  - exists [], [], T, w. rewrite app_nil_r, Z.add_0_r. split; [done|]. by split; [|constructor].
  - cbn [length fmap list_fmap] in *. assert (rn_name run ∉ names_of xs) as Hn.
    { apply list.NoDup_app in Hnd as (_ & Hdj & _). intros Hin. apply (Hdj _ Hin). by left. }
    destruct (crew_open_scan k T0 w0 c [] xs T w (rn_name run) l j Ha Hrd ltac:(lia) ltac:(lia) Hat Hn ltac:(apply not_elem_of_nil)) as
      (f & s & cur & T1 & w1 & np & R1 & Ha1 & Hnp & Hst & Hnf).
    set (s1 := mkHeapFileScan (hfs_base s) (sc_offset s) (sc_length s) (sc_type s) None (sc_op s) (markedPageNo s) (markedRec s)).
    assert (call (HeapFileScan_startScan 0 0 STRING None EQ) s w1 = Some (Ok (Ok tt, s1), w1)) as R2 by done.
    destruct (IH (c + 1) (xs ++ [(scan_obj (rn_name run) f s1 cur, l)]) T1 w1) as (runs2 & xs2 & T2 & w2 & R3 & Ha2 & Hq2).
    { exact Ha1. } { lia. } { rewrite length_app. cbn. lia. }
    { unfold names_of in *. rewrite !fmap_app. cbn. by rewrite <- app_assoc. }
    eexists _, ((scan_obj (rn_name run) f s1 cur, l) :: xs2), T2, w2. split; [cbn [start_loop]; run_with R1; rewrite decide_False by (by intros H; apply H); run_with R2; by run_with R3|].
    split; [rewrite <- app_assoc in Ha2; by replace (c + Z.of_nat (S (length runs))) with (c + 1 + Z.of_nat (length runs)) by lia|].
    constructor; [|done]. exists s1, (heap_recs l), np. do 3 (split; [done|]). split; [by apply Hst|]. split; [lia|].
    split; [|done]. by eapply holds_new.
Qed.

(** ** Integer attributes *)

Lemma rec_greater_int offset (x y : Record) : is_Some (rd32 offset x) -> is_Some (rd32 offset y) -> inS 32 (int_at offset x - int_at offset y) ->
  rec_greater INTEGER offset 4 x y = Some (bool_decide (int_at offset y < int_at offset x)).
Proof.
  unfold int_at, rec_greater, rd32. destruct (rd offset 4 x) as [p1|] eqn:H1; [|by intros [? ?]]. destruct (rd offset 4 y) as [p2|] eqn:H2; [|by intros _ [? ?]].
  intros _ _. cbn [fmap option_fmap option_map default mbind option_bind]. intros Hd.
  assert (forall p z, rd offset 4 z = Some p -> rd32 0 p = Some (s32 (le_dec p))) as Hw.
  { intros p z Hp. pose proof (rd_length _ _ _ _ Hp) as Hl. unfold rd32, rd. rewrite decide_True by lia. by rewrite drop_0, list.take_ge by lia. }
  unfold reccmp, rec_diff. rewrite (Hw _ _ H1), (Hw _ _ H2). cbn [mbind option_bind]. rewrite (wrapS_id 32) by (done || lia).
  rewrite flt_of_int_sign by done. destruct (Z.compare_spec (s32 (le_dec p1) - s32 (le_dec p2)) 0) as [He|He|He].
  - rewrite He. cbn. f_equal. rewrite !bool_decide_eq_false_2; [done|lia|lia].
  - cbn. f_equal. rewrite !bool_decide_eq_false_2; [done|lia|lia].
  - cbn. f_equal. rewrite !bool_decide_eq_true_2; [done|lia|lia].
Qed.

Abbreviation by_int off := (StronglySorted (fun x y : Record => int_at off x <= int_at off y)).

(** [startScans] on the runs of a sort by an integer attribute. *)
Lemma merge_start fuel T w sf ls offset :
  ready (Z.of_nat (length (sf_runs sf))) (Z.of_nat (length (sf_runs sf))) T w -> NoDup (rn_name <$> sf_runs sf) ->
  Forall2 (fun run l => heap_at T w (rn_name run) l /\ (length (heap_recs l) + length l <= fuel)%nat) (sf_runs sf) ls ->
  let runs := (fun l => (heap_recs l).*2) <$> ls in
  (forall x y, x ∈ concat runs -> y ∈ concat runs -> is_Some (rd32 offset x) /\ inS 32 (int_at offset x - int_at offset y)) ->
  exists runs1 xs T1 w1 qs, startScans (w, sf) = Some (Ok tt, (w1, set_runs runs1 sf)) /\
    aboard (Z.of_nat (length (sf_runs sf))) T w (Z.of_nat (length (sf_runs sf))) [] xs T1 w1 /\ Forall3 (queue_at fuel) runs1 qs xs /\
    q_now <$> qs = runs /\ Forall (fun q => q_again q = []) qs /\ Forall (Forall (fun x => x ∈ concat runs)) runs /\
    forall x y : Record, x ∈ concat runs -> y ∈ concat runs -> rec_greater INTEGER offset 4 x y = Some (bool_decide (int_at offset y < int_at offset x)).
Proof.
  intros Hrd Hnd Hall runs Hcmp. pose proof (rdy_world _ _ _ _ Hrd) as Hw.
  pose proof (aboard_nil (Z.of_nat (length (sf_runs sf))) T w T w eq_refl eq_refl Hw) as Ha.
  destruct (start_loop_run _ _ T w fuel 0 [] T w (sf_runs sf) ls Ha Hrd ltac:(lia) ltac:(cbn; lia) Hall Hnd) as (runs1 & xs & T1 & w1 & R1 & Ha1 & Hq).
  eexists runs1, xs, T1, w1, _. split; [exact (over_runs_run start_loop _ _ sf _ _ R1)|]. split; [exact Ha1|]. split; [exact Hq|].
  split; [subst runs; rewrite <- list_fmap_compose; by apply list_fmap_ext|]. split; [apply Forall_fmap, Forall_true; done|]. split.
  - apply list.Forall_forall. intros q Hin. apply list.Forall_forall. intros x Hx. apply list_elem_of_In, in_concat. exists q. by split; apply list_elem_of_In.
  - intros x y Hx Hy. destruct (Hcmp x y Hx Hy) as [H1 H2]. apply rec_greater_int; [done|apply (Hcmp y x Hy Hx)|done].
Qed.

(** C18.  The merge phase of the external sort on an integer attribute: with
    the runs in heap files whose tuples are in order, [startScans] and then
    [next] until it returns [FILEEOF] give every tuple of every run, each as
    often as it occurs, in order; no file changes.  Differences must not
    overflow [int]. *)
Theorem merge_sorted (n fuel : nat) T w sf ls offset :
  sf_type sf = INTEGER -> sf_offset sf = offset -> sf_length sf = 4 ->
  ready (Z.of_nat (length (sf_runs sf))) (Z.of_nat (length (sf_runs sf))) T w -> NoDup (rn_name <$> sf_runs sf) ->
  Forall2 (fun run l => heap_at T w (rn_name run) l /\ (length (heap_recs l) + length l <= fuel)%nat) (sf_runs sf) ls ->
  let runs := (fun l => (heap_recs l).*2) <$> ls in
  Forall (by_int offset) runs ->
  (forall x y, x ∈ concat runs -> y ∈ concat runs -> is_Some (rd32 offset x) /\ inS 32 (int_at offset x - int_at offset y)) ->
  (length (concat runs) < n)%nat ->
  exists out sf' T' w', (startScans ;;; next_all n fuel) (w, sf) = Some (Ok out, (w', sf')) /\
    out ≡ₚ concat runs /\ by_int offset out /\ world_ok T' w' /\ forall nm m, named_page w' nm m = named_page w nm m.
Proof.
  intros Ht Ho Hl Hrd Hnd Hall runs Hs Hcmp Hn.
  destruct (merge_start fuel T w sf ls offset Hrd Hnd Hall Hcmp) as (runs1 & xs & T1 & w1 & qs & R1 & Ha1 & Hq & Hnow & _ & HD & Hgr). fold runs in Hnow, HD, Hgr.
  destruct (next_all_run _ T w INTEGER offset 4 (int_at offset) (fun x => x ∈ concat runs) Hgr n fuel _ _ xs T1 w1 (set_runs runs1 sf) qs Ha1 Hq)
    as (out & sf' & xs' & T2 & w2 & R2 & Ha2 & Hm); [by rewrite Hnow|done|done|done|by rewrite Hnow|]. rewrite Hnow in Hm.
  destruct (merges_ok _ _ _ Hm Hs) as [Hp Hso]. exists out, sf', T2, w2. split; [run_with R1; exact R2|].
  split; [done|]. split; [done|]. split; [apply Ha2|]. intros nm m. apply (kp_named _ _ _ _ (ab_kept _ _ _ _ _ _ _ _ Ha2)), not_elem_of_nil.
Qed.

Definition run1 : list Record := [int_bytes 7 ++ chars "world"; int_bytes 42 ++ chars "hello"].
Definition run2 : list Record := [int_bytes 8 ++ chars "eight"; int_bytes 50 ++ chars "fifty"].
Definition demo_sort : SortedFile := mkSortedFile [set_name "t" newRun; set_name "u" newRun] "r" INTEGER 0 4 (Some []) 2.

(** What a file holds, computed. *)
Definition rows_in (w : World) (name : string) : option (list Record) := (fun l => (heap_recs l).*2) <$> heap_contents (named_page w name).

Lemma rows_in_ok T w name l rows : heap_at T w name l -> rows_in w name = Some rows -> (heap_recs l).*2 = rows.
Proof. intros [_ Hok _] (l' & Hl & ->)%fmap_Some. by rewrite (heap_contents_ok _ _ _ Hok Hl). Qed.

#[local] Opaque filled.

Lemma sort_world_ok : exists w l1 l2, filled run1 run2 = Some w /\ ready 4 6 ∅ w /\ heap_at ∅ w "t" l1 /\ heap_at ∅ w "u" l2 /\
  (heap_recs l1).*2 = run1 /\ (heap_recs l2).*2 = run2.
Proof.
  assert ((fun w => (rows_in w "t", rows_in w "u")) <$> filled run1 run2 = Some (Some run1, Some run2)) as Hc by (vm_compute; reflexivity).
  destruct (filled_ok run1 run2) as (w & la & l1 & l2 & Hw & Hrd & [Ht Hu _ _ _ _]).
  { repeat constructor; by vm_compute. } { repeat constructor; by vm_compute. } { intros H. rewrite H in Hc. discriminate Hc. }
  rewrite Hw in Hc. apply (inj Some) in Hc. injection Hc as H1 H2. exists w, l1, l2.
  exact (conj Hw (conj Hrd (conj Ht (conj Hu (conj (rows_in_ok _ _ _ _ _ Ht H1) (rows_in_ok _ _ _ _ _ Hu H2)))))).
Qed.

Lemma sorted_runs : (forall x, x ∈ run1 ++ run2 -> is_Some (rd32 0 x) /\ 0 <= int_at 0 x <= 50) /\ Forall (by_int 0) [run1; run2].
Proof.
  split; [apply list.Forall_forall; apply (bool_decide_unpack _); vm_compute; exact I|].
  constructor; [|constructor; [|constructor]]; (constructor; [constructor; constructor|constructor; [vm_compute; discriminate|constructor]]).
Qed.

Lemma merge_sorted_witness :
  exists w n fuel, filled run1 run2 = Some w /\
    exists out s, (startScans ;;; next_all n fuel) (w, demo_sort) = Some (Ok out, s) /\ out ≡ₚ run1 ++ run2 /\ by_int 0 out.
Proof.
  destruct sort_world_ok as (w & l1 & l2 & Hw & Hrd & Ht & Hu & H1 & H2).
  set (fuel := (length (heap_recs l1) + length l1 + (length (heap_recs l2) + length l2))%nat). exists w, 5%nat, fuel. split; [exact Hw|].
  destruct sorted_runs as [Hin Hs].
  destruct (merge_sorted 5 fuel ∅ w demo_sort [l1; l2] 0 eq_refl eq_refl eq_refl) as (out & sf' & T' & w' & R & Hp & Hso & _).
  - exact (ready_le 2 4 2 6 _ _ ltac:(lia) ltac:(lia) Hrd).
  - exact (bool_decide_unpack (NoDup ["t"; "u"]%string) I).
  - constructor; [split; [exact Ht|lia]|constructor; [split; [exact Hu|lia]|constructor]].
  - cbn [fmap list_fmap]. rewrite H1, H2. exact Hs.
  - cbn [fmap list_fmap concat]. rewrite H1, H2, app_nil_r. intros x y Hx Hy. destruct (Hin x Hx) as [? ?], (Hin y Hy) as [_ ?]. split; [assumption|unfold inS; lia].
  - cbn [fmap list_fmap concat]. rewrite H1, H2. cbn. lia.
  - exists out, (w', sf'). split; [exact R|]. split; [|exact Hso]. cbn [fmap list_fmap concat] in Hp. rewrite H1, H2, app_nil_r in Hp. exact Hp.
Defined.

(** ** The constructor *)

Section Build.
Context (qsort : (SORTREC -> SORTREC -> option Z) -> list SORTREC -> option (list SORTREC)).
Implicit Types (w : World) (sf : SortedFile) (name : string) (fuel : nat).

(** The scan [sortFile] opens. *)
Lemma sort_scan T w name l : ready 1 1 T w -> heap_at T w name l ->
  exists f s cur T1 w1 np, HeapFileScan_new name w = Some (Ok (OK, s), w1) /\ (np < length l)%nat /\
    let s1 := mkHeapFileScan (hfs_base s) (sc_offset s) (sc_length s) (sc_type s) None (sc_op s) (markedPageNo s) (markedRec s) in
    aboard 1 T w 1 [] [(scan_obj name f s1 cur, l)] T1 w1 /\ stands l (hfs_base s1) (heap_recs l) np /\ predicate s1 (fun _ => true) (heap_recs l).
Proof.
  intros Hrd Hat. pose proof (aboard_nil 1 T w T w eq_refl eq_refl (rdy_world _ _ _ _ Hrd)) as Ha.
  destruct (crew_open_scan 1 T w 0 [] [] T w name l 1 Ha Hrd ltac:(lia) ltac:(cbn; lia) Hat ltac:(apply not_elem_of_nil) ltac:(apply not_elem_of_nil)) as
    (f & s & cur & T1 & w1 & np & R1 & Ha1 & Hnp & Hst & _).
  exists f, s, cur, T1, w1, np. split; [done|]. split; [done|]. split; [done|]. split; [by apply Hst|]. by intros rid r _.
Qed.

(** A file without records gives an object without runs. *)
Lemma sort_empty (n : nat) fuel T w name l sf :
  ready 1 1 T w -> heap_at T w name l -> heap_recs l = [] -> (0 < n)%nat -> (length l <= fuel)%nat ->
  sf_fileName sf = name -> sf_runs sf = [] -> 0 < sf_maxItems sf ->
  exists w', sortFile qsort n fuel (w, sf) = Some (Ok tt, (w', set_runs [] (set_buffer [] sf))) /\ world_ok T w' /\ restored w w' /\
    forall nm m, named_page w' nm m = named_page w nm m.
Proof.
  intros Hrd Hat Hnil Hn Hf Hname Hruns Hmax. destruct (sort_scan T w name l Hrd Hat) as (f & s & cur & T1 & w1 & np & R1 & Hnp & Ha & Hst & Hp). cbn zeta in Ha, Hst, Hp.
  set (s1 := mkHeapFileScan (hfs_base s) _ _ _ None _ _ _) in *. destruct n as [|n]; [lia|].
  destruct (crew_scanNext 1 T w fuel np 1 [] [] name f s1 cur l T1 w1 (fun _ => true) (heap_recs l) Ha Hst Hp) as (r & T2 & w2 & s2 & cur2 & R2 & Ha2 & Hres); [rewrite Hnil; cbn; lia|].
  rewrite Hnil in Hres. cbn in Hres. subst r.
  destruct (aboard_top _ _ _ _ _ [] _ _ _ _ Ha2) as (T3 & b3 & [Hse _ Hend]). cbn [scan_obj o_name o_file o_heap o_cur] in *.
  destruct (delete_scan_run _ _ _ _ _ _ _ Hse) as (w3 & s3 & R3 & _ & He). destruct (Hend w3 He) as [Ha3 _].
  destruct (aboard_over _ _ _ _ _ _ _ Ha3) as (-> & Hw & Hre & Hk). exists w3. split; [|split; [done|]; split; [done|]; intros nm m; apply (kp_named _ _ _ _ Hk), not_elem_of_nil].
  unfold sortFile. run_with (member_run (fun s : SortedFile => Some s) w sf sf eq_refl). rewrite Hname. run_with (io_run _ w sf _ _ R1). rewrite decide_False by (by intros H; apply H).
  assert (call (HeapFileScan_startScan 0 0 STRING None EQ) s w1 = Some (Ok (Ok tt, s1), w1)) as Rs by done.
  run_with (io_run _ w1 sf _ _ Rs). rewrite (bind_Ok (of_res (Ok tt)) _ (w1, sf) tt _ eq_refl).
  assert (sort_runs qsort (S n) fuel s1 (w1, sf) = Some (Ok s2, (w2, set_buffer [] sf))) as Rr.
  { cbn [sort_runs]. run_assign. assert (collect (S n) fuel 0 s1 (w1, set_buffer [] sf) = Some (Ok s2, (w2, set_buffer [] sf))) as Rc.
    { cbn [collect]. run_with (member_run (fun s : SortedFile => Some s) w1 (set_buffer [] sf) _ eq_refl). rewrite decide_True by exact Hmax.
      run_with (io_run _ w1 (set_buffer [] sf) _ _ R2). by rewrite decide_True. }
    run_with Rc. run_with (member_run (fun s : SortedFile => Some s) w2 (set_buffer [] sf) _ eq_refl). run_with (defined_run (sf_buffer (set_buffer [] sf)) [] (w2, set_buffer [] sf) eq_refl).
    by rewrite decide_False by (cbn; lia). }
  run_with Rr. run_with (io_run _ w2 (set_buffer [] sf) _ _ R3). apply over_runs_run. cbn [sf_runs set_buffer]. by rewrite Hruns.
Qed.
End Build.

(** C39.  What the constructor of [SortedFile] reports for wrong parameters
    and for a file without records: [BADSORTPARM] for an attribute that cannot
    be sorted on and [INSUFMEM] for a buffer of less than two items, without
    touching anything; [OK] for a file without records, and then [next]
    returns [FILEEOF], all files are as they were, and pins, open files and
    descriptors are given back. *)
Theorem sort_statuses qsort (n fuel : nat) T w name l offset len type maxItems :
  ready 1 1 T w -> heap_at T w name l -> (0 < n)%nat -> (length (heap_recs l) + length l <= fuel)%nat ->
  let sort := SortedFile_new qsort n fuel name offset len type maxItems w in
  let bad := offset < 0 \/ len < 1 \/ (type = INTEGER /\ len <> 4) \/ (type = FLOAT /\ len <> 4) in
  (bad -> exists sf, sort = Some (Ok (BADSORTPARM, sf), w)) /\
  (~ bad -> maxItems < 2 -> exists sf, sort = Some (Ok (INSUFMEM, sf), w)) /\
  (~ bad -> 2 <= maxItems -> heap_recs l = [] -> exists sf w', sort = Some (Ok (OK, sf), w') /\
     next fuel (w', sf) = Some (Err FILEEOF, (w', sf)) /\ world_ok T w' /\ restored w w' /\ forall nm m, named_page w' nm m = named_page w nm m).
Proof.
  intros Hrd Hat Hn Hf sort bad. set (sf0 := mkSortedFile [] name type offset len None maxItems).
  assert (~ bad -> sort = if decide (maxItems < 2) then Some (Ok (INSUFMEM, sf0), w) else
    match sortFile qsort n fuel (w, set_buffer [] sf0) with Some (r, (w', sf)) => Some (Ok (status_of r, sf), w') | None => None end) as Hok.
  { intros Hb. unfold sort, SortedFile_new, sizeof_int, sizeof_float. rewrite decide_False by (subst bad; naive_solver). rewrite decide_False by (subst bad; naive_solver).
    case_decide; [done|]. unfold bind, call. fold sf0. by destruct (sortFile qsort n fuel (w, set_buffer [] sf0)) as [[r [w' sf]]|]. }
  split; [|split].
  - intros Hb. exists sf0. unfold sort, SortedFile_new, sizeof_int, sizeof_float. destruct (decide (offset < 0 \/ len < 1)) as [?|?]; [reflexivity|]. rewrite decide_True; [reflexivity|]. subst bad. naive_solver.
  - intros Hb Hm. exists sf0. rewrite (Hok Hb). by rewrite decide_True.
  - intros Hb Hm Hnil. destruct (sort_empty qsort n fuel T w name l (set_buffer [] sf0) Hrd Hat Hnil Hn) as (w' & R & Hw & Hre & Hpg); [lia|done..|cbn; lia|].
    rewrite (Hok Hb), R, decide_False by lia. by eexists _, w'.
Qed.

Lemma sort_statuses_witness :
  exists w l sf w', cat_world1 = Some w /\ heap_at ∅ w "t" l /\
    SortedFile_new (fun _ x => Some x) 5 (length l) "t" 0 4 INTEGER 2 w = Some (Ok (OK, sf), w') /\ next (length l) (w', sf) = Some (Err FILEEOF, (w', sf)).
Proof.
  destruct cat_world1_ok as (w & lr & la & A & Hw & Hrd & (n & Hat) & _).
  destruct (sort_statuses (fun _ x => Some x) 5 (length [(n, []) : hpage]) ∅ w "t" [(n, [])] 0 4 INTEGER 2) as (_ & _ & H).
  - exact (ready_le 1 4 1 8 _ _ ltac:(lia) ltac:(lia) Hrd).
  - exact Hat.
  - lia.
  - exact (le_n _).
  - destruct H as (sf & w' & R & R' & _); [intros [?|[?|[[_ ?]|[? _]]]]; [lia|lia|lia|discriminate]|lia|reflexivity|].
    exists w, [(n, [])], sf, w'. exact (conj Hw (conj Hat (conj R R'))).
Defined.


