(* ===== verification/SortMark.v ===== *)
(** * Marks in the sorted output

    [setMark] and [gotoMark] of the external sort, which a sort-merge join
    uses to go back to the first of several equal tuples. *)

From stdpp Require Import sorting.
From S2P Require Export SortProps.

(** ** Merging is a function *)

Section Merging.
Context (key : Record -> Z).
Implicit Types (qs : list (list Record)) (out : list Record).

Lemma merges_unique qs out1 out2 : merges key qs out1 -> merges key qs out2 -> out1 = out2.
Proof.
  intros H. revert out2. induction H as [qs Hc|qs i x out Hc Hm IH]; intros out2 H2; inversion H2 as [? Hc2|? i2 x2 ? Hc2 Hm2]; subst; try congruence.
  rewrite Hc in Hc2. injection Hc2 as <- <-. f_equal. by apply IH.
Qed.

Lemma choose_head qs i x : choose key 0 qs None = Some (i, x) -> exists q, qs !! i = Some (x :: q).
Proof. intros Hc. pose proof (choose_ok key qs [] None (Forall_nil_2 _)) as Hb. cbn [length app] in Hb. rewrite Hc in Hb. apply Hb. Qed.

Lemma merges_total qs : exists out, merges key qs out.
Proof.
  remember (length (concat qs)) as n eqn:Hn. revert qs Hn. induction n as [|n IH]; intros qs Hn;
    (destruct (choose key 0 qs None) as [[i x]|] eqn:Hc; [|exists []; by constructor]);
    destruct (choose_head _ _ _ Hc) as [q Hq]; pose proof (Permutation_length (alter_head qs i x q Hq)) as Hl; cbn in Hl; [lia|].
  destruct (IH (alter tail i qs) ltac:(lia)) as [out Hm]. exists (x :: out). by eapply merges_cons.
Qed.

Lemma merges_length qs out : merges key qs out -> length (concat qs) = length out.
Proof.
  induction 1 as [qs Hc|qs i x out Hc Hm IH].
  - pose proof (choose_ok key qs [] None (Forall_nil_2 _)) as Hb. cbn [length app] in Hb. rewrite Hc in Hb. clear -Hb. by induction Hb as [|q qs -> _ IH].
  - destruct (choose_head _ _ _ Hc) as [q Hq]. rewrite (Permutation_length (alter_head qs i x q Hq)). cbn. by rewrite IH.
Qed.

(** Nothing is left in empty queues. *)
Lemma merges_empty qs : Forall (.= []) qs -> merges key qs [].
Proof.
  intros He. constructor. destruct (choose key 0 qs None) as [[i x]|] eqn:Hc; [|done]. destruct (choose_head _ _ _ Hc) as [q Hq].
  by apply (Forall_lookup_1 _ _ _ _ He) in Hq.
Qed.

End Merging.

(** ** The loops *)

Section Marks.
Context (k : Z) (T0 : gset (Z * Z)) (w0 : World).
Local Abbreviation aboard := (aboard k T0 w0).
Implicit Types (T : gset (Z * Z)) (w : World) (x : Obj * list hpage) (xs : list (Obj * list hpage)) (run : RUN) (runs : list RUN)
  (q : Queue) (qs : list Queue) (names : list string) (c : Z) (fuel : nat).

(** A mark is set in a run. *)
Lemma queue_set fuel run q x s (n : Z) r rid :
  queue_at fuel run q x -> rn_inFile run = Some s -> curPageNo (hfs_base s) = Some n -> curRec (hfs_base s) = Some r -> rn_rid run = Some rid ->
  queue_at fuel (set_mark rid (set_inFile (mkHeapFileScan (hfs_base s) (sc_offset s) (sc_length s) (sc_type s) (sc_filter s) (sc_op s) (Some n) (Some r)) run)) (q_set q) x.
Proof.
  intros (s' & rest & np & Hs & Hb & Hnf & Hst & Hf & Hh & _) Hs' Hn Hr Hrid. rewrite Hs in Hs'. injection Hs' as ->.
  destruct q as [qn qa qm]. cbn [q_now q_again] in Hh.
  set (s1 := mkHeapFileScan _ _ _ _ _ _ _ _). exists s1, rest, np. do 5 (split; [done|]).
  assert (curPageNo (at_mark s1) = curPageNo (hfs_base s) /\ curRec (at_mark s1) = curRec (hfs_base s)) as [E1 E2] by (by rewrite Hn, Hr).
  assert (forall rid' y, stands_at x.2 (hfs_base s) rid' y rest np -> stands_at x.2 (at_mark s1) rid' y rest np) as Hat by (unfold stands_at; by rewrite E1, E2).
  assert (stands x.2 (at_mark s1) rest np) as Hst' by (unfold stands in *; by rewrite E1, E2).
  split; [cbn; inversion Hh; subst; [by eapply holds_end|by eapply holds_rec|by eapply holds_used|by eapply holds_new]|].
  cbn. intros m [= <-]. exists rid, rest, np. do 3 (split; [done|]).
  inversion Hh as [rid' Hv Hr' Hneg|rid' y Hv Hr' Hpos Ha|rid' y Hv Hr' Hpos Ha|rid' Hv Hr' Hneg]; subst; rewrite Hrid in Hr'; injection Hr' as <-; [by left| | |by left].
  all: right; split; [done|]; eauto.
Qed.

Lemma mark_loop_run fuel xs w runs qs : Forall3 (queue_at fuel) runs qs xs ->
  exists runs', mark_loop runs w = Some (Ok (Ok tt, runs'), w) /\ Forall3 (queue_at fuel) runs' (q_set <$> qs) xs.
Proof.
  induction 1 as [|run q x runs qs xs Hq Hall IH]; [exists []; split; [done|constructor]|]. destruct IH as (runs' & R & Hall').
  pose proof Hq as (s & rest & np & Hs & Hb & Hnf & (l1 & cur & cs & l2 & j & r & _ & Hn & Hr & _) & Hf & Hh & _).
  assert (exists rid, rn_rid run = Some rid) as [rid Hrid] by (inversion Hh; eauto).
  pose proof (queue_set fuel run q x s cur r rid Hq Hs Hn Hr Hrid) as Hq'. set (s1 := mkHeapFileScan _ _ _ _ _ _ _ _) in Hq'.
  assert (call HeapFileScan_markScan s w = Some (Ok (Ok tt, s1), w)) as R1.
  { apply call_run. unfold HeapFileScan_markScan. run_with (member_run (fun s => curPageNo (hfs_base s)) w s cur Hn).
    run_with (member_run (fun s => curRec (hfs_base s)) w s r Hr). done. }
  eexists. split; [cbn [mark_loop]; run_with (defined_run _ _ w Hs); run_with R1; run_with (defined_run _ _ w Hrid); run_with R; reflexivity|].
  rewrite fmap_cons. by constructor.
Qed.

(** A run goes back to its mark. *)
Lemma goto_loop_run fuel c names xs1 xs T w runs qs :
  aboard c names (xs1 ++ xs) T w -> Forall3 (queue_at fuel) runs qs xs -> Forall (fun q => is_Some (q_mark q)) qs ->
  exists runs' xs' T' w', goto_loop runs w = Some (Ok (Ok tt, runs'), w') /\ aboard c names (xs1 ++ xs') T' w' /\ Forall3 (queue_at fuel) runs' (q_goto <$> qs) xs'.
Proof.
  intros Ha Hall. revert xs1 T w Ha. induction Hall as [|run q x runs qs xs Hq Hall IH]; intros xs1 T w Ha Hms.
  { exists [], [], T, w. split; [done|]. split; [done|constructor]. }
  apply list.Forall_cons in Hms as [[m Hm] Hms]. destruct Hq as (s & rest0 & np0 & Hs & Hb & Hnf & _ & _ & _ & Hmark).
  destruct (Hmark m Hm) as (rid & rest & np & Hrid & Hst & Hf & Hcase).
  destruct x as [[nm f h cur] l]. cbn [fst snd o_heap] in *. subst h. apply aboard_last in Ha.
  destruct (crew_resetScan k T0 w0 c names (xs1 ++ xs) nm f s cur l T w rest np Ha Hst) as (T1 & w1 & h1 & cur1 & R1 & Ha1 & E1 & E2).
  pose proof (proj2 (aboard_last _ _ _ _ _ _ _ _ _ _) Ha1) as Ha2. rewrite cons_middle, app_assoc in Ha2.
  assert (stands l h1 rest np) as Hst1 by (unfold stands in *; rewrite E1, E2; exact Hst).
  assert (forall y, stands_at l (at_mark s) rid y rest np -> stands_at l h1 rid y rest np) as Hat by (unfold stands_at; by rewrite E1, E2).
  destruct (IH _ T1 w1 Ha2 Hms) as (runs2 & xs2 & T2 & w2 & R2 & Ha3 & Hall2). rewrite <- app_assoc in Ha3. cbn [app] in Ha3.
  set (run1 := set_rid rid (set_inFile (set_base h1 s) run)).
  assert (exists run2, (if decide (0 <= pageNo rid) then
       let! (r, f) := call HeapFileScan_getRecord (set_base h1 s) in
       let run := set_inFile f run1 in
       ret (match r with Ok rec => (Ok tt, set_rec rec run) | Err st => (Err st, run) end)
     else ret (Ok tt, run1)) w1 = Some (Ok (Ok tt, run2), w1) /\
     queue_at fuel (set_valid true run2) (q_goto q) (scan_obj nm f (set_base h1 s) cur1, l)) as (run2 & R3 & Hq2).
  { destruct q as [qn qa qm]. unfold q_goto. cbn in Hm |- *. subst qm. cbn [default].
    assert (forall run2, rn_inFile run2 = Some (set_base h1 s) -> rn_mark run2 = Some rid -> holds run2 l h1 rest np m m -> queue_at fuel run2 (mkQueue m m (Some m)) (scan_obj nm f (set_base h1 s) cur1, l)) as Hmk.
    { intros run2 H1 H2 H3. exists (set_base h1 s), rest, np. do 6 (split; [done|]). intros m' [= <-]. exists rid, rest, np. by split. }
    destruct Hcase as [[Hneg ->]|(Hpos & y & Hy & ->)].
    - rewrite decide_False by lia. exists run1. split; [done|]. apply Hmk; [done|done|]. by eapply holds_end.
    - rewrite decide_True by done. run_with (crew_getRecord _ _ _ _ _ _ _ _ (set_base h1 s) _ _ _ _ _ _ _ _ Ha1 (Hat y Hy)).
      eexists. split; [reflexivity|]. apply Hmk; [done|done|]. eapply holds_rec; [done|done|done|by apply Hat|done]. }
  exists (set_valid true run2 :: runs2), ((scan_obj nm f (set_base h1 s) cur1, l) :: xs2), T2, w2.
  split; [|split; [done|rewrite fmap_cons; by constructor]]. cbn [goto_loop]. run_with (defined_run _ _ w Hs). run_with R1.
  run_with (defined_run (rn_mark (set_inFile (set_base h1 s) run)) rid w1 Hrid). fold run1. run_with R3. by run_with R2.
Qed.

(** ** Taking some records *)

(** At most [n] calls of [next], until the end of the file. *)
Fixpoint next_upto (n fuel : nat) : SORT (list Record) :=
  match n with
  | O => ret []
  | S n =>
      let! r := attempt (next fuel) in
      match r with
      | Err st => if decide (st = FILEEOF) then ret [] else throw st
      | Ok rec => let! out := next_upto n fuel in ret (rec :: out)
      end
  end.

(** [next] looks at every run: a mark behind it gives the chosen record again. *)
Lemma again_next r qs : q_again <$> q_next r qs = q_now <$> qs.
Proof.
  assert (q_again <$> (q_look <$> qs) = q_now <$> qs) as Hl by (rewrite <- list_fmap_compose; by apply list_fmap_ext).
  destruct r as [[i y]|]; [|done]. cbn [q_next]. rewrite (list_fmap_alter _ _ id); [by rewrite list_alter_id, Hl|]. apply Forall_fmap. by apply Forall_true.
Qed.

Lemma mark_next r qs : q_mark <$> q_next r qs = q_mark <$> qs.
Proof.
  assert (q_mark <$> (q_look <$> qs) = q_mark <$> qs) as Hl by (rewrite <- list_fmap_compose; by apply list_fmap_ext).
  destruct r as [[i y]|]; [|done]. cbn [q_next]. rewrite (list_fmap_alter _ _ id); [by rewrite list_alter_id, Hl|]. by apply Forall_true.
Qed.

Context (type : Datatype) (offset len : Z) (key : Record -> Z) (D : Record -> Prop).
Hypothesis Hcmp : forall x y : Record, D x -> D y -> rec_greater type offset len x y = Some (bool_decide (key y < key x)).

Definition all_in qs : Prop := Forall (Forall D) (q_now <$> qs) /\ Forall (Forall D) (q_again <$> qs).

Lemma all_in_next r qs : all_in qs -> all_in (q_next r qs).
Proof.
  intros [H1 _]. split; [|by rewrite again_next]. rewrite now_next. destruct r as [[i y]|]; [|done].
  apply Forall_alter; [done|]. intros q' _ Hq'. by destruct Hq'.
Qed.

Lemma next_upto_run (n : nat) fuel c names xs T w sf qs out :
  aboard c names xs T w -> Forall3 (queue_at fuel) (sf_runs sf) qs xs -> all_in qs ->
  sf_type sf = type -> sf_offset sf = offset -> sf_length sf = len -> merges key (q_now <$> qs) out ->
  exists runs xs' T' w' qs', next_upto n fuel (w, sf) = Some (Ok (take n out), (w', set_runs runs sf)) /\ aboard c names xs' T' w' /\
    Forall3 (queue_at fuel) runs qs' xs' /\ all_in qs' /\ q_mark <$> qs' = q_mark <$> qs /\
    merges key (q_now <$> qs') (drop n out) /\ match n with O => qs' = qs | S n => merges key (q_again <$> qs') (drop n out) end.
Proof.
  revert xs T w sf qs out. induction n as [|n IH]; intros xs T w sf qs out Ha Hall HD Ht Ho Hl Hm.
  { exists (sf_runs sf), xs, T, w, qs. split; [by destruct sf|]. by split. }
  destruct (next_run k T0 w0 type offset len key D Hcmp fuel c names xs T w sf qs Ha Hall (proj1 HD) Ht Ho Hl) as (runs & xs1 & T1 & w1 & Ha1 & Hall1 & R1).
  cbn [next_upto]. run_with (attempt_run _ _ _ _ R1). set (r := choose key 0 (q_now <$> qs) None) in *.
  pose proof (now_next r qs) as Hnow. pose proof (again_next r qs) as Hag. pose proof (mark_next r qs) as Hmk. pose proof (all_in_next r qs HD) as HD1.
  destruct Hm as [? Hc|? i x out Hc Hm]; fold r in Hc; rewrite Hc in *.
  { rewrite decide_True by done. exists runs, xs1, T1, w1, (q_next None qs). do 5 (split; [done|]). rewrite Hag, !drop_nil, Hnow. by split; constructor. }
  rewrite <- Hnow in Hm. destruct (IH xs1 T1 w1 (set_runs runs sf) _ out Ha1 Hall1 HD1 Ht Ho Hl Hm) as (runs2 & xs2 & T2 & w2 & qs2 & R2 & Ha2 & Hall2 & HD2 & Hmk2 & Hm2 & Hn).
  exists runs2, xs2, T2, w2, qs2. split; [by run_with R2|]. split; [done|]. split; [done|]. split; [done|]. split; [by rewrite Hmk2|]. split; [done|].
  destruct n as [|n]; [|done]. subst qs2. rewrite Hag. cbn [drop]. eapply merges_cons; [exact Hc|]. by rewrite <- Hnow.
Qed.

End Marks.

(** ** A mark and the way back *)

(** [a] calls of [next], a mark, [b] calls, back to the mark, and all that is
    left. *)
Definition mark_session (a b n fuel : nat) : SORT (list Record * list Record * list Record) :=
  startScans ;;;
  let! first := next_upto a fuel in
  setMark ;;;
  let! second := next_upto b fuel in
  gotoMark ;;;
  let! third := next_all n fuel in
  ret (first, second, third).

Lemma goto_now qs qs' : q_mark <$> qs' = q_mark <$> (q_set <$> qs) -> Forall (fun q => is_Some (q_mark q)) qs' /\ q_now <$> (q_goto <$> qs') = q_again <$> qs.
Proof.
  revert qs'. induction qs as [|q qs IH]; intros [|q' qs'] H; try done. rewrite !fmap_cons in H. injection H as Hq H. destruct (IH _ H) as [H1 H2].
  split; [constructor; [by rewrite Hq|done]|]. rewrite !fmap_cons, H2. cbn. by rewrite Hq.
Qed.

(** C19.  [setMark] and [gotoMark] of the external sort on an integer
    attribute: with [out] the sorted output, [a] calls of [next], a mark and
    [b] more calls give the first records of [out]; back at the mark, the
    record that was returned last before the mark is returned again, and then
    all behind it.  A mark that is set before the first record is lost: after
    [gotoMark] there is nothing left.  No file changes. *)
Theorem mark_goto (a b n fuel : nat) T w sf ls offset :
  sf_type sf = INTEGER -> sf_offset sf = offset -> sf_length sf = 4 ->
  ready (Z.of_nat (length (sf_runs sf))) (Z.of_nat (length (sf_runs sf))) T w -> NoDup (rn_name <$> sf_runs sf) ->
  Forall2 (fun run l => heap_at T w (rn_name run) l /\ (length (heap_recs l) + length l <= fuel)%nat) (sf_runs sf) ls ->
  let runs := (fun l => (heap_recs l).*2) <$> ls in
  Forall (by_int offset) runs ->
  (forall x y, x ∈ concat runs -> y ∈ concat runs -> is_Some (rd32 offset x) /\ inS 32 (int_at offset x - int_at offset y)) ->
  (length (concat runs) < n)%nat ->
  exists out sf' T' w', out ≡ₚ concat runs /\ by_int offset out /\
    mark_session a b n fuel (w, sf) = Some (Ok (take a out, take b (drop a out), match a with O => [] | S a' => drop a' out end), (w', sf')) /\
    world_ok T' w' /\ forall nm m, named_page w' nm m = named_page w nm m.
Proof.
  intros Ht Ho Hl Hrd Hnd Hall runs Hs Hcmp Hn.
  destruct (merge_start fuel T w sf ls offset Hrd Hnd Hall Hcmp) as (runs1 & xs & T1 & w1 & qs & R1 & Ha1 & Hq & Hnow & Hag & HD & Hgr). fold runs in Hnow, HD, Hgr.
  set (D := fun x => x ∈ concat runs) in *. set (key := int_at offset) in *.
  assert (Forall (Forall D) (q_again <$> qs)) as HD0 by (apply Forall_fmap; eapply Forall_impl; [|exact Hag]; intros q Hx; cbn; rewrite Hx; constructor).
  destruct (merges_total key runs) as [out Hm]. destruct (merges_ok _ _ _ Hm Hs) as [Hp Hso]. exists out.
  destruct (next_upto_run _ T w INTEGER offset 4 key D Hgr a fuel _ _ xs T1 w1 (set_runs runs1 sf) qs out Ha1 Hq) as (runs2 & xs2 & T2 & w2 & qs2 & R2 & Ha2 & Hq2 & HD2 & _ & Hm2 & Hn2);
    [by split; [rewrite Hnow|]|done|done|done|by rewrite Hnow|].
  destruct (mark_loop_run fuel xs2 w2 runs2 qs2 Hq2) as (runs3 & R3 & Hq3). apply (over_runs_run mark_loop w2 w2 (set_runs runs2 sf)) in R3.
  assert (q_now <$> (q_set <$> qs2) = q_now <$> qs2 /\ q_again <$> (q_set <$> qs2) = q_again <$> qs2) as [E1 E2] by (rewrite <- !list_fmap_compose; by split; apply list_fmap_ext).
  destruct (next_upto_run _ T w INTEGER offset 4 key D Hgr b fuel _ _ xs2 T2 w2 (set_runs runs3 sf) (q_set <$> qs2) (drop a out) Ha2 Hq3) as
    (runs4 & xs4 & T4 & w4 & qs4 & R4 & Ha4 & Hq4 & HD4 & Hmk & _); [unfold all_in; rewrite E1, E2; exact HD2|done|done|done|by rewrite E1|].
  destruct (goto_now qs2 qs4 Hmk) as [His Hgo].
  destruct (goto_loop_run _ T w fuel _ _ [] xs4 T4 w4 runs4 qs4 Ha4 Hq4 His) as (runs5 & xs5 & T5 & w5 & R5 & Ha5 & Hq5). apply (over_runs_run goto_loop w4 w5 (set_runs runs4 sf)) in R5.
  assert (merges key (q_again <$> qs2) (match a with O => [] | S a' => drop a' out end)) as Hend.
  { destruct a; [subst qs2|exact Hn2]. apply merges_empty, Forall_fmap. exact Hag. }
  destruct (next_all_run _ T w INTEGER offset 4 key D Hgr n fuel _ _ xs5 T5 w5 (set_runs runs5 sf) (q_goto <$> qs4) Ha5 Hq5) as (out6 & sf6 & xs6 & T6 & w6 & R6 & Ha6 & Hm6);
    rewrite ?Hgo; [apply HD2|done|done|done| |].
  { rewrite (merges_length _ _ _ Hend). rewrite (merges_length _ _ _ Hm) in Hn. destruct a; cbn; rewrite ?length_drop; lia. }
  rewrite Hgo in Hm6. rewrite (merges_unique _ _ _ _ Hm6 Hend) in R6. exists sf6, T6, w6. split; [done|]. split; [done|]. split.
  - unfold mark_session. run_with R1. run_with R2. run_with R3. run_with R4. run_with R5. by run_with R6.
  - split; [apply Ha6|]. intros nm m. apply (kp_named _ _ _ _ (ab_kept _ _ _ _ _ _ _ _ Ha6)), not_elem_of_nil.
Qed.

Lemma mark_goto_witness :
  exists w n fuel, filled run1 run2 = Some w /\
    exists out s, out ≡ₚ run1 ++ run2 /\ mark_session 2 1 n fuel (w, demo_sort) = Some (Ok (take 2 out, take 1 (drop 2 out), drop 1 out), s).
Proof.
  destruct sort_world_ok as (w & l1 & l2 & Hw & Hrd & Ht & Hu & H1 & H2).
  set (fuel := (length (heap_recs l1) + length l1 + (length (heap_recs l2) + length l2))%nat). exists w, 5%nat, fuel. split; [exact Hw|].
  destruct sorted_runs as [Hin Hs].
  destruct (mark_goto 2 1 5 fuel ∅ w demo_sort [l1; l2] 0 eq_refl eq_refl eq_refl) as (out & sf' & T' & w' & Hp & Hso & R & _).
  - exact (ready_le 2 4 2 6 _ _ ltac:(lia) ltac:(lia) Hrd).
  - exact (bool_decide_unpack (NoDup ["t"; "u"]%string) I).
  - constructor; [split; [exact Ht|lia]|constructor; [split; [exact Hu|lia]|constructor]].
  - cbn [fmap list_fmap]. rewrite H1, H2. exact Hs.
  - cbn [fmap list_fmap concat]. rewrite H1, H2, app_nil_r. intros x y Hx Hy. destruct (Hin x Hx) as [? ?], (Hin y Hy) as [_ ?]. split; [assumption|unfold inS; lia].
  - cbn [fmap list_fmap concat]. rewrite H1, H2. cbn. lia.
  - exists out, (w', sf'). split; [|exact R]. cbn [fmap list_fmap concat] in Hp. rewrite H1, H2, app_nil_r in Hp. exact Hp.
Defined.
