(* ===== verification/InterpProps.v ===== *)
(** * Properties of statements

    From the parse tree to the files: what [interp] does with the statements
    that change relations. *)

From S2P Require Export Interp QueryProps.

Section Read.
Implicit Types (p : Parser) (n : nodep) (c : charp).

Lemma u_of_run p n u : node_at p n u -> u_of p n = Some u.
Proof. intros (k & i & -> & _ & Hi). unfold u_of. cbn. by rewrite Hi. Qed.

Lemma kind_run p n k u : kind_at p n k u -> (i ← n; zget (nodepool p) i) = Some (mkNODE k u).
Proof. by intros (i & -> & _ & Hi). Qed.

Lemma string_at_run p c nm : str_at p c = Some (chars nm) -> string_at p c = Some nm.
Proof.
  unfold str_at, string_at. intros (b & -> & Hb)%bind_Some. cbn. unfold name_string. rewrite Hb. cbn. f_equal. apply String.string_of_list_byte_of_string.
Qed.

Lemma str_at_ptr p c s : str_at p c = Some s -> exists i, c = Some i.
Proof. destruct c as [i|]; [by exists i|done]. Qed.

(** The text of an integer constant. *)
Lemma value_of_int p n len v : node_at p n (VALUE INTEGER len (ival v)) -> inS 32 v -> value_of p n = Some (fmt_d v ++ [x00]).
Proof.
  intros Hn Hv. unfold value_of, value_text. rewrite (u_of_run _ _ _ Hn). cbn [mbind option_bind]. pose proof (fmt_d_length v Hv). by rewrite decide_True by lia.
Qed.

End Read.

(** ** [delete] *)

Section Delete.
Variables (tty : bool) (JoinMethod : JoinType) (stack : nat -> byte) (freed : HeapFileScan -> option HeapFileScan).
Variables (rd0 : RelDesc) (ad0 : AttrDesc) (info0 : attrInfo) (overlap : block -> Z -> option block).
Variables (n fuel : nat) (p : Parser) (s : Shell).
Local Abbreviation interp := (interp tty JoinMethod stack freed rd0 ad0 info0 overlap n fuel p).

(** The echo of the statement, when the input is no terminal. *)
Definition echo (root : nodep) (out : block) : Prop := if tty then out = [] else echo_query p fuel root = Some out.

Lemma echo_run root out w :
  echo root out -> (if tty then ret tt else let! s := defined (echo_query p fuel root) in assign (add_out s)) (w, s) =
    Some (Ok tt, (w, if tty then s else add_out out s)).
Proof. unfold echo. destruct tty; [done|]. intros ->. done. Qed.

(** A call whose status is [OK]. *)
Lemma reporting_run {A} (m : CODE World A) w w' (a : A) (s' : Shell) : m w = Some (Ok a, w') -> reporting (io m) (w, s') = Some (Ok tt, (w', s')).
Proof. intros Hm. unfold reporting. run_with (attempt_run (io m) (w, s') _ _ (io_run m w s' _ _ Hm)). done. Qed.

(** The call of [QU_Delete] for a condition. *)
Lemma interp_delete_run w root out rn cond sa vn r an nm rel op type value w' :
  echo root out -> kind_at p root N_DELETE (DELETE rn cond) -> str_at p rn = Some (chars rel) -> kind_at p cond N_SELECT (SELECT sa op vn) ->
  node_at p sa (QUALATTR r an) -> str_at p an = Some (chars nm) -> type_of p vn = Some type -> value_of p vn = Some value ->
  QU_Delete n fuel rel nm op type (Some value) w = Some (Ok tt, w') ->
  interp root (w, s) = Some (Ok tt, (w', if tty then s else add_out out s)).
Proof.
  intros He Hr Hrn Hc Hsa Han Ht Hv Hq. unfold Interp.interp. run_with (echo_run root out w He). rewrite (kind_run _ _ _ _ Hr). step. cbn [kind nu].
  unfold interp_delete. pose proof Hc as (i & -> & _ & Hi). rewrite Hi. step. cbn [kind nu]. rewrite decide_False by (intros Hx; by apply Hx). step.
  unfold QUALATTR_of. rewrite (u_of_run _ _ _ Hsa). step. rewrite Ht. step. rewrite Hv. step. rewrite (string_at_run _ _ _ Hrn). step.
  destruct (str_at_ptr _ _ _ Han) as [j ->]. rewrite (string_at_run _ _ _ Han). step. exact (reporting_run _ _ _ _ _ Hq).
Qed.

End Delete.

(** The number a constant stands for survives the way through its text. *)
Lemma int_constant v : inS 32 v -> filter_bytes INTEGER (Some (fmt_d v ++ [x00])) = Some (int_bytes v).
Proof. intros Hv. cbn. by rewrite (atoi_fmt_d v [] Hv). Qed.

Lemma rd32_int v : inS 32 v -> rd32 0 (int_bytes v) = Some v.
Proof.
  intros Hv. pose proof (rd32_field [] v [] 0 eq_refl Hv) as H. by rewrite app_nil_r in H.
Qed.

Lemma selects_int off op (r : Record) v :
  is_Some (rd32 off r) -> Z.of_nat (length r) < 2 ^ 31 -> inS 32 v -> inS 32 (int_at off r - v) ->
  selects off 4 INTEGER (Some (int_bytes v)) op r = Some (op_int op (int_at off r) v).
Proof.
  unfold int_at, selects. intros [x Hx] Hlen Hv. rewrite Hx. cbn [default from_option id]. intros Hd. pose proof (match_attr_int off r (int_bytes v) op x v Hlen Hx (rd32_int v Hv)) as Hm.
  unfold sizeof_int in Hm. rewrite Hm. by rewrite decide_True.
Qed.

(** C11.  [delete from rel where attr op number], from the parse tree to the
    file: [interp] deletes exactly the tuples whose attribute is related to
    the number, which goes through its decimal text and back; the others
    keep their identifiers, bytes and order, no other file changes, no error
    is reported, and the statement is echoed when the input is no terminal.
    This holds as long as no difference of an attribute and the number
    overflows an [int]; where one does, the predicate of the scan compares the
    other way round ([match_int_order]) and the statement deletes wrongly. *)
Theorem delete_statement tty JoinMethod stack freed rd0 ad0 info0 overlap (n fuel : nat) p s T w root out rn cond sa vn r an nm rel op len v l la A a :
  echo tty fuel p root out -> kind_at p root N_DELETE (DELETE rn cond) -> str_at p rn = Some (chars rel) -> kind_at p cond N_SELECT (SELECT sa op vn) ->
  node_at p sa (QUALATTR r an) -> str_at p an = Some (chars nm) -> node_at p vn (VALUE INTEGER len (ival v)) -> inS 32 v ->
  ready 2 2 T w -> heap_at T w rel l -> heap_at T w ATTRCATNAME la -> attr_state la A -> key_ok rel -> rel <> RELCATNAME -> rel <> ATTRCATNAME ->
  nm <> ""%string -> List.find (is_attr rel nm) A = Some a -> 0 <= at_off a -> at_len a = 4 ->
  (forall rid x, (rid, x) ∈ heap_recs l -> is_Some (rd32 (at_off a) x) /\ Z.of_nat (length x) < 2 ^ 31 /\ inS 32 (int_at (at_off a) x - v)) ->
  (length (heap_recs l) < n)%nat -> (length (heap_recs l) + length l <= fuel)%nat ->
  (length (heap_recs la) < n)%nat -> (length (heap_recs la) + length la <= fuel)%nat ->
  exists w' l', interp tty JoinMethod stack freed rd0 ad0 info0 overlap n fuel p root (w, s) = Some (Ok tt, (w', if tty then s else add_out out s)) /\
    world_ok T w' /\ restored w w' /\ heap_at T w' rel l' /\
    heap_recs l' = List.filter (fun x => negb (op_int op (int_at (at_off a) x.2) v)) (heap_recs l) /\
    heap_at T w' ATTRCATNAME la /\ forall i m, i <> rel -> i <> ATTRCATNAME -> named_page w' i m = named_page w i m.
Proof.
  intros He Hr Hrn Hc Hsa Han Hvn Hv Hrd Hat Hata Hs Hkey N1 N2 Hne Hfind Ho Hl4 Hrows Hn Hf Hna Hfa.
  destruct (QU_Delete_run n fuel T w rel l la A nm a op INTEGER (Some (fmt_d v ++ [x00])) (int_bytes v) (fun x => op_int op (int_at (at_off a) x) v)) as
    (w' & R & (l' & D1 & D2 & D3 & D4 & D5) & D6); try done.
  { by apply int_constant. }
  { intros rid x Hin. destruct (Hrows rid x Hin) as (H1 & H2 & H3). unfold scan_test. rewrite decide_True by (right; rewrite Hl4; repeat split; lia).
    rewrite Hl4. by apply selects_int. }
  exists w', l'. split; [|done]. eapply interp_delete_run; try done; [|by eapply value_of_int]. unfold type_of. by rewrite (u_of_run _ _ _ Hvn).
Qed.

(** [delete from t where a = 42]. *)
Definition delete_tree : PARSE nodep :=
  let! rel := mk_string (c_str "t") 1 in
  let! attr := mk_string (c_str "a") 1 in
  let! q := qualattr_node None attr in
  let! v := int_node 42 in
  let! cond := select_node q EQ v in
  delete_node rel cond.

Definition delete_parser : Parser := match delete_tree Parser_init with Some (_, p) => p | None => Parser_init end.

#[local] Opaque delete_parser.

Lemma delete_parser_ok :
  kind_at delete_parser (Some 3) N_DELETE (DELETE (Some 0) (Some 2)) /\ str_at delete_parser (Some 0) = Some (chars "t") /\
  kind_at delete_parser (Some 2) N_SELECT (SELECT (Some 0) EQ (Some 1)) /\ node_at delete_parser (Some 0) (QUALATTR None (Some 2)) /\
  str_at delete_parser (Some 2) = Some (chars "a") /\ node_at delete_parser (Some 1) (VALUE INTEGER 0 (ival 42)).
Proof.
  split; [eexists; split; [reflexivity|split; by vm_compute]|]. split; [by vm_compute|]. split; [eexists; split; [reflexivity|split; by vm_compute]|].
  split; [exists N_QUALATTR; eexists; split; [reflexivity|split; by vm_compute]|]. split; [by vm_compute|]. exists N_VALUE. eexists; split; [reflexivity|split; by vm_compute].
Qed.

Definition shell0 : Shell := mkShell [] [] (replicate 40 (demo_info "" 0 0)) (demo_info "" 0 0) (demo_info "" 0 0) 0.

Lemma delete_statement_witness :
  exists w n fuel w' l', row_world = Some w /\
    interp true NLJoin (fun _ => x00) Some demo_rd demo_ad (demo_info "" 0 0) (fun b _ => Some b) n fuel delete_parser (Some 3) (w, shell0) = Some (Ok tt, (w', shell0)) /\
    heap_at ∅ w' "t" l' /\ (heap_recs l').*2 = [int_bytes 7 ++ chars "world"].
Proof.
  destruct row_world_ok as (w & l & la & rids & Hw & Hrd & Hat & Hata & Hs & Hp & Hlen). destruct delete_parser_ok as (K1 & K2 & K3 & K4 & K5 & K6).
  set (n := S (length (heap_recs l) + length (heap_recs la))%nat). set (fuel := (length (heap_recs l) + length l + (length (heap_recs la) + length la))%nat).
  destruct (delete_statement true NLJoin (fun _ => x00) Some demo_rd demo_ad (demo_info "" 0 0) (fun b _ => Some b) n fuel delete_parser shell0 ∅ w (Some 3) []
    _ _ _ _ _ _ "a" "t" _ _ _ l la demo_A (mkAttr "t" "a" 0 1 4) eq_refl K1 K2 K3 K4 K5 K6) as (w' & l' & R & _ & _ & Hat' & Hl' & _).
  - split; by vm_compute.
  - exact (ready_le 2 4 2 7 _ _ ltac:(lia) ltac:(lia) Hrd).
  - exact Hat.
  - exact Hata.
  - exact Hs.
  - exact demo_key.
  - discriminate.
  - discriminate.
  - discriminate.
  - reflexivity.
  - cbn. lia.
  - reflexivity.
  - intros rid x Hin. apply (demo_row_in l rids _ rid x Hp) in Hin as [->|[->|?%not_elem_of_nil]%elem_of_cons]%elem_of_cons; [..|contradiction];
      (split; [vm_compute; by eexists|split; [by vm_compute|split; by vm_compute]]).
  - lia.
  - lia.
  - lia.
  - lia.
  - exists w, n, fuel, w', l'. split; [exact Hw|]. split; [exact R|]. split; [exact Hat'|]. rewrite Hl'.
    destruct rids as [|x [|y [|z rids]]]; try discriminate Hlen.
    apply symmetry, Permutation_length_2_inv in Hp as [-> | ->]; vm_compute; reflexivity.
Defined.
