(* ===== verification/InterpInsert.v ===== *)
(** * The [insert] statement

    From the parse tree of an [insert] to the tuple in the file: the list of
    attributes and values becomes the array [attrList], from which
    [QU_Insert] builds the tuple. *)

From S2P Require Export InterpProps.

(** ** Constants *)

Inductive const : Set := CInt (v : Z) | CStr (s : block).

(** The text [value_of] makes of a constant. *)
Definition const_text (c : const) : block := match c with CInt v => fmt_d v | CStr s => s end.

Definition const_type (c : const) : Datatype := match c with CInt _ => INTEGER | CStr _ => STRING end.

(** Constants the interpreter can handle. *)
Definition const_ok (c : const) : Prop :=
  match c with CInt v => inS 32 v | CStr s => x00 ∉ s /\ Z.of_nat (length s) < 255 end.

(** The bytes of the constant [c] in the attribute [a]: a number, or as many
    bytes of the string and its terminator as the attribute has. *)
Definition field_of (a : attr) (c : const) : option block :=
  match c with
  | CInt v => if decide (at_type a = 1 /\ at_len a = 4) then Some (int_bytes v) else None
  | CStr s => if decide (at_type a = 0) then rd 0 (at_len a) (s ++ [x00]) else None
  end.

Section Tree.
Implicit Types (p : Parser) (n : nodep) (c : charp) (x : string * const).

Definition const_at p n (k : const) : Prop :=
  match k with
  | CInt v => exists len, node_at p n (VALUE INTEGER len (ival v))
  | CStr s => exists sp, node_at p n (VALUE STRING (Z.of_nat (length s)) (sval sp)) /\ str_at p sp = Some s
  end.

(** A node [attribute = constant]. *)
Definition pair_at p n x : Prop :=
  exists a v, node_at p n (ATTRVAL a v) /\ str_at p a = Some (chars x.1) /\ const_at p v x.2.

(** What becomes of it. *)
Definition entry_of p (e : charp * Datatype * block) x : Prop :=
  str_at p e.1.1 = Some (chars x.1) /\ e.1.2 = const_type x.2 /\ e.2 = const_text x.2 ++ [x00].

Lemma const_run p n k : const_at p n k -> const_ok k ->
  type_of p n = Some (const_type k) /\ value_of p n = Some (const_text k ++ [x00]) /\ exists len, length_of p n = Some len /\ (const_type k = STRING -> len <= MAXSTRINGLEN).
Proof.
  destruct k as [v|s]; cbn.
  - intros [len Hn] Hv. split; [unfold type_of; by rewrite (u_of_run _ _ _ Hn)|]. split; [by eapply value_of_int|].
    exists len. split; [unfold length_of; by rewrite (u_of_run _ _ _ Hn)|done].
  - intros (sp & Hn & Hs) [_ Hl]. split; [unfold type_of; by rewrite (u_of_run _ _ _ Hn)|]. split.
    + unfold value_of, value_text. rewrite (u_of_run _ _ _ Hn). cbn [mbind option_bind]. rewrite Hs. cbn [mbind option_bind]. by rewrite decide_True by lia.
    + eexists. split; [unfold length_of; by rewrite (u_of_run _ _ _ Hn)|]. intros _. unfold MAXSTRINGLEN. lia.
Qed.

Lemma ins_attrs_run p (k : nat) lst ns vals acc :
  list_at p lst ns -> Forall2 (pair_at p) ns vals -> Forall (fun x => const_ok x.2) vals -> (length vals < k)%nat ->
  exists es, ins_attrs_loop p k lst acc = Some (Ok (acc ++ es)) /\ Forall2 (entry_of p) es vals.
Proof.
  intros Hl Hv. revert k lst acc Hl. induction Hv as [|n x ns vals (a & v & Hn & Ha & Hc) Hv IH]; intros k lst acc Hl Hok Hk; (destruct k as [|k]; [cbn in Hk; lia|]).
  - cbn in Hl. subst lst. exists []. rewrite app_nil_r. by split; [|constructor].
  - destruct Hl as (next & Hln & Hl). apply list.Forall_cons in Hok as [Hox Hok]. destruct (node_at_ptr _ _ _ Hln) as [i ->].
    destruct (const_run p v x.2 Hc Hox) as (Ht & Hval & len & Hlen & Hmax).
    destruct (IH k next (acc ++ [(a, const_type x.2, const_text x.2 ++ [x00])]) Hl Hok ltac:(cbn in Hk; lia)) as (es & R & Hes).
    exists ((a, const_type x.2, const_text x.2 ++ [x00]) :: es). split; [|by constructor].
    cbn [ins_attrs_loop]. unfold LIST_of. rewrite (u_of_run _ _ _ Hln). cbn [mbind option_bind]. rewrite (u_of_run _ _ _ Hn). cbn [mbind option_bind].
    rewrite Ht. cbn [mbind option_bind]. rewrite Hlen. cbn [mbind option_bind]. rewrite decide_False by (intros [Hs Hm]; specialize (Hmax Hs); lia).
    rewrite Hval. cbn [mbind option_bind]. rewrite R. by rewrite <- app_assoc.
Qed.

End Tree.

(** ** The array [attrList] *)

Section Array.
Implicit Types (p : Parser) (a : attrInfo) (l : list attrInfo).

(** The names are arrays of [MAXNAME] characters. *)
Definition array_ok a : Prop := length (ai_relName a) = 32%nat /\ length (ai_attrName a) = 32%nat.

Lemma strcpy_str (dst src s : block) : cstring src = Some s -> (length s < length dst)%nat ->
  exists b, strcpy dst src = Some b /\ cstring b = Some s /\ length b = length dst.
Proof.
  intros Hs Hl. unfold strcpy. rewrite Hs. cbn [mbind option_bind]. pose proof (proj1 (cstring_Some _ _) Hs) as [Hn _].
  pose proof (wr_next [] dst (s ++ [x00]) ltac:(rewrite length_app; cbn; lia)) as Hw. cbn [length app Z.of_nat] in Hw.
  eexists. split; [exact Hw|]. split; [apply cstring_Some; split; [done|]; eexists; by rewrite <- app_assoc|]. rewrite !length_app, length_drop, ?length_app. cbn. lia.
Qed.

Lemma put_attr_run p a rel name (type len : Z) value rn nm :
  array_ok a -> str_at p rel = Some (chars rn) -> name_ok rn -> str_at p name = Some (chars nm) -> name_ok nm ->
  exists a', put_attr p a rel name type len value = Some a' /\ array_ok a' /\ cstring (ai_attrName a') = Some (chars nm) /\ ai_attrValue a' = value.
Proof.
  intros [H1 H2] (b1 & Hb1 & Hr)%bind_Some [_ Hrl] (b2 & Hb2 & Hn)%bind_Some [_ Hnl].
  destruct (strcpy_str (ai_relName a) b1 _ Hr) as (r' & R1 & _ & L1); [rewrite length_chars; lia|].
  destruct (strcpy_str (ai_attrName a) b2 _ Hn) as (n' & R2 & C2 & L2); [rewrite length_chars; lia|].
  unfold put_attr. rewrite Hb1. cbn [mbind option_bind]. rewrite R1. cbn [mbind option_bind]. rewrite Hb2. cbn [mbind option_bind]. rewrite R2. cbn [mbind option_bind].
  eexists. split; [done|]. split; [split; cbn; congruence|]. by split.
Qed.

(** The value for an attribute. *)
Definition holds_pair a (x : string * const) : Prop := cstring (ai_attrName a) = Some (chars x.1) /\ ai_attrValue a = Some (const_text x.2 ++ [x00]).

Lemma put_attrs_run p rn rel l es vals :
  str_at p rn = Some (chars rel) -> name_ok rel -> Forall2 (entry_of p) es vals -> Forall (fun x => name_ok x.1) vals -> Forall array_ok l -> (length vals <= length l)%nat ->
  exists l', put_attrs p l ((fun '(a, t, v) => (rn, a, type_code t, -1, Some v)) <$> es) = Some l' /\ Forall array_ok l' /\ length l' = length l /\
    Forall2 holds_pair (take (length vals) l') vals.
Proof.
  intros Hrn Hrel Hes. revert l. induction Hes as [|[[a t] v] x es vals (Ha & Ht & Hv) Hes IH]; intros l Hn Hl Hlen.
  - exists l. split; [by destruct l|]. split; [done|]. by split; [|constructor].
  - destruct l as [|i l]; [cbn in Hlen; lia|]. apply list.Forall_cons in Hn as [Hnx Hn], Hl as [Hi Hl]. cbn [fst snd] in *.
    destruct (put_attr_run p i rn a (type_code t) (-1) (Some v) rel x.1 Hi Hrn Hrel Ha Hnx) as (i' & R & Hi' & Hc & Hval).
    destruct (IH l Hn Hl ltac:(cbn in Hlen; lia)) as (l' & R' & Hl' & Hlen' & Hall). exists (i' :: l').
    split; [cbn [fmap list_fmap put_attrs]; rewrite R; cbn [mbind option_bind]; by rewrite R'|]. split; [by constructor|]. split; [cbn; by rewrite Hlen'|].
    cbn [length take]. constructor; [|done]. by split; [|rewrite Hval, Hv].
Qed.

End Array.

(** ** The call of [QU_Insert] *)

(** Only the first [attrCnt] elements of the array are used. *)
Lemma QU_Insert_take stack (n fuel k : nat) rel l w : (k <= length l)%nat ->
  QU_Insert stack n fuel rel (Z.of_nat k) l w = QU_Insert stack n fuel rel (Z.of_nat k) (take k l) w.
Proof.
  intros Hk. unfold QU_Insert. replace (first_n (Z.of_nat k) (take k l)) with (first_n (Z.of_nat k) l); [done|].
  unfold first_n. rewrite length_take_le by done. rewrite !decide_True by lia. rewrite Nat2Z.id. by rewrite take_take, Nat.min_id.
Qed.

Lemma given_const (a : attr) (c : const) (v : attrInfo) bytes :
  const_ok c -> ai_attrValue v = Some (const_text c ++ [x00]) -> field_of a c = Some bytes -> given_bytes (tuple_of a) v = Some bytes.
Proof.
  intros Hok Hv. unfold given_bytes. rewrite Hv. destruct c as [z|s]; cbn [const_text field_of const_ok] in *.
  - case_decide as Hd; [|done]. destruct Hd as [Ht Hl]. intros [= <-]. cbn [tuple_of attr_tuple ad_attrType ad_attrLen]. rewrite Ht, Hl. unfold value_bytes.
    rewrite decide_False by done. rewrite decide_True by done. cbn [mbind option_bind]. rewrite (atoi_fmt_d z [] Hok). cbn [mbind option_bind].
    pose proof (rd_field0 (int_bytes z) [] 4) as Hr. rewrite app_nil_r in Hr. apply Hr. by rewrite length_int_bytes.
  - case_decide as Ht; [|done]. intros Hr. cbn [tuple_of attr_tuple ad_attrType ad_attrLen]. rewrite Ht. unfold value_bytes. rewrite decide_True by done. exact Hr.
Qed.

(** The attribute [a] gets a value of the list. *)
Definition valued (vals : list (string * const)) (a : attr) (bytes : block) : Prop :=
  exists c, (at_name a, c) ∈ vals /\ field_of a c = Some bytes.

Lemma valued_gives vals values a bytes :
  Forall2 holds_pair values vals -> Forall (fun x => const_ok x.2) vals -> name_ok (at_name a) -> valued vals a bytes -> gives values vals.*1 (tuple_of a) bytes.
Proof.
  intros Hall Hok Hn (c & [i Hi]%list_elem_of_lookup & Hf). destruct (Forall2_lookup_r _ _ _ _ _ Hall Hi) as (v & Hv & _ & Hval).
  exists (at_name a), i, v. split; [by apply cstring_name_field|]. split; [by rewrite list_lookup_fmap, Hi|]. split; [done|].
  eapply given_const; [|exact Hval|exact Hf]. exact (Forall_lookup_1 _ _ _ _ Hok Hi).
Qed.

(** A statement that ended with the status [r]: the echo, and the message when
    it is an error; the array has its shape. *)
Record answered (tty : bool) (out : block) (r : result unit) (s s' : Shell) : Prop := {
  an_out : sh_out s' = sh_out s ++ (if tty then [] else out);
  an_err : sh_err s' = sh_err s ++ match r with Ok _ => [] | Err st => error_text st end;
  an_array : length (sh_attrList s') = length (sh_attrList s) /\ Forall array_ok (sh_attrList s');
}.

Lemma interp_insert_run tty JoinMethod stack freed rd0 ad0 info0 overlap (n fuel : nat) p s w root out rn al ns vals rel :
  echo tty fuel p root out -> kind_at p root N_INSERT (INSERT rn al) -> str_at p rn = Some (chars rel) -> name_ok rel ->
  list_at p al ns -> Forall2 (pair_at p) ns vals -> Forall (fun x => const_ok x.2) vals -> Forall (fun x => name_ok x.1) vals ->
  (length vals < MAXATTRS)%nat -> length (sh_attrList s) = MAXATTRS -> Forall array_ok (sh_attrList s) ->
  exists values, Forall2 holds_pair values vals /\ forall r w', QU_Insert stack n fuel rel (Z.of_nat (length vals)) values w = Some (r, w') ->
    exists s', interp tty JoinMethod stack freed rd0 ad0 info0 overlap n fuel p root (w, s) = Some (Ok tt, (w', s')) /\ answered tty out r s s'.
Proof.
  intros He Hr Hrn Hrel Hl Hv Hok Hnm Hlen Hal Harr.
  destruct (ins_attrs_run p MAXATTRS al ns vals [] Hl Hv Hok Hlen) as (es & R & Hes). cbn [app] in R. pose proof (Forall2_length Hes) as Hle.
  destruct (put_attrs_run p rn rel (sh_attrList s) es vals Hrn Hrel Hes Hnm Harr ltac:(lia)) as (l' & R' & Hl' & Hlen' & Hall).
  exists (take (length vals) l'). split; [done|]. intros r w' RQ. rewrite <- QU_Insert_take in RQ by lia.
  set (s1 := if tty then s else add_out out s). assert (sh_attrList s1 = sh_attrList s) as Hs1 by (by destruct tty).
  assert (fill_attrList p ((fun '(a, t, v) => (rn, a, type_code t, -1, Some v)) <$> es) (w, s1) = Some (Ok l', (w, set_attrList l' s1))) as Rf.
  { unfold fill_attrList. run_with (member_run (fun s => Some (sh_attrList s)) w s1 (sh_attrList s) (f_equal Some Hs1)). by run_with (defined_run _ _ (w, s1) R'). }
  exists (match r with Ok _ => set_attrList l' s1 | Err st => add_err (error_text st) (set_attrList l' s1) end). split.
  - unfold Interp.interp. run_with (echo_run tty fuel p s root out w He). fold s1. rewrite (kind_run _ _ _ _ Hr). step. cbn [kind nu].
    unfold interp_insert, mk_ins_attrs. rewrite R. step. run_with Rf. rewrite (string_at_run _ _ _ Hrn). step. rewrite Hle.
    unfold reporting. run_with (attempt_run (io (QU_Insert stack n fuel rel (Z.of_nat (length vals)) l')) _ _ _ (io_run _ w (set_attrList l' s1) _ _ RQ)). by destruct r.
  - split; destruct tty, r; cbn; rewrite ?app_nil_r; try done; (split; [congruence|done]).
Qed.

(** C12.  [insert into rel (a1, ...) values (c1, ...)], from the parse tree to
    the file: when the list names each attribute of the relation once, with
    integers for the integer attributes and strings that are long enough for
    the others, [interp] either adds exactly one tuple, whose attributes read
    back as the constants, or reports the status of the error and leaves the
    relation as it was; the catalogs and all other files stay. *)
Theorem insert_statement tty JoinMethod stack freed rd0 ad0 info0 overlap (n fuel : nat) p s T w root out rn al ns vals rel lr la m A l row :
  let B := List.filter (of_rel rel) A in
  echo tty fuel p root out -> kind_at p root N_INSERT (INSERT rn al) -> str_at p rn = Some (chars rel) -> list_at p al ns -> Forall2 (pair_at p) ns vals ->
  Forall (fun x => const_ok x.2) vals -> length (sh_attrList s) = MAXATTRS -> Forall array_ok (sh_attrList s) -> (length vals < MAXATTRS)%nat ->
  NoDup vals.*1 -> length vals = length B -> Forall2 (valued vals) B row -> rec_fits (concat row) ->
  ready 1 3 T w -> catalogs T w lr la m A -> heap_at T w rel l -> name_ok rel -> key_ok rel -> rel <> RELCATNAME -> rel <> ATTRCATNAME ->
  is_Some (m !! rel) -> B <> [] -> laid_out 0 B -> Forall (fun x => name_ok x.1) vals ->
  (length (heap_recs lr) + length lr <= fuel)%nat -> (length (heap_recs la) < n)%nat -> (length (heap_recs la) + length la <= fuel)%nat ->
  exists r w' s' l', interp tty JoinMethod stack freed rd0 ad0 info0 overlap n fuel p root (w, s) = Some (Ok tt, (w', s')) /\ answered tty out r s s' /\
    world_ok T w' /\ restored w w' /\ catalogs T w' lr la m A /\ heap_at T w' rel l' /\
    (forall nm i, nm <> rel -> nm <> RELCATNAME -> nm <> ATTRCATNAME -> named_page w' nm i = named_page w nm i) /\
    match r with
    | Err _ => l' = l
    | Ok _ => exists rid rec, heap_recs l' ≡ₚ (rid, rec) :: heap_recs l /\ Forall2 (fun a bytes => rd (at_off a) (at_len a) rec = Some bytes) B row
    end.
Proof.
  intros B He Hr Hrn Hl Hv Hok Hal Harr Hmax Hnd Hlen Hrow Hfit Hrd Hca Hat Hrel Hkey N1 N2 Hm HB Hlay Hnm Hf1 Hn Hf2.
  destruct (interp_insert_run tty JoinMethod stack freed rd0 ad0 info0 overlap n fuel p s w root out rn al ns vals rel He Hr Hrn Hrel Hl Hv Hok Hnm Hmax Hal Harr) as (values & Hall & Hrun).
  assert (Forall2 (gives values vals.*1) (tuple_of <$> B) row) as Hg.
  { apply Forall2_fmap_l. eapply Forall2_impl; [|exact Hrow]. intros a bytes (c & Hin & Hf). apply (valued_gives vals values a bytes Hall Hok); [|by exists c].
    rewrite list.Forall_forall in Hnm. exact (Hnm _ Hin). }
  assert (named_attrs values vals.*1) as Hna.
  { apply Forall2_fmap_r. eapply Forall2_impl; [|exact Hall]. by intros a x [? _]. }
  destruct (QU_Insert_run stack n fuel T w lr la m A rel l values vals.*1 row Hrd Hca Hat Hkey N1 N2 Hm HB) as (r & w' & R & [S1 S2 S3 (l' & S4 & S5) S6]); try done.
  { by rewrite (Forall2_length Hall). }
  change (List.filter (of_rel rel) A) with B in R. rewrite <- Hlen in R. destruct (Hrun r w' R) as (s' & Ri & Ha). exists r, w', s', l'. do 7 (split; [done|]).
  destruct r as [[]|e]; [|done]. destruct S5 as [rid Hp]. exists rid, (concat row). split; [done|]. apply (row_fields B row []); [done|]. by eapply gives_len.
Qed.

(** [insert into t (b, a) values ("hello", 99)]. *)
Definition insert_tree : PARSE nodep :=
  let! rel := mk_string (c_str "t") 1 in
  let! b := mk_string (c_str "b") 1 in
  let! a := mk_string (c_str "a") 1 in
  let! h := mk_string (c_str "hello") 5 in
  let! nb := attrval_node b None in
  let! na := attrval_node a None in
  let! l1 := list_node na in
  let! attrs := prepend nb l1 in
  let! vb := string_node h in
  let! va := int_node 99 in
  let! l2 := list_node va in
  let! values := prepend vb l2 in
  insert_action 3 rel attrs values.

Definition insert_parser : Parser := match insert_tree Parser_init with Some (_, p) => p | None => Parser_init end.

#[local] Opaque insert_parser.

Definition insert_vals : list (string * const) := [("b"%string, CStr (chars "hello")); ("a"%string, CInt 99)].

Lemma insert_parser_ok :
  kind_at insert_parser (Some 8) N_INSERT (INSERT (Some 0) (Some 3)) /\ str_at insert_parser (Some 0) = Some (chars "t") /\
  list_at insert_parser (Some 3) [Some 0; Some 1] /\ Forall2 (pair_at insert_parser) [Some 0; Some 1] insert_vals.
Proof.
  assert (forall i k u, bool_decide (0 <= i < 9) = true -> zget (nodepool insert_parser) i = Some (mkNODE k u) -> kind_at insert_parser (Some i) k u) as Hk.
  { intros i k u Hi Hz. exists i. split; [done|]. split; [|done]. apply bool_decide_eq_true_1 in Hi. assert (nodeptr insert_parser = 9) as -> by (vm_compute; reflexivity). lia. }
  assert (forall i k u, bool_decide (0 <= i < 9) = true -> zget (nodepool insert_parser) i = Some (mkNODE k u) -> node_at insert_parser (Some i) u) as Hn by (intros i k u H1 H2; exists k; by apply Hk).
  split; [apply Hk; vm_compute; reflexivity|]. split; [vm_compute; reflexivity|]. split.
  - exists (Some 2). split; [eapply Hn; vm_compute; reflexivity|]. exists None. split; [eapply Hn; vm_compute; reflexivity|done].
  - constructor; [|constructor; [|constructor]].
    + exists (Some 2), (Some 4). split; [eapply Hn; vm_compute; reflexivity|]. split; [vm_compute; reflexivity|].
      exists (Some 6). split; [eapply Hn; vm_compute; reflexivity|vm_compute; reflexivity].
    + exists (Some 4), (Some 5). split; [eapply Hn; vm_compute; reflexivity|]. split; [vm_compute; reflexivity|]. exists 0. eapply Hn; vm_compute; reflexivity.
Qed.

Definition shell1 : Shell := let a := mkAttrInfo (replicate 32 x00) (replicate 32 x00) 0 0 None in mkShell [] [] (replicate 40 a) a a 0.

Lemma insert_statement_witness :
  exists w n fuel r w' s', row_world = Some w /\
    interp true NLJoin (fun _ => xff) Some demo_rd demo_ad (demo_info "" 0 0) (fun b _ => Some b) n fuel insert_parser (Some 8) (w, shell1) = Some (Ok tt, (w', s')) /\
    answered true [] r shell1 s'.
Proof.
  destruct row_world_cat as (w & l & lr & la & rids & Hw & Hrd & Hat & Hca & _). destruct insert_parser_ok as (K1 & K2 & K3 & K4).
  set (n := S (length (heap_recs la))). set (fuel := (length (heap_recs la) + length la + (length (heap_recs lr) + length lr))%nat).
  destruct (insert_statement true NLJoin (fun _ => xff) Some demo_rd demo_ad (demo_info "" 0 0) (fun b _ => Some b) n fuel insert_parser shell1 ∅ w (Some 8) []
    _ _ _ insert_vals "t" lr la {["t"%string := 2]} demo_A l [int_bytes 99; chars "hello"] eq_refl K1 K2 K3 K4) as (r & w' & s' & l' & R & Ha & _).
  - constructor; [split; [exact (bool_decide_unpack (x00 ∉ chars "hello") I)|reflexivity]|constructor; [split; by vm_compute|constructor]].
  - reflexivity.
  - apply Forall_replicate. split; reflexivity.
  - unfold MAXATTRS. cbn. lia.
  - exact (bool_decide_unpack (NoDup ["b"; "a"]%string) I).
  - reflexivity.
  - constructor; [exists (CInt 99); split; [right; left|reflexivity]|constructor; [exists (CStr (chars "hello")); split; [left|reflexivity]|constructor]].
  - split; [discriminate|]. vm_compute. discriminate.
  - exact (ready_le 1 4 3 7 _ _ ltac:(lia) ltac:(lia) Hrd).
  - exact Hca.
  - exact Hat.
  - apply demo_name_ok. by repeat constructor.
  - exact demo_key.
  - discriminate.
  - discriminate.
  - rewrite lookup_singleton_eq. exact (ex_intro _ 2 eq_refl).
  - discriminate.
  - repeat split.
  - constructor; [|constructor; [|constructor]]; apply demo_name_ok; by repeat constructor.
  - exact (Nat.le_add_l _ _).
  - exact (Nat.lt_succ_diag_r _).
  - exact (Nat.le_add_r _ _).
  - exists w, n, fuel, r, w', s'. exact (conj Hw (conj R Ha)).
Defined.
