(* ===== verification/GenProps.v ===== *)
(** * Properties of the data generators

    genWITuples writes every integer of a range once, in an order that depends
    on [rand], as records of four bytes that [UT_Load] reads back one by one. *)

From S2P Require Export Gen LoadProps InterpInsert.

(** ** The shuffle *)

Section Shuffle.
Implicit Types (i j n r : Z) (nums idx : list Z).

(** Two entries change places. *)
Lemma exchange_perm {A} (l : list A) (i j : nat) x y : l !! i = Some x -> l !! j = Some y -> <[i := y]> (<[j := x]> l) ≡ₚ l.
Proof.
  intros Hi Hj. pose proof (lookup_lt_Some _ _ _ Hi). pose proof (lookup_lt_Some _ _ _ Hj). apply Permutation_inj. split; [by rewrite !length_insert|].
  exists (fun k => if decide (k = i) then j else if decide (k = j) then i else k). split; [intros a b; repeat case_decide; naive_solver|].
  intros k. repeat case_decide; subst; [by rewrite list_lookup_insert_eq by (rewrite length_insert; lia)| |by rewrite !list_lookup_insert_ne by done].
  rewrite list_lookup_insert_ne by done. by rewrite list_lookup_insert_eq by lia.
Qed.

Lemma swap_run n i r nums :
  Z.of_nat (length nums) = n -> 0 <= i < n -> 0 <= r -> exists nums', swap n i r nums = Some nums' /\ nums' ≡ₚ nums.
Proof.
  intros Hn Hi Hr. unfold swap. pose proof (Z.rem_bound_pos r n Hr ltac:(lia)) as Hp. set (p := Z.rem r n) in *.
  destruct (zget_is_Some nums p ltac:(lia)) as [y Hy]. destruct (zget_is_Some nums i ltac:(lia)) as [x Hx]. rewrite Hy, Hx. cbn.
  rewrite zset_in_range by lia. cbn. rewrite zset_in_range by (rewrite length_insert; lia). eexists. split; [done|].
  apply zget_Some in Hy as [_ Hy], Hx as [_ Hx]. by apply exchange_perm.
Qed.

Context (rand : nat -> Z) (Hrand : forall k, 0 <= rand k).

Lemma swap_pass_run n idx (k : nat) nums :
  Z.of_nat (length nums) = n -> Forall (fun i => 0 <= i < n) idx -> exists nums', swap_pass rand n idx k nums = Some nums' /\ nums' ≡ₚ nums.
Proof.
  intros Hn Hidx. revert k nums Hn. induction Hidx as [|i idx Hi _ IH]; intros k nums Hn; cbn [swap_pass]; [by exists nums|].
  destruct (swap_run n i (rand k) nums Hn Hi (Hrand k)) as (nums1 & R1 & P1). rewrite R1. cbn.
  destruct (IH (S k) nums1) as (nums2 & R2 & P2); [by rewrite P1|]. exists nums2. split; [done|by rewrite P2].
Qed.

Lemma randomize_run (passes : nat) n (k : nat) nums :
  Z.of_nat (length nums) = n -> exists nums', randomize rand passes n k nums = Some nums' /\ nums' ≡ₚ nums.
Proof.
  revert k nums. induction passes as [|passes IH]; intros k nums Hn; cbn [randomize]; [by exists nums|].
  destruct (swap_pass_run n (seqZ 0 n) k nums Hn) as (nums1 & R1 & P1); [apply list.Forall_forall; intros i Hi%elem_of_seqZ; lia|]. rewrite R1. cbn.
  destruct (IH (k + Z.to_nat n)%nat nums1) as (nums2 & R2 & P2); [by rewrite P1|]. exists nums2. split; [done|by rewrite P2].
Qed.

End Shuffle.

(** ** The file *)

Section Written.
Implicit Types (u : Unix) (nm out : string) (c : block) (i fd : Z) (nums : list Z).

(** [u'] is [u] with the file [out], whose inode is [i], holding [c]; the
    descriptors may differ. *)
Record written u out i c u' : Prop := {
  wn_ok : unix_ok u';
  wn_file : u_dir u' !! out = Some i;
  wn_data : u_data u' !! i = Some c;
  wn_dir : forall nm, nm <> out -> u_dir u' !! nm = u_dir u !! nm;
  wn_other : forall nm j, nm <> out -> u_dir u !! nm = Some j -> u_data u' !! j = u_data u !! j;
  wn_size : u_fsize u' = u_fsize u;
}.

Lemma fresh_fd u : unix_ok u -> u_fds u !! u_nextFd u = None.
Proof. intros Hu. destruct (u_fds u !! u_nextFd u) as [i|] eqn:Hi; [|done]. pose proof (uo_fd _ Hu _ _ Hi). lia. Qed.

Lemma unix_open_trunc_run out u :
  unix_ok u -> Z.of_nat (size (u_fds u)) < u_maxFds u ->
  exists i u', unix_open_trunc out u = (inr (u_nextFd u), u') /\ u_fds u' = <[u_nextFd u := i]> (u_fds u) /\ written u out i [] u'.
Proof.
  intros Hu Hfd. pose proof Hu as [U1 U2 U3 U4 U5 U6]. unfold unix_open_trunc, unix_creat. destruct (u_dir u !! out) as [i|] eqn:Ho.
  all: rewrite decide_False by lia; cbn; do 2 eexists; do 2 (split; [reflexivity|]).
  - assert (i < u_nextIno u) by (destruct (U2 _ _ Ho) as [x Hx]; by eapply U3). split; cbn; try done; [split; cbn; try done| |].
    + intros nm j Hj. destruct (decide (i = j)) as [<-|Hne]; [by rewrite lookup_insert_eq|]. rewrite lookup_insert_ne by done. by eapply U2.
    + intros j c [[<- _]|[_ Hc]]%lookup_insert_Some; [done|by eapply U3].
    + intros fd j [[<- _]|[_ Hc]]%lookup_insert_Some; [lia|]. specialize (U4 _ _ Hc). lia.
    + intros j c [[_ <-]|[_ Hc]]%lookup_insert_Some; [cbn; lia|by eapply U5].
    + apply lookup_insert_eq.
    + intros nm j Hne Hj. rewrite lookup_insert_ne; [done|]. intros <-. by apply Hne, (U1 _ _ i).
  - assert (forall nm j, u_dir u !! nm = Some j -> j < u_nextIno u) as Hold by (intros nm j Hj; destruct (U2 _ _ Hj) as [x Hx]; by eapply U3).
    split; cbn; try done; [split; cbn; try done| | | |].
    + intros n1 n2 j [[<- <-]|[_ H1]]%lookup_insert_Some [[<- H2]|[_ H2]]%lookup_insert_Some; try done; [specialize (Hold _ _ H2); lia| |by eapply U1].
      subst j. specialize (Hold _ _ H1). lia.
    + intros nm j [[_ <-]|[_ Hj]]%lookup_insert_Some; [by rewrite lookup_insert_eq|]. specialize (Hold _ _ Hj). rewrite lookup_insert_ne by lia. by eapply U2.
    + intros j c [[<- _]|[_ Hc]]%lookup_insert_Some; [lia|]. specialize (U3 _ _ Hc). lia.
    + intros fd j [[<- _]|[_ Hc]]%lookup_insert_Some; [lia|]. specialize (U4 _ _ Hc). lia.
    + intros j c [[_ <-]|[_ Hc]]%lookup_insert_Some; [cbn; lia|by eapply U5].
    + apply lookup_insert_eq.
    + apply lookup_insert_eq.
    + intros nm Hne. by rewrite lookup_insert_ne.
    + intros nm j Hne Hj. specialize (Hold _ _ Hj). by rewrite lookup_insert_ne by lia.
Qed.

Lemma written_write u out i c u' c' :
  written u out i c u' -> Z.of_nat (length c') <= u_fsize u -> written u out i c' (set_data (<[i := c']> (u_data u')) u').
Proof.
  intros [Hu W1 W2 W3 W4 W5] Hl. pose proof Hu as [U1 U2 U3 U4 U5 U6]. split; cbn; try done; [split; cbn; try done| |].
  - intros nm j Hj. destruct (decide (i = j)) as [<-|Hne]; [by rewrite lookup_insert_eq|]. rewrite lookup_insert_ne by done. by eapply U2.
  - intros j c1 [[<- _]|[_ Hc]]%lookup_insert_Some; by eapply U3.
  - intros j c1 [[_ <-]|[_ Hc]]%lookup_insert_Some; [by rewrite W5|by eapply U5].
  - apply lookup_insert_eq.
  - intros nm j Hne Hj. rewrite lookup_insert_ne; [by eapply W4|]. intros <-. apply Hne, (U1 _ _ i); [by rewrite W3|done].
Qed.

Lemma written_close u out i c u' fds :
  written u out i c u' -> (forall fd j, fds !! fd = Some j -> u_fds u' !! fd = Some j) -> written u out i c (set_fds fds u').
Proof. intros [[U1 U2 U3 U4 U5 U6] W1 W2 W3 W4 W5] Hf. split; try done. split; try done. intros fd j Hj%Hf. by eapply U4. Qed.

Lemma take_take_app {A} (n : nat) (l k : list A) : take n (take n l ++ k) = take n (l ++ k).
Proof. rewrite !take_app, take_take, length_take. f_equal; f_equal; lia. Qed.

(** The loop writes the bytes of the integers up to the largest size, and
    stops only at an integer of which no byte fits. *)
Lemma write_nums_run fd nums u out i c u' :
  written u out i c u' -> u_fds u' !! fd = Some i ->
  exists u1, write_nums fd (Z.of_nat (length c)) nums u' =
      (bool_decide (nums = [] \/ Z.of_nat (length c) + 4 * (Z.of_nat (length nums) - 1) < u_fsize u), u1) /\
    written u out i (take (Z.to_nat (u_fsize u)) (c ++ concat (int_bytes <$> nums))) u1 /\ u_fds u1 = u_fds u'.
Proof.
  revert c u'. induction nums as [|x nums IH]; intros c u' Hwr Hfd; cbn [write_nums].
  all: pose proof (uo_size _ (wn_ok _ _ _ _ _ Hwr) _ _ (wn_data _ _ _ _ _ Hwr)) as Hc; rewrite (wn_size _ _ _ _ _ Hwr) in Hc.
  { exists u'. cbn [fmap list_fmap concat]. rewrite app_nil_r, take_ge, bool_decide_true by (auto || lia). done. }
  rewrite fmap_cons. cbn [concat length]. pose proof (length_int_bytes x) as Hx.
  unfold unix_write. rewrite Hfd, (wn_data _ _ _ _ _ Hwr), (wn_size _ _ _ _ _ Hwr). case_decide as Hfull; cbn [fst snd].
  - rewrite decide_True by done. exists u'. rewrite bool_decide_false by (intros [?|?]; [done|lia]).
    rewrite take_app_le, take_ge by lia. done.
  - set (v := take (Z.to_nat (u_fsize u - Z.of_nat (length c))) (int_bytes x)). rewrite decide_False by lia.
    assert (Z.of_nat (length v) = Z.min (u_fsize u - Z.of_nat (length c)) 4) as Hv by (unfold v; rewrite length_take; lia).
    rewrite pwrite_end. replace (Z.of_nat (length c) + Z.of_nat (length v)) with (Z.of_nat (length (c ++ v))) by (rewrite length_app; lia).
    destruct (IH (c ++ v) (set_data (<[i := c ++ v]> (u_data u')) u')) as (u1 & R & W & F); [eapply written_write; [done|rewrite length_app; lia]|done|].
    exists u1. rewrite R. split; [|split; [|done]].
    + f_equal. apply bool_decide_ext. rewrite length_app. split; [intros [->|?]; right; cbn; lia|]. intros [?|?]; [done|]. destruct nums; [by left|right; cbn in *; lia].
    + assert (c ++ v = take (Z.to_nat (u_fsize u)) (c ++ int_bytes x)) as E by (rewrite take_app, take_ge by lia; unfold v; do 2 f_equal; lia).
      rewrite E, take_take_app, <- app_assoc in W. done.
Qed.

(** The records of a prefix of what was written are the first integers. *)
Lemma rows_concat_app (k : nat) (l : list block) (r : block) :
  (0 < k)%nat -> Forall (fun r => length r = k) l -> (length r < k)%nat -> rows k (concat l ++ r) = l.
Proof.
  intros Hk Hl Hr. unfold rows. generalize (le_n (length (concat l ++ r))). generalize (length (concat l ++ r)) at 2 3 as n. intros n. revert n.
  induction Hl as [|x l Hx Hl IH]; intros n Hn; [destruct n; cbn; [done|]; by rewrite decide_False by lia|].
  cbn [concat] in *. rewrite <- app_assoc in *. rewrite length_app in Hn.
  rewrite rows_of_step by (try rewrite length_app; lia). rewrite decide_True by (rewrite length_app; lia).
  rewrite take_app_length', drop_app_length' by done. f_equal. apply IH. lia.
Qed.

Lemma rows_concat (k : nat) (l : list block) : (0 < k)%nat -> Forall (fun r => length r = k) l -> rows k (concat l) = l.
Proof. intros Hk Hl. rewrite <- (app_nil_r (concat l)). by apply rows_concat_app. Qed.

Lemma rows_take (k n : nat) (l : list block) :
  (0 < k)%nat -> Forall (fun r => length r = k) l -> rows k (take n (concat l)) = take (n / k) l.
Proof.
  intros Hk Hl. assert (exists r, take n (concat l) = concat (take (n / k) l) ++ r /\ (length r < k)%nat) as (r & -> & Hr).
  2: { apply rows_concat_app; [done| |done]. by apply Forall_take. }
  revert n. induction Hl as [|x l Hx Hl IH]; intros n; [exists []; cbn [concat]; rewrite !take_nil; cbn; split; [done|lia]|]. cbn [concat].
  destruct (decide (n < k)%nat) as [Hn|Hn].
  - rewrite Nat.div_small by done. exists (take n x). cbn. rewrite take_app_le, length_take by lia. split; [done|lia].
  - destruct (IH (n - k)%nat) as (r & E & Hr). exists r. split; [|done]. rewrite take_app, take_ge by lia. rewrite Hx, E.
    replace n with (n - k + 1 * k)%nat at 2 by lia. rewrite Nat.div_add by lia. rewrite Nat.add_1_r. cbn [take concat]. by rewrite app_assoc.
Qed.

End Written.

(** C21.  genWITuples with a number [n] and the name of a file: the integers
    it writes are those from 0 to [n - 1], each once, in some order.  When no
    descriptor is free nothing changes.  Otherwise the file holds the bytes of
    these integers, cut at the size of the largest file; the records [UT_Load]
    finds in it are the integers that fit, one by one, which are all of them
    when [4 * n] bytes fit.  The program says Done when at least one byte of
    the last integer fits, as it only tests [write] for -1 and does not notice
    a short write, and else reports the error.  No other file changes. *)
Theorem gen_shuffled rand count out n u :
  (forall k, 0 <= rand k) -> atoi (c_str count) = Some n -> 0 <= n -> unix_ok u ->
  exists code said u' nums, genWITuples rand [count; out] u = Some (code, said, u') /\ nums ≡ₚ seqZ 0 n /\
    if decide (u_maxFds u <= Z.of_nat (size (u_fds u))) then code = 1 /\ said = gen_open_error /\ u' = u
    else exists i, let c := take (Z.to_nat (u_fsize u)) (concat (int_bytes <$> nums)) in
      written u out i c u' /\ rows 4 c = int_bytes <$> take (Z.to_nat (u_fsize u / 4)) nums /\
      (4 * n <= u_fsize u -> rows 4 c = int_bytes <$> nums) /\
      if decide (n = 0 \/ 4 * (n - 1) < u_fsize u) then code = 0 /\ said = gen_done /\ u_fds u' = u_fds u
      else code = 1 /\ said = gen_write_error.
Proof.
  intros Hrand Hn Hn0 Hu. unfold genWITuples. rewrite Hn. cbn [mbind option_bind]. rewrite decide_False by lia.
  destruct (randomize_run rand Hrand NUMRANDOMIZEPASSES n 0 (fill_nums n)) as (nums & R & P); [unfold fill_nums; rewrite length_seqZ; lia|]. rewrite R. cbn [mbind option_bind].
  assert (length nums = Z.to_nat n) as Hlen by (rewrite P; apply length_seqZ).
  case_decide as Hfd.
  - unfold unix_open_trunc, unix_creat. destruct (u_dir u !! out); rewrite decide_True by done; by eexists _, _, _, nums.
  - destruct (unix_open_trunc_run out u Hu ltac:(lia)) as (i & u1 & R1 & F1 & W1). rewrite R1.
    destruct (write_nums_run (u_nextFd u) nums u out i [] u1 W1) as (u2 & R2 & W2 & F2); [rewrite F1; apply lookup_insert_eq|].
    cbn [length app] in R2, W2. change (Z.of_nat 0) with 0 in R2. rewrite R2. set (c := take _ _) in W2. pose proof (uo_fsize _ Hu) as Hs.
    assert (rows 4 c = int_bytes <$> take (Z.to_nat (u_fsize u / 4)) nums) as Hrows.
    { unfold c. rewrite rows_take; [|lia|apply Forall_fmap, Forall_true; intros z; apply length_int_bytes].
      rewrite fmap_take, Z2Nat.inj_div by lia. done. }
    assert (4 * n <= u_fsize u -> rows 4 c = int_bytes <$> nums) as Hall.
    { intros Hfit. rewrite Hrows, take_ge; [done|]. rewrite Hlen. apply Z2Nat.inj_le; [lia|apply Z.div_pos; lia|apply Z.div_le_lower_bound; lia]. }
    destruct (decide (n = 0 \/ 4 * (n - 1) < u_fsize u)) as [Hfit|Hfit].
    + rewrite bool_decide_true by (destruct nums; [by left|right; cbn in *; lia]). eexists _, _, _, nums. split; [reflexivity|]. split; [done|].
      unfold unix_close. rewrite F2, F1, lookup_insert_eq. cbn [snd]. rewrite delete_insert_id by by apply fresh_fd.
      exists i. split; [|done]. apply written_close; [done|]. intros fd j Hj. rewrite F2, F1.
      apply lookup_insert_Some. right. split; [|done]. intros <-. by rewrite fresh_fd in Hj.
    + rewrite bool_decide_false by (intros [->|?]; cbn in *; lia). eexists _, _, _, nums. split; [reflexivity|]. split; [done|]. by exists i.
Qed.

Definition demo_rand (k : nat) : Z := 7 * Z.of_nat k + 3.
Definition demo_dir : Unix := mkUnix {["d"%string := 0]} {[0 := chars "old"]} ∅ 1 3 20 65536.

Lemma gen_shuffled_witness :
  exists u' nums i c, genWITuples demo_rand ["5"; "d"]%string demo_dir = Some (0, gen_done, u') /\ nums ≡ₚ seqZ 0 5 /\
    written demo_dir "d" i c u' /\ rows 4 c = int_bytes <$> nums.
Proof.
  destruct (gen_shuffled demo_rand "5" "d" 5 demo_dir) as (code & said & u' & nums & R & P & H).
  - intros k. unfold demo_rand. lia.
  - vm_compute. reflexivity.
  - lia.
  - split; cbn.
    + intros n1 n2 i [<- _]%lookup_singleton_Some [<- _]%lookup_singleton_Some. reflexivity.
    + intros nm i [_ <-]%lookup_singleton_Some. rewrite lookup_singleton_eq. exact (ex_intro _ _ eq_refl).
    + intros i c [<- _]%lookup_singleton_Some. lia.
    + intros fd i Hi. rewrite lookup_empty in Hi. discriminate Hi.
    + intros i c [_ <-]%lookup_singleton_Some. vm_compute. discriminate.
    + unfold PAGESIZE. lia.
  - rewrite decide_False in H by (vm_compute; intros X; exact (X eq_refl)). destruct H as (i & Hw & _ & Hr & He).
    rewrite decide_True in He by (vm_compute; right; reflexivity). destruct He as (-> & -> & _).
    exists u', nums, i, (take (Z.to_nat (u_fsize demo_dir)) (concat (int_bytes <$> nums))).
    refine (conj R (conj P (conj Hw (Hr _)))). vm_compute. discriminate.
Defined.

(** ** The tables of random numbers *)

Section Tables.
Implicit Types (name : string) (n i : Z) (r : Rels) (rs : list Rels) (c d : block).

(** The text [sprintf] puts into [dummy]. *)
Definition label name i : block := chars name ++ chars "." ++ field_right 3 (fmt_d i).

(** A record of the table [name] of [n] rows: the columns are in their ranges,
    and [dummy] is an array of 84 characters with the label of the row. *)
Record rel_ok name n i r : Prop := {
  rl_unique1 : 1 <= unique1 r <= n;
  rl_unique2 : 1 <= unique2 r <= n;
  rl_hundred1 : 1 <= hundred1 r <= 100;
  rl_hundred2 : 1 <= hundred2 r <= 100;
  rl_dummy : length (dummy r) = 84%nat;
  rl_label : cstring (dummy r) = Some (label name i);
}.

Lemma label_cstring name i : x00 ∉ chars name -> cstring (label name i ++ [x00]) = Some (label name i).
Proof.
  intros Hn. apply cstring_Some. split; [|by exists []]. unfold label, field_right.
  rewrite !not_elem_of_app. split; [done|]. split; [exact (bool_decide_unpack (x00 ∉ chars ".") I)|]. split; [|apply fmt_d_no_nul].
  intros Hx%elem_of_replicate. by destruct Hx.
Qed.

Lemma label_length name i : inS 32 i -> (length (chars name) <= 40)%nat -> (length (label name i) < 84)%nat.
Proof.
  intros Hi Hn. unfold label, field_right. rewrite !length_app, length_replicate. pose proof (fmt_d_length i Hi). change (length (chars ".")) with 1%nat. lia.
Qed.

Context (rand : nat -> Z) (Hrand : forall k, 0 <= rand k).

Lemma rand_range k n : 0 < n -> 1 <= Z.rem (rand k) n + 1 <= n.
Proof. intros Hn. pose proof (Z.rem_bound_pos (rand k) n (Hrand k) Hn). lia. Qed.

Lemma rel_round_run name n i (k : nat) d :
  x00 ∉ chars name -> (length (chars name) <= 40)%nat -> 0 < n -> inS 32 i -> length d = 84%nat ->
  exists r, rel_round rand name n i k d = Some r /\ rel_ok name n i r.
Proof.
  intros Hnul Hlen Hn Hi Hd. unfold rel_round.
  destruct (strcpy_str d _ _ (label_cstring name i Hnul)) as (b & R & Hb & Hl); [rewrite Hd; by apply label_length|].
  unfold label in R. rewrite <- !app_assoc in R. rewrite R. cbn. eexists. split; [done|]. split; try (by apply rand_range); cbn; [by rewrite Hl|done].
Qed.

Lemma rel_loop_run name n (todo : nat) i (k : nat) d :
  x00 ∉ chars name -> (length (chars name) <= 40)%nat -> 0 < n -> 0 <= i -> i + Z.of_nat todo < 2 ^ 31 -> length d = 84%nat ->
  exists rs d', rel_loop rand name n todo i k d = Some (rs, d') /\ Forall2 (rel_ok name n) (seqZ i (Z.of_nat todo)) rs /\ length d' = 84%nat.
Proof.
  intros Hnul Hlen Hn. revert i k d. induction todo as [|todo IH]; intros i k d Hi Hb Hd; [by exists [], d|]. cbn [rel_loop].
  destruct (rel_round_run name n i k d Hnul Hlen Hn ltac:(unfold inS; lia) Hd) as (r & R & Hr). rewrite R. cbn [mbind option_bind].
  destruct (IH (i + 1) (k + 4)%nat (dummy r)) as (rs & d' & R' & Hrs & Hd'); [lia|lia|exact (rl_dummy _ _ _ _ Hr)|]. rewrite R'. cbn.
  exists (r :: rs), d'. split; [done|]. split; [|done]. rewrite seqZ_cons by lia.
  replace (Z.succ i) with (i + 1) by lia. replace (Z.pred (Z.of_nat (S todo))) with (Z.of_nat todo) by lia. by constructor.
Qed.

(** What testdata prints for a record. *)
Definition rel_text r (lab : block) : block :=
  let tab : block := ["009"%byte] in
  fmt_d (unique1 r) ++ tab ++ fmt_d (unique2 r) ++ tab ++ fmt_d (hundred1 r) ++ tab ++ fmt_d (hundred2 r) ++ tab ++ lab ++ newline.

Lemma Rels_bytes_length r : length (dummy r) = 84%nat -> length (Rels_bytes r) = 100%nat.
Proof. intros Hd. unfold Rels_bytes. by rewrite !length_app, !length_int_bytes, Hd. Qed.

Lemma Rels_fields name n i r : n < 2 ^ 31 -> rel_ok name n i r ->
  rd32 0 (Rels_bytes r) = Some (unique1 r) /\ rd32 4 (Rels_bytes r) = Some (unique2 r) /\ rd32 8 (Rels_bytes r) = Some (hundred1 r) /\
  rd32 12 (Rels_bytes r) = Some (hundred2 r) /\ rd 16 84 (Rels_bytes r) = Some (dummy r).
Proof.
  intros Hn [H1 H2 H3 H4 H5 _]. unfold Rels_bytes. set (a := int_bytes (unique1 r)). set (b := int_bytes (unique2 r)). set (c := int_bytes (hundred1 r)).
  assert (length (a ++ b) = 8%nat /\ length ((a ++ b) ++ c) = 12%nat) as [L1 L2] by done. split_and!.
  - apply (rd32_field []); [done|unfold inS; lia].
  - apply (rd32_field a); [done|unfold inS; lia].
  - rewrite app_assoc. apply rd32_field; [by rewrite L1|unfold inS; lia].
  - rewrite !app_assoc, <- (app_assoc _ _ (dummy r)). apply rd32_field; [by rewrite L2|unfold inS; lia].
  - rewrite !app_assoc, <- (app_nil_r (dummy r)) at 1. rewrite app_assoc, <- (app_assoc _ (dummy r)). apply rd_field; [by rewrite length_app, L2|by rewrite H5].
Qed.

Lemma rel_line_run name n i r : n < 2 ^ 31 -> rel_ok name n i r -> rel_line (Rels_bytes r) = Some (rel_text r (label name i)).
Proof.
  intros Hn Hr. destruct (Rels_fields name n i r Hn Hr) as (F1 & F2 & F3 & F4 & F5). unfold rel_line. rewrite F1, F2, F3, F4, F5.
  cbn [mbind option_bind]. by rewrite (rl_label _ _ _ _ Hr).
Qed.

(** The rounds of testdata on a whole table. *)
Lemma testdata_loop_run name n (idx : list Z) rs rel :
  n < 2 ^ 31 -> Forall2 (rel_ok name n) idx rs -> is_Some rel \/ (0 < length rs)%nat ->
  exists rel', testdata_loop (length rs) (concat (Rels_bytes <$> rs)) rel = Some (concat (zip_with (fun i r => rel_text r (label name i)) idx rs), rel') /\ is_Some rel'.
Proof.
  intros Hn Hf. revert rel. induction Hf as [|i r idx rs Hr Hf IH]; intros rel Hrel; [exists rel; split; [done|]; destruct Hrel; [done|cbn in *; lia]|].
  rewrite fmap_cons. cbn [length testdata_loop concat zip_with]. pose proof (Rels_bytes_length r (rl_dummy _ _ _ _ Hr)) as Hl.
  rewrite decide_True by (rewrite length_app; lia). rewrite take_app_length', drop_app_length' by done. cbn [mbind option_bind].
  rewrite (rel_line_run name n i r Hn Hr). cbn [mbind option_bind]. destruct (IH (Some (Rels_bytes r))) as (rel' & R & Hs); [by left|].
  exists rel'. split; [|done]. by rewrite R.
Qed.

Lemma rels_rows name n (idx : list Z) rs : Forall2 (rel_ok name n) idx rs -> rows 100 (concat (Rels_bytes <$> rs)) = Rels_bytes <$> rs.
Proof.
  intros Hf. apply rows_concat; [lia|]. apply Forall_fmap. induction Hf as [|i r idx rs Hr _ IH]; constructor; [|done].
  apply Rels_bytes_length. by eapply rl_dummy.
Qed.

End Tables.

(** C40.  create_9 and testdata: whatever [rand] returns, create_9 writes the
    two tables [rel500] and [rel1000] of 500 and 1000 records of 100 bytes,
    whose columns are in their ranges and whose last column has the name of the
    table and the number of the row, and nothing overruns the array; testdata,
    given the two files, prints exactly these records, one line each. *)
Theorem create_9_listed rand :
  (forall k, 0 <= rand k) ->
  exists rs500 rs1000 c500 c1000, create_9_files rand = Some [("rel500.data"%string, c500); ("rel1000.data"%string, c1000)] /\
    rows 100 c500 = Rels_bytes <$> rs500 /\ rows 100 c1000 = Rels_bytes <$> rs1000 /\
    Forall2 (rel_ok "rel500" 500) (seqZ 0 500) rs500 /\ Forall2 (rel_ok "rel1000" 1000) (seqZ 0 1000) rs1000 /\
    testdata c500 c1000 = Some (concat (zip_with (fun i r => rel_text r (label "rel500" i)) (seqZ 0 500) rs500) ++
                                concat (zip_with (fun i r => rel_text r (label "rel1000" i)) (seqZ 0 1000) rs1000)).
Proof.
  intros Hrand. unfold create_9_files.
  destruct (rel_loop_run rand Hrand "rel500" 500 500 0 0 (replicate 84 "032"%byte)) as (rs500 & d & R1 & H1 & Hd); try lia; [|by vm_compute; lia|apply length_replicate|].
  { exact (bool_decide_unpack (x00 ∉ chars "rel500") I). }
  rewrite R1. cbn [mbind option_bind]. clear R1.
  destruct (rel_loop_run rand Hrand "rel1000" 1000 1000 0 2000 d) as (rs1000 & d' & R2 & H2 & _); try lia; [|by vm_compute; lia|].
  { exact (bool_decide_unpack (x00 ∉ chars "rel1000") I). }
  rewrite R2. cbn [mbind option_bind]. clear R2. change (Z.of_nat 500) with 500 in H1. change (Z.of_nat 1000) with 1000 in H2.
  exists rs500, rs1000, (concat (Rels_bytes <$> rs500)), (concat (Rels_bytes <$> rs1000)). split; [done|].
  split; [by eapply rels_rows|]. split; [by eapply rels_rows|]. split; [done|]. split; [done|].
  pose proof (list.Forall2_length _ _ _ H1) as L1. pose proof (list.Forall2_length _ _ _ H2) as L2. rewrite length_seqZ in L1, L2.
  destruct (testdata_loop_run "rel500" 500 _ _ None ltac:(lia) H1 ltac:(right; lia)) as (rel & R1 & Hrel).
  destruct (testdata_loop_run "rel1000" 1000 _ _ rel ltac:(lia) H2 ltac:(by left)) as (rel' & R2 & _).
  unfold testdata. rewrite <- L1 in R1. rewrite <- L2 in R2. change (Z.to_nat 500) with 500%nat in R1. change (Z.to_nat 1000) with 1000%nat in R2.
  rewrite R1. cbn [mbind option_bind]. rewrite R2. done.
Qed.

Lemma create_9_listed_witness : exists rs500 rs1000 c500 c1000,
  create_9_files demo_rand = Some [("rel500.data"%string, c500); ("rel1000.data"%string, c1000)] /\
  Forall2 (rel_ok "rel500" 500) (seqZ 0 500) rs500 /\ Forall2 (rel_ok "rel1000" 1000) (seqZ 0 1000) rs1000.
Proof.
  destruct (create_9_listed demo_rand) as (rs500 & rs1000 & c500 & c1000 & R & _ & _ & H1 & H2 & _); [intros k; unfold demo_rand; lia|].
  exists rs500, rs1000, c500, c1000. exact (conj R (conj H1 H2)).
Defined.

(** The tables of constants are 29 and 9 records of 40 bytes. *)
Lemma create_rows :
  exists c1 c2 s, create_files = Some [("stars.data"%string, c1); ("soaps.data"%string, c2)] /\ rows 40 c1 = Stars_bytes <$> stars /\
    mapM Soaps_bytes soaps = Some s /\ rows 40 c2 = s /\ length (rows 40 c1) = 29%nat /\ length s = 9%nat.
Proof. do 3 eexists. split; [vm_compute; reflexivity|]. split; [vm_compute; reflexivity|]. split; [vm_compute; reflexivity|]. by vm_compute. Qed.
